(** * JSHunter: a shallow embedding of the staged worker pipeline

    The development follows the Go sources of the repository.  Part I
    embeds the data model and the operations, one module per package;
    Part II states and proves the properties of the specification;
    Part III proves further properties of the same code.

    Conventions.  Go strings are [string]s (sequences of bytes), file
    contents are [list byte], Go [int]s are [Z] (no operation below can
    leave the 64-bit range: they count bytes of a file or copy a value),
    a [*core.Record] that may be [nil] is an [option], and a run-time
    panic is an explicit outcome of the [Exec] monad. *)

From Stdlib Require Import ZArith List String Ascii Bool Lia.
From Stdlib Require Import Strings.Byte DecimalString.
From Stdlib Require Import Sorting.Sorted Sorting.Permutation.
From stdpp Require Import gmap strings list.

Open Scope string_scope.
Set Warnings "-register-all".

(* ===================================================================== *)
(** * Part I: the embedding                                              *)
(* ===================================================================== *)

(** ** Go run-time outcomes *)

Module Go.

(** A Go call either returns or panics (nil dereference, send on a
    closed channel). *)
Inductive Exec (A : Type) : Type :=
| Done (a : A)
| Panic (reason : string).
Arguments Done {A} a.
Arguments Panic {A} reason.

Definition bind {A B : Type} (m : Exec A) (k : A -> Exec B) : Exec B :=
  match m with
  | Done a => k a
  | Panic r => Panic r
  end.

Definition returns {A : Type} (m : Exec A) : bool :=
  match m with Done _ => true | Panic _ => false end.

(** [p.f] on a pointer [p]: panics when [p] is nil. *)
Definition deref {A : Type} (p : option A) : Exec A :=
  match p with
  | Some a => Done a
  | None => Panic "invalid memory address or nil pointer dereference"
  end.

(** The [error] values of the pools, told apart by their message. *)
Inductive error : Type := Err (msg : string).

End Go.

Notation "'let*' x ':=' m 'in' k" := (Go.bind m (fun x => k))
  (at level 10, x name, m at level 100, k at level 200).

(** ** PocketBase records (package core) *)

Module Core.

(** A Go value held in an [interface{}]: what [Record.Set] stores and
    what [encoding/json] decodes into. *)
Inductive Any : Type :=
| ANil
| ABool (b : bool)
| AInt (z : Z)
| AFloat (q : Z * positive)          (* a float64, as the fraction it denotes *)
| AString (s : string)
| ATime (t : Z)
| AStrings (l : list string)
| AList (l : list Any)
| AMap (m : gmap string Any).

(** [core.Record]: the collection it belongs to, its id (empty until
    the record store assigns one) and its field values. *)
Record Record_ : Type := mkRecord {
  collection : string;
  Id : string;
  data : gmap string Any
}.

Definition NewRecord (coll : string) : Record_ := mkRecord coll "" ∅.

(** [r.Set(key, v)] *)
Definition Set_ (key : string) (v : Any) (r : Record_) : Record_ :=
  mkRecord (collection r) (Id r) (<[key := v]> (data r)).

(** [r.Get(key)] *)
Definition Get (r : Record_) (key : string) : Any :=
  default ANil (data r !! key).

(** [r.GetString(key)]; the fields read this way hold strings. *)
Definition GetString (r : Record_) (key : string) : string :=
  match data r !! key with
  | Some (AString s) => s
  | _ => ""
  end.

Definition withId (id : string) (r : Record_) : Record_ :=
  mkRecord (collection r) id (data r).

End Core.

(** ** Package prettify *)

Module Prettify.
Import Go.

Import Core.

(** [PrettifyJob]; its [Record] is a pointer and may be nil. *)
Record PrettifyJob : Type := mkJob {
  JobRecord : option Record_;
  FilePath : string;
  Type_ : string
}.

(** What [file.Read(buf)] answers: [c] bytes and no error, [c] bytes
    and [io.EOF], or another error. *)
Inductive ReadResult : Type :=
| ReadOk (bs : list byte)
| ReadEOF (bs : list byte)
| ReadErr (bs : list byte).

(** The process environment of a worker. *)
Record Env : Type := mkEnv {
  PrettifierBinaryPath : string;                     (* config *)
  files : gmap string (list byte);                   (* the file system *)
  runPrettifier : string -> list byte -> option (list byte);
                                                     (* the child process *)
  readScript : list byte -> list ReadResult;         (* how os.File delivers a file *)
  now : Z                                            (* time.Now() *)
}.

Definition with_files (fs : gmap string (list byte)) (e : Env) : Env :=
  mkEnv (PrettifierBinaryPath e) fs (runPrettifier e) (readScript e) (now e).

Definition newline : byte := x0a.

(** [bytes.Count(buf[:c], []byte{'\n'})] *)
Fixpoint bytesCount (bs : list byte) : Z :=
  match bs with
  | [] => 0
  | b :: rest => (if Byte.eqb b newline then 1 else 0) + bytesCount rest
  end%Z.

(** One turn of the loop body: [if c > 0 { ... }]. *)
Definition absorb (bs : list byte) (lineCount : Z) (lastCharIsNewline : bool)
  : Z * bool :=
  match last bs with
  | Some b => ((lineCount + bytesCount bs)%Z, Byte.eqb b newline)
  | None => (lineCount, lastCharIsNewline)
  end.

(** After the loop. *)
Definition finish (lineCount : Z) (lastCharIsNewline : bool) : Z :=
  if negb lastCharIsNewline then (lineCount + 1)%Z else lineCount.

(** The [for] loop of [countLines] over the answers of successive
    [Read] calls; a reader that has no answer left is at end of file. *)
Fixpoint countLoop (reads : list ReadResult) (lineCount : Z)
    (lastCharIsNewline : bool) : Z * option error :=
  match reads with
  | [] => (finish lineCount lastCharIsNewline, None)
  | ReadErr _ :: _ => (0%Z, Some (Err "error reading file"))
  | ReadOk bs :: rest =>
      let '(lc, l) := absorb bs lineCount lastCharIsNewline in
      countLoop rest lc l
  | ReadEOF bs :: _ =>
      let '(lc, l) := absorb bs lineCount lastCharIsNewline in
      (finish lc l, None)
  end.

(** [countLines]: [None] is a file that cannot be opened. *)
Definition countLines (file : option (list ReadResult)) : Z * option error :=
  match file with
  | None => (0%Z, Some (Err "failed to open file"))
  | Some reads => countLoop reads 0%Z true
  end.

Definition openFile (e : Env) (filePath : string) : option (list ReadResult) :=
  readScript e <$> (files e !! filePath).

Definition fileExists (e : Env) (p : string) : bool :=
  bool_decide (is_Some (files e !! p)).

(** [getPrettierBinaryPath] *)
Definition getPrettierBinaryPath (e : Env) : string + error :=
  if String.eqb (PrettifierBinaryPath e) "" then
    inr (Err "prettifier binary path not configured")
  else if negb (fileExists e (PrettifierBinaryPath e)) then
    inr (Err "prettifier binary not found")
  else inl (PrettifierBinaryPath e).

(** [prettifyFile]: the environment after the call and the error. *)
Definition prettifyFile (e : Env) (filePath fileType : string)
  : Env * option error :=
  match getPrettierBinaryPath e with
  | inr _ => (e, Some (Err "failed to find prettier binary"))
  | inl _ =>
      match files e !! filePath with
      | None => (e, Some (Err "input file does not exist"))
      | Some content =>
          match runPrettifier e fileType content with
          | None => (e, Some (Err "prettier formatting failed"))
          | Some pretty => (with_files (<[filePath := pretty]> (files e)) e, None)
          end
      end
  end.

(** What a run of [processJob] leaves behind: the record the job
    points to and the records handed to [App.Save], oldest first. *)
Record Result : Type := mkResult {
  record : option Record_;
  saved : list Record_;
  env : Env
}.

(** [job.Record != nil && job.Record.Id != ""] *)
Definition isRealRecord (r : option Record_) : bool :=
  match r with
  | Some rec => negb (String.eqb (Id rec) "")
  | None => false
  end.

(** The block [job.Record.Set("prettify_status", "failed"); job.App.Save(job.Record)]
    under its guard. *)
Definition markFailed (e : Env) (r : option Record_) : Result :=
  match r with
  | Some rec =>
      if isRealRecord r then
        let rec' := Set_ "prettify_status" (AString "failed") rec in
        mkResult (Some rec') [rec'] e
      else mkResult r [] e
  | None => mkResult r [] e
  end.

(** [processJob] *)
Definition processJob (e : Env) (workerID : Z) (job : PrettifyJob) : Exec Result :=
  let fullPath := FilePath job in
  if String.eqb fullPath "" then
    Done (markFailed e (JobRecord job))
  else
    match prettifyFile e fullPath (Type_ job) with
    | (e', Some _) =>
        (* the arguments of logger.Error are evaluated first:
           job.Record.Get("url") *)
        let* rec := deref (JobRecord job) in
        let logged_url := Get rec "url" in
        Done (markFailed e' (JobRecord job))
    | (e', None) =>
        match JobRecord job with
        | Some rec =>
            if isRealRecord (JobRecord job) then
              let '(lines, _) := countLines (openFile e' fullPath) in
              let rec' :=
                Set_ "last_modified" (ATime (now e'))
                  (Set_ "prettify_status" (AString "processed")
                     (Set_ "line_count" (AInt lines) rec)) in
              Done (mkResult (Some rec') [rec'] e')
            else Done (mkResult (JobRecord job) [] e')
        | None => Done (mkResult None [] e')
        end
    end.

End Prettify.

(** ** The worker-pool substrate

    The five pools are instances of one shape ([pool.go], [types.go] of
    every stage); the stage name only shows in the error messages. *)

Module Pool.
Import Go.

Section Substrate.
Context {Job : Type}.
Variable stage : string.

(** [chan Job] made with [make(chan Job, queueSize)]. *)
Record Chan : Type := mkChan {
  buf : list Job;          (* oldest first *)
  cap : nat;
  closed : bool
}.

Record WorkerPool : Type := mkPool {
  workers : Z;
  jobQueue : Chan;
  ctxDone : bool;          (* p.ctx is cancelled *)
  isRunning : bool
}.

Definition errNotInitialized : error := Err (stage ++ " worker pool not initialized").
Definition errNotRunning : error := Err (stage ++ " worker pool is not running").
Definition errAlreadyRunning : error := Err (stage ++ " worker pool is already running").
Definition errShuttingDown : error := Err (stage ++ " worker pool is shutting down").
Definition errQueueFull : error := Err (stage ++ " job queue is full").
(** The message of the two functions that send on their own. *)
Definition errQueueFullDirect : error := Err (stage ++ " queue is full").
Definition wrapSubmit (e : error) : error :=
  match e with
  | Err m => Err ("failed to submit " ++ stage ++ " job: " ++ m)
  end.

(** [NewXWorkerPool] *)
Definition NewWorkerPool (maxWorkers : Z) (queueSize : nat) : WorkerPool :=
  mkPool maxWorkers (mkChan [] queueSize false) false false.

(** [Start] *)
Definition Start (p : WorkerPool) : WorkerPool * option error :=
  if isRunning p then (p, Some errAlreadyRunning)
  else (mkPool (workers p) (jobQueue p) (ctxDone p) true, None).

(** [close(ch)] *)
Definition close (ch : Chan) : Exec Chan :=
  if closed ch then Panic "close of closed channel"
  else Done (mkChan (buf ch) (cap ch) true).

(** [Stop]: cancel, close the queue, wait for the workers, clear the
    flag.  Jobs still buffered when the workers leave stay in the
    closed channel. *)
Definition Stop (p : WorkerPool) : Exec (WorkerPool * option error) :=
  if negb (isRunning p) then Done (p, None)
  else
    let* ch := close (jobQueue p) in
    Done (mkPool (workers p) ch true false, None).

(** [IsRunning] *)
Definition IsRunning (p : WorkerPool) : bool := isRunning p.

(** [GetQueueSize], [GetAvailableSpace] *)
Definition GetQueueSize (p : WorkerPool) : nat := length (buf (jobQueue p)).
Definition GetAvailableSpace (p : WorkerPool) : nat :=
  cap (jobQueue p) - length (buf (jobQueue p)).

(** A [case ch <- job] of a [select] can proceed when the buffer has
    room, and also when the channel is closed (it then panics). *)
Definition sendReady (ch : Chan) : bool :=
  closed ch || (length (buf ch) <? cap ch)%nat.

(** Carrying out the send once its case was chosen. *)
Definition send (ch : Chan) (job : Job) : Exec Chan :=
  if closed ch then Panic "send on closed channel"
  else Done (mkChan (buf ch ++ [job]) (cap ch) (closed ch)).

Definition withQueue (ch : Chan) (p : WorkerPool) : WorkerPool :=
  mkPool (workers p) ch (ctxDone p) (isRunning p).

(** [SubmitJob] of the prettify, analysis and dechunker pools.  When
    both the send and [<-p.ctx.Done()] can proceed, Go picks one of
    them at random: [pickSend] is that choice. *)
Definition SubmitJob (pickSend : bool) (p : WorkerPool) (job : Job)
  : Exec (WorkerPool * option error) :=
  if negb (isRunning p) then Done (p, Some errNotRunning)
  else
    match sendReady (jobQueue p), ctxDone p with
    | true, true =>
        if pickSend then
          let* ch := send (jobQueue p) job in Done (withQueue ch p, None)
        else Done (p, Some errShuttingDown)
    | true, false =>
        let* ch := send (jobQueue p) job in Done (withQueue ch p, None)
    | false, true => Done (p, Some errShuttingDown)
    | false, false => Done (p, Some errQueueFull)
    end.

(** [AddPrettifyJob], [AddAnalysisJob], [AddDechunkerJob]: through the
    global pool, which may be nil, and [SubmitJob]. *)
Definition AddJobChecked (pickSend : bool) (global : option WorkerPool) (job : Job)
  : Exec (option WorkerPool * option error) :=
  match global with
  | None => Done (None, Some errNotInitialized)
  | Some p =>
      if negb (IsRunning p) then Done (Some p, Some errNotRunning)
      else
        let* r := SubmitJob pickSend p job in
        Done (Some (fst r), wrapSubmit <$> snd r)
  end.

(** [AddSourcemapJob], [AddExtractionJob]: a [select] with the send
    and a [default] on the queue of the global pool. *)
Definition AddJobDirect (global : option WorkerPool) (job : Job)
  : Exec (option WorkerPool * option error) :=
  match global with
  | None => Done (None, Some errNotInitialized)
  | Some p =>
      if sendReady (jobQueue p) then
        let* ch := send (jobQueue p) job in Done (Some (withQueue ch p), None)
      else Done (Some p, Some errQueueFullDirect)
  end.

End Substrate.

Arguments Chan Job : clear implicits.
Arguments WorkerPool Job : clear implicits.

End Pool.

(** ** Paths: package path/filepath (Unix) and internal/utils/filesystem

    Paths are handled byte by byte, so this module works on [list ascii];
    [bytes_of] turns a literal into that form. *)

Module Filesystem.

Abbreviation bytes := (list ascii).
Definition bytes_of (s : string) : bytes := list_ascii_of_string s.

Definition slash : ascii := "/"%char.
Definition dot : ascii := "."%char.
Definition space : ascii := " "%char.
Definition underscore : ascii := "_"%char.

Definition eqb_bytes (a b : bytes) : bool := bool_decide (a = b).

(** *** strings *)

(** [strings.Split(s, "/")]: never empty. *)
Fixpoint Split (s : bytes) : list bytes :=
  match s with
  | [] => [[]]
  | c :: rest =>
      if Ascii.eqb c slash then [] :: Split rest
      else match Split rest with
           | [] => [[c]]
           | e :: es => (c :: e) :: es
           end
  end.

(** [strings.Join(elems, "/")] *)
Fixpoint JoinSlash (elems : list bytes) : bytes :=
  match elems with
  | [] => []
  | [e] => e
  | e :: es => e ++ slash :: JoinSlash es
  end.

(** [strings.TrimPrefix(s, prefix)] *)
Definition TrimPrefix (s prefix : bytes) : bytes :=
  if bool_decide (take (length prefix) s = prefix) then drop (length prefix) s
  else s.

(** [strings.TrimLeft(s, cutset)], [strings.Trim(s, cutset)] *)
Fixpoint TrimLeft (cut : ascii -> bool) (s : bytes) : bytes :=
  match s with
  | c :: rest => if cut c then TrimLeft cut rest else s
  | [] => []
  end.
Definition TrimRight (cut : ascii -> bool) (s : bytes) : bytes :=
  rev (TrimLeft cut (rev s)).
Definition Trim (cut : ascii -> bool) (s : bytes) : bytes :=
  TrimRight cut (TrimLeft cut s).

(** [strings.ReplaceAll(s, " ", "_")] *)
Definition ReplaceSpaces (s : bytes) : bytes :=
  map (fun c => if Ascii.eqb c space then underscore else c) s.

(** *** the two regular expressions of [CleanPathComponent] *)

Definition doubleQuote : ascii := ascii_of_nat 34.

(** The character class of [invalidChars]: the control bytes below
    0x20 and the nine bytes listed here. *)
Definition invalidChar (c : ascii) : bool :=
  (nat_of_ascii c <? 32)%nat
  || existsb (Ascii.eqb c)
       ["<"%char; ">"%char; ":"%char; doubleQuote; "/"%char; "\"%char;
        "|"%char; "?"%char; "*"%char].

(** [invalidChars.ReplaceAllString(s, "_")] *)
Definition ReplaceInvalid (s : bytes) : bytes :=
  map (fun c => if invalidChar c then underscore else c) s.

(** [multipleDots.ReplaceAllString(s, ".")] with [\.{2,}]: every
    maximal run of two or more dots becomes one dot. *)
Fixpoint CollapseDots (s : bytes) : bytes :=
  match s with
  | [] => []
  | c :: rest =>
      if Ascii.eqb c dot then
        match rest with
        | d :: _ => if Ascii.eqb d dot then CollapseDots rest
                    else c :: CollapseDots rest
        | [] => [c]
        end
      else c :: CollapseDots rest
  end.

Definition dotOrSpace (c : ascii) : bool := Ascii.eqb c dot || Ascii.eqb c space.

(** [CleanPathComponent] *)
Definition CleanPathComponent (component : bytes) : bytes :=
  match component with
  | [] => []
  | _ =>
      let c1 := ReplaceInvalid component in
      let c2 := CollapseDots c1 in
      let c3 := Trim dotOrSpace c2 in
      let c4 := ReplaceSpaces c3 in
      if (50 <? length c4)%nat then take 50 c4 else c4
  end.

(** *** path/filepath *)

Definition isDot (e : bytes) : bool := eqb_bytes e [dot].
Definition isDotDot (e : bytes) : bool := eqb_bytes e [dot; dot].

(** The element loop of [filepath.Clean]; [out] is the output so far,
    last element first.  A [..] backs over the last element unless
    there is none or it is itself a [..] that could not be resolved. *)
Fixpoint cleanElems (rooted : bool) (out : list bytes) (elems : list bytes)
  : list bytes :=
  match elems with
  | [] => out
  | e :: rest =>
      if eqb_bytes e [] then cleanElems rooted out rest
      else if isDot e then cleanElems rooted out rest
      else if isDotDot e then
        match out with
        | top :: below =>
            if isDotDot top then cleanElems rooted (e :: out) rest
            else cleanElems rooted below rest
        | [] =>
            if rooted then cleanElems rooted out rest
            else cleanElems rooted [e] rest
        end
      else cleanElems rooted (e :: out) rest
  end.

Definition isRooted (path : bytes) : bool :=
  match path with
  | c :: _ => Ascii.eqb c slash
  | [] => false
  end.

(** How [Clean] writes its output back. *)
Definition render (rooted : bool) (out : list bytes) : bytes :=
  match rooted, out with
  | true, _ => slash :: JoinSlash (rev out)
  | false, [] => [dot]
  | false, _ => JoinSlash (rev out)
  end.

(** [filepath.Clean] *)
Definition Clean (path : bytes) : bytes :=
  match path with
  | [] => [dot]
  | _ => render (isRooted path) (cleanElems (isRooted path) [] (Split path))
  end.

(** [filepath.Join]: the elements from the first non-empty one on,
    joined and cleaned. *)
Fixpoint Join (elem : list bytes) : bytes :=
  match elem with
  | [] => []
  | e :: rest =>
      if eqb_bytes e [] then Join rest
      else Clean (JoinSlash elem)
  end.

(** The index loop shared by [Dir] and [Base]: the bytes up to and
    including the last separator, and the bytes after it. *)
Fixpoint cutLastSlash (path : bytes) : bytes * bytes :=
  match path with
  | [] => ([], [])
  | c :: rest =>
      let '(d, b) := cutLastSlash rest in
      if existsb (Ascii.eqb slash) rest then (c :: d, b)
      else if Ascii.eqb c slash then ([c], rest)
      else ([], c :: rest)
  end.

(** [filepath.Dir] *)
Definition Dir (path : bytes) : bytes := Clean (fst (cutLastSlash path)).

(** [filepath.Base] *)
Definition Base (path : bytes) : bytes :=
  match path with
  | [] => [dot]
  | _ =>
      let stripped := TrimRight (Ascii.eqb slash) path in
      match snd (cutLastSlash stripped) with
      | [] => [slash]
      | b => b
      end
  end.

(** [filepath.Ext]: from the last dot of the last element on. *)
Fixpoint Ext (path : bytes) : bytes :=
  match path with
  | [] => []
  | c :: rest =>
      if existsb (fun x => Ascii.eqb x dot || Ascii.eqb x slash) rest then Ext rest
      else if Ascii.eqb c dot then path
      else []
  end.

(** *** CleanPath, CleanSourcePath *)

Definition keepComponent (cleaned : bytes) : bool :=
  negb (eqb_bytes cleaned []) && negb (isDot cleaned) && negb (isDotDot cleaned).

(** The loop of [CleanSourcePath] over the components. *)
Definition cleanedComponents (components : list bytes) : list bytes :=
  filter (fun c => keepComponent c = true) (map CleanPathComponent components).

(** [CleanSourcePath] *)
Definition CleanSourcePath (path : bytes) : bytes :=
  match path with
  | [] => bytes_of "unknown.js"
  | _ =>
      let p1 := TrimPrefix path (bytes_of "/") in
      let p2 := TrimPrefix p1 (bytes_of "./") in
      let p3 := TrimPrefix p2 (bytes_of "../") in
      match cleanedComponents (Split p3) with
      | [] => bytes_of "unknown.js"
      | cs => Join cs
      end
  end.

(** [CleanPath], used for the domain directory. *)
Definition CleanPath (path : bytes) : bytes :=
  match path with
  | [] => bytes_of "unknown"
  | _ =>
      let p1 := TrimPrefix path (bytes_of "http://") in
      let p2 := TrimPrefix p1 (bytes_of "https://") in
      let p3 := TrimPrefix p2 (bytes_of "ftp://") in
      let p4 := ReplaceSpaces (Trim dotOrSpace (CollapseDots (ReplaceInvalid p3))) in
      if eqb_bytes p4 [] || isDot p4 || isDotDot p4 then bytes_of "unknown"
      else if (100 <? length p4)%nat then take 100 p4 else p4
  end.

End Filesystem.

(** ** Package analysis: analyzer.go and the writer of job.go *)

Module Analysis.
Import Go Core.

(** The elements of the analyzer's five arrays. *)
Record URLFinding : Type := mkURLFinding {
  urlValue : string; urlLine : Z; urlColumn : Z; urlType : string;
  urlMetadata : Any                   (* map[string]interface{}, maybe nil *)
}.
Record GQLFinding : Type := mkGQLFinding {
  gqlValue : string; gqlLine : Z; gqlColumn : Z; gqlType : string
}.
Record DomXSSFinding : Type := mkDomXSSFinding {
  domValue : string; domLine : Z; domColumn : Z; domType : string
}.
Record EventFinding : Type := mkEventFinding {
  evValue : string; evLine : Z; evColumn : Z; evType : string
}.
Record HttpFinding : Type := mkHttpFinding {
  httpValue : string; httpLine : Z; httpColumn : Z; httpType : string;
  httpURL : string; httpMethod : string;
  httpOptions : Any                   (* interface{}, maybe nil *)
}.

Record NodeJSAnalyzerResult : Type := mkResult {
  URLs : list URLFinding;
  GQL : list GQLFinding;
  DomXSS : list DomXSSFinding;
  Events : list EventFinding;
  HttpAPI : list HttpFinding
}.

(** The unified [Finding]. *)
Record Finding : Type := mkFinding {
  Type_ : string;
  Line : Z;
  Column : Z;
  Value : string;
  Data : gmap string Any
}.

(** [line := f.Line; if line <= 0 { line = 1 }] *)
Definition atLeastOne (line : Z) : Z :=
  if (line <=? 0)%Z then 1%Z else line.

Definition ofURL (f : URLFinding) : Finding :=
  mkFinding (urlType f) (atLeastOne (urlLine f)) (urlColumn f) (urlValue f)
    (<["original_line" := AInt (urlLine f)]>
      (<["metadata" := urlMetadata f]>
        (<["finding_category" := AString "url"]> ∅))).

Definition ofGQL (f : GQLFinding) : Finding :=
  mkFinding (gqlType f) (atLeastOne (gqlLine f)) (gqlColumn f) (gqlValue f)
    (<["original_line" := AInt (gqlLine f)]>
      (<["finding_category" := AString "graphql"]> ∅)).

Definition ofDomXSS (f : DomXSSFinding) : Finding :=
  mkFinding (domType f) (atLeastOne (domLine f)) (domColumn f) (domValue f)
    (<["original_line" := AInt (domLine f)]>
      (<["security_risk" := AString "high"]>
        (<["finding_category" := AString "domxss"]> ∅))).

Definition ofEvent (f : EventFinding) : Finding :=
  mkFinding (evType f) (atLeastOne (evLine f)) (evColumn f) (evValue f)
    (<["original_line" := AInt (evLine f)]>
      (<["finding_category" := AString "event"]> ∅)).

Definition isNil (a : Any) : bool :=
  match a with ANil => true | _ => false end.

Definition ofHttp (f : HttpFinding) : Finding :=
  let data0 : gmap string Any :=
    <["original_line" := AInt (httpLine f)]>
      (<["finding_category" := AString "httpapi"]> ∅) in
  let data1 :=
    if negb (String.eqb (httpURL f) "") then <["url" := AString (httpURL f)]> data0
    else data0 in
  let data2 :=
    if negb (String.eqb (httpMethod f) "")
    then <["method" := AString (httpMethod f)]> data1
    else data1 in
  let data3 :=
    if negb (isNil (httpOptions f)) then <["options" := httpOptions f]> data2
    else data2 in
  mkFinding (httpType f) (atLeastOne (httpLine f)) (httpColumn f) (httpValue f) data3.

(** [convertToFindings]: the five loops append in this order. *)
Definition convertToFindings (result : NodeJSAnalyzerResult) : list Finding :=
  map ofURL (URLs result) ++ map ofGQL (GQL result)
  ++ map ofDomXSS (DomXSS result) ++ map ofEvent (Events result)
  ++ map ofHttp (HttpAPI result).

(** The record [saveFindings] builds for one finding. *)
Definition findingRecord (jsFileID : string) (now : Z) (finding : Finding) : Record_ :=
  Set_ "created_at" (ATime now)
    (Set_ "metadata" (AMap (Data finding))
      (Set_ "js_file" (AString jsFileID)
        (Set_ "value" (AString (Value finding))
          (Set_ "column" (AInt (Column finding))
            (Set_ "line" (AInt (Line finding))
              (Set_ "type" (AString (Type_ finding))
                (NewRecord "findings"))))))).

(** The record store as [saveFindings] uses it: [saveOk] tells whether
    [app.Save] accepts a record (validation, I/O), [newId] names the
    n-th row of the collection. *)
Record Store : Type := mkStore {
  hasFindingsCollection : bool;
  saveOk : Record_ -> bool;
  newId : nat -> string;
  findings : list Record_
}.

Definition insert (r : Record_) (s : Store) : Store :=
  mkStore (hasFindingsCollection s) (saveOk s) (newId s)
    (findings s ++ [withId (newId s (length (findings s))) r]).

(** The loop of [saveFindings]: a failed insert is logged and skipped. *)
Fixpoint saveLoop (s : Store) (jsFileID : string) (now : Z)
    (fs : list Finding) (savedCount : Z) : Store * Z :=
  match fs with
  | [] => (s, savedCount)
  | finding :: rest =>
      let newRecord := findingRecord jsFileID now finding in
      if saveOk s newRecord
      then saveLoop (insert newRecord s) jsFileID now rest (savedCount + 1)%Z
      else saveLoop s jsFileID now rest savedCount
  end.

(** [saveFindings] *)
Definition saveFindings (s : Store) (jsFileID : string) (now : Z)
    (fs : list Finding) : Store * Z * option error :=
  match fs with
  | [] => (s, 0%Z, None)
  | _ =>
      if negb (hasFindingsCollection s)
      then (s, 0%Z, Some (Err "error fetching findings collection"))
      else let '(s', n) := saveLoop s jsFileID now fs 0%Z in (s', n, None)
  end.

(** What [AnalyzeFile] hands to [processJob] and on to [saveFindings]
    when the analyzer produced [result]. *)
Definition persistAnalysis (s : Store) (jsFileID : string) (now : Z)
    (result : NodeJSAnalyzerResult) : Store * Z * option error :=
  saveFindings s jsFileID now (convertToFindings result).

End Analysis.

(** ** Package html: the structural hash of html_comparator.go *)

Module HTML.
Import Go.

(** *** The document tree of golang.org/x/net/html *)

Record Attribute : Type := mkAttr {
  Namespace : string;
  Key : string;
  Val : string
}.

(** A node with the nodes reached from its [FirstChild] along
    [NextSibling]. *)
Inductive Node : Type :=
| Element (tag : string) (attrs : list Attribute) (children : list Node)
| Text (data : string)
| Comment (data : string)
| Doctype (name : string) (attrs : list Attribute).

(** The children of the document node. *)
Abbreviation Document := (list Node).

(** The libraries around the normalisation: the HTML parser, the
    renderer behind [doc.Html()] (it fails on a void element with
    children) and [hex.EncodeToString(sha256.Sum256(..))]. *)
Record Env : Type := mkEnv {
  Parse : string -> option Document;
  Render : Document -> option string;
  Sum256Hex : string -> string
}.

(** *** Selections *)

(** [doc.Find(sel).Remove()] for a selector that names tags: every
    element with such a tag leaves its parent. *)
Fixpoint removeNode (sel : string -> bool) (n : Node) : option Node :=
  match n with
  | Element tag attrs children =>
      if sel tag then None
      else Some (Element tag attrs
             ((fix go (cs : list Node) : list Node :=
                 match cs with
                 | [] => []
                 | c :: rest =>
                     match removeNode sel c with
                     | Some c' => c' :: go rest
                     | None => go rest
                     end
                 end) children))
  | _ => Some n
  end.

Fixpoint removeAll (sel : string -> bool) (doc : list Node) : list Node :=
  match doc with
  | [] => []
  | c :: rest =>
      match removeNode sel c with
      | Some c' => c' :: removeAll sel rest
      | None => removeAll sel rest
      end
  end.

(** The selector [comment]: elements with that tag name. *)
Definition selComment (tag : string) : bool := String.eqb tag "comment".
(** The selector [script, style, meta]. *)
Definition selDynamic (tag : string) : bool :=
  String.eqb tag "script" || String.eqb tag "style" || String.eqb tag "meta".

(** [s.SetAttr(key, val)]: overwrite the first attribute with this
    key, or append one without namespace. *)
Fixpoint SetAttr (key val : string) (attrs : list Attribute) : list Attribute :=
  match attrs with
  | [] => [mkAttr "" key val]
  | a :: rest =>
      if String.eqb (Key a) key then mkAttr (Namespace a) (Key a) val :: rest
      else a :: SetAttr key val rest
  end.

Definition essential (key : string) : bool :=
  String.eqb key "href" || String.eqb key "src".

(** The body of the first [Each]: clear the attributes, put back
    [href] and [src]. *)
Definition keepEssential (attrs : list Attribute) : list Attribute :=
  fold_left
    (fun acc attr =>
       if essential (Key attr) then SetAttr (Key attr) (Val attr) acc else acc)
    attrs [].

(** The first [doc.Find("*").Each]: all elements, at any depth. *)
Fixpoint stripAttrs (n : Node) : Node :=
  match n with
  | Element tag attrs children =>
      Element tag (keepEssential attrs)
        ((fix go (cs : list Node) : list Node :=
            match cs with
            | [] => []
            | c :: rest => stripAttrs c :: go rest
            end) children)
  | _ => n
  end.

(** [s.Text()]: the data of the text nodes below, in document order. *)
Fixpoint textOf (n : Node) : string :=
  match n with
  | Text data => data
  | Element _ _ children =>
      (fix go (cs : list Node) : string :=
         match cs with
         | [] => ""
         | c :: rest => textOf c ++ go rest
         end) children
  | _ => ""
  end.

(** *** The three regular expressions *)

Definition isDigit (c : ascii) : bool :=
  (48 <=? nat_of_ascii c)%nat && (nat_of_ascii c <=? 57)%nat.
Definition isLowerHex (c : ascii) : bool :=
  isDigit c || ((97 <=? nat_of_ascii c)%nat && (nat_of_ascii c <=? 102)%nat).

Inductive Atom : Type :=
| Hex                      (* [0-9a-f] *)
| Digit                    (* \d *)
| Lit (c : ascii).

Definition atomMatches (a : Atom) (c : ascii) : bool :=
  match a with
  | Hex => isLowerHex c
  | Digit => isDigit c
  | Lit x => Ascii.eqb x c
  end.

(** Does the fixed-length pattern match a prefix of [s]?  If so, the
    rest of [s]. *)
Fixpoint matchSeq (pat : list Atom) (s : list ascii) : option (list ascii) :=
  match pat, s with
  | [], _ => Some s
  | a :: pat', c :: s' => if atomMatches a c then matchSeq pat' s' else None
  | _ :: _, [] => None
  end.

Definition lit (s : string) : list Atom := map Lit (list_ascii_of_string s).

(** [[0-9a-f]{8}-[0-9a-f]{4}-[0-9a-f]{4}-[0-9a-f]{4}-[0-9a-f]{12}] *)
Definition uuidPattern : list Atom :=
  repeat Hex 8 ++ lit "-" ++ repeat Hex 4 ++ lit "-" ++ repeat Hex 4
  ++ lit "-" ++ repeat Hex 4 ++ lit "-" ++ repeat Hex 12.

Definition matchUUID (s : list ascii) : option (list ascii) :=
  matchSeq uuidPattern s.

Definition twoDigits : list Atom := [Digit; Digit].
Definition clockPattern : list Atom :=
  twoDigits ++ lit ":" ++ twoDigits ++ lit ":" ++ twoDigits.

(** [\d{4}-\d{2}-\d{2}T?\d{2}:\d{2}:\d{2}(Z|[+-]\d{2}:\d{2})?]; the
    optional parts are greedy. *)
Definition matchISODate (s : list ascii) : option (list ascii) :=
  match matchSeq (repeat Digit 4 ++ lit "-" ++ twoDigits ++ lit "-" ++ twoDigits) s with
  | None => None
  | Some s1 =>
      let afterT :=
        match matchSeq (lit "T" ++ clockPattern) s1 with
        | Some s2 => Some s2
        | None => matchSeq clockPattern s1
        end in
      match afterT with
      | None => None
      | Some s2 =>
          match matchSeq (lit "Z") s2 with
          | Some s3 => Some s3
          | None =>
              match matchSeq (lit "+" ++ twoDigits ++ lit ":" ++ twoDigits) s2,
                    matchSeq (lit "-" ++ twoDigits ++ lit ":" ++ twoDigits) s2 with
              | Some s3, _ => Some s3
              | None, Some s3 => Some s3
              | None, None => Some s2
              end
          end
      end
  end.

(** [nonce-[0-9a-f]+] *)
Definition matchNonce (s : list ascii) : option (list ascii) :=
  match matchSeq (lit "nonce-" ++ [Hex]) s with
  | None => None
  | Some s1 => Some (Filesystem.TrimLeft isLowerHex s1)
  end.

(** [re.ReplaceAllString(text, "")]: the matches are found from left
    to right and do not overlap.  [skip] counts the bytes of the
    current match that are still to be dropped. *)
Fixpoint deleteMatches (m : list ascii -> option (list ascii)) (skip : nat)
    (s : list ascii) : list ascii :=
  match s with
  | [] => []
  | c :: rest =>
      match skip with
      | S k => deleteMatches m k rest
      | O =>
          match m s with
          | Some after =>
              match length s - length after with
              | S k => deleteMatches m k rest
              | O => c :: deleteMatches m 0 rest
              end
          | None => c :: deleteMatches m 0 rest
          end
      end
  end.

Definition ReplaceAllString (m : list ascii -> option (list ascii)) (text : string)
  : string :=
  string_of_list_ascii (deleteMatches m 0 (list_ascii_of_string text)).

(** The three replacements of the second [Each], in source order. *)
Definition scrub (text : string) : string :=
  ReplaceAllString matchNonce
    (ReplaceAllString matchISODate
       (ReplaceAllString matchUUID text)).

(** The body of the second [Each] on one element: its [FirstChild]
    becomes a fresh text node, which has no sibling.  [Each] goes on to
    the former descendants, but they hang off the old first child and
    are not reached from the document any more; their text was read
    before any of them was touched, because [Each] visits ancestors
    first. *)
Definition replaceChildren (n : Node) : Node :=
  match n with
  | Element tag attrs children =>
      Element tag attrs [Text (scrub (textOf n))]
  | _ => n
  end.

(** *** Whitespace: [strings.Fields], [strings.TrimSpace] on ASCII *)

Definition isSpace (c : ascii) : bool :=
  existsb (Nat.eqb (nat_of_ascii c)) [9; 10; 11; 12; 13; 32]%nat.

(** [strings.Fields]; [cur] is the field being read, reversed. *)
Fixpoint fieldsFrom (cur : list ascii) (s : list ascii) : list (list ascii) :=
  match s with
  | [] => match cur with [] => [] | _ => [rev cur] end
  | c :: rest =>
      if isSpace c then
        match cur with
        | [] => fieldsFrom [] rest
        | _ => rev cur :: fieldsFrom [] rest
        end
      else fieldsFrom (c :: cur) rest
  end.

Definition Fields (s : string) : list string :=
  map string_of_list_ascii (fieldsFrom [] (list_ascii_of_string s)).

Definition TrimSpace (s : string) : string :=
  string_of_list_ascii (Filesystem.Trim isSpace (list_ascii_of_string s)).

(** [strings.Join(elems, " ")] *)
Definition JoinSpace (elems : list string) : string := String.concat " " elems.

(** *** GenerateHTMLHash *)

(** The tree handed to the renderer. *)
Definition normalize (doc : Document) : Document :=
  let d1 := removeAll selComment doc in
  let d2 := removeAll selDynamic d1 in
  let d3 := map stripAttrs d2 in
  map replaceChildren d3.

Definition GenerateHTMLHash (e : Env) (htmlContent : string) : string * option error :=
  match Parse e htmlContent with
  | None => ("", Some (Err "html: parse error"))
  | Some doc =>
      match Render e (normalize doc) with
      | None => ("", Some (Err "html: render error"))
      | Some normalized =>
          let collapsed := JoinSpace (Fields (TrimSpace normalized)) in
          (Sum256Hex e collapsed, None)
      end
  end.

End HTML.

(** ** encoding/json as the sourcemap code uses it *)

Module Json.

(** A JSON document.  A number carries its two Go readings: as a
    [float64] (the fraction it denotes; [None] when out of range) and
    as an [int] ([None] unless the literal is a plain integer in
    range). *)
Inductive JSON : Type :=
| JNull
| JBool (b : bool)
| JNumber (asFloat : option (Z * positive)) (asInt : option Z)
| JString (s : string)
| JArray (elems : list JSON)
| JObject (fields : list (string * JSON)).

(** The value a key ends up with: the last field of that name. *)
Fixpoint lookupLast (eq : string -> string -> bool) (key : string)
    (fields : list (string * JSON)) : option JSON :=
  match fields with
  | [] => None
  | (k, v) :: rest =>
      match lookupLast eq key rest with
      | Some v' => Some v'
      | None => if eq k key then Some v else None
      end
  end.

(** Decoding into [interface{}] fails on a number that is no float64. *)
Fixpoint decodable (j : JSON) : bool :=
  match j with
  | JNumber None _ => false
  | JArray elems =>
      (fix go (l : list JSON) : bool :=
         match l with
         | [] => true
         | x :: rest => decodable x && go rest
         end) elems
  | JObject fields =>
      (fix go (l : list (string * JSON)) : bool :=
         match l with
         | [] => true
         | (_, x) :: rest => decodable x && go rest
         end) fields
  | _ => true
  end.

(** [json.Unmarshal(content, &temp)] with [temp map[string]interface{}]:
    the fields of the object; [null] leaves the map nil. *)
Definition unmarshalMap (doc : option JSON) : option (list (string * JSON)) :=
  match doc with
  | Some (JObject fields) => if decodable (JObject fields) then Some fields else None
  | Some JNull => Some []
  | _ => None
  end.

Definition lower (c : ascii) : ascii :=
  let n := nat_of_ascii c in
  if (65 <=? n)%nat && (n <=? 90)%nat then ascii_of_nat (n + 32) else c.

(** Field names match keys without regard to (ASCII) case. *)
Definition foldEq (a b : string) : bool :=
  bool_decide (map lower (list_ascii_of_string a) = map lower (list_ascii_of_string b)).

(** Decoding one value into an [int] field: the new value of the
    field, or a type error. *)
Definition intField (old : Z) (v : JSON) : option Z :=
  match v with
  | JNull => Some old
  | JNumber _ (Some z) => Some z
  | _ => None
  end.

(** Decoding one value into a [[]string] field. *)
Fixpoint stringElems (elems : list JSON) : option (list string) :=
  match elems with
  | [] => Some []
  | JString s :: rest => cons s <$> stringElems rest
  | JNull :: rest => cons "" <$> stringElems rest
  | _ :: _ => None
  end.

Definition stringsField (old : list string) (v : JSON) : option (list string) :=
  match v with
  | JNull => Some []
  | JArray elems => stringElems elems
  | _ => None
  end.

End Json.

(** ** Package strings *)

Module Strings.

Fixpoint containsFrom (sub s : list ascii) : bool :=
  bool_decide (take (length sub) s = sub)
  || match s with
     | [] => false
     | _ :: rest => containsFrom sub rest
     end.

(** [strings.Contains] *)
Definition Contains (s substr : string) : bool :=
  containsFrom (list_ascii_of_string substr) (list_ascii_of_string s).

(** [strings.SplitN(s, sep, 2)] for a separator of one byte, when it
    gives two parts: what precedes the first [sep] and all that
    follows it.  [None] stands for the one-element answer. *)
Fixpoint cutAt (sep : ascii) (s : string) : option (string * string) :=
  match s with
  | EmptyString => None
  | String c rest =>
      if Ascii.eqb c sep then Some (EmptyString, rest)
      else
        match cutAt sep rest with
        | Some (before, after) => Some (String c before, after)
        | None => None
        end
  end.

End Strings.


(** ** Package sourcemap *)

Module Sourcemap.
Import Go Core Json Strings.

Record SourceMap : Type := mkSourceMap {
  Version : Z;
  Sources : list string;
  SourcesContent : list string
}.

Record SourceFile : Type := mkSourceFile {
  Path : string;
  OriginalPath : string;
  Content : string
}.

Record SourceMapResult : Type := mkSMResult {
  Found : bool;
  TempDir : string;
  SourceFiles : list SourceFile
}.

(** What the stage sees of the outside: the network and the
    libraries.  [ToAbsoluteURL] and [RemoveQueryString] of
    internal/utils/url are [url.Parse] followed by a method of the
    parsed URL; they are taken as what they return. *)
Record Env : Type := mkEnv {
  httpGet : string -> option string;          (* RateLimitedGet: body on success *)
  jsonDecode : string -> option JSON;         (* the JSON reading of a byte string *)
  base64Decode : string -> option string;     (* base64.StdEncoding.DecodeString *)
  ToAbsoluteURL : string -> string -> option string;   (* url.ToAbsoluteURL *)
  RemoveQueryString : string -> option string;         (* url.RemoveQueryString *)
  Hostname : string -> option string;         (* net/url: Parse, then Hostname *)
  URLPath : string -> option string;          (* net/url: Parse, then Path *)
  Sha256 : string -> string;                  (* hash.GenerateSha256Hash *)
  FilesPath : string;                         (* config.GetFilesPath() *)
  TempRoot : string;                          (* os.TempDir() *)
  fsOk : string -> bool                       (* may this path be made or written? *)
}.

(** The file system: path to content. *)
Abbreviation Files := (gmap string string).

(** *** internal/utils/url *)

(** [DecodeDataURI] *)
Definition DecodeDataURI (e : Env) (dataURI : string) : option string :=
  match cutAt ","%char dataURI with
  | None => None
  | Some (header, payload) =>
      if Contains header ";base64" then base64Decode e payload
      else Some payload
  end.

(** [GetFileNameFromUrl] *)
Definition GetFileNameFromUrl (e : Env) (rawUrl : string) : option string :=
  match URLPath e rawUrl with
  | None => None
  | Some path =>
      let pathParts := Filesystem.Split (list_ascii_of_string path) in
      let fileName := List.last pathParts [] in
      let fileName :=
        if Filesystem.eqb_bytes fileName [] then list_ascii_of_string "index.html"
        else fileName in
      Some (string_of_list_ascii (take 100 fileName))
  end.

(** *** sourcemap.go *)

(** [isValidSourceMapContent] *)
Definition isValidSourceMapContent (e : Env) (content : string) : bool :=
  match unmarshalMap (jsonDecode e content) with
  | None => false
  | Some temp =>
      match lookupLast String.eqb "version" temp with
      | None => false
      | Some version =>
          match version with
          | JNumber (Some (n, d)) _ =>
              if (n <? Z.pos d)%Z then false
              else
                match lookupLast String.eqb "sources" temp with
                | None => false
                | Some (JArray _) => true
                | Some _ => false
                end
          | _ => false
          end
      end
  end.

(** [fetchSourceMapContent] *)
Definition fetchSourceMapContent (e : Env) (mapURL : string) : option string :=
  match httpGet e mapURL with
  | None => None
  | Some content =>
      if negb (isValidSourceMapContent e content) then None
      else Some content
  end.

Definition HasPrefix (s prefix : string) : bool := String.prefix prefix s.

(** [getSourceMapContent] *)
Definition getSourceMapContent (e : Env) (sourceMapURL jsURL : string) : option string :=
  if HasPrefix sourceMapURL "data:" then DecodeDataURI e sourceMapURL
  else
    match ToAbsoluteURL e jsURL sourceMapURL with
    | None => None
    | Some fullURL => fetchSourceMapContent e fullURL
    end.

(** [tryFallbackMapURL] *)
Definition tryFallbackMapURL (e : Env) (jsURL : string) : option string :=
  match RemoveQueryString e jsURL with
  | None => None
  | Some cleanURL => fetchSourceMapContent e (cleanURL ++ ".map")
  end.

(** The regular expression of [findSourceMapURL], tried at the head
    of [s]: two slashes, [@] or [#], white space, the key, then the
    rest of the line, which is the capture. *)
Definition reSpace (c : ascii) : bool :=
  existsb (Nat.eqb (nat_of_ascii c)) [9; 10; 12; 13; 32]%nat.
Definition notNewline (c : ascii) : bool := negb (Nat.eqb (nat_of_ascii c) 10).

Fixpoint takeWhile (p : ascii -> bool) (s : list ascii) : list ascii :=
  match s with
  | c :: rest => if p c then c :: takeWhile p rest else []
  | [] => []
  end.

Definition matchComment (s : list ascii) : option (list ascii * list ascii) :=
  match s with
  | c1 :: c2 :: c3 :: rest =>
      if Ascii.eqb c1 "/" && Ascii.eqb c2 "/" && (Ascii.eqb c3 "@" || Ascii.eqb c3 "#")
      then
        let rest' := Filesystem.TrimLeft reSpace rest in
        let key := list_ascii_of_string "sourceMappingURL=" in
        if bool_decide (take (length key) rest' = key) then
          let line := takeWhile notNewline (drop (length key) rest') in
          Some (line, drop (length line) (drop (length key) rest'))
        else None
      else None
  | _ => None
  end.

(** [re.FindAllStringSubmatch(jsBody, -1)], keeping the captures. *)
Fixpoint findAll (skip : nat) (s : list ascii) : list (list ascii) :=
  match s with
  | [] => []
  | _ :: rest =>
      match skip with
      | S k => findAll k rest
      | O =>
          match matchComment s with
          | Some (capture, after) =>
              capture :: findAll (length s - length after - 1) rest
          | None => findAll 0 rest
          end
      end
  end.

(** [findSourceMapURL] *)
Definition findSourceMapURL (jsBody : string) : string :=
  match last (findAll 0 (list_ascii_of_string jsBody)) with
  | Some capture => HTML.TrimSpace (string_of_list_ascii capture)
  | None => ""
  end.

(** [json.Unmarshal(sourceMapContent, &sourceMap)]: the fields are
    filled key by key; one ill-typed value fails the call. *)
Fixpoint fillSourceMap (fields : list (string * JSON)) (sm : SourceMap)
  : option SourceMap :=
  match fields with
  | [] => Some sm
  | (k, v) :: rest =>
      if foldEq k "version" then
        z ← intField (Version sm) v;
        fillSourceMap rest (mkSourceMap z (Sources sm) (SourcesContent sm))
      else if foldEq k "sources" then
        l ← stringsField (Sources sm) v;
        fillSourceMap rest (mkSourceMap (Version sm) l (SourcesContent sm))
      else if foldEq k "sourcesContent" then
        l ← stringsField (SourcesContent sm) v;
        fillSourceMap rest (mkSourceMap (Version sm) (Sources sm) l)
      else fillSourceMap rest sm
  end.

Definition unmarshalSourceMap (doc : option JSON) : option SourceMap :=
  match doc with
  | Some (JObject fields) => fillSourceMap fields (mkSourceMap 0 [] [])
  | Some JNull => Some (mkSourceMap 0 [] [])
  | _ => None
  end.

Definition ofBytes (b : Filesystem.bytes) : string := string_of_list_ascii b.
Definition toBytes (s : string) : Filesystem.bytes := list_ascii_of_string s.

(** [filepath.Join] on Go strings. *)
Definition JoinPath (elems : list string) : string :=
  ofBytes (Filesystem.Join (map toBytes elems)).

Definition dotOrSlash (c : ascii) : bool := Ascii.eqb c "." || Ascii.eqb c "/".

(** [sanitizeSourcePath] (not on Windows) *)
Definition sanitizeSourcePath (sourcePath : string) : string :=
  ofBytes (Filesystem.Clean (Filesystem.TrimLeft dotOrSlash (toBytes sourcePath))).

(** The loop of [extractSourcesToTempDir] from index [i] on. *)
Fixpoint extractLoop (e : Env) (tempDir : string) (fs : Files)
    (sources : list string) (contents : list string) (acc : list SourceFile)
  : Files * option (list SourceFile) :=
  match sources with
  | [] => (fs, Some acc)
  | sourcePath :: sources' =>
      match contents with
      | [] => extractLoop e tempDir fs sources' [] acc
      | content :: contents' =>
          let cleanPath := sanitizeSourcePath sourcePath in
          let fullPath := JoinPath [tempDir; cleanPath] in
          if negb (fsOk e (ofBytes (Filesystem.Dir (toBytes fullPath)))) then (fs, None)
          else if negb (fsOk e fullPath) then (fs, None)
          else
            extractLoop e tempDir (<[fullPath := content]> fs) sources' contents'
              (acc ++ [mkSourceFile cleanPath sourcePath content])
      end
  end.

(** [extractSourcesToTempDir] *)
Definition extractSourcesToTempDir (e : Env) (fs : Files)
    (sourceMapContent jsURL : string)
  : Files * option (string * list SourceFile) :=
  match unmarshalSourceMap (jsonDecode e sourceMapContent) with
  | None => (fs, None)
  | Some sourceMap =>
      if (length (Sources sourceMap) =? 0)%nat
         || (length (SourcesContent sourceMap) =? 0)%nat
      then (fs, None)
      else
        let jsHash := Sha256 e jsURL in
        let tempDir := JoinPath [TempRoot e; "sourcemaps"; jsHash] in
        if negb (fsOk e tempDir) then (fs, None)
        else
          match extractLoop e tempDir fs (Sources sourceMap)
                  (SourcesContent sourceMap) [] with
          | (fs', Some sourceFiles) => (fs', Some (tempDir, sourceFiles))
          | (fs', None) => (fs', None)
          end
  end.

(** [ProcessSourceMap]: the result and whether an error is returned. *)
Definition ProcessSourceMap (e : Env) (fs : Files) (jsBody jsURL : string)
  : Files * SourceMapResult * option error :=
  let result := mkSMResult false "" [] in
  let sourceMapURL := findSourceMapURL jsBody in
  let sourceMapContent :=
    if negb (String.eqb sourceMapURL "") then
      match getSourceMapContent e sourceMapURL jsURL with
      | Some c => Some c
      | None => tryFallbackMapURL e jsURL
      end
    else tryFallbackMapURL e jsURL in
  match sourceMapContent with
  | None => (fs, result, None)
  | Some content =>
      match extractSourcesToTempDir e fs content jsURL with
      | (fs', None) => (fs', result, Some (Err "failed to extract sources"))
      | (fs', Some (tempDir, sourceFiles)) =>
          (fs', mkSMResult true tempDir sourceFiles, None)
      end
  end.

(** *** internal/storage and filesystem.ExtractDomain *)

(** [filesystem.ExtractDomain] *)
Definition ExtractDomain (e : Env) (rawURL : string) : option string :=
  if String.eqb rawURL "" then None
  else
    match Hostname e rawURL with
    | None => None
    | Some domain =>
        if String.eqb domain "" then None
        else Some (ofBytes (Filesystem.CleanPath (toBytes domain)))
    end.

(** [storage.GetJSFilePath] *)
Definition GetJSFilePath (e : Env) (fileURL hash : string) : option string :=
  match ExtractDomain e fileURL with
  | None => None
  | Some domain =>
      match GetFileNameFromUrl e fileURL with
      | None => None
      | Some filename => Some (JoinPath [FilesPath e; domain; hash; filename])
      end
  end.

(** *** saveSourceFile *)

(** [app.FindRecordById("js_files", id)] *)
Definition FindRecordById (table : list Record_) (id : string) : option Record_ :=
  List.find (fun r => String.eqb (Id r) id) table.

(** The directory [saveSourceFile] creates. *)
Definition sourceFileDir (filesPath domain jsFileHash : Filesystem.bytes)
    (cleanedPath : Filesystem.bytes) : Filesystem.bytes :=
  Filesystem.Join [filesPath; domain; jsFileHash; Filesystem.bytes_of "original";
                   Filesystem.Dir cleanedPath].

(** The file name it settles on. *)
Definition sourceFileName (cleanedPath : Filesystem.bytes) : Filesystem.bytes :=
  let filename := Filesystem.Base cleanedPath in
  let filename :=
    if Filesystem.eqb_bytes filename [] || Filesystem.isDot filename
    then Filesystem.bytes_of "unknown.js" else filename in
  if Filesystem.eqb_bytes (Filesystem.Ext filename) []
  then filename ++ Filesystem.bytes_of ".js" else filename.

(** The path [saveSourceFile] writes for the source path [path]. *)
Definition sourceFileFullPath (filesPath domain jsFileHash : Filesystem.bytes)
    (path : Filesystem.bytes) : Filesystem.bytes :=
  let cleanedPath := Filesystem.CleanSourcePath path in
  Filesystem.Join [sourceFileDir filesPath domain jsFileHash cleanedPath;
                   sourceFileName cleanedPath].

(** [saveSourceFile] *)
Definition saveSourceFile (e : Env) (table : list Record_) (fs : Files)
    (domain : string) (sourceFile : SourceFile) (jsFileID : string)
  : Files * option error :=
  match FindRecordById table jsFileID with
  | None => (fs, Some (Err "sourcemap worker: error finding JS file record"))
  | Some jsFileRecord =>
      let jsFileHash := GetString jsFileRecord "hash" in
      if String.eqb jsFileHash "" then
        (fs, Some (Err "sourcemap worker: JS file has no hash"))
      else
        let cleanedPath := Filesystem.CleanSourcePath (toBytes (Path sourceFile)) in
        let dir := ofBytes (sourceFileDir (toBytes (FilesPath e)) (toBytes domain)
                              (toBytes jsFileHash) cleanedPath) in
        if negb (fsOk e dir) then
          (fs, Some (Err "failed to create source directory"))
        else
          let fullPath :=
            ofBytes (sourceFileFullPath (toBytes (FilesPath e)) (toBytes domain)
                       (toBytes jsFileHash) (toBytes (Path sourceFile))) in
          match fs !! fullPath with
          | Some _ => (fs, None)
          | None =>
              if negb (fsOk e fullPath) then
                (fs, Some (Err "failed to write source file"))
              else (<[fullPath := Content sourceFile]> fs, None)
          end
  end.

(** *** job.go: processJob *)

(** What a run leaves behind: the job's record, the records handed to
    [App.Save] (oldest first) and the file system. *)
Record Outcome : Type := mkOutcome {
  record : Record_;
  saved : list Record_;
  files : Files
}.

Definition finishWith (status : string) (fs : Files) (r : Record_) : Outcome :=
  let r' := Set_ "sourcemap_status" (AString status) r in
  mkOutcome r' [r'] fs.

(** The loop over [result.SourceFiles]; a file that fails is skipped. *)
Fixpoint saveLoop (e : Env) (table : list Record_) (fs : Files) (domain : string)
    (sourceFiles : list SourceFile) (jsFileID : string) (successCount : Z)
  : Files * Z :=
  match sourceFiles with
  | [] => (fs, successCount)
  | sourceFile :: rest =>
      match saveSourceFile e table fs domain sourceFile jsFileID with
      | (fs', Some _) => saveLoop e table fs' domain rest jsFileID successCount
      | (fs', None) => saveLoop e table fs' domain rest jsFileID (successCount + 1)%Z
      end
  end.

(** [processJob] on the record of the job; [table] is the js_files
    collection. *)
Definition processJob (e : Env) (table : list Record_) (fs : Files)
    (workerID : Z) (jsFileRecord : Record_) : Outcome :=
  let bodyHash := GetString jsFileRecord "hash" in
  let fileURL := GetString jsFileRecord "url" in
  if String.eqb bodyHash "" || String.eqb fileURL "" then
    finishWith "failed" fs jsFileRecord
  else
    match GetJSFilePath e fileURL bodyHash with
    | None => finishWith "failed" fs jsFileRecord
    | Some filePath =>
        match fs !! filePath with
        | None => finishWith "failed" fs jsFileRecord
        | Some jsContent =>
            match ExtractDomain e (GetString jsFileRecord "url") with
            | None => finishWith "failed" fs jsFileRecord
            | Some domain =>
                match ProcessSourceMap e fs jsContent (GetString jsFileRecord "url") with
                | (fs', _, Some _) => finishWith "processed" fs' jsFileRecord
                | (fs', result, None) =>
                    let '(fs'', _) :=
                      saveLoop e table fs' domain (SourceFiles result)
                        (Id jsFileRecord) 0%Z in
                    finishWith "processed" fs'' jsFileRecord
                end
            end
        end
    end.

End Sourcemap.

(** ** Package db: the record store, the hooks and the recovery sweep *)

Module DB.
Import Go Core Strings.

(** *** Jobs and the five global pools *)

Record ExtractionJob : Type := mkExtractionJob { extractionRecord : Record_ }.
Record SourcemapJob : Type := mkSourcemapJob { sourcemapRecord : Record_ }.
Record AnalysisJob : Type := mkAnalysisJob { analysisRecord : Record_ }.
Record DechunkerJob : Type := mkDechunkerJob { dechunkerRecord : Record_ }.

(** The package-level pool variables; [None] is a nil pointer. *)
Record Pools : Type := mkPools {
  extractionPool : option (Pool.WorkerPool ExtractionJob);
  prettifyPool : option (Pool.WorkerPool Prettify.PrettifyJob);
  sourcemapPool : option (Pool.WorkerPool SourcemapJob);
  analysisPool : option (Pool.WorkerPool AnalysisJob);
  dechunkerPool : option (Pool.WorkerPool DechunkerJob)
}.

Definition withExtraction p (ps : Pools) : Pools :=
  mkPools p (prettifyPool ps) (sourcemapPool ps) (analysisPool ps) (dechunkerPool ps).
Definition withPrettify p (ps : Pools) : Pools :=
  mkPools (extractionPool ps) p (sourcemapPool ps) (analysisPool ps) (dechunkerPool ps).
Definition withSourcemap p (ps : Pools) : Pools :=
  mkPools (extractionPool ps) (prettifyPool ps) p (analysisPool ps) (dechunkerPool ps).
Definition withAnalysis p (ps : Pools) : Pools :=
  mkPools (extractionPool ps) (prettifyPool ps) (sourcemapPool ps) p (dechunkerPool ps).
Definition withDechunker p (ps : Pools) : Pools :=
  mkPools (extractionPool ps) (prettifyPool ps) (sourcemapPool ps) (analysisPool ps) p.

(** What the store and the hooks see of the outside. *)
Record Env : Type := mkEnv {
  now : Z;                                      (* time.Now() *)
  newId : nat -> string;                        (* the id of the n-th row of a collection *)
  saveOk : Record_ -> bool;                     (* does app.Save accept the record? *)
  pick : Record_ -> bool;                       (* the random choice of a select *)
  GetJSFilePath : string -> string -> option string;     (* storage *)
  GetHTMLFilePath : string -> string -> option string;   (* storage *)
  SaveHTMLFile : string -> string -> string;    (* storage: the hash, or empty *)
  SaveJSFile : string -> string -> string;      (* storage: the hash, or empty *)
  Sha256 : string -> string;                    (* hash.GenerateSha256Hash *)
  fetchChunk : string -> option (string * string);
                                                (* body and Content-Type of a fetch *)
  ExtractChunksFromFile : string -> string -> option (list string)
                                                (* the URLs the dechunker prints *)
}.

(** The record store and the pools. *)
Record World : Type := mkWorld {
  endpoints : list Record_;       (* rows, oldest first *)
  js_files : list Record_;
  pools : Pools
}.

Definition withPools (ps : Pools) (w : World) : World :=
  mkWorld (endpoints w) (js_files w) ps.
Definition withJSFiles (rows : list Record_) (w : World) : World :=
  mkWorld (endpoints w) rows (pools w).
Definition withEndpoints (rows : list Record_) (w : World) : World :=
  mkWorld rows (js_files w) (pools w).

(** *** Submitting through the globals *)

(** [extraction.AddExtractionJob] *)
Definition AddExtractionJob (w : World) (r : Record_) : Exec (World * option error) :=
  let* res := Pool.AddJobDirect "extraction" (extractionPool (pools w))
                (mkExtractionJob r) in
  Done (withPools (withExtraction (fst res) (pools w)) w, snd res).

(** [sourcemap.AddSourcemapJob] *)
Definition AddSourcemapJob (w : World) (r : Record_) : Exec (World * option error) :=
  let* res := Pool.AddJobDirect "sourcemap" (sourcemapPool (pools w))
                (mkSourcemapJob r) in
  Done (withPools (withSourcemap (fst res) (pools w)) w, snd res).

(** [prettify.AddPrettifyJob] *)
Definition AddPrettifyJob (e : Env) (w : World) (r : Record_)
    (filePath fileType : string) : Exec (World * option error) :=
  let* res := Pool.AddJobChecked "prettify" (pick e r) (prettifyPool (pools w))
                (Prettify.mkJob (Some r) filePath fileType) in
  Done (withPools (withPrettify (fst res) (pools w)) w, snd res).

(** [analysis.AddAnalysisJob] *)
Definition AddAnalysisJob (e : Env) (w : World) (r : Record_)
  : Exec (World * option error) :=
  let* res := Pool.AddJobChecked "analysis" (pick e r) (analysisPool (pools w))
                (mkAnalysisJob r) in
  Done (withPools (withAnalysis (fst res) (pools w)) w, snd res).

(** [dechunker.AddDechunkerJob] *)
Definition AddDechunkerJob (e : Env) (w : World) (r : Record_)
  : Exec (World * option error) :=
  let* res := Pool.AddJobChecked "dechunker" (pick e r) (dechunkerPool (pools w))
                (mkDechunkerJob r) in
  Done (withPools (withDechunker (fst res) (pools w)) w, snd res).

(** *** hooks.go

    A hook gets [save], the [app.Save] it calls back into; a save
    answers with the world, the record as the callee left it (the
    caller holds the same pointer) and the error. *)

Definition SaveResult : Type := World * Record_ * option error.
Definition Saver : Type := World -> Record_ -> Exec SaveResult.

Definition isInlineOrChunk (fileType : string) : bool :=
  String.eqb fileType "inline" || String.eqb fileType "chunk".

(** [OnRecordAfterCreateSuccess("js_files")] *)
Definition onJSFileAfterCreate (e : Env) (save : Saver) (w : World) (r : Record_)
  : Exec SaveResult :=
  let r := Set_ "prettify_status" (AString "pending") r in
  let r := Set_ "analysis_status" (AString "pending") r in
  let r := Set_ "sourcemap_status" (AString "pending") r in
  let r := Set_ "dechunker_status" (AString "pending") r in
  let fileType := GetString r "type" in
  let r :=
    if isInlineOrChunk fileType
    then Set_ "dechunker_status" (AString "processed") r else r in
  let r := Set_ "created_at" (ATime (now e)) r in
  match GetJSFilePath e (GetString r "url") (GetString r "hash") with
  | None => Done (w, r, Some (Err "failed to extract domain from URL"))
  | Some filePath =>
      let r := Set_ "prettify_status" (AString "processing") r in
      let r := Set_ "sourcemap_status" (AString "processing") r in
      let* s := save w r in
      let '(w, r, _) := s in
      let* a := AddPrettifyJob e w r filePath "js" in
      let* b := AddSourcemapJob (fst a) r in
      Done (fst b, r, None)
  end.

(** [OnRecordAfterUpdateSuccess("js_files")] *)
Definition onJSFileAfterUpdate (e : Env) (save : Saver) (w : World) (r : Record_)
  : Exec SaveResult :=
  if String.eqb (GetString r "prettify_status") "processed" then
    let* s1 :=
      if String.eqb (GetString r "analysis_status") "pending" then
        let r := Set_ "analysis_status" (AString "processing") r in
        let* s := save w r in
        let '(w, r, _) := s in
        let* a := AddAnalysisJob e w r in
        Done (fst a, r)
      else Done (w, r) in
    let '(w, r) := s1 in
    if String.eqb (GetString r "dechunker_status") "pending" then
      let r := Set_ "dechunker_status" (AString "processing") r in
      let* s := save w r in
      let '(w, r, _) := s in
      let* a := AddDechunkerJob e w r in
      Done (fst a, r, None)
    else Done (w, r, None)
  else Done (w, r, None).

(** [OnRecordAfterCreateSuccess("endpoints")] *)
Definition onEndpointAfterCreate (e : Env) (save : Saver) (w : World) (r : Record_)
  : Exec SaveResult :=
  if String.eqb (GetString r "extraction_status") "pending" then
    let r := Set_ "extraction_status" (AString "processing") r in
    let* s := save w r in
    let '(w, r, _) := s in
    let* a := AddExtractionJob w r in
    match snd a with
    | Some err => Done (fst a, r, Some err)
    | None => Done (fst a, r, None)
    end
  else Done (w, r, None).

(** One of the two blocks of the endpoints update hook, for the hash
    held in [field]. *)
Definition prettifyHTML (e : Env) (save : Saver) (w : World) (r : Record_)
    (field : string) : Exec (World * Record_) :=
  match GetHTMLFilePath e (GetString r "url") (GetString r field) with
  | None => Done (w, r)
  | Some filePath =>
      let r := Set_ "prettify_status" (AString "processing") r in
      let* s := save w r in
      let '(w, r, _) := s in
      let* a := AddPrettifyJob e w r filePath "html" in
      Done (fst a, r)
  end.

(** [OnRecordAfterUpdateSuccess("endpoints")] *)
Definition onEndpointAfterUpdate (e : Env) (save : Saver) (w : World) (r : Record_)
  : Exec SaveResult :=
  if String.eqb (GetString r "prettify_status") "pending"
     && String.eqb (GetString r "extraction_status") "processed" then
    let* s1 := prettifyHTML e save w r "hash" in
    let '(w, r) := s1 in
    let mobileHash := GetString r "mobile_hash" in
    if negb (String.eqb mobileHash "") then
      let* s2 := prettifyHTML e save w r "mobile_hash" in
      Done (fst s2, snd s2, None)
    else Done (w, r, None)
  else Done (w, r, None).

(** *** app.Save *)

(** The row with the id of [r] takes the values of [r]. *)
Fixpoint replaceRow (r : Record_) (rows : list Record_) : list Record_ :=
  match rows with
  | [] => []
  | x :: rest =>
      if String.eqb (Id x) (Id r) then r :: rest else x :: replaceRow r rest
  end.

(** [app.Save(r)]: validate, insert (a record without id) or update,
    then run the hook of the collection.  [fuel] bounds the nesting of
    saves made from inside hooks. *)
Fixpoint SaveN (fuel : nat) (e : Env) (w : World) (r : Record_) : Exec SaveResult :=
  match fuel with
  | O => Panic "hooks nested beyond the fuel"
  | S fuel' =>
      if negb (saveOk e r) then Done (w, r, Some (Err "save failed"))
      else if String.eqb (collection r) "js_files" then
        if String.eqb (Id r) "" then
          let r := withId (newId e (length (js_files w))) r in
          onJSFileAfterCreate e (SaveN fuel' e) (withJSFiles (js_files w ++ [r]) w) r
        else
          onJSFileAfterUpdate e (SaveN fuel' e)
            (withJSFiles (replaceRow r (js_files w)) w) r
      else if String.eqb (collection r) "endpoints" then
        if String.eqb (Id r) "" then
          let r := withId (newId e (length (endpoints w))) r in
          onEndpointAfterCreate e (SaveN fuel' e)
            (withEndpoints (endpoints w ++ [r]) w) r
        else
          onEndpointAfterUpdate e (SaveN fuel' e)
            (withEndpoints (replaceRow r (endpoints w)) w) r
      else Done (w, r, None)
  end.

(** With ids that are never empty, hooks nest at most three saves
    deep; see [Save_fuel]. *)
Definition Save (e : Env) (w : World) (r : Record_) : Exec SaveResult :=
  SaveN 4 e w r.

(** [OnRecordAfterCreateSuccess("tmp_endpoints")], once the body of the
    capture was read; [hash] is what [html.GenerateHTMLHash] gave for
    it, empty after an error.  The answer carries the endpoint record
    the hook made, if it made one. *)
Definition onTmpEndpointAfterCreate (e : Env) (w : World) (tmp : Record_)
    (hash : string) : Exec (World * option Record_ * option error) :=
  let known :=
    if negb (String.eqb hash "") then
      List.find (fun r => String.eqb (GetString r "hash") hash) (endpoints w)
    else None in
  match known with
  | Some _ => Done (w, None, None)
  | None =>
      let record := NewRecord "endpoints" in
      let record := Set_ "url" (AString (GetString tmp "url")) record in
      let record := Set_ "hash" (AString hash) record in
      let record := Set_ "query_string" (AString (GetString tmp "query_string")) record in
      let record :=
        Set_ "request_headers" (AString (GetString tmp "request_headers")) record in
      let record := Set_ "extraction_status" (AString "pending") record in
      let record := Set_ "prettify_status" (AString "pending") record in
      let record := Set_ "created_at" (ATime (now e)) record in
      let* s := Save e w record in
      let '(w', record', err) := s in
      Done (w', Some record', err)
  end.

(** *** extraction/job.go: the writer of the Extraction stage *)

Record JSFileResult : Type := mkJSFileResult {
  URL : string;
  Content : string;
  Type_ : string                   (* normal, inline or mobile *)
}.

(** [app.FindFirstRecordByFilter]: the oldest row that passes. *)
Definition FindFirstRecordByFilter (rows : list Record_) (filter : Record_ -> bool)
  : option Record_ :=
  List.find filter rows.

(** [checkExistingJSFile]: the filter is [url = {:url} || hash = {:hash}]. *)
Definition checkExistingJSFile (w : World) (url contentHash : string) : string :=
  match FindFirstRecordByFilter (js_files w)
          (fun r => String.eqb (GetString r "url") url
                    || String.eqb (GetString r "hash") contentHash) with
  | Some existingRecord => Id existingRecord
  | None => ""
  end.

(** The loop of [saveProcessingResults] over the captured resources. *)
Fixpoint saveJSFiles (e : Env) (w : World) (jsFiles : list JSFileResult)
    (jsFileIDs : list string) : Exec (World * list string) :=
  match jsFiles with
  | [] => Done (w, jsFileIDs)
  | jsFile :: rest =>
      let contentHash := Sha256 e (Content jsFile) in
      let existingID := checkExistingJSFile w (URL jsFile) contentHash in
      if negb (String.eqb existingID "") then
        saveJSFiles e w rest (jsFileIDs ++ [existingID])
      else
        let written := SaveJSFile e (URL jsFile) (Content jsFile) in
        let newRecord :=
          Set_ "type" (AString (Type_ jsFile))
            (Set_ "hash" (AString contentHash)
              (Set_ "url" (AString (URL jsFile)) (NewRecord "js_files"))) in
        let* s := Save e w newRecord in
        let '(w', newRecord', _) := s in
        saveJSFiles e w' rest (jsFileIDs ++ [Id newRecord'])
  end.

(** [saveProcessingResults] *)
Definition saveProcessingResults (e : Env) (w : World) (endpointRecord : Record_)
    (html : string) (jsFiles : list JSFileResult) (isMobile : bool)
  : Exec SaveResult :=
  let htmlHash := SaveHTMLFile e (GetString endpointRecord "url") html in
  let endpointRecord :=
    if negb (String.eqb htmlHash "") then
      if isMobile then Set_ "mobile_hash" (AString htmlHash) endpointRecord
      else Set_ "hash" (AString htmlHash) endpointRecord
    else endpointRecord in
  let* s := saveJSFiles e w jsFiles [] in
  let '(w', jsFileIDs) := s in
  let endpointRecord := Set_ "js_files" (AStrings jsFileIDs) endpointRecord in
  Save e w' endpointRecord.

(** *** The Dechunker stage: processJob and fetchAndSaveChunks *)

Definition looksLikeHTML (content : string) : bool :=
  let trimmed := HTML.TrimSpace content in
  String.prefix "<!DOCTYPE html>" trimmed || String.prefix "<html>" trimmed.

(** The record [fetchAndSaveChunks] builds for a fetched chunk. *)
Definition chunkRecord (e : Env) (parentJSFileID absoluteURL hash : string) : Record_ :=
  Set_ "created_at" (ATime (now e))
    (Set_ "has_chunks" (ABool false)
      (Set_ "type" (AString "chunk")
        (Set_ "parent_id" (AString parentJSFileID)
          (Set_ "hash" (AString hash)
            (Set_ "url" (AString absoluteURL) (NewRecord "js_files")))))).

(** The loop of [fetchAndSaveChunks]; each [continue] of the source is
    a branch that goes on with the world unchanged. *)
Fixpoint fetchAndSaveLoop (e : Env) (w : World) (parentJSFileID : string)
    (chunkURLs : list string) : Exec World :=
  match chunkURLs with
  | [] => Done w
  | absoluteURL :: rest =>
      match FindFirstRecordByFilter (js_files w)
              (fun r => String.eqb (GetString r "url") absoluteURL) with
      | Some _ => fetchAndSaveLoop e w parentJSFileID rest
      | None =>
          match fetchChunk e absoluteURL with
          | None => fetchAndSaveLoop e w parentJSFileID rest
          | Some (content, contentType) =>
              if negb (Contains contentType "javascript")
                 && negb (Contains contentType "text/plain")
              then fetchAndSaveLoop e w parentJSFileID rest
              else if looksLikeHTML content
              then fetchAndSaveLoop e w parentJSFileID rest
              else if (String.length content =? 0)%nat
              then fetchAndSaveLoop e w parentJSFileID rest
              else
                let hash := SaveJSFile e absoluteURL content in
                let newRecord := chunkRecord e parentJSFileID absoluteURL hash in
                let* s := Save e w newRecord in
                fetchAndSaveLoop e (fst (fst s)) parentJSFileID rest
          end
      end
  end.

(** [fetchAndSaveChunks] *)
Definition fetchAndSaveChunks (e : Env) (w : World) (parentJSFileID : string)
    (chunkURLs : list string) : Exec World :=
  fetchAndSaveLoop e w parentJSFileID chunkURLs.

Definition failDechunker (e : Env) (w : World) (r : Record_) : Exec SaveResult :=
  Save e w (Set_ "dechunker_status" (AString "failed") r).

(** The dechunker's [processJob] on the record of the job. *)
Definition dechunkerProcessJob (e : Env) (w : World) (jsFileRecord : Record_)
  : Exec (World * Record_) :=
  let bodyHash := GetString jsFileRecord "hash" in
  let fileURL := GetString jsFileRecord "url" in
  if String.eqb bodyHash "" || String.eqb fileURL "" then
    let* s := failDechunker e w jsFileRecord in Done (fst (fst s), snd (fst s))
  else
    match GetJSFilePath e fileURL bodyHash with
    | None =>
        let* s := failDechunker e w jsFileRecord in Done (fst (fst s), snd (fst s))
    | Some fullPath =>
        match ExtractChunksFromFile e fullPath fileURL with
        | None =>
            let* s := failDechunker e w jsFileRecord in Done (fst (fst s), snd (fst s))
        | Some chunkURLs =>
            let* s1 :=
              match chunkURLs with
              | [] => Done (w, jsFileRecord)
              | _ =>
                  let r := Set_ "has_chunks" (ABool true) jsFileRecord in
                  let* s := Save e w r in
                  let '(w1, r1, _) := s in
                  let* w2 := fetchAndSaveChunks e w1 (Id r1) chunkURLs in
                  Done (w2, r1)
              end in
            let '(w', r') := s1 in
            let r' := Set_ "dechunker_status" (AString "processed") r' in
            let r' := Set_ "last_modified" (ATime (now e)) r' in
            let* s := Save e w' r' in
            Done (fst (fst s), snd (fst s))
        end
    end.

(** *** The recovery sweep *)

Definition createdAt (r : Record_) : option Z :=
  match data r !! "created_at" with
  | Some (ATime t) => Some t
  | _ => None
  end.

(** The order of the sort column; a row without the date comes first. *)
Definition dateLt (a b : option Z) : bool :=
  match a, b with
  | None, Some _ => true
  | Some x, Some y => (x <? y)%Z
  | _, None => false
  end.

Fixpoint insertByDate (r : Record_) (sorted : list Record_) : list Record_ :=
  match sorted with
  | [] => [r]
  | x :: rest =>
      if dateLt (createdAt x) (createdAt r) then x :: insertByDate r rest
      else r :: x :: rest
  end.

(** [app.FindRecordsByFilter(coll, filter, "created_at", 0, 0)]: the
    rows that pass, oldest [created_at] first (rows of equal date keep
    their order). *)
Definition FindRecordsByFilter (rows : list Record_) (filter : Record_ -> bool)
  : list Record_ :=
  fold_right insertByDate [] (List.filter filter rows).

(** The filter [f = 'pending' || f = 'processing']. *)
Definition pendingOrProcessing (field : string) (r : Record_) : bool :=
  String.eqb (GetString r field) "pending"
  || String.eqb (GetString r field) "processing".

(** A [for _, record := range records] that submits; an error of the
    submission is logged and the loop goes on. *)
Fixpoint submitEach (submit : World -> Record_ -> Exec (World * option error))
    (w : World) (records : list Record_) : Exec World :=
  match records with
  | [] => Done w
  | record :: rest =>
      let* s := submit w record in
      submitEach submit (fst s) rest
  end.

(** [prettifyWorkerPool.SubmitJob(PrettifyJob{Record: record, App: app})] *)
Definition submitPrettifyRecovery (e : Env) (w : World) (record : Record_)
  : Exec (World * option error) :=
  let* p := deref (prettifyPool (pools w)) in
  let* s := Pool.SubmitJob "prettify" (pick e record) p
              (Prettify.mkJob (Some record) "" "") in
  Done (withPools (withPrettify (Some (fst s)) (pools w)) w, snd s).

(** [analysisWorkerPool.SubmitJob(AnalysisJob{Record: record, App: app})] *)
Definition submitAnalysisRecovery (e : Env) (w : World) (record : Record_)
  : Exec (World * option error) :=
  let* p := deref (analysisPool (pools w)) in
  let* s := Pool.SubmitJob "analysis" (pick e record) p (mkAnalysisJob record) in
  Done (withPools (withAnalysis (Some (fst s)) (pools w)) w, snd s).

(** [recoverPendingJobs] *)
Definition recoverPendingJobs (e : Env) (w : World) : Exec World :=
  let pendingEndpoints :=
    FindRecordsByFilter (endpoints w) (pendingOrProcessing "extraction_status") in
  let* w := submitEach AddExtractionJob w pendingEndpoints in
  let pendingEndpointPrettify :=
    FindRecordsByFilter (endpoints w) (pendingOrProcessing "prettify_status") in
  let* w := submitEach (submitPrettifyRecovery e) w pendingEndpointPrettify in
  let pendingJSPrettify :=
    FindRecordsByFilter (js_files w) (pendingOrProcessing "prettify_status") in
  let* w := submitEach (submitPrettifyRecovery e) w pendingJSPrettify in
  let pendingSourcemap :=
    FindRecordsByFilter (js_files w) (pendingOrProcessing "sourcemap_status") in
  let* w := submitEach AddSourcemapJob w pendingSourcemap in
  let pendingAnalysis :=
    FindRecordsByFilter (js_files w) (pendingOrProcessing "analysis_status") in
  let* w := submitEach (submitAnalysisRecovery e) w pendingAnalysis in
  let pendingDechunker :=
    FindRecordsByFilter (js_files w) (pendingOrProcessing "dechunker_status") in
  submitEach (AddDechunkerJob e) w pendingDechunker.

(** *** The pipeline as a transition system

    The functions above are the atomic actions; a state also keeps
    the record objects that some goroutine may still hold ([objects],
    every version that was ever a row, sat in a queue or came back
    from a save) and the jobs the Dechunker workers have taken from
    their queue ([dechunking]). *)

Record System : Type := mkSystem {
  world : World;
  objects : list Record_;
  dechunking : list Record_
}.

(** The fields the workers of a stage set on the record of their job
    before they save it ([processJob] of each stage). *)
Definition prettifyFields : list string :=
  ["line_count"; "prettify_status"; "last_modified"].
Definition sourcemapFields : list string := ["sourcemap_status"].
Definition analysisFields : list string := ["analysis_status"].
Definition extractionFields : list string := ["extraction_status"].

(** [o'] is [o] after [Set] calls on fields of [fields] only. *)
Definition writes (fields : list string) (o o' : Record_) : Prop :=
  collection o' = collection o /\ Id o' = Id o
  /\ forall k, ~ In k fields -> data o' !! k = data o !! k.

Definition queued {Job : Type} (p : option (Pool.WorkerPool Job)) : list Job :=
  match p with
  | Some pool => Pool.buf (Pool.jobQueue pool)
  | None => []
  end.

(** The records of the jobs waiting in the five queues. *)
Definition queuedRecords (ps : Pools) : list Record_ :=
  map extractionRecord (queued (extractionPool ps))
  ++ omap Prettify.JobRecord (queued (prettifyPool ps))
  ++ map sourcemapRecord (queued (sourcemapPool ps))
  ++ map analysisRecord (queued (analysisPool ps))
  ++ map dechunkerRecord (queued (dechunkerPool ps)).

(** A worker receives the oldest job of a queue. *)
Definition receive {Job : Type} (p : option (Pool.WorkerPool Job))
  : option (Job * option (Pool.WorkerPool Job)) :=
  match p with
  | Some pool =>
      match Pool.buf (Pool.jobQueue pool) with
      | job :: rest =>
          Some (job,
                Some (Pool.withQueue
                        (Pool.mkChan rest (Pool.cap (Pool.jobQueue pool))
                           (Pool.closed (Pool.jobQueue pool))) pool))
      | [] => None
      end
  | None => None
  end.

(** The pools as [RunDB] leaves them: made, started and registered. *)
Definition started {Job : Type} (stage : string) (maxWorkers : Z) (queueSize : nat)
  : option (Pool.WorkerPool Job) :=
  Some (fst (Pool.Start stage (Pool.NewWorkerPool maxWorkers queueSize))).

Definition startedPools (sizes : list (Z * nat)) : Pools :=
  let size i := nth i sizes (0%Z, O) in
  mkPools (started "extraction" (fst (size 0%nat)) (snd (size 0%nat)))
          (started "prettify" (fst (size 1%nat)) (snd (size 1%nat)))
          (started "sourcemap" (fst (size 2%nat)) (snd (size 2%nat)))
          (started "analysis" (fst (size 3%nat)) (snd (size 3%nat)))
          (started "dechunker" (fst (size 4%nat)) (snd (size 4%nat))).

(** config/variables.go *)
Definition defaultSizes : list (Z * nat) :=
  [(4%Z, 100%nat); (8%Z, 400%nat); (4%Z, 400%nat); (6%Z, 400%nat); (4%Z, 400%nat)].

Definition extractionType (t : string) : bool :=
  String.eqb t "normal" || String.eqb t "inline" || String.eqb t "mobile".

Inductive step : System -> System -> Prop :=
(* a captured page arrives *)
| step_ingest e sys tmp hash w' record err :
    onTmpEndpointAfterCreate e (world sys) tmp hash = Done (w', record, err) ->
    step sys (mkSystem w' (option_list record ++ objects sys) (dechunking sys))
(* a goroutine gets hold of a row or of the record of a waiting job *)
| step_load_row sys r :
    In r (js_files (world sys) ++ endpoints (world sys)) ->
    step sys (mkSystem (world sys) (r :: objects sys) (dechunking sys))
| step_load_job sys r :
    In r (queuedRecords (pools (world sys))) ->
    step sys (mkSystem (world sys) (r :: objects sys) (dechunking sys))
(* workers take jobs *)
| step_take_extraction sys job p' :
    receive (extractionPool (pools (world sys))) = Some (job, p') ->
    step sys (mkSystem (withPools (withExtraction p' (pools (world sys))) (world sys))
                (extractionRecord job :: objects sys) (dechunking sys))
| step_take_prettify sys job p' :
    receive (prettifyPool (pools (world sys))) = Some (job, p') ->
    step sys (mkSystem (withPools (withPrettify p' (pools (world sys))) (world sys))
                (option_list (Prettify.JobRecord job) ++ objects sys)
                (dechunking sys))
| step_take_sourcemap sys job p' :
    receive (sourcemapPool (pools (world sys))) = Some (job, p') ->
    step sys (mkSystem (withPools (withSourcemap p' (pools (world sys))) (world sys))
                (sourcemapRecord job :: objects sys) (dechunking sys))
| step_take_analysis sys job p' :
    receive (analysisPool (pools (world sys))) = Some (job, p') ->
    step sys (mkSystem (withPools (withAnalysis p' (pools (world sys))) (world sys))
                (analysisRecord job :: objects sys) (dechunking sys))
| step_take_dechunker sys job p' :
    receive (dechunkerPool (pools (world sys))) = Some (job, p') ->
    step sys (mkSystem (withPools (withDechunker p' (pools (world sys))) (world sys))
                (objects sys) (dechunkerRecord job :: dechunking sys))
(* a Prettify, Sourcemap, Analysis or Extraction worker sets its
   fields on the record it holds and saves it *)
| step_write e sys fields o o' w' o'' err :
    In o (objects sys) ->
    In fields [prettifyFields; sourcemapFields; analysisFields; extractionFields] ->
    writes fields o o' ->
    Save e (world sys) o' = Done (w', o'', err) ->
    step sys (mkSystem w' (o'' :: o' :: objects sys) (dechunking sys))
(* an Extraction worker registers what the browser captured *)
| step_extract e sys endpointRecord html jsFiles isMobile w' r' err :
    In endpointRecord (objects sys) ->
    collection endpointRecord = "endpoints" ->
    Forall (fun f => extractionType (Type_ f) = true) jsFiles ->
    saveProcessingResults e (world sys) endpointRecord html jsFiles isMobile
      = Done (w', r', err) ->
    step sys (mkSystem w' (r' :: objects sys) (dechunking sys))
(* a Dechunker worker runs the job it took *)
| step_dechunk e sys r w' r' :
    In r (dechunking sys) ->
    dechunkerProcessJob e (world sys) r = Done (w', r') ->
    step sys (mkSystem w' (r' :: objects sys) (dechunking sys))
(* the sweep after bootstrap *)
| step_recover e sys w' :
    recoverPendingJobs e (world sys) = Done w' ->
    step sys (mkSystem w' (objects sys) (dechunking sys))
(* the process ends and starts again on the same store *)
| step_restart sys sizes :
    step sys (mkSystem (withPools (startedPools sizes) (world sys)) [] []).

(** A first start on an empty store. *)
Definition initial (sizes : list (Z * nat)) : System :=
  mkSystem (mkWorld [] [] (startedPools sizes)) [] [].

Inductive reachable (sizes : list (Z * nat)) : System -> Prop :=
| reach_initial : reachable sizes (initial sizes)
| reach_step sys sys' : reachable sizes sys -> step sys sys' -> reachable sizes sys'.

End DB.

(** ** Package extraction: the batch submissions of pool.go *)

Module Extraction.
Import Go Core Strings DB.

(** [%d] of [fmt] on a count. *)
Definition itoa (n : nat) : string := NilZero.string_of_uint (Nat.to_uint n).

Definition errNoSpace (need have : nat) : error :=
  Err ("not enough space in extraction queue: need " ++ itoa need
       ++ " slots, have " ++ itoa have ++ " available").
Definition errBecameFull (record : Record_) : error :=
  Err ("extraction queue became full while adding job for "
       ++ GetString record "url").
Definition errBatchShuttingDown : error := Err "worker pool is shutting down".
Definition wrapBatch (successCount total : nat) (e : error) : error :=
  match e with
  | Err m =>
      Err ("added " ++ itoa successCount ++ "/" ++ itoa total
           ++ " jobs before error: " ++ m)
  end.

(** What a batch loop carries: the queue, [successCount], [lastError]. *)
Definition LoopState : Type :=
  Pool.Chan ExtractionJob * nat * option error.

(** The loop of [AddExtractionJobs]: a [select] with the send and a
    [default].  The [break] of the default case leaves the [select],
    not the loop, which goes on with the next record. *)
Fixpoint addLoop (ch : Pool.Chan ExtractionJob) (records : list Record_)
    (successCount : nat) (lastError : option error) : Exec LoopState :=
  match records with
  | [] => Done (ch, successCount, lastError)
  | record :: rest =>
      if Pool.sendReady ch then
        let* ch' := Pool.send ch (mkExtractionJob record) in
        addLoop ch' rest (S successCount) lastError
      else addLoop ch rest successCount (Some (errBecameFull record))
  end.

(** The end of both batch functions. *)
Definition batchResult (p : Pool.WorkerPool ExtractionJob) (total : nat)
    (s : LoopState) : Pool.WorkerPool ExtractionJob * option error :=
  let '(ch, successCount, lastError) := s in
  (Pool.withQueue ch p, wrapBatch successCount total <$> lastError).

(** [AddExtractionJobs], on the global pool. *)
Definition AddExtractionJobs (global : option (Pool.WorkerPool ExtractionJob))
    (endpointRecords : list Record_)
  : Exec (option (Pool.WorkerPool ExtractionJob) * option error) :=
  match global with
  | None => Done (None, Some (Pool.errNotInitialized "extraction"))
  | Some p =>
      match endpointRecords with
      | [] => Done (Some p, None)
      | _ =>
          let availableSpace := Pool.GetAvailableSpace p in
          if (availableSpace <? length endpointRecords)%nat then
            Done (Some p, Some (errNoSpace (length endpointRecords) availableSpace))
          else
            let* s := addLoop (Pool.jobQueue p) endpointRecords 0 None in
            let r := batchResult p (length endpointRecords) s in
            Done (Some (fst r), snd r)
      end
  end.

(** The loop of [SubmitJobs]: the [select] also has the case
    [<-p.ctx.Done()]; when it and the send can both proceed, [pickSend]
    is the choice Go makes for the record. *)
Fixpoint submitLoop (pickSend : Record_ -> bool) (ctxDone : bool)
    (ch : Pool.Chan ExtractionJob) (records : list Record_)
    (successCount : nat) (lastError : option error) : Exec LoopState :=
  match records with
  | [] => Done (ch, successCount, lastError)
  | record :: rest =>
      match Pool.sendReady ch, ctxDone with
      | true, true =>
          if pickSend record then
            let* ch' := Pool.send ch (mkExtractionJob record) in
            submitLoop pickSend ctxDone ch' rest (S successCount) lastError
          else
            submitLoop pickSend ctxDone ch rest successCount
              (Some errBatchShuttingDown)
      | true, false =>
          let* ch' := Pool.send ch (mkExtractionJob record) in
          submitLoop pickSend ctxDone ch' rest (S successCount) lastError
      | false, true =>
          submitLoop pickSend ctxDone ch rest successCount
            (Some errBatchShuttingDown)
      | false, false =>
          submitLoop pickSend ctxDone ch rest successCount
            (Some (errBecameFull record))
      end
  end.

(** [SubmitJobs] *)
Definition SubmitJobs (pickSend : Record_ -> bool)
    (p : Pool.WorkerPool ExtractionJob) (endpointRecords : list Record_)
  : Exec (Pool.WorkerPool ExtractionJob * option error) :=
  if negb (Pool.isRunning p) then Done (p, Some (Pool.errNotRunning "extraction"))
  else
    match endpointRecords with
    | [] => Done (p, None)
    | _ =>
        let availableSpace := Pool.GetAvailableSpace p in
        if (availableSpace <? length endpointRecords)%nat then
          Done (p, Some (errNoSpace (length endpointRecords) availableSpace))
        else
          let* s := submitLoop pickSend (Pool.ctxDone p) (Pool.jobQueue p)
                      endpointRecords 0 None in
          Done (batchResult p (length endpointRecords) s)
    end.

(** [AddSequentialExtractionJobs], up to its return; the goroutine it
    leaves behind stops the pool once the queue has drained. *)
Definition AddSequentialExtractionJobs (pickSend : Record_ -> bool)
    (endpointRecords : list Record_)
  : Exec (Pool.WorkerPool ExtractionJob * option error) :=
  let sequentialPool :=
    Pool.NewWorkerPool 1 (length endpointRecords + 10) in
  let '(sequentialPool, err) := Pool.Start "extraction" sequentialPool in
  match err with
  | Some (Err m) =>
      Done (sequentialPool, Some (Err ("failed to start sequential pool: " ++ m)))
  | None =>
      let* r := SubmitJobs pickSend sequentialPool endpointRecords in
      match snd r with
      | Some err =>
          let* s := Pool.Stop (fst r) in
          Done (fst s, Some err)
      | None => Done (fst r, None)
      end
  end.

End Extraction.

(** ** Package storage: writing a script *)

Module Storage.
Import Sourcemap.

(** The disk as [SaveJSFile] meets it: the regular files with their
    content, the directories, and the paths on which [os.Stat] fails
    with an error other than not-exist. *)
Record Disk : Type := mkDisk {
  regular : Files;
  directories : gset string;
  unreadable : gset string
}.

(** A path and the paths above it: [filepath.Dir], repeated. *)
Fixpoint upwards (n : nat) (path : Filesystem.bytes) : list string :=
  ofBytes path ::
  match n with
  | O => []
  | S n' => upwards n' (Filesystem.Dir path)
  end.

(** [os.MkdirAll(path)] when it succeeds: the path and all above it
    are directories afterwards. *)
Definition MkdirAll (path : string) (d : Disk) : Disk :=
  mkDisk (regular d)
         (directories d ∪ list_to_set (upwards (String.length path) (toBytes path)))
         (unreadable d).

(** [_, err := os.Stat(path); os.IsNotExist(err)]: nothing is at the
    path, and [Stat] could tell. *)
Definition statNotExist (d : Disk) (path : string) : bool :=
  bool_decide (regular d !! path = None)
  && bool_decide (path ∉ directories d)
  && bool_decide (path ∉ unreadable d).

(** [os.WriteFile(path, content)] when it succeeds. *)
Definition WriteFile (path content : string) (d : Disk) : Disk :=
  mkDisk (<[path := content]> (regular d)) (directories d) (unreadable d).

(** [SaveJSFile]: the disk after the call and the hash, empty on
    failure.  [fsOk] tells whether [MkdirAll] and [WriteFile] succeed
    on a path; a [MkdirAll] that fails is taken to have made nothing.
    The file is written only if [os.Stat] answers not-exist. *)
Definition SaveJSFile (e : Env) (d : Disk) (url content : string) : Disk * string :=
  let contentHash := Sha256 e content in
  match ExtractDomain e url with
  | None => (d, "")
  | Some domain =>
      let domainDir := JoinPath [FilesPath e; domain] in
      let storageDir := JoinPath [domainDir; contentHash] in
      if negb (fsOk e storageDir) then (d, "")
      else
        let d := MkdirAll storageDir d in
        match GetFileNameFromUrl e url with
        | None => (d, "")
        | Some filename =>
            let fullPath := JoinPath [storageDir; filename] in
            if statNotExist d fullPath then
              if negb (fsOk e fullPath) then (d, "")
              else (WriteFile fullPath content d, contentHash)
            else (d, contentHash)
        end
  end.

End Storage.

(** ** Package url: NormalizeURL *)

Module URL.
Import Strings.

Definition HasPrefix (s prefix : string) : bool := String.prefix prefix s.

(** [strings.HasSuffix], [strings.TrimSuffix] *)
Definition HasSuffix (s suffix : string) : bool :=
  bool_decide (drop (String.length s - String.length suffix) (list_ascii_of_string s)
               = list_ascii_of_string suffix).
Definition TrimSuffix (s suffix : string) : string :=
  if HasSuffix s suffix
  then string_of_list_ascii
         (take (String.length s - String.length suffix) (list_ascii_of_string s))
  else s.

(** [strings.SplitN(s, "/", n)] for [n >= 0]: at most [n] parts, the
    last one the unsplit rest. *)
Fixpoint SplitN (s : string) (n : nat) : list string :=
  match n with
  | O => []
  | S n' =>
      match n' with
      | O => [s]
      | S _ =>
          match cutAt "/"%char s with
          | None => [s]
          | Some (before, after) => before :: SplitN after n'
          end
      end
  end.

(** [NormalizeURL] *)
Definition NormalizeURL (scriptURL baseURL : string) : string :=
  if negb (HasPrefix scriptURL "http") then
    if HasPrefix scriptURL "//" then
      if HasPrefix baseURL "https" then "https:" ++ scriptURL
      else "http:" ++ scriptURL
    else if HasPrefix scriptURL "/" then
      match SplitN baseURL 4 with
      | part0 :: _ :: part2 :: _ => part0 ++ "//" ++ part2 ++ scriptURL
      | _ => scriptURL
      end
    else
      let base := if HasSuffix baseURL "/" then TrimSuffix baseURL "/" else baseURL in
      base ++ "/" ++ scriptURL
  else scriptURL.

End URL.

(** ** Package extraction: inline scripts *)

Module Inline.
Import HTML Strings.

Record InlineJS : Type := mkInlineJS {
  Content : string;
  Index : Z
}.

(** The parser and the two functions of package strings that work on
    Unicode text. *)
Record Env : Type := mkEnv {
  Parse : string -> option Document;        (* html.Parse *)
  TrimSpace : string -> string;             (* strings.TrimSpace *)
  ToLower : string -> string                (* strings.ToLower *)
}.

(** The loop over [n.Attr]: it stops at the first [src]; of the [type]
    attributes before it the last one counts. *)
Fixpoint scanAttrs (e : Env) (attrs : list Attribute) (scriptType : string)
  : bool * string :=
  match attrs with
  | [] => (false, scriptType)
  | attr :: rest =>
      if String.eqb (Key attr) "src" then (true, scriptType)
      else if String.eqb (Key attr) "type"
      then scanAttrs e rest (ToLower e (TrimSpace e (Val attr)))
      else scanAttrs e rest scriptType
  end.

(** The test on [scriptType] that makes [traverse] return. *)
Definition notJavaScript (scriptType : string) : bool :=
  negb (String.eqb scriptType "")
  && (String.eqb scriptType "application/ld+json"
      || String.eqb scriptType "application/json"
      || String.eqb scriptType "text/css"
      || String.eqb scriptType "text/template"
      || (negb (Contains scriptType "javascript")
          && negb (String.eqb scriptType "text/javascript"))).

(** [traverse]; the state is [inlineScripts] and [index].  A script
    element that is skipped returns before the loop over its
    children. *)
Fixpoint traverse (e : Env) (n : Node) (st : list InlineJS * Z) : list InlineJS * Z :=
  match n with
  | Element tag attrs children =>
      let visit :=
        (fix visit (cs : list Node) (st : list InlineJS * Z) : list InlineJS * Z :=
           match cs with
           | [] => st
           | child :: rest => visit rest (traverse e child st)
           end) in
      if String.eqb tag "script" then
        let '(hasSrc, scriptType) := scanAttrs e attrs "" in
        if hasSrc then st
        else if notJavaScript scriptType then st
        else
          let scriptContent := TrimSpace e (textOf n) in
          let st' :=
            if negb (String.eqb scriptContent "")
            then ((fst st ++ [mkInlineJS scriptContent (snd st)])%list, (snd st + 1)%Z)
            else st in
          visit children st'
      else visit children st
  | _ => st
  end.

(** [traverse(doc)] on the document node. *)
Definition traverseAll (e : Env) (doc : Document) (st : list InlineJS * Z)
  : list InlineJS * Z :=
  fold_left (fun st child => traverse e child st) doc st.

(** [ExtractInlineJavaScript]; [None] is the parse error. *)
Definition ExtractInlineJavaScript (e : Env) (htmlContent baseURL : string)
  : option (list InlineJS) :=
  match Parse e htmlContent with
  | None => None
  | Some doc => Some (fst (traverseAll e doc ([], 1%Z)))
  end.

End Inline.

(* ===================================================================== *)
(** * Part II: properties                                                *)
(* ===================================================================== *)

(** ** Prettify: counting lines, and the record-less job *)

Section PrettifyFacts.
Import Go Core Prettify.

(** The bytes a sequence of [Read] answers delivers, up to the first
    end of file. *)
Fixpoint delivered (reads : list ReadResult) : list byte :=
  match reads with
  | [] => []
  | ReadOk bs :: rest => bs ++ delivered rest
  | ReadEOF bs :: _ => bs
  | ReadErr _ :: _ => []
  end.

(** No answer before the end of file is an error. *)
Fixpoint readable (reads : list ReadResult) : bool :=
  match reads with
  | [] => true
  | ReadOk _ :: rest => readable rest
  | ReadEOF _ :: _ => true
  | ReadErr _ :: _ => false
  end.

(** The count in the words of the specification: the newline bytes,
    plus one when the file is not empty and does not end in one. *)
Definition specLineCount (file : list byte) : Z :=
  (Z.of_nat (length (List.filter (fun b => Byte.eqb b x0a) file))
   + match last file with
     | Some b => if Byte.eqb b x0a then 0 else 1
     | None => 0
     end)%Z.

Definition endsLine (seen : list byte) : bool :=
  match last seen with
  | Some b => Byte.eqb b newline
  | None => true
  end.

Lemma bytesCount_filter bs :
  bytesCount bs = Z.of_nat (length (List.filter (fun b => Byte.eqb b x0a) bs)).
Proof.
  induction bs as [|b bs IH]; [reflexivity|].
  cbn [bytesCount List.filter]. unfold newline in *. rewrite IH.
  destruct (Byte.eqb b x0a); cbn [length]; lia.
Qed.

Lemma bytesCount_app a b : bytesCount (a ++ b) = (bytesCount a + bytesCount b)%Z.
Proof.
  induction a as [|x a IH]; cbn [bytesCount app]; [lia|]. rewrite IH. lia.
Qed.

Lemma finish_spec seen :
  finish (bytesCount seen) (endsLine seen) = specLineCount seen.
Proof.
  unfold finish, endsLine, specLineCount, newline. rewrite bytesCount_filter.
  destruct (last seen) as [b|]; [destruct (Byte.eqb b x0a)|]; cbn; lia.
Qed.

Lemma absorb_app seen bs :
  absorb bs (bytesCount seen) (endsLine seen)
  = (bytesCount (seen ++ bs), endsLine (seen ++ bs)).
Proof.
  unfold absorb, endsLine. rewrite last_app, bytesCount_app.
  destruct (last bs) as [b|] eqn:E; [reflexivity|].
  apply last_None in E. subst bs. cbn [bytesCount]. f_equal. lia.
Qed.

Lemma countLoop_spec reads : forall seen,
  readable reads = true ->
  countLoop reads (bytesCount seen) (endsLine seen)
  = (specLineCount (seen ++ delivered reads), None).
Proof.
  induction reads as [|r reads IH]; intros seen Hr.
  - cbn. rewrite app_nil_r, finish_spec. reflexivity.
  - destruct r as [bs|bs|bs]; cbn [countLoop delivered readable] in *.
    + rewrite absorb_app. rewrite IH by assumption. by rewrite <- app_assoc.
    + rewrite absorb_app, finish_spec. reflexivity.
    + discriminate.
Qed.

(** C9.  When the file opens and reads without error, [countLines]
    returns the number of newline bytes of the file, plus one if the
    file is not empty and its last byte is no newline, whatever the
    sizes of the chunks [Read] delivers; an empty file counts 0. *)
Theorem countLines_counts_lines (reads : list ReadResult) :
  readable reads = true ->
  countLines (Some reads) = (specLineCount (delivered reads), None)
  /\ (delivered reads = [] -> fst (countLines (Some reads)) = 0%Z).
Proof.
  intros Hr. unfold countLines.
  pose proof (countLoop_spec reads [] Hr) as H. cbn in H. split.
  - exact H.
  - intros E. rewrite H, E. reflexivity.
Qed.

(** A file of three lines that ends without newline, delivered in two
    blocks with an empty read between them. *)
Definition threeLines : list ReadResult :=
  [ReadOk [x61; x0a; x62]; ReadOk []; ReadEOF [x0a; x63]].

Lemma countLines_counts_lines_witness :
  readable threeLines = true
  /\ countLines (Some threeLines) = (3%Z, None).
Proof.
  split; [reflexivity|].
  exact (proj1 (countLines_counts_lines threeLines eq_refl)).
Defined.

(** With a record, [processJob] returns on every path. *)
Lemma processJob_returns_with_record e workerID r path type :
  returns (processJob e workerID (mkJob (Some r) path type)) = true.
Proof.
  unfold processJob. cbn.
  destruct (String.eqb path ""); [reflexivity|].
  destruct (prettifyFile e path type) as [e' [err|]]; cbn; [reflexivity|].
  destruct (negb (String.eqb (Id r) "")); [|reflexivity].
  destruct (countLines (openFile e' path)); reflexivity.
Qed.

(** A job without record returns as long as the prettifier succeeds
    or the path is missing. *)
Lemma processJob_nil_record_ok e workerID path type :
  path = "" \/ snd (prettifyFile e path type) = None ->
  returns (processJob e workerID (mkJob None path type)) = true.
Proof.
  intros [->|H]; [reflexivity|].
  unfold processJob. cbn. destruct (String.eqb path ""); [reflexivity|].
  destruct (prettifyFile e path type) as [e' [err|]]; [discriminate|reflexivity].
Qed.

(** The failure path reads [job.Record.Get("url")] for the log line
    before it tests the record against nil. *)
Lemma processJob_nil_record_failure e workerID path type err :
  path <> "" ->
  snd (prettifyFile e path type) = Some err ->
  returns (processJob e workerID (mkJob None path type)) = false.
Proof.
  intros Hp H. unfold processJob. cbn.
  destruct (String.eqb_spec path ""); [contradiction|].
  destruct (prettifyFile e path type) as [e' [err'|]]; [reflexivity|discriminate].
Qed.

(** An environment without the file to prettify. *)
Definition bareEnv : Env :=
  mkEnv "/usr/local/bin/prettifier"
        {[ "/usr/local/bin/prettifier" := [] ]}
        (fun _ content => Some content) (fun content => [ReadEOF content]) 0.

(** C10 (the code departs from the claim).  The record-less job whose
    file is missing makes the prettifier call fail, and [processJob]
    then panics on the nil record instead of returning. *)
Theorem processJob_nil_record_panics :
  processJob bareEnv 0 (mkJob None "/tmp/missing.js" "js")
  = Panic "invalid memory address or nil pointer dereference".
Proof. vm_compute. reflexivity. Qed.

End PrettifyFacts.

(** ** The worker pools: the contract of submit *)

Lemma string_app_inv_head (s a b : string) : (s ++ a = s ++ b)%string -> a = b.
Proof.
  induction s as [|c s IH]; cbn; intros H; [exact H|].
  injection H as H. exact (IH H).
Qed.

Section PoolFacts.
Import Go Pool.
Context {Job : Type}.
Variable stage : string.

Implicit Types (p : WorkerPool Job) (job : Job).

(** A pool that was stopped, or never started, refuses the job. *)
Lemma SubmitJob_not_running pickSend p job :
  isRunning p = false ->
  SubmitJob stage pickSend p job = Done (p, Some (errNotRunning stage)).
Proof. intros H. unfold SubmitJob. rewrite H. reflexivity. Qed.

(** A running pool with room takes the job at the end of its queue. *)
Lemma SubmitJob_room pickSend p job :
  isRunning p = true -> ctxDone p = false -> closed (jobQueue p) = false ->
  length (buf (jobQueue p)) < cap (jobQueue p) ->
  SubmitJob stage pickSend p job
  = Done (withQueue (mkChan (buf (jobQueue p) ++ [job]) (cap (jobQueue p)) false) p,
          None).
Proof.
  intros Hr Hd Hc Hlt. apply Nat.ltb_lt in Hlt.
  unfold SubmitJob, sendReady, send.
  rewrite Hr, Hd, Hc, Hlt. reflexivity.
Qed.

(** A running pool whose queue is at capacity answers with the
    queue-full error and is left as it was. *)
Lemma SubmitJob_full pickSend p job :
  isRunning p = true -> ctxDone p = false -> closed (jobQueue p) = false ->
  cap (jobQueue p) <= length (buf (jobQueue p)) ->
  SubmitJob stage pickSend p job = Done (p, Some (errQueueFull stage)).
Proof.
  intros Hr Hd Hc Hge. apply Nat.ltb_ge in Hge.
  unfold SubmitJob, sendReady.
  rewrite Hr, Hd, Hc, Hge. reflexivity.
Qed.

(** The three errors are told apart by their message. *)
Lemma submit_errors_distinct :
  errQueueFull stage <> errNotRunning stage
  /\ errQueueFull stage <> errShuttingDown stage
  /\ errNotRunning stage <> errShuttingDown stage.
Proof.
  unfold errQueueFull, errNotRunning, errShuttingDown.
  repeat split; intros H; injection H as H;
    apply string_app_inv_head in H; discriminate.
Qed.

(** After [Stop] a pool made by [NewWorkerPool] and started refuses
    through [SubmitJob]. *)
Lemma SubmitJob_after_Stop pickSend maxWorkers queueSize job p :
  Stop (fst (Start stage (NewWorkerPool maxWorkers queueSize))) = Done (p, None) ->
  SubmitJob stage pickSend p job = Done (p, Some (errNotRunning stage)).
Proof.
  cbn. intros H. injection H as <-. reflexivity.
Qed.

(** The functions that send on their own do not look at the flag: a
    pool that never ran takes the job. *)
Lemma AddJobDirect_never_started maxWorkers queueSize job :
  0 < queueSize ->
  AddJobDirect stage (Some (NewWorkerPool maxWorkers queueSize)) job
  = Done (Some (withQueue (mkChan [job] queueSize false)
                  (NewWorkerPool maxWorkers queueSize)), None).
Proof.
  intros Hq. apply Nat.ltb_lt in Hq.
  unfold AddJobDirect, sendReady, NewWorkerPool.
  cbn [jobQueue closed buf cap length orb]. rewrite Hq. reflexivity.
Qed.

(** And on a pool that was stopped they send on the closed channel. *)
Lemma AddJobDirect_after_Stop maxWorkers queueSize job p :
  Stop (fst (Start stage (NewWorkerPool maxWorkers queueSize))) = Done (p, None) ->
  AddJobDirect stage (Some p) job = Panic "send on closed channel".
Proof.
  cbn. intros H. injection H as <-. reflexivity.
Qed.

End PoolFacts.

Section SourcemapSubmit.
Import Go Core DB.

(** The sourcemap pool of the defaults, started and stopped again. *)
Definition stoppedSourcemapPool : option (Pool.WorkerPool SourcemapJob) :=
  match Pool.Stop (fst (Pool.Start "sourcemap" (Pool.NewWorkerPool 4 400))) with
  | Done (p, _) => Some p
  | Panic _ => None
  end.

Definition worldWithSourcemap (p : option (Pool.WorkerPool SourcemapJob)) : World :=
  mkWorld [] [] (withSourcemap p (startedPools defaultSizes)).

(** C6 (the code departs from the claim).  [AddSourcemapJob], the
    submit of the Sourcemap stage, never returns the not-running
    error: on the stopped pool it panics with a send on the closed
    queue, and on a pool that was never started it enqueues the job. *)
Theorem AddSourcemapJob_on_stopped_pool (r : Record_) :
  AddSourcemapJob (worldWithSourcemap stoppedSourcemapPool) r
  = Panic "send on closed channel"
  /\ exists w',
       AddSourcemapJob
         (worldWithSourcemap (Some (Pool.NewWorkerPool 4 400))) r = Done (w', None)
       /\ queued (sourcemapPool (pools w')) = [mkSourcemapJob r].
Proof.
  split; [reflexivity|]. eexists. split; reflexivity.
Qed.

End SourcemapSubmit.

(** ** Analysis: the line of a persisted finding *)

Section AnalysisFacts.
Import Go Core Analysis.
Open Scope list_scope.

(** A finding carries the line [raw] of its element. *)
Definition carries (raw : Z) (f : Finding) : Prop :=
  Line f = Z.max raw 1 /\ Data f !! "original_line" = Some (AInt raw).

(** The same, on the stored record. *)
Definition recordCarries (raw : Z) (r : Record_) : Prop :=
  Get r "line" = AInt (Z.max raw 1)
  /\ exists metadata, Get r "metadata" = AMap metadata
                      /\ metadata !! "original_line" = Some (AInt raw).

Lemma atLeastOne_max line : atLeastOne line = Z.max line 1.
Proof. unfold atLeastOne. destruct (Z.leb_spec line 0); lia. Qed.

Lemma ofURL_carries f : carries (urlLine f) (ofURL f).
Proof. split; [apply atLeastOne_max|]. cbn. by rewrite lookup_insert_eq. Qed.
Lemma ofGQL_carries f : carries (gqlLine f) (ofGQL f).
Proof. split; [apply atLeastOne_max|]. cbn. by rewrite lookup_insert_eq. Qed.
Lemma ofDomXSS_carries f : carries (domLine f) (ofDomXSS f).
Proof. split; [apply atLeastOne_max|]. cbn. by rewrite lookup_insert_eq. Qed.
Lemma ofEvent_carries f : carries (evLine f) (ofEvent f).
Proof. split; [apply atLeastOne_max|]. cbn. by rewrite lookup_insert_eq. Qed.
Lemma ofHttp_carries f : carries (httpLine f) (ofHttp f).
Proof.
  split; [apply atLeastOne_max|]. unfold ofHttp. cbn [Data].
  destruct (negb (isNil (httpOptions f)));
    destruct (negb (String.eqb (httpMethod f) ""));
    destruct (negb (String.eqb (httpURL f) ""));
    repeat (rewrite lookup_insert_ne by done); by rewrite lookup_insert_eq.
Qed.

Lemma findingRecord_carries id jsFileID now raw f :
  carries raw f -> recordCarries raw (withId id (findingRecord jsFileID now f)).
Proof.
  intros [Hl Hd]. unfold recordCarries, Get, findingRecord. cbn.
  split.
  - repeat (rewrite lookup_insert_ne by done). rewrite lookup_insert_eq.
    cbn. by rewrite Hl.
  - exists (Data f). split; [|exact Hd].
    repeat (rewrite lookup_insert_ne by done). by rewrite lookup_insert_eq.
Qed.

Definition accepted (s : Store) (jsFileID : string) (now : Z) (finding : Finding) : bool :=
  saveOk s (findingRecord jsFileID now finding).

(** The record stored for a finding, whatever its id. *)
Definition storedFor (jsFileID : string) (now : Z) (finding : Finding) (r : Record_)
  : Prop :=
  exists id, r = withId id (findingRecord jsFileID now finding).

Lemma saveLoop_stores jsFileID now fs : forall s n s' n',
  saveLoop s jsFileID now fs n = (s', n') ->
  hasFindingsCollection s' = hasFindingsCollection s
  /\ exists new,
       findings s' = findings s ++ new
       /\ Forall2 (storedFor jsFileID now) (List.filter (accepted s jsFileID now) fs) new
       /\ n' = (n + Z.of_nat (length new))%Z.
Proof.
  induction fs as [|f fs IH]; intros s n s' n' H; cbn [saveLoop] in H.
  - injection H as <- <-. split; [reflexivity|]. exists [].
    rewrite app_nil_r. split; [reflexivity|]. split; [constructor|cbn; lia].
  - cbn [List.filter]. unfold accepted at 1.
    destruct (saveOk s (findingRecord jsFileID now f)) eqn:Hok.
    + apply IH in H as (Hc & new & E & Hall & Hn). split; [exact Hc|].
      cbn [insert findings] in E. rewrite <- app_assoc in E.
      eexists. split; [exact E|]. split.
      * cbn [app]. constructor; [by eexists|exact Hall].
      * cbn [app length]. lia.
    + by apply IH in H.
Qed.

(** One element of the analyzer's answer, whichever array it is in. *)
Inductive Reported : Type :=
| ReportedURL (f : URLFinding)
| ReportedGQL (f : GQLFinding)
| ReportedDomXSS (f : DomXSSFinding)
| ReportedEvent (f : EventFinding)
| ReportedHttp (f : HttpFinding).

(** The elements in the order [convertToFindings] walks them. *)
Definition reported (result : NodeJSAnalyzerResult) : list Reported :=
  map ReportedURL (URLs result) ++ map ReportedGQL (GQL result)
  ++ map ReportedDomXSS (DomXSS result) ++ map ReportedEvent (Events result)
  ++ map ReportedHttp (HttpAPI result).

Definition rawLine (x : Reported) : Z :=
  match x with
  | ReportedURL f => urlLine f | ReportedGQL f => gqlLine f
  | ReportedDomXSS f => domLine f | ReportedEvent f => evLine f
  | ReportedHttp f => httpLine f
  end.
Definition rawColumn (x : Reported) : Z :=
  match x with
  | ReportedURL f => urlColumn f | ReportedGQL f => gqlColumn f
  | ReportedDomXSS f => domColumn f | ReportedEvent f => evColumn f
  | ReportedHttp f => httpColumn f
  end.
Definition rawValue (x : Reported) : string :=
  match x with
  | ReportedURL f => urlValue f | ReportedGQL f => gqlValue f
  | ReportedDomXSS f => domValue f | ReportedEvent f => evValue f
  | ReportedHttp f => httpValue f
  end.
Definition rawType (x : Reported) : string :=
  match x with
  | ReportedURL f => urlType f | ReportedGQL f => gqlType f
  | ReportedDomXSS f => domType f | ReportedEvent f => evType f
  | ReportedHttp f => httpType f
  end.

(** The finding [convertToFindings] makes of an element. *)
Definition findingOf (x : Reported) : Finding :=
  match x with
  | ReportedURL f => ofURL f | ReportedGQL f => ofGQL f
  | ReportedDomXSS f => ofDomXSS f | ReportedEvent f => ofEvent f
  | ReportedHttp f => ofHttp f
  end.

Lemma convertToFindings_reported result :
  convertToFindings result = map findingOf (reported result).
Proof.
  unfold convertToFindings, reported. rewrite !map_app, !map_map. reflexivity.
Qed.

(** The elements whose record the store takes: all those it accepts,
    when the findings collection is there. *)
Definition persisted (s : Store) (jsFileID : string) (now : Z)
    (result : NodeJSAnalyzerResult) : list Reported :=
  if hasFindingsCollection s
  then List.filter (fun x => saveOk s (findingRecord jsFileID now (findingOf x)))
         (reported result)
  else [].

(** The record is the one stored for the element [x]: it has the type,
    the value and the column of [x], and carries the line of [x]. *)
Definition recordOf (jsFileID : string) (x : Reported) (r : Record_) : Prop :=
  Get r "js_file" = AString jsFileID
  /\ Get r "type" = AString (rawType x)
  /\ Get r "value" = AString (rawValue x)
  /\ Get r "column" = AInt (rawColumn x)
  /\ recordCarries (rawLine x) r.

Lemma findingOf_carries x :
  carries (rawLine x) (findingOf x)
  /\ Type_ (findingOf x) = rawType x /\ Value (findingOf x) = rawValue x
  /\ Column (findingOf x) = rawColumn x.
Proof.
  destruct x as [f|f|f|f|f]; (split; [|by repeat split]);
    [apply ofURL_carries|apply ofGQL_carries|apply ofDomXSS_carries
    |apply ofEvent_carries|apply ofHttp_carries].
Qed.

Lemma storedFor_recordOf jsFileID now x r :
  storedFor jsFileID now (findingOf x) r -> recordOf jsFileID x r.
Proof.
  intros [id ->]. destruct (findingOf_carries x) as (Hc & Ht & Hv & Hcol).
  unfold recordOf. rewrite <- Ht, <- Hv, <- Hcol.
  split; [|split; [|split; [|split]]];
    [| | | |by apply findingRecord_carries];
    unfold Get, findingRecord; cbn;
    repeat (rewrite lookup_insert_ne by done); by rewrite lookup_insert_eq.
Qed.

Lemma filter_map_comm {A B : Type} (f : A -> B) (p : B -> bool) (l : list A) :
  List.filter p (map f l) = map f (List.filter (fun x => p (f x)) l).
Proof.
  induction l as [|a l IH]; [reflexivity|]. cbn [map List.filter].
  destruct (p (f a)); cbn [map]; by rewrite IH.
Qed.

Lemma Forall2_of_map {A B C : Type} (f : A -> B) (P : B -> C -> Prop) l k :
  Forall2 P (map f l) k -> Forall2 (fun x => P (f x)) l k.
Proof.
  revert k. induction l as [|a l IH]; intros k H; inversion H; subst; constructor;
    [assumption|by apply IH].
Qed.

(** C4.  The finding records the Analysis stage stores for a result of
    the analyzer are, in order, those of the elements the store
    accepts.  The record of an element has its type, value and column;
    its line is the maximum of 1 and the line the analyzer reported for
    that element, which it keeps under [metadata.original_line]; so the
    line of every stored finding is at least 1. *)
Theorem persisted_finding_line_clamped s jsFileID now result s' n err :
  persistAnalysis s jsFileID now result = (s', n, err) ->
  exists new,
    findings s' = findings s ++ new
    /\ Forall2 (recordOf jsFileID) (persisted s jsFileID now result) new
    /\ Forall (fun r => exists line, Get r "line" = AInt line /\ (1 <= line)%Z) new.
Proof.
  unfold persistAnalysis, persisted. intros H.
  assert (exists new,
            findings s' = findings s ++ new
            /\ Forall2 (recordOf jsFileID)
                 (if hasFindingsCollection s
                  then List.filter
                         (fun x => saveOk s (findingRecord jsFileID now (findingOf x)))
                         (reported result)
                  else []) new) as (new & E & Hall).
  { rewrite convertToFindings_reported in H.
    assert (hasFindingsCollection s = true ->
            exists s1 n1,
              saveLoop s jsFileID now (map findingOf (reported result)) 0 = (s1, n1)
              /\ findings s' = findings s1) as Hloop.
    { intros Hc. unfold saveFindings in H. rewrite Hc in H. cbn [negb] in H.
      destruct (map findingOf (reported result)) as [|f fs].
      - injection H as <- _ _. by exists s, 0%Z.
      - destruct (saveLoop s jsFileID now (f :: fs) 0) as [s1 n1].
        injection H as <- _ _. by exists s1, n1. }
    destruct (hasFindingsCollection s) eqn:Hc.
    - destruct (Hloop eq_refl) as (s1 & n1 & El & ->).
      apply saveLoop_stores in El as (_ & new & E & Hall & _). exists new.
      split; [exact E|]. unfold accepted in Hall.
      rewrite (filter_map_comm findingOf) in Hall.
      apply Forall2_of_map in Hall.
      eapply Forall2_impl; [exact Hall|]. intros y r Hy.
      exact (storedFor_recordOf jsFileID now y r Hy).
    - exists []. rewrite app_nil_r. split; [|constructor].
      unfold saveFindings in H. rewrite Hc in H.
      destruct (map findingOf (reported result)); by injection H as <- _ _. }
  exists new. split; [exact E|]. split; [exact Hall|].
  clear E. induction Hall as [|x r xs rs Hr _ IH]; constructor; [|exact IH].
  destruct Hr as (_ & _ & _ & _ & Hline & _). eexists. split; [exact Hline|lia].
Qed.

Definition sampleResult : NodeJSAnalyzerResult :=
  mkResult [mkURLFinding "/api" 0 4 "url" ANil] []
           [mkDomXSSFinding "innerHTML" 7 2 "sink"] [] [].

Definition sampleStore : Store :=
  mkStore true (fun _ => true) (fun n => String (ascii_of_nat (97 + n)) "") [].

Lemma persisted_finding_line_clamped_witness :
  exists s' n err new,
    persistAnalysis sampleStore "js1" 5 sampleResult = (s', n, err)
    /\ findings s' = findings sampleStore ++ new
    /\ Forall2 (recordOf "js1")
         [ReportedURL (mkURLFinding "/api" 0 4 "url" ANil);
          ReportedDomXSS (mkDomXSSFinding "innerHTML" 7 2 "sink")] new
    /\ Forall (fun r => exists line, Get r "line" = AInt line /\ (1 <= line)%Z) new.
Proof.
  destruct (persistAnalysis sampleStore "js1" 5 sampleResult) as [[s' n] err] eqn:E0.
  destruct (persisted_finding_line_clamped sampleStore "js1" 5 sampleResult s' n err E0)
    as (new & E & H2 & H3).
  assert (persisted sampleStore "js1" 5 sampleResult
          = [ReportedURL (mkURLFinding "/api" 0 4 "url" ANil);
             ReportedDomXSS (mkDomXSSFinding "innerHTML" 7 2 "sink")]) as Ep
    by (vm_compute; reflexivity).
  rewrite Ep in H2. exists s', n, err, new.
  split; [reflexivity|]. split; [exact E|]. split; [exact H2|exact H3].
Defined.

End AnalysisFacts.

(** ** Paths: source files stay under original/ *)

Section FilesystemFacts.
Import Filesystem.
Open Scope list_scope.

Implicit Types (c e : bytes) (cs es out : list bytes).

(** A path element that [Clean] keeps as it is. *)
Definition normal (e : bytes) : Prop := e <> [] /\ e <> [dot] /\ e <> [dot; dot].

(** A component that cannot lead out of a directory: a normal
    element without separator. *)
Definition safe (c : bytes) : Prop := normal c /\ ~ In slash c.

Lemma eqb_bytes_true a b : eqb_bytes a b = true <-> a = b.
Proof. unfold eqb_bytes. apply bool_decide_eq_true. Qed.
Lemma eqb_bytes_false a b : eqb_bytes a b = false <-> a <> b.
Proof. unfold eqb_bytes. apply bool_decide_eq_false. Qed.

Lemma keepComponent_normal c : keepComponent c = true <-> normal c.
Proof.
  unfold keepComponent, normal, isDot, isDotDot.
  rewrite !andb_true_iff, !negb_true_iff, !eqb_bytes_false. tauto.
Qed.

(** *** Split and JoinSlash *)

Lemma Split_nonempty s : Split s <> [].
Proof.
  destruct s as [|c s]; cbn; [discriminate|].
  destruct (Ascii.eqb c slash); [discriminate|].
  destruct (Split s); discriminate.
Qed.

Lemma Split_app_slash a b : Split (a ++ slash :: b) = Split a ++ Split b.
Proof.
  induction a as [|c a IH]; cbn.
  - reflexivity.
  - destruct (Ascii.eqb c slash); [by rewrite IH|].
    rewrite IH. pose proof (Split_nonempty a) as Hn.
    destruct (Split a); [contradiction|reflexivity].
Qed.

Lemma Split_noslash c : ~ In slash c -> Split c = [c].
Proof.
  induction c as [|x c IH]; cbn; intros H; [reflexivity|].
  destruct (Ascii.eqb_spec x slash) as [->|]; [tauto|].
  rewrite IH by tauto. reflexivity.
Qed.

Lemma Split_elems_noslash s : Forall (fun e => ~ In slash e) (Split s).
Proof.
  induction s as [|c s IH]; cbn; [repeat constructor; tauto|].
  destruct (Ascii.eqb_spec c slash) as [->|Hc].
  - constructor; [tauto|exact IH].
  - destruct (Split s) as [|e es]; [repeat constructor; cbn; tauto|].
    apply Forall_cons in IH as [He Hes]. constructor; [|exact Hes].
    cbn. intros [E|E]; [congruence|tauto].
Qed.

Lemma JoinSlash_cons e es :
  es <> [] -> JoinSlash (e :: es) = e ++ slash :: JoinSlash es.
Proof. destruct es; [contradiction|reflexivity]. Qed.

Lemma JoinSlash_app es1 es2 :
  es1 <> [] -> es2 <> [] ->
  JoinSlash (es1 ++ es2) = JoinSlash es1 ++ slash :: JoinSlash es2.
Proof.
  induction es1 as [|e es1 IH]; intros H1 H2; [contradiction|].
  destruct es1 as [|e' es1].
  - cbn [app]. by rewrite JoinSlash_cons.
  - change ((e :: e' :: es1) ++ es2) with (e :: ((e' :: es1) ++ es2)).
    rewrite JoinSlash_cons by discriminate.
    rewrite (IH ltac:(discriminate) H2).
    rewrite (JoinSlash_cons e (e' :: es1)) by discriminate.
    by rewrite <- app_assoc.
Qed.

Lemma Split_JoinSlash es :
  es <> [] -> Forall (fun e => ~ In slash e) es -> Split (JoinSlash es) = es.
Proof.
  induction es as [|e es IH]; intros Hn Hs; [contradiction|].
  apply Forall_cons in Hs as [He Hes].
  destruct es as [|e' es]; [by apply Split_noslash|].
  rewrite JoinSlash_cons by discriminate.
  rewrite Split_app_slash, Split_noslash by exact He.
  rewrite (IH ltac:(discriminate) Hes). reflexivity.
Qed.

(** *** The element loop of Clean *)

Lemma cleanElems_app r es1 : forall out es2,
  cleanElems r out (es1 ++ es2) = cleanElems r (cleanElems r out es1) es2.
Proof.
  induction es1 as [|e es1 IH]; intros out es2; [reflexivity|].
  cbn. destruct (eqb_bytes e []); [apply IH|].
  destruct (isDot e); [apply IH|].
  destruct (isDotDot e); [|apply IH].
  destruct out as [|top below]; [destruct r; apply IH|].
  destruct (isDotDot top); apply IH.
Qed.

Lemma cleanElems_normal r es : forall out,
  Forall normal es -> cleanElems r out es = rev es ++ out.
Proof.
  induction es as [|e es IH]; intros out H; [reflexivity|].
  apply Forall_cons in H as [(H1 & H2 & H3) Hes]. cbn.
  apply eqb_bytes_false in H1, H2, H3. unfold isDot, isDotDot.
  rewrite H1, H2, H3, IH by exact Hes. by rewrite <- app_assoc.
Qed.

(** The shape of an output of the loop: normal elements above the
    unresolved [..] elements, which a rooted path never has; no
    element holds a separator. *)
Definition wfOut (r : bool) (out : list bytes) : Prop :=
  exists ns dds,
    out = ns ++ dds /\ Forall normal ns /\ Forall (fun e => e = [dot; dot]) dds
    /\ (r = true -> dds = []).

Lemma wfOut_nil r : wfOut r [].
Proof. exists [], []. repeat split; auto. Qed.

Lemma cleanElems_wf r es : forall out,
  wfOut r out -> wfOut r (cleanElems r out es).
Proof.
  induction es as [|e es IH]; intros out Hw; [exact Hw|].
  cbn. destruct (eqb_bytes e []) eqn:E1; [by apply IH|].
  unfold isDot. destruct (eqb_bytes e [dot]) eqn:E2; [by apply IH|].
  unfold isDotDot at 1. destruct (eqb_bytes e [dot; dot]) eqn:E3.
  - apply eqb_bytes_true in E3. subst e.
    destruct Hw as (ns & dds & -> & Hns & Hdds & Hr).
    destruct ns as [|n ns]; cbn [app].
    + destruct dds as [|d dds].
      * destruct r; apply IH; [apply wfOut_nil|].
        exists [], [[dot; dot]]. repeat split; auto. discriminate.
      * apply Forall_cons in Hdds as [-> Hdds].
        unfold isDotDot. rewrite (proj2 (eqb_bytes_true _ _) eq_refl).
        apply IH. exists [], ([dot; dot] :: [dot; dot] :: dds).
        split; [reflexivity|]. split; [constructor|]. split.
        { by repeat constructor. }
        intros Hr'. specialize (Hr Hr'). discriminate.
    + apply Forall_cons in Hns as [(_ & _ & Hn) Hns].
      unfold isDotDot. rewrite (proj2 (eqb_bytes_false _ _) Hn).
      apply IH. by exists ns, dds.
  - apply eqb_bytes_false in E1, E2, E3. apply IH.
    destruct Hw as (ns & dds & -> & Hns & Hdds & Hr).
    exists (e :: ns), dds. repeat split; auto. constructor; [|exact Hns].
    by repeat split.
Qed.

Lemma cleanElems_dotdots r dds : forall acc,
  Forall (fun e => e = [dot; dot]) dds -> Forall (fun e => e = [dot; dot]) acc ->
  (r = true -> dds = []) ->
  cleanElems r acc dds = dds ++ acc.
Proof.
  induction dds as [|d dds IH]; intros acc Hd Ha Hr; [reflexivity|].
  apply Forall_cons in Hd as [-> Hd]. destruct r; [by specialize (Hr eq_refl)|].
  cbn -[dot]. 
  assert (cleanElems false ([dot; dot] :: acc) dds = dds ++ [dot; dot] :: acc) as E.
  { apply IH; auto. discriminate. }
  destruct acc as [|a acc].
  - change (eqb_bytes [dot; dot] []) with false.
    change (isDot [dot; dot]) with false. change (isDotDot [dot; dot]) with true.
    cbn match. rewrite E.
    clear -Hd. induction Hd as [|x l -> _ IHl]; [reflexivity|].
    cbn. f_equal. exact IHl.
  - apply Forall_cons in Ha as [-> Ha].
    change (eqb_bytes [dot; dot] []) with false.
    change (isDot [dot; dot]) with false. change (isDotDot [dot; dot]) with true.
    cbn match. rewrite E.
    clear -Hd. induction Hd as [|x l -> _ IHl]; [reflexivity|].
    cbn. f_equal. exact IHl.
Qed.

Lemma rev_dotdots dds :
  Forall (fun e => e = [dot; dot]) dds -> rev dds = dds.
Proof.
  induction 1 as [|x l -> Hl IH]; [reflexivity|]. cbn. rewrite IH.
  clear IH. induction Hl as [|y l -> _ IH]; [reflexivity|]. cbn. by rewrite IH.
Qed.

Lemma cleanElems_reclean r out : wfOut r out -> cleanElems r [] (rev out) = out.
Proof.
  intros (ns & dds & -> & Hns & Hdds & Hr).
  rewrite rev_app_distr, cleanElems_app, (rev_dotdots dds Hdds).
  rewrite (cleanElems_dotdots r dds [] Hdds (List.Forall_nil _) Hr), app_nil_r.
  rewrite cleanElems_normal by (by apply Forall_rev).
  by rewrite rev_involutive.
Qed.

Lemma cleanElems_noslash r es : forall out,
  Forall (fun e => ~ In slash e) out -> Forall (fun e => ~ In slash e) es ->
  Forall (fun e => ~ In slash e) (cleanElems r out es).
Proof.
  induction es as [|e es IH]; intros out Ho He; [exact Ho|].
  apply Forall_cons in He as [He Hes]. cbn.
  destruct (eqb_bytes e []); [by apply IH|].
  destruct (isDot e); [by apply IH|].
  destruct (isDotDot e).
  - destruct out as [|top below]; [destruct r; apply IH; auto|].
    apply Forall_cons in Ho as [Ht Hb].
    destruct (isDotDot top); apply IH; auto.
  - apply IH; auto.
Qed.

(** *** Clean *)

Definition stackOf (path : bytes) : list bytes :=
  cleanElems (isRooted path) [] (Split path).

Definition rootPrefix (r : bool) : bytes := if r then [slash] else [].

Lemma Clean_eq path : path <> [] -> Clean path = render (isRooted path) (stackOf path).
Proof. destruct path; [contradiction|reflexivity]. Qed.

Lemma render_nonempty r out :
  out <> [] -> render r out = rootPrefix r ++ JoinSlash (rev out).
Proof. destruct r, out; (contradiction || reflexivity). Qed.

Lemma stackOf_wf path : wfOut (isRooted path) (stackOf path).
Proof. apply cleanElems_wf, wfOut_nil. Qed.

Lemma stackOf_noslash path : Forall (fun e => ~ In slash e) (stackOf path).
Proof. apply cleanElems_noslash; [constructor|apply Split_elems_noslash]. Qed.

Lemma wfOut_last_nonempty r out x l :
  wfOut r out -> rev out = x :: l -> x <> [].
Proof.
  intros (ns & dds & -> & Hns & Hdds & _) E.
  assert (In x (ns ++ dds)) as Hin.
  { apply in_rev. rewrite E. by left. }
  apply in_app_or in Hin as [Hin|Hin].
  - rewrite Forall_forall in Hns. apply list_elem_of_In, Hns in Hin. apply Hin.
  - rewrite Forall_forall in Hdds. apply list_elem_of_In, Hdds in Hin.
    subst x. discriminate.
Qed.

Lemma isRooted_JoinSlash x l :
  x <> [] -> isRooted (JoinSlash (x :: l)) = isRooted x.
Proof.
  intros Hx. destruct x as [|c x]; [contradiction|].
  destruct l; reflexivity.
Qed.

Lemma isRooted_noslash x : ~ In slash x -> isRooted x = false.
Proof.
  destruct x as [|c x]; [reflexivity|]. cbn. intros H.
  destruct (Ascii.eqb_spec c slash); [tauto|reflexivity].
Qed.

(** Cleaning a cleaned path finds the same root and elements. *)
Lemma Clean_reclean path :
  path <> [] -> stackOf path <> [] ->
  isRooted (Clean path) = isRooted path /\ stackOf (Clean path) = stackOf path.
Proof.
  intros Hp Hs. rewrite Clean_eq by exact Hp.
  rewrite render_nonempty by exact Hs.
  pose proof (stackOf_wf path) as Hw. pose proof (stackOf_noslash path) as Hn.
  set (r := isRooted path) in *. set (out := stackOf path) in *.
  assert (isRooted (rootPrefix r ++ JoinSlash (rev out)) = r) as Hr.
  { destruct r; [reflexivity|]. cbn [rootPrefix app].
    destruct (rev out) as [|x l] eqn:E.
    { apply (f_equal (@rev _)) in E. rewrite rev_involutive in E. contradiction. }
    rewrite isRooted_JoinSlash by (eapply wfOut_last_nonempty; eauto).
    apply isRooted_noslash. rewrite Forall_forall in Hn. apply Hn.
    apply list_elem_of_In, in_rev. rewrite E. by left. }
  split; [exact Hr|]. unfold stackOf at 1. rewrite Hr.
  assert (rev out <> []) as Hne.
  { intros E. apply (f_equal (@rev _)) in E. rewrite rev_involutive in E.
    contradiction. }
  assert (Forall (fun e => ~ In slash e) (rev out)) as Hn' by (by apply Forall_rev).
  destruct r; cbn [rootPrefix app].
  - cbn [Split]. change (Ascii.eqb slash slash) with true. cbn match.
    rewrite Split_JoinSlash by assumption.
    cbn [cleanElems]. change (eqb_bytes [] []) with true. cbn match.
    by apply cleanElems_reclean.
  - rewrite Split_JoinSlash by assumption. by apply cleanElems_reclean.
Qed.

Lemma Clean_nonempty path : Clean path <> [].
Proof.
  destruct path as [|c p]; [discriminate|]. unfold Clean, render.
  destruct (isRooted (c :: p)); [discriminate|].
  destruct (cleanElems false [] (Split (c :: p))) as [|x l] eqn:E; [discriminate|].
  intros H.
  assert (wfOut false (x :: l)) as Hw.
  { rewrite <- E. apply cleanElems_wf, wfOut_nil. }
  destruct (rev (x :: l)) as [|y l'] eqn:Er.
  { apply (f_equal (@rev _)) in Er. rewrite rev_involutive in Er. discriminate. }
  pose proof (wfOut_last_nonempty _ _ _ _ Hw Er) as Hy.
  destruct l'; cbn in H; [contradiction|].
  by apply app_eq_nil in H as [_ H].
Qed.

Lemma isRooted_app p q : p <> [] -> isRooted (p ++ q) = isRooted p.
Proof. destruct p; [contradiction|reflexivity]. Qed.

Lemma safe_normal cs : Forall safe cs -> Forall normal cs.
Proof. apply List.Forall_impl. by intros c [H _]. Qed.
Lemma safe_noslash cs : Forall safe cs -> Forall (fun e => ~ In slash e) cs.
Proof. apply List.Forall_impl. by intros c [_ H]. Qed.

Lemma stackOf_extend p cs :
  p <> [] -> Forall safe cs -> cs <> [] ->
  stackOf (p ++ slash :: JoinSlash cs) = rev cs ++ stackOf p.
Proof.
  intros Hp Hcs Hne. unfold stackOf.
  rewrite isRooted_app by exact Hp.
  rewrite Split_app_slash, Split_JoinSlash by (auto using safe_noslash).
  rewrite cleanElems_app. apply cleanElems_normal. by apply safe_normal.
Qed.

(** Safe components appended to a path stay below what the path
    cleans to. *)
Lemma Clean_extend p cs :
  p <> [] -> stackOf p <> [] -> Forall safe cs -> cs <> [] ->
  Clean (p ++ slash :: JoinSlash cs) = Clean p ++ slash :: JoinSlash cs.
Proof.
  intros Hp Hs Hcs Hne.
  rewrite Clean_eq by (destruct p; [contradiction|discriminate]).
  rewrite stackOf_extend, isRooted_app by assumption.
  rewrite Clean_eq by exact Hp.
  assert (rev cs ++ stackOf p <> []) as Hne'.
  { intros E. apply app_eq_nil in E as [_ E]. contradiction. }
  rewrite !render_nonempty by assumption.
  rewrite rev_app_distr, rev_involutive.
  rewrite JoinSlash_app; [by rewrite <- app_assoc| |exact Hne].
  intros E. apply (f_equal (@rev _)) in E. rewrite rev_involutive in E.
  contradiction.
Qed.

Lemma Clean_extend_dot p :
  p <> [] -> Clean (p ++ slash :: [dot]) = Clean p.
Proof.
  intros Hp. rewrite Clean_eq by (destruct p; [contradiction|discriminate]).
  rewrite Clean_eq by exact Hp. rewrite isRooted_app by exact Hp.
  f_equal. unfold stackOf. rewrite isRooted_app by exact Hp.
  rewrite Split_app_slash, cleanElems_app. reflexivity.
Qed.

Lemma Clean_idempotent path :
  path <> [] -> stackOf path <> [] -> Clean (Clean path) = Clean path.
Proof.
  intros Hp Hs. destruct (Clean_reclean path Hp Hs) as [Hr Ho].
  rewrite (Clean_eq (Clean path)) by apply Clean_nonempty.
  rewrite Hr, Ho. symmetry. by apply Clean_eq.
Qed.

(** A joined list of safe components is clean already. *)
Lemma Clean_safe cs :
  Forall safe cs -> cs <> [] -> Clean (JoinSlash cs) = JoinSlash cs.
Proof.
  intros Hcs Hne. destruct cs as [|c cs]; [contradiction|].
  pose proof Hcs as Hcs'. apply Forall_cons in Hcs' as [[[Hc _] Hs] _].
  assert (JoinSlash (c :: cs) <> []) as Hj.
  { destruct cs; cbn; [exact Hc|]. destruct c; [contradiction|discriminate]. }
  rewrite Clean_eq by exact Hj. unfold stackOf.
  rewrite isRooted_JoinSlash, (isRooted_noslash c) by assumption.
  rewrite Split_JoinSlash by (auto using safe_noslash).
  rewrite cleanElems_normal by (by apply safe_normal).
  rewrite app_nil_r, render_nonempty, rev_involutive; [reflexivity|].
  intros E. apply (f_equal (@rev _)) in E. rewrite rev_involutive in E.
  discriminate.
Qed.

Lemma stackOf_safe cs :
  Forall safe cs -> cs <> [] -> stackOf (JoinSlash cs) = rev cs.
Proof.
  intros Hcs Hne. destruct cs as [|c cs]; [contradiction|].
  pose proof Hcs as Hcs'. apply Forall_cons in Hcs' as [[[Hc _] Hs] _].
  unfold stackOf.
  rewrite isRooted_JoinSlash, (isRooted_noslash c) by assumption.
  rewrite Split_JoinSlash by (auto using safe_noslash).
  rewrite cleanElems_normal by (by apply safe_normal).
  by rewrite app_nil_r.
Qed.

(** *** The cleaned components *)

Lemma ReplaceInvalid_noslash s : ~ In slash (ReplaceInvalid s).
Proof.
  unfold ReplaceInvalid. rewrite in_map_iff. intros (c & E & _).
  destruct (invalidChar c) eqn:Hc; [discriminate|]. subst c. discriminate.
Qed.

Lemma CollapseDots_incl s x : In x (CollapseDots s) -> In x s.
Proof.
  induction s as [|c s IH]; [tauto|]. cbn [CollapseDots].
  destruct (Ascii.eqb c dot).
  - destruct s as [|d s]; [tauto|].
    destruct (Ascii.eqb d dot); cbn [In] in *; tauto.
  - cbn [In]. tauto.
Qed.

Lemma TrimLeft_incl cut s x : In x (TrimLeft cut s) -> In x s.
Proof.
  induction s as [|c s IH]; [tauto|]. cbn [TrimLeft].
  destruct (cut c); cbn [In] in *; tauto.
Qed.

Lemma Trim_incl cut s x : In x (Trim cut s) -> In x s.
Proof.
  unfold Trim, TrimRight. intros H.
  apply in_rev, TrimLeft_incl in H. apply in_rev in H.
  by apply TrimLeft_incl in H.
Qed.

Lemma CleanPathComponent_noslash c : ~ In slash (CleanPathComponent c).
Proof.
  unfold CleanPathComponent. destruct c as [|x c]; [tauto|].
  set (c4 := ReplaceSpaces _).
  assert (~ In slash c4) as H4.
  { unfold c4, ReplaceSpaces. rewrite in_map_iff. intros (y & E & Hy).
    destruct (Ascii.eqb y space); [discriminate|]. subst y.
    apply Trim_incl, CollapseDots_incl in Hy.
    by apply ReplaceInvalid_noslash in Hy. }
  destruct (50 <? length c4)%nat; [|exact H4].
  intros H. apply H4. rewrite <- (take_drop 50 c4). apply in_or_app. by left.
Qed.

Lemma cleanedComponents_safe components :
  Forall safe (cleanedComponents components).
Proof.
  unfold cleanedComponents. apply Forall_forall. intros c Hc.
  apply list_elem_of_filter in Hc as [Hk Hc].
  split; [by apply keepComponent_normal|].
  apply list_elem_of_In, in_map_iff in Hc as (x & <- & _).
  apply CleanPathComponent_noslash.
Qed.

Lemma unknown_js_safe : safe (bytes_of "unknown.js").
Proof.
  split; [repeat split; discriminate|].
  cbn. intros H. repeat destruct H as [H|H]; try discriminate H. exact H.
Qed.

Lemma Join_cons_nonempty e rest :
  e <> [] -> Join (e :: rest) = Clean (JoinSlash (e :: rest)).
Proof.
  intros He. cbn [Join]. by rewrite (proj2 (eqb_bytes_false _ _) He).
Qed.

Lemma Join_cons_empty rest : Join ([] :: rest) = Join rest.
Proof. reflexivity. Qed.

(** What [CleanSourcePath] returns: safe components, at least one,
    joined. *)
Lemma CleanSourcePath_shape path :
  exists cs, cs <> [] /\ Forall safe cs /\ CleanSourcePath path = JoinSlash cs.
Proof.
  assert (exists cs, cs <> [] /\ Forall safe cs
                     /\ bytes_of "unknown.js" = JoinSlash cs) as Hu.
  { exists [bytes_of "unknown.js"]. split; [discriminate|].
    split; [|reflexivity]. constructor; [apply unknown_js_safe|constructor]. }
  unfold CleanSourcePath. destruct path as [|x p]; [exact Hu|].
  set (comps := cleanedComponents _).
  pose proof (cleanedComponents_safe
                (Split (TrimPrefix (TrimPrefix (TrimPrefix (x :: p) (bytes_of "/"))
                                      (bytes_of "./")) (bytes_of "../")))) as Hs.
  fold comps in Hs. destruct comps as [|c cs]; [exact Hu|].
  exists (c :: cs). split; [discriminate|]. split; [exact Hs|].
  pose proof Hs as Hs'. apply Forall_cons in Hs' as [[[Hc _] _] _].
  rewrite Join_cons_nonempty by exact Hc. by apply Clean_safe.
Qed.

(** *** Dir, Base and Ext of a joined path *)

Lemma existsb_slash s : existsb (Ascii.eqb slash) s = true <-> In slash s.
Proof.
  rewrite existsb_exists. split.
  - intros (x & Hx & E). apply Ascii.eqb_eq in E. by subst x.
  - intros H. exists slash. split; [exact H|apply Ascii.eqb_refl].
Qed.

Lemma cutLastSlash_noslash c : ~ In slash c -> cutLastSlash c = ([], c).
Proof.
  induction c as [|x c IH]; [reflexivity|]. intros H. cbn [cutLastSlash].
  rewrite IH by (cbn in H; tauto).
  destruct (existsb (Ascii.eqb slash) c) eqn:E.
  { apply existsb_slash in E. cbn in H. tauto. }
  destruct (Ascii.eqb_spec x slash) as [->|]; [cbn in H; tauto|reflexivity].
Qed.

Lemma cutLastSlash_snoc p c :
  ~ In slash c -> cutLastSlash (p ++ slash :: c) = (p ++ [slash], c).
Proof.
  intros Hc. induction p as [|x p IH]; cbn [app cutLastSlash].
  - rewrite cutLastSlash_noslash by exact Hc.
    destruct (existsb (Ascii.eqb slash) c) eqn:E.
    { apply existsb_slash in E. contradiction. }
    reflexivity.
  - rewrite IH.
    assert (existsb (Ascii.eqb slash) (p ++ slash :: c) = true) as ->.
    { apply existsb_slash, in_or_app. right. by left. }
    reflexivity.
Qed.

Lemma Dir_joined cs c :
  Forall safe cs -> safe c ->
  Dir (JoinSlash (cs ++ [c]))
  = match cs with [] => [dot] | _ => JoinSlash cs end.
Proof.
  intros Hcs [_ Hc]. unfold Dir. destruct cs as [|c0 cs].
  - cbn [app JoinSlash]. by rewrite cutLastSlash_noslash.
  - rewrite JoinSlash_app by discriminate.
    change (JoinSlash [c]) with c.
    rewrite cutLastSlash_snoc by exact Hc. cbn [fst].
    rewrite <- (Clean_safe (c0 :: cs)) at 2 by (assumption || discriminate).
    remember (JoinSlash (c0 :: cs)) as p eqn:Ep.
    assert (p <> []) as Hp.
    { subst p. apply Forall_cons in Hcs as [[[H0 _] _] _].
      destruct cs; cbn; [exact H0|]. destruct c0; [contradiction|discriminate]. }
    assert (p ++ [slash] <> []) as Hp'.
    { intros E. apply app_eq_nil in E as [_ E]. discriminate. }
    rewrite !Clean_eq by assumption.
    rewrite isRooted_app by exact Hp. f_equal. unfold stackOf.
    rewrite isRooted_app by exact Hp.
    change (p ++ [slash]) with (p ++ slash :: []).
    rewrite Split_app_slash, cleanElems_app. reflexivity.
Qed.

Lemma TrimLeft_id cut s :
  match s with c :: _ => cut c = false | [] => True end -> TrimLeft cut s = s.
Proof. destruct s as [|c s]; [reflexivity|]. cbn. by intros ->. Qed.

Lemma Base_eq path :
  path <> [] ->
  Base path = match snd (cutLastSlash (TrimRight (Ascii.eqb slash) path)) with
              | [] => [slash]
              | b => b
              end.
Proof. destruct path; [contradiction|reflexivity]. Qed.

Lemma Base_joined cs c :
  Forall safe cs -> safe c -> Base (JoinSlash (cs ++ [c])) = c.
Proof.
  intros Hcs [[Hne _] Hc].
  assert (exists p, JoinSlash (cs ++ [c]) = p ++ c
                    /\ (p = [] \/ exists q, p = q ++ [slash])) as (p & E & Hp).
  { destruct cs as [|c0 cs]; [exists []; auto|].
    rewrite JoinSlash_app by discriminate. cbn [JoinSlash].
    exists (JoinSlash (c0 :: cs) ++ [slash]). rewrite <- app_assoc.
    split; [reflexivity|]. right. by eexists. }
  rewrite E, Base_eq by (intros H; apply app_eq_nil in H as [_ H]; contradiction).
  assert (TrimRight (Ascii.eqb slash) (p ++ c) = p ++ c) as ->.
  { unfold TrimRight. rewrite TrimLeft_id; [apply rev_involutive|].
    rewrite rev_app_distr.
    destruct (rev c) as [|z l] eqn:Ez.
    { apply (f_equal (@rev _)) in Ez. rewrite rev_involutive in Ez. contradiction. }
    cbn [app]. destruct (Ascii.eqb_spec slash z) as [<-|]; [|reflexivity].
    exfalso. apply Hc, in_rev. rewrite Ez. by left. }
  destruct Hp as [->|[q ->]].
  - cbn [app]. rewrite cutLastSlash_noslash by exact Hc. cbn [snd].
    destruct c; [contradiction|reflexivity].
  - rewrite <- app_assoc. cbn [app]. rewrite cutLastSlash_snoc by exact Hc.
    cbn [snd]. destruct c; [contradiction|reflexivity].
Qed.

Lemma safe_with_js c : safe c -> safe (c ++ bytes_of ".js").
Proof.
  intros [[Hne _] Hc]. split.
  - destruct c as [|x c]; [contradiction|].
    repeat split; [discriminate| |]; intros E; injection E as _ E;
      destruct c as [|? [|? ?]]; discriminate.
  - intros H. apply in_app_or in H as [H|H]; [contradiction|].
    cbn in H. repeat destruct H as [H|H]; try discriminate H. exact H.
Qed.

Lemma sourceFileName_safe cs c :
  Forall safe cs -> safe c ->
  safe (Sourcemap.sourceFileName (JoinSlash (cs ++ [c]))).
Proof.
  intros Hcs Hc. unfold Sourcemap.sourceFileName.
  rewrite Base_joined by assumption.
  pose proof Hc as [[H1 [H2 _]] _].
  unfold isDot. rewrite (proj2 (eqb_bytes_false _ _) H1),
    (proj2 (eqb_bytes_false _ _) H2). cbn [orb].
  destruct (eqb_bytes (Ext c) []); [by apply safe_with_js|exact Hc].
Qed.

(** *** The path of a source file *)

Definition original : bytes := bytes_of "original".

(** [<files>/<domain>/<js_hash>/original], as [filepath.Join] writes it. *)
Definition originalDir (filesPath domain jsFileHash : bytes) : bytes :=
  Join [filesPath; domain; jsFileHash; original].

(** [p] is [dir], a separator and safe components: it names an entry
    below [dir], and resolving it changes nothing. *)
Definition liesUnder (dir p : bytes) : Prop :=
  Clean p = p
  /\ exists rel, rel <> [] /\ Forall safe rel /\ p = dir ++ slash :: JoinSlash rel.

Lemma original_safe : safe original.
Proof.
  split; [repeat split; discriminate|].
  cbn. intros H. repeat destruct H as [H|H]; try discriminate H. exact H.
Qed.

Lemma JoinSlash_nonempty e rest : e <> [] -> JoinSlash (e :: rest) <> [].
Proof.
  intros He. destruct rest; cbn; [exact He|].
  destruct e; [contradiction|discriminate].
Qed.

Lemma stackOf_extend_dot p :
  p <> [] -> stackOf (p ++ slash :: [dot]) = stackOf p.
Proof.
  intros Hp. unfold stackOf. rewrite isRooted_app by exact Hp.
  rewrite Split_app_slash, cleanElems_app. reflexivity.
Qed.

(** The joins of [saveSourceFile] start from one non-empty path that
    ends in the element [original]. *)
Lemma Join_original f d h x :
  exists p,
    p <> [] /\ stackOf p <> []
    /\ Join [f; d; h; original] = Clean p
    /\ Join [f; d; h; original; x] = Clean (p ++ slash :: x).
Proof.
  assert (forall l, l <> [] ->
            match l with e :: _ => e <> [] | [] => True end ->
            JoinSlash (l ++ [original]) <> []
            /\ stackOf (JoinSlash (l ++ [original])) <> []
            /\ JoinSlash (l ++ [original; x])
               = JoinSlash (l ++ [original]) ++ slash :: x) as Hl.
  { intros l Hne Hhd. destruct l as [|e l]; [contradiction|].
    split; [by apply JoinSlash_nonempty|]. split.
    - rewrite JoinSlash_app by discriminate.
      rewrite (stackOf_extend _ [original]);
        [discriminate|by apply JoinSlash_nonempty| |discriminate].
      constructor; [apply original_safe|constructor].
    - change (e :: l ++ [original; x]) with ((e :: l) ++ [original; x]).
      change [original; x] with ([original] ++ [x]).
      rewrite app_assoc, (JoinSlash_app _ [x]); [reflexivity| |discriminate].
      destruct l; discriminate. }
  destruct f as [|cf f].
  2:{ destruct (Hl [cf :: f; d; h]) as (H1 & H2 & H3); [discriminate..|].
      eexists. split; [exact H1|]. split; [exact H2|].
      rewrite !Join_cons_nonempty by discriminate. split; [reflexivity|].
      f_equal. exact H3. }
  destruct d as [|cd d].
  2:{ destruct (Hl [cd :: d; h]) as (H1 & H2 & H3); [discriminate..|].
      eexists. split; [exact H1|]. split; [exact H2|].
      rewrite !Join_cons_empty, !Join_cons_nonempty by discriminate. split; [reflexivity|].
      f_equal. exact H3. }
  destruct h as [|ch h].
  2:{ destruct (Hl [ch :: h]) as (H1 & H2 & H3); [discriminate..|].
      eexists. split; [exact H1|]. split; [exact H2|].
      rewrite !Join_cons_empty, !Join_cons_nonempty by discriminate. split; [reflexivity|].
      f_equal. exact H3. }
  exists original. split; [discriminate|]. split; [discriminate|].
  rewrite !Join_cons_empty. split; reflexivity.
Qed.

(** X25.  Whatever the source path of a sourcemap is, leading or
    embedded [..] segments included, the file [saveSourceFile] writes
    for it is named by the directory [<files>/<domain>/<js_hash>/original]
    followed by components that hold no separator and are neither
    empty, [.] nor [..]; the path is its own resolution, so it does
    not leave that directory. *)
Theorem source_file_stays_under_original filesPath domain jsFileHash path :
  liesUnder (originalDir filesPath domain jsFileHash)
            (Sourcemap.sourceFileFullPath filesPath domain jsFileHash path).
Proof.
  unfold Sourcemap.sourceFileFullPath, Sourcemap.sourceFileDir, originalDir.
  destruct (CleanSourcePath_shape path) as (cs & Hne & Hcs & ->).
  destruct (exists_last Hne) as (cs0 & c & ->).
  apply Forall_app in Hcs as [Hcs0 Hc]. apply Forall_cons in Hc as [Hc _].
  pose proof (sourceFileName_safe cs0 c Hcs0 Hc) as Hf.
  set (name := Sourcemap.sourceFileName (JoinSlash (cs0 ++ [c]))) in *.
  rewrite Dir_joined by assumption.
  fold original.
  destruct (Join_original filesPath domain jsFileHash
              (match cs0 with [] => [dot] | _ :: _ => JoinSlash cs0 end))
    as (p & Hp & Hsp & -> & ->).
  set (x := p ++ slash :: match cs0 with [] => [dot] | _ :: _ => JoinSlash cs0 end).
  assert (x <> []) as Hx by (unfold x; destruct p; [contradiction|discriminate]).
  assert (stackOf x <> [] /\
          Clean x = Clean p ++ match cs0 with
                               | [] => []
                               | _ => slash :: JoinSlash cs0
                               end) as [Hsx Ex].
  { unfold x. destruct cs0 as [|c0 cs0].
    - rewrite stackOf_extend_dot, Clean_extend_dot, app_nil_r by exact Hp. by split.
    - rewrite stackOf_extend, Clean_extend by (assumption || discriminate).
      split; [|reflexivity].
      intros E. apply app_eq_nil in E as [_ E]. contradiction. }
  destruct (Clean_reclean x Hx Hsx) as [_ Hsd].
  assert (Forall safe [name]) as Hn by (constructor; [exact Hf|constructor]).
  rewrite Join_cons_nonempty by apply Clean_nonempty.
  change (JoinSlash [Clean x; name]) with (Clean x ++ slash :: JoinSlash [name]).
  split.
  - apply Clean_idempotent.
    + pose proof (Clean_nonempty x). destruct (Clean x); [contradiction|discriminate].
    + rewrite stackOf_extend by (apply Clean_nonempty || assumption || discriminate).
      discriminate.
  - rewrite Clean_extend;
      [|apply Clean_nonempty|by rewrite Hsd|exact Hn|discriminate].
    rewrite Clean_idempotent by assumption. rewrite Ex.
    exists (cs0 ++ [name]). split; [by destruct cs0|].
    split; [apply Forall_app; by split|].
    rewrite <- app_assoc. f_equal. destruct cs0 as [|c0 cs0]; [reflexivity|].
    rewrite (JoinSlash_app (c0 :: cs0) [name]) by discriminate. reflexivity.
Qed.

(** The path of scenario S4 and what becomes of it. *)
Example traversal_attempt :
  Sourcemap.sourceFileFullPath (bytes_of "/data/files") (bytes_of "example.test")
    (bytes_of "abc123") (bytes_of "../../../etc/passwd")
  = bytes_of "/data/files/example.test/abc123/original/etc/passwd.js".
Proof. vm_compute. reflexivity. Qed.
End FilesystemFacts.


(** ** The structural hash: what it does not look at *)

Section HTMLFacts.
Import Go HTML.
Open Scope list_scope.

Definition isScript (n : Node) : bool :=
  match n with
  | Element tag _ _ => String.eqb tag "script"
  | _ => false
  end.

(** The [href] and [src] attributes of an element, in their order. *)
Definition essentials (attrs : list Attribute) : list Attribute :=
  List.filter (fun a => essential (Key a)) attrs.

(** One edit of a document: a script node leaves a list of siblings,
    anywhere in the tree, or an element changes attributes other than
    [href] and [src]. *)
Inductive edit : list Node -> list Node -> Prop :=
| edit_remove_script s rest :
    isScript s = true -> edit (s :: rest) rest
| edit_attrs tag attrs attrs' children rest :
    essentials attrs = essentials attrs' ->
    edit (Element tag attrs children :: rest) (Element tag attrs' children :: rest)
| edit_later n siblings siblings' :
    edit siblings siblings' -> edit (n :: siblings) (n :: siblings')
| edit_below tag attrs children children' rest :
    edit children children' ->
    edit (Element tag attrs children :: rest) (Element tag attrs children' :: rest).

(** Documents that differ by such edits, made or undone, in any number:
    a script node that moves is removed in one place and put back in
    another. *)
Definition sameButScriptsAndAttrs : list Node -> list Node -> Prop := rtsc edit.

(** The tree before the texts are replaced. *)
Definition pruned (doc : list Node) : list Node :=
  map stripAttrs (removeAll selDynamic (removeAll selComment doc)).

Lemma removeNode_element sel tag attrs children :
  removeNode sel (Element tag attrs children)
  = if sel tag then None else Some (Element tag attrs (removeAll sel children)).
Proof.
  cbn [removeNode]. destruct (sel tag); [reflexivity|]. do 2 f_equal.
  induction children as [|c cs IH]; [reflexivity|].
  cbn [removeAll]. rewrite <- IH. reflexivity.
Qed.

Lemma stripAttrs_element tag attrs children :
  stripAttrs (Element tag attrs children)
  = Element tag (keepEssential attrs) (map stripAttrs children).
Proof.
  reflexivity.
Qed.

Lemma pruned_element tag attrs children rest :
  pruned (Element tag attrs children :: rest)
  = (if selComment tag || selDynamic tag then []
     else [Element tag (keepEssential attrs) (pruned children)]) ++ pruned rest.
Proof.
  unfold pruned. cbn [removeAll]. rewrite removeNode_element.
  destruct (selComment tag); [reflexivity|].
  cbn [removeAll orb]. rewrite removeNode_element.
  destruct (selDynamic tag); [reflexivity|].
  cbn [map app]. by rewrite stripAttrs_element.
Qed.

Lemma pruned_cons n rest : pruned (n :: rest) = pruned [n] ++ pruned rest.
Proof.
  destruct n as [tag attrs children| | |]; [|reflexivity..].
  rewrite !pruned_element. change (pruned []) with (@nil Node).
  by rewrite app_nil_r.
Qed.

Lemma keepEssential_essentials attrs :
  keepEssential attrs = keepEssential (essentials attrs).
Proof.
  unfold keepEssential, essentials. generalize (@nil Attribute) as acc.
  induction attrs as [|a attrs IH]; intros acc; [reflexivity|].
  cbn [fold_left List.filter].
  destruct (essential (Key a)) eqn:E; cbn [fold_left]; rewrite ?E; apply IH.
Qed.

Lemma edit_pruned doc doc' : edit doc doc' -> pruned doc = pruned doc'.
Proof.
  induction 1 as [s rest Hs|tag attrs attrs' children rest Ha
                  |n siblings siblings' _ IH|tag attrs children children' rest _ IH].
  - destruct s as [tag attrs children| | |]; try discriminate Hs.
    cbn in Hs. apply String.eqb_eq in Hs. subst tag.
    rewrite pruned_element. reflexivity.
  - rewrite !pruned_element, (keepEssential_essentials attrs), Ha.
    by rewrite <- keepEssential_essentials.
  - rewrite (pruned_cons n siblings), (pruned_cons n siblings'). by rewrite IH.
  - rewrite !pruned_element. by rewrite IH.
Qed.

Lemma normalize_pruned doc : normalize doc = map replaceChildren (pruned doc).
Proof. reflexivity. Qed.

Lemma same_normalize doc doc' :
  sameButScriptsAndAttrs doc doc' -> normalize doc = normalize doc'.
Proof.
  intros H. rewrite !normalize_pruned. f_equal.
  induction H as [d|d1 d2 d3 [H12|H21] _ IH]; [reflexivity| |].
  - rewrite <- IH. by apply edit_pruned.
  - rewrite <- IH. symmetry. by apply edit_pruned.
Qed.

(** A script node that changes place among its siblings. *)
Lemma script_moves s n rest :
  isScript s = true -> sameButScriptsAndAttrs (s :: n :: rest) (n :: s :: rest).
Proof.
  intros Hs. eapply rtc_l; [left; by apply edit_remove_script|].
  apply rtc_once. right. apply edit_later. by apply edit_remove_script.
Qed.

(** C8, on the documents the parser builds.  Two inputs get the same
    hash when their documents differ only by script nodes that were
    removed or moved and by attributes of elements other than [href]
    and [src]; and the hash depends on the input only through its
    parsed document, so equal inputs get equal hashes. *)
Theorem GenerateHTMLHash_ignores_scripts_and_attrs e html1 html2 doc1 doc2 :
  Parse e html1 = Some doc1 -> Parse e html2 = Some doc2 ->
  sameButScriptsAndAttrs doc1 doc2 ->
  GenerateHTMLHash e html1 = GenerateHTMLHash e html2
  /\ (forall html html',
        Parse e html = Parse e html' ->
        GenerateHTMLHash e html = GenerateHTMLHash e html').
Proof.
  intros H1 H2 Hs. split.
  - unfold GenerateHTMLHash. rewrite H1, H2, (same_normalize doc1 doc2 Hs). reflexivity.
  - intros html html' H. unfold GenerateHTMLHash. by rewrite H.
Qed.

(** Two pages of the same structure, and libraries small enough to run:
    the parser knows these two pages, the renderer writes tags and
    texts without escaping, the digest is the text itself. *)
Definition pageA : string :=
  "<html><head><script>a()</script></head><body class=x><p>hi</p></body></html>".
Definition pageB : string :=
  "<html><head></head><body id=y><p>hi</p><script>a()</script></body></html>".
Definition treeA : list Node :=
  [Element "html" []
     [Element "head" [] [Element "script" [] [Text "a()"]];
      Element "body" [mkAttr "" "class" "x"] [Element "p" [] [Text "hi"]]]].
Definition treeB : list Node :=
  [Element "html" []
     [Element "head" [] [];
      Element "body" [mkAttr "" "id" "y"]
        [Element "p" [] [Text "hi"]; Element "script" [] [Text "a()"]]]].

Definition renderNode (n : Node) : string :=
  match n with
  | Element tag _ [Text t] => ("<" ++ tag ++ ">" ++ t ++ "</" ++ tag ++ ">")%string
  | Element tag _ _ => ("<" ++ tag ++ ">")%string
  | Text t => t
  | Comment c => ("<!--" ++ c ++ "-->")%string
  | Doctype name _ => ("<!DOCTYPE " ++ name ++ ">")%string
  end.

Definition toyEnv : Env :=
  mkEnv (fun html => if String.eqb html pageA then Some treeA
                     else if String.eqb html pageB then Some treeB else None)
        (fun doc => Some (String.concat "" (map renderNode doc)))
        (fun s => s).

Lemma treeA_treeB : sameButScriptsAndAttrs treeA treeB.
Proof.
  unfold treeA, treeB.
  (* the script leaves the head *)
  eapply rtc_l.
  { left. apply edit_below, edit_below. by apply edit_remove_script. }
  (* the body changes class for id *)
  eapply rtc_l.
  { left. apply edit_below, edit_later.
    by apply (edit_attrs "body" [mkAttr "" "class" "x"] [mkAttr "" "id" "y"]). }
  (* the script enters the body, after the paragraph *)
  apply rtc_once. right.
  apply edit_below, edit_later, edit_below, edit_later.
  by apply edit_remove_script.
Qed.

Lemma GenerateHTMLHash_ignores_scripts_and_attrs_witness :
  GenerateHTMLHash toyEnv pageA = GenerateHTMLHash toyEnv pageB
  /\ (forall html html',
        Parse toyEnv html = Parse toyEnv html' ->
        GenerateHTMLHash toyEnv html = GenerateHTMLHash toyEnv html').
Proof.
  exact (GenerateHTMLHash_ignores_scripts_and_attrs toyEnv pageA pageB treeA treeB
           eq_refl eq_refl treeA_treeB).
Defined.

Example hash_of_pageA : GenerateHTMLHash toyEnv pageA = ("<html>hi</html>", None).
Proof. vm_compute. reflexivity. Qed.
(** A text that starts with a script, and the same text with the
    script taken out.  The parser puts a script at the start into the
    head, and white space that follows in the head stays there; at the
    start of a text, white space is dropped.  The documents are the
    ones [html.Parse] builds by these rules. *)
Definition scriptFirst : string := "<script>x</script> hello".
Definition scriptGone : string := " hello".
Definition scriptFirstTree : list Node :=
  [Element "html" []
     [Element "head" [] [Element "script" [] [Text "x"]; Text " "];
      Element "body" [] [Text "hello"]]].
Definition scriptGoneTree : list Node :=
  [Element "html" []
     [Element "head" [] [];
      Element "body" [] [Text "hello"]]].

Definition parserEnv : Env :=
  mkEnv (fun html => if String.eqb html scriptFirst then Some scriptFirstTree
                     else if String.eqb html scriptGone then Some scriptGoneTree
                     else None)
        (fun doc => Some (String.concat "" (map renderNode doc)))
        (fun s => s).

(** C8 as stated fails: removing the script from the text changes the
    hash, because the white space after it is no longer in the
    document. *)
Lemma removing_script_from_text_changes_hash :
  GenerateHTMLHash parserEnv scriptFirst = ("<html> hello</html>", None)
  /\ GenerateHTMLHash parserEnv scriptGone = ("<html>hello</html>", None)
  /\ GenerateHTMLHash parserEnv scriptFirst <> GenerateHTMLHash parserEnv scriptGone.
Proof.
  assert (GenerateHTMLHash parserEnv scriptFirst = ("<html> hello</html>", None)) as E1
    by (vm_compute; reflexivity).
  assert (GenerateHTMLHash parserEnv scriptGone = ("<html>hello</html>", None)) as E2
    by (vm_compute; reflexivity).
  split; [exact E1|]. split; [exact E2|]. rewrite E1, E2. discriminate.
Qed.
End HTMLFacts.


(** ** Sourcemaps: which bytes are accepted *)

Section SourcemapFacts.
Import Go Core Json Sourcemap.

(** The bytes [ProcessSourceMap] goes on with, if any. *)
Definition obtainedBytes (e : Env) (jsBody jsURL : string) : option string :=
  let sourceMapURL := findSourceMapURL jsBody in
  if negb (String.eqb sourceMapURL "") then
    match getSourceMapContent e sourceMapURL jsURL with
    | Some c => Some c
    | None => tryFallbackMapURL e jsURL
    end
  else tryFallbackMapURL e jsURL.

(** The validation in the words of the specification: the bytes parse
    as JSON and contain [version], a number of at least 1, and
    [sources], an array. *)
Definition validAsSpecified (doc : option JSON) : Prop :=
  exists fields n d i elems,
    doc = Some (JObject fields)
    /\ lookupLast String.eqb "version" fields = Some (JNumber (Some (n, d)) i)
    /\ (Z.pos d <= n)%Z
    /\ lookupLast String.eqb "sources" fields = Some (JArray elems).

(** The bytes come out of the data URI of the comment. *)
Definition fromDataURI (e : Env) (jsBody content : string) : Prop :=
  HasPrefix (findSourceMapURL jsBody) "data:" = true
  /\ DecodeDataURI e (findSourceMapURL jsBody) = Some content.

Lemma isValidSourceMapContent_spec e content :
  isValidSourceMapContent e content = true -> validAsSpecified (jsonDecode e content).
Proof.
  unfold isValidSourceMapContent, unmarshalMap, validAsSpecified.
  destruct (jsonDecode e content) as [[| | | | |fields]|];
    try (cbn; discriminate).
  destruct (decodable (JObject fields)); [|discriminate].
  destruct (lookupLast String.eqb "version" fields)
    as [[| |[[n d]|] i| | |]|] eqn:Ev; try discriminate.
  destruct (Z.ltb_spec n (Z.pos d)); [discriminate|].
  destruct (lookupLast String.eqb "sources" fields)
    as [[| | | |elems|]|] eqn:Es; try discriminate.
  intros _. exists fields, n, d, i, elems. repeat split; assumption || reflexivity.
Qed.

Lemma fetchSourceMapContent_valid e mapURL content :
  fetchSourceMapContent e mapURL = Some content ->
  isValidSourceMapContent e content = true.
Proof.
  unfold fetchSourceMapContent. destruct (httpGet e mapURL) as [c|]; [|discriminate].
  destruct (isValidSourceMapContent e c) eqn:E; [|discriminate].
  cbn. by intros [= <-].
Qed.

Lemma tryFallbackMapURL_valid e jsURL content :
  tryFallbackMapURL e jsURL = Some content ->
  isValidSourceMapContent e content = true.
Proof.
  unfold tryFallbackMapURL. destruct (RemoveQueryString e jsURL); [|discriminate].
  apply fetchSourceMapContent_valid.
Qed.

Lemma obtainedBytes_origin e jsBody jsURL content :
  obtainedBytes e jsBody jsURL = Some content ->
  isValidSourceMapContent e content = true \/ fromDataURI e jsBody content.
Proof.
  unfold obtainedBytes, getSourceMapContent, fromDataURI.
  destruct (negb (String.eqb (findSourceMapURL jsBody) ""));
    [|left; by eapply tryFallbackMapURL_valid].
  destruct (HasPrefix (findSourceMapURL jsBody) "data:").
  - destruct (DecodeDataURI e (findSourceMapURL jsBody)) as [c|].
    + intros [= <-]. by right.
    + left. by eapply tryFallbackMapURL_valid.
  - destruct (ToAbsoluteURL e jsURL (findSourceMapURL jsBody)) as [fullURL|];
      [|left; by eapply tryFallbackMapURL_valid].
    destruct (fetchSourceMapContent e fullURL) as [c|] eqn:E.
    + intros [= <-]. left. by eapply fetchSourceMapContent_valid.
    + left. by eapply tryFallbackMapURL_valid.
Qed.

Lemma ProcessSourceMap_obtained e fs jsBody jsURL :
  ProcessSourceMap e fs jsBody jsURL
  = match obtainedBytes e jsBody jsURL with
    | None => (fs, mkSMResult false "" [], None)
    | Some content =>
        match extractSourcesToTempDir e fs content jsURL with
        | (fs', None) =>
            (fs', mkSMResult false "" [], Some (Err "failed to extract sources"))
        | (fs', Some (tempDir, sourceFiles)) =>
            (fs', mkSMResult true tempDir sourceFiles, None)
        end
    end.
Proof. reflexivity. Qed.

(** The job gets as far as [ProcessSourceMap]: the record has hash and
    URL, the JavaScript file is where the store says and the domain can
    be read off the URL. *)
Definition reachesProcessSourceMap (e : Env) (fs : Files) (r : Record_)
    (jsContent : string) : Prop :=
  GetString r "hash" <> "" /\ GetString r "url" <> ""
  /\ (exists filePath,
        GetJSFilePath e (GetString r "url") (GetString r "hash") = Some filePath
        /\ fs !! filePath = Some jsContent)
  /\ is_Some (ExtractDomain e (GetString r "url")).

(** C5, as the code has it.  Bytes fetched over HTTP, from the URL of
    the comment or from the fallback, go on only when they parse as
    JSON with a numeric version of at least 1 and a sources array;
    bytes decoded from a data URI of the comment go on unchecked.  When
    no bytes go on, or the sources cannot be extracted from them, the
    job ends with [sourcemap_status] processed and saves no source
    file: in the first case the file system is as before, in the second
    it is as the extraction into the temporary directory left it. *)
Theorem sourcemap_bytes_checked_unless_data_uri e table fs workerID r jsContent :
  reachesProcessSourceMap e fs r jsContent ->
  (forall content,
     obtainedBytes e jsContent (GetString r "url") = Some content ->
     validAsSpecified (jsonDecode e content) \/ fromDataURI e jsContent content)
  /\ (forall content,
        fromDataURI e jsContent content ->
        obtainedBytes e jsContent (GetString r "url") = Some content)
  /\ (obtainedBytes e jsContent (GetString r "url") = None ->
      processJob e table fs workerID r = finishWith "processed" fs r)
  /\ (forall content,
        obtainedBytes e jsContent (GetString r "url") = Some content ->
        snd (extractSourcesToTempDir e fs content (GetString r "url")) = None ->
        processJob e table fs workerID r
        = finishWith "processed"
            (fst (extractSourcesToTempDir e fs content (GetString r "url"))) r).
Proof.
  intros (Hh & Hu & (filePath & Hp & Hf) & [domain Hd]).
  split.
  { intros content Hc. apply obtainedBytes_origin in Hc as [Hv|Hdu]; [left|by right].
    by apply isValidSourceMapContent_spec. }
  split.
  { intros content [Hpre Hdec]. unfold obtainedBytes, getSourceMapContent.
    rewrite Hpre, Hdec.
    destruct (String.eqb_spec (findSourceMapURL jsContent) "") as [E|_]; [|reflexivity].
    rewrite E in Hpre. discriminate Hpre. }
  assert (processJob e table fs workerID r
          = match ProcessSourceMap e fs jsContent (GetString r "url") with
            | (fs', _, Some _) => finishWith "processed" fs' r
            | (fs', result, None) =>
                let '(fs'', _) :=
                  saveLoop e table fs' domain (SourceFiles result) (Id r) 0%Z in
                finishWith "processed" fs'' r
            end) as ->.
  { unfold processJob.
    apply String.eqb_neq in Hh, Hu. rewrite Hh, Hu. cbn [orb].
    rewrite Hp, Hf, Hd. reflexivity. }
  rewrite ProcessSourceMap_obtained. split.
  - intros ->. reflexivity.
  - intros content -> He.
    destruct (extractSourcesToTempDir e fs content (GetString r "url"))
      as [fs' [[tempDir sourceFiles]|]]; [discriminate|reflexivity].
Qed.

(** A bundle whose comment carries its sourcemap as a data URI; the map
    has sources and contents but no version.  The environment reads
    this one JSON text; there is no network. *)
Definition quote : string := String (ascii_of_nat 34) "".
Definition bareMap : string :=
  "{" ++ quote ++ "sources" ++ quote ++ ":[" ++ quote ++ "a.js" ++ quote ++ "],"
  ++ quote ++ "sourcesContent" ++ quote ++ ":[" ++ quote ++ "x" ++ quote ++ "]}".
Definition bareMapJSON : JSON :=
  JObject [("sources", JArray [JString "a.js"]);
           ("sourcesContent", JArray [JString "x"])].
Definition bareMapURI : string := "data:application/json," ++ bareMap.
Definition bundleBody : string :=
  "console.log(1)" ++ String (ascii_of_nat 10) "" ++ "//# sourceMappingURL=" ++ bareMapURI.
Definition bundleURL : string := "http://example.test/app.js".

Definition offlineEnv : Env :=
  mkEnv (fun _ => None)
        (fun s => if String.eqb s bareMap then Some bareMapJSON else None)
        (fun _ => None)
        (fun _ u => Some u)
        (fun u => Some u)
        (fun u => if String.eqb u bundleURL then Some "example.test" else None)
        (fun u => if String.eqb u bundleURL then Some "/app.js" else None)
        (fun _ => "5e1f")
        "/data/files" "/tmp" (fun _ => true).

Definition bundleRecord : Record_ :=
  withId "js1"
    (Set_ "hash" (AString "abc123")
       (Set_ "url" (AString bundleURL) (NewRecord "js_files"))).

Definition bundleFiles : Files :=
  {[ "/data/files/example.test/abc123/app.js" := bundleBody ]}.

Lemma bundle_reaches :
  reachesProcessSourceMap offlineEnv bundleFiles bundleRecord bundleBody.
Proof.
  split; [discriminate|]. split; [discriminate|]. split.
  - eexists. split; vm_compute; reflexivity.
  - eexists. vm_compute. reflexivity.
Qed.

Lemma sourcemap_bytes_checked_unless_data_uri_witness :
  validAsSpecified (jsonDecode offlineEnv bareMap)
  \/ fromDataURI offlineEnv bundleBody bareMap.
Proof.
  exact (proj1 (sourcemap_bytes_checked_unless_data_uri offlineEnv [bundleRecord]
                  bundleFiles 0 bundleRecord bundleBody bundle_reaches)
           bareMap eq_refl).
Defined.

(** C5 as stated fails: the bytes of the data URI hold no version, yet
    they are accepted and the source they carry is written under
    original. *)
Lemma data_uri_sourcemap_without_version_accepted :
  obtainedBytes offlineEnv bundleBody bundleURL = Some bareMap
  /\ ~ validAsSpecified (jsonDecode offlineEnv bareMap)
  /\ files (processJob offlineEnv [bundleRecord] bundleFiles 0 bundleRecord)
       !! "/data/files/example.test/abc123/original/a.js" = Some "x"
  /\ GetString (record (processJob offlineEnv [bundleRecord] bundleFiles 0 bundleRecord))
       "sourcemap_status" = "processed".
Proof.
  split; [vm_compute; reflexivity|]. split.
  - intros (fields & n & d & i & elems & Hdoc & Hv & _).
    vm_compute in Hdoc. injection Hdoc as <-. vm_compute in Hv. discriminate.
  - split; vm_compute; reflexivity.
Qed.
End SourcemapFacts.


(** ** Sourcemaps: where the temporary copies go *)

Section TempCopies.
Import Go Core Json Sourcemap.
Open Scope list_scope.

(** A sourcemap served over HTTP, valid by [isValidSourceMapContent],
    whose one source path climbs after its first segment. *)
Definition climbingSource : string := "a/../../../../etc/cron.d/x".
Definition climbingContent : string := "* * * * * root id".

Definition climbingMap : string :=
  "{" ++ quote ++ "version" ++ quote ++ ":3,"
  ++ quote ++ "sources" ++ quote ++ ":[" ++ quote ++ climbingSource ++ quote ++ "],"
  ++ quote ++ "sourcesContent" ++ quote ++ ":[" ++ quote ++ climbingContent ++ quote ++ "]}".
Definition climbingJSON : JSON :=
  JObject [("version", JNumber (Some (3%Z, 1%positive)) (Some 3%Z));
           ("sources", JArray [JString climbingSource]);
           ("sourcesContent", JArray [JString climbingContent])].

Definition mappedBody : string :=
  "console.log(1)" ++ String (ascii_of_nat 10) ""
  ++ "//# sourceMappingURL=http://example.test/app.js.map".

Definition serverEnv : Env :=
  mkEnv (fun u => if String.eqb u "http://example.test/app.js.map"
                  then Some climbingMap else None)
        (fun s => if String.eqb s climbingMap then Some climbingJSON else None)
        (fun _ => None)
        (fun _ u => Some u)
        (fun u => Some u)
        (fun u => if String.eqb u bundleURL then Some "example.test" else None)
        (fun u => if String.eqb u bundleURL then Some "/app.js" else None)
        (fun _ => "5e1f")
        "/data/files" "/tmp" (fun _ => true).

Definition mappedFiles : Files :=
  {[ "/data/files/example.test/abc123/app.js" := mappedBody ]}.

(** C7 (the code departs from the claim).  The Sourcemap stage writes
    the content of a source twice: [extractSourcesToTempDir] writes a
    temporary copy, [saveSourceFile] the file under original.  For the
    source path [a/../../../../etc/cron.d/x], [sanitizeSourcePath]
    strips nothing and [filepath.Clean] leaves [../../../etc/cron.d/x],
    so the temporary copy lands at [/etc/cron.d/x], outside the
    directory [/tmp/sourcemaps/5e1f] made for it and outside original;
    the second copy is under original. *)
Theorem temp_copy_of_source_leaves_temp_dir :
  sanitizeSourcePath climbingSource = "../../../etc/cron.d/x"
  /\ extractSourcesToTempDir serverEnv mappedFiles climbingMap bundleURL
     = (<["/etc/cron.d/x" := climbingContent]> mappedFiles,
        Some ("/tmp/sourcemaps/5e1f",
              [mkSourceFile "../../../etc/cron.d/x" climbingSource climbingContent]))
  /\ String.prefix "/tmp/sourcemaps/5e1f/" "/etc/cron.d/x" = false
  /\ obtainedBytes serverEnv mappedBody bundleURL = Some climbingMap
  /\ isValidSourceMapContent serverEnv climbingMap = true
  /\ files (processJob serverEnv [bundleRecord] mappedFiles 0 bundleRecord)
     = <["/data/files/example.test/abc123/original/etc/cron.d/x.js" := climbingContent]>
         (<["/etc/cron.d/x" := climbingContent]> mappedFiles).
Proof.
  split; [vm_compute; reflexivity|]. split; [vm_compute; reflexivity|].
  split; [reflexivity|]. split; [vm_compute; reflexivity|].
  split; vm_compute; reflexivity.
Qed.
End TempCopies.


(** ** Recovery: what the sweep submits *)

Section RecoveryFacts.
Import Go Core DB.
Open Scope list_scope.

(** [a] comes no later than [b] in the order of [created_at]. *)
Definition dateLe (a b : Record_) : Prop := dateLt (createdAt b) (createdAt a) = false.

Lemma dateLt_false_trans a b c :
  dateLt b a = false -> dateLt c b = false -> dateLt c a = false.
Proof.
  destruct a as [x|], b as [y|], c as [z|]; cbn; try reflexivity; try discriminate.
  rewrite !Z.ltb_ge. lia.
Qed.

Lemma dateLt_true_le a b : dateLt a b = true -> dateLt b a = false.
Proof.
  destruct a as [x|], b as [y|]; cbn; try reflexivity; try discriminate.
  rewrite Z.ltb_lt, Z.ltb_ge. lia.
Qed.

Lemma dateLe_trans a b c : dateLe a b -> dateLe b c -> dateLe a c.
Proof. unfold dateLe. intros H1 H2. eapply dateLt_false_trans; eauto. Qed.

Lemma insertByDate_perm r l : Permutation (insertByDate r l) (r :: l).
Proof.
  induction l as [|x l IH]; cbn; [reflexivity|].
  destruct (dateLt (createdAt x) (createdAt r)); [|reflexivity].
  rewrite IH. apply perm_swap.
Qed.

Lemma insertByDate_sorted r l :
  StronglySorted dateLe l -> StronglySorted dateLe (insertByDate r l).
Proof.
  induction 1 as [|x l Hs IH Hx]; cbn; [repeat constructor|].
  destruct (dateLt (createdAt x) (createdAt r)) eqn:E.
  - constructor; [exact IH|].
    eapply Permutation_Forall; [symmetry; apply insertByDate_perm|].
    constructor; [|exact Hx]. by apply dateLt_true_le.
  - constructor; [by constructor|].
    constructor; [exact E|].
    eapply List.Forall_impl; [|exact Hx]. intros y Hy. by eapply dateLe_trans.
Qed.

Lemma FindRecordsByFilter_perm rows f :
  Permutation (FindRecordsByFilter rows f) (List.filter f rows).
Proof.
  unfold FindRecordsByFilter. induction (List.filter f rows) as [|r l IH];
    cbn; [reflexivity|].
  rewrite insertByDate_perm. by constructor.
Qed.

Lemma FindRecordsByFilter_sorted rows f :
  StronglySorted dateLe (FindRecordsByFilter rows f).
Proof.
  unfold FindRecordsByFilter. induction (List.filter f rows) as [|r l IH];
    cbn; [constructor|]. by apply insertByDate_sorted.
Qed.

Lemma FindRecordsByFilter_In rows f r :
  In r (FindRecordsByFilter rows f) <-> In r rows /\ f r = true.
Proof.
  rewrite <- filter_In. split; apply Permutation_in;
    [|symmetry]; apply FindRecordsByFilter_perm.
Qed.

Lemma pendingOrProcessing_spec field r :
  pendingOrProcessing field r = true
  <-> GetString r field = "pending" \/ GetString r field = "processing".
Proof.
  unfold pendingOrProcessing. rewrite orb_true_iff, !String.eqb_eq. tauto.
Qed.

(** *** What a submission does to a pool that serves *)

(** A pool between [Start] and [Stop]. *)
Definition serving {Job : Type} (p : Pool.WorkerPool Job) : Prop :=
  Pool.isRunning p = true /\ Pool.ctxDone p = false
  /\ Pool.closed (Pool.jobQueue p) = false.

(** The free slots of the queue. *)
Definition room {Job : Type} (p : Pool.WorkerPool Job) : nat :=
  Pool.cap (Pool.jobQueue p) - length (Pool.buf (Pool.jobQueue p)).

(** The job joins the queue if there is room. *)
Definition offer {Job : Type} (p : Pool.WorkerPool Job) (job : Job)
  : Pool.WorkerPool Job :=
  if (length (Pool.buf (Pool.jobQueue p)) <? Pool.cap (Pool.jobQueue p))%nat then
    Pool.withQueue
      (Pool.mkChan (Pool.buf (Pool.jobQueue p) ++ [job]) (Pool.cap (Pool.jobQueue p))
         (Pool.closed (Pool.jobQueue p))) p
  else p.

Definition offerAll {Job : Type} (p : Pool.WorkerPool Job) (jobs : list Job)
  : Pool.WorkerPool Job :=
  fold_left offer jobs p.

Lemma offer_serving {Job : Type} (p : Pool.WorkerPool Job) job :
  serving p -> serving (offer p job).
Proof. unfold offer. intros (H1 & H2 & H3). by destruct (_ <? _)%nat. Qed.

Lemma offerAll_serving {Job : Type} (jobs : list Job) : forall p,
  serving p -> serving (offerAll p jobs).
Proof.
  induction jobs as [|j jobs IH]; intros p Hp; [exact Hp|].
  apply IH. by apply offer_serving.
Qed.

Lemma offer_buf {Job : Type} (p : Pool.WorkerPool Job) job :
  Pool.buf (Pool.jobQueue (offer p job))
  = Pool.buf (Pool.jobQueue p) ++ take (room p) [job]
  /\ Pool.cap (Pool.jobQueue (offer p job)) = Pool.cap (Pool.jobQueue p).
Proof.
  unfold offer, room.
  destruct (Nat.ltb_spec (length (Pool.buf (Pool.jobQueue p)))
              (Pool.cap (Pool.jobQueue p))) as [H|H]; cbn.
  - destruct (Pool.cap (Pool.jobQueue p) - length (Pool.buf (Pool.jobQueue p)))
      eqn:E; [lia|]. cbn. by rewrite take_nil.
  - replace (Pool.cap (Pool.jobQueue p) - length (Pool.buf (Pool.jobQueue p)))
      with 0 by lia. cbn. by rewrite app_nil_r.
Qed.

Lemma offerAll_buf {Job : Type} (jobs : list Job) : forall p,
  Pool.buf (Pool.jobQueue (offerAll p jobs))
  = Pool.buf (Pool.jobQueue p) ++ take (room p) jobs
  /\ Pool.cap (Pool.jobQueue (offerAll p jobs)) = Pool.cap (Pool.jobQueue p).
Proof.
  induction jobs as [|j jobs IH]; intros p.
  - cbn. rewrite take_nil, app_nil_r. by split.
  - cbn [offerAll fold_left]. destruct (IH (offer p j)) as [E1 E2].
    destruct (offer_buf p j) as [E3 E4]. fold (offerAll (offer p j) jobs).
    rewrite E1, E2, E3, E4. split; [|reflexivity].
    rewrite <- app_assoc. f_equal.
    assert (room (offer p j) = room p - length (take (room p) [j])) as ->.
    { unfold room at 1. rewrite E3, E4, length_app. unfold room. lia. }
    destruct (room p) as [|n]; cbn; [reflexivity|].
    rewrite take_nil. cbn. by rewrite Nat.sub_0_r.
Qed.

Lemma SubmitJob_offer {Job : Type} stage pickSend (p : Pool.WorkerPool Job) job :
  serving p ->
  exists err, Pool.SubmitJob stage pickSend p job = Done (offer p job, err).
Proof.
  intros (H1 & H2 & H3). unfold Pool.SubmitJob, Pool.sendReady, Pool.send, offer.
  rewrite H1, H2, H3. cbn [negb orb].
  destruct (_ <? _)%nat; cbn; eauto.
Qed.

Lemma AddJobDirect_offer {Job : Type} stage (p : Pool.WorkerPool Job) job :
  serving p ->
  exists err, Pool.AddJobDirect stage (Some p) job = Done (Some (offer p job), err).
Proof.
  intros (H1 & H2 & H3). unfold Pool.AddJobDirect, Pool.sendReady, Pool.send, offer.
  rewrite H3. cbn [orb]. destruct (_ <? _)%nat; cbn; eauto.
Qed.

Lemma AddJobChecked_offer {Job : Type} stage pickSend (p : Pool.WorkerPool Job) job :
  serving p ->
  exists err,
    Pool.AddJobChecked stage pickSend (Some p) job = Done (Some (offer p job), err).
Proof.
  intros Hp. destruct (SubmitJob_offer stage pickSend p job Hp) as [err E].
  unfold Pool.AddJobChecked, Pool.IsRunning. destruct Hp as (H1 & _).
  rewrite H1, E. cbn. eauto.
Qed.

(** A loop of submissions, when each of them is an offer to the pool
    that [get] reads and [set] writes. *)
Lemma submitEach_offers {Job : Type}
    (submit : World -> Record_ -> Exec (World * option error))
    (get : World -> option (Pool.WorkerPool Job))
    (set : option (Pool.WorkerPool Job) -> World -> World)
    (job : Record_ -> Job) (records : list Record_) :
  (forall w p, get (set (Some p) w) = Some p) ->
  (forall w p q, set (Some q) (set (Some p) w) = set (Some q) w) ->
  (forall w p, get w = Some p -> set (Some p) w = w) ->
  (forall w p r, get w = Some p -> serving p ->
     exists err, submit w r = Done (set (Some (offer p (job r))) w, err)) ->
  forall w p, get w = Some p -> serving p ->
    submitEach submit w records
    = Done (set (Some (offerAll p (map job records))) w).
Proof.
  intros Hgs Hss Hsg Hsub. induction records as [|r rs IH]; intros w p Hg Hp.
  - cbn. by rewrite Hsg.
  - cbn [submitEach]. destruct (Hsub w p r Hg Hp) as [err ->]. cbn [bind fst].
    rewrite (IH _ (offer p (job r))); [|apply Hgs|by apply offer_serving].
    by rewrite Hss.
Qed.

Definition getExtraction (w : World) := extractionPool (pools w).
Definition setExtraction p (w : World) := withPools (withExtraction p (pools w)) w.
Definition getPrettify (w : World) := prettifyPool (pools w).
Definition setPrettify p (w : World) := withPools (withPrettify p (pools w)) w.
Definition getSourcemap (w : World) := sourcemapPool (pools w).
Definition setSourcemap p (w : World) := withPools (withSourcemap p (pools w)) w.
Definition getAnalysis (w : World) := analysisPool (pools w).
Definition setAnalysis p (w : World) := withPools (withAnalysis p (pools w)) w.
Definition getDechunker (w : World) := dechunkerPool (pools w).
Definition setDechunker p (w : World) := withPools (withDechunker p (pools w)) w.

(** The job the sweep makes for a prettify submission: a record, no
    file path, no type. *)
Definition recoveryPrettifyJob (r : Record_) : Prettify.PrettifyJob :=
  Prettify.mkJob (Some r) "" "".

Ltac lens :=
  intros;
  unfold getExtraction, setExtraction, getPrettify, setPrettify, getSourcemap,
    setSourcemap, getAnalysis, setAnalysis, getDechunker, setDechunker in *;
  repeat match goal with
         | w : World |- _ => destruct w as [? ? []]
         end;
  cbn in *; subst; reflexivity.

Lemma sweep_extraction w p records :
  getExtraction w = Some p -> serving p ->
  submitEach AddExtractionJob w records
  = Done (setExtraction (Some (offerAll p (map mkExtractionJob records))) w).
Proof.
  apply (submitEach_offers AddExtractionJob getExtraction setExtraction);
    [lens..|].
  intros w0 p0 r Hg Hp. unfold AddExtractionJob. unfold getExtraction in Hg.
  rewrite Hg. destruct (AddJobDirect_offer "extraction" p0 (mkExtractionJob r) Hp)
    as [err ->]. cbn. eauto.
Qed.

Lemma sweep_sourcemap w p records :
  getSourcemap w = Some p -> serving p ->
  submitEach AddSourcemapJob w records
  = Done (setSourcemap (Some (offerAll p (map mkSourcemapJob records))) w).
Proof.
  apply (submitEach_offers AddSourcemapJob getSourcemap setSourcemap);
    [lens..|].
  intros w0 p0 r Hg Hp. unfold AddSourcemapJob. unfold getSourcemap in Hg.
  rewrite Hg. destruct (AddJobDirect_offer "sourcemap" p0 (mkSourcemapJob r) Hp)
    as [err ->]. cbn. eauto.
Qed.

Lemma sweep_prettify e w p records :
  getPrettify w = Some p -> serving p ->
  submitEach (submitPrettifyRecovery e) w records
  = Done (setPrettify (Some (offerAll p (map recoveryPrettifyJob records))) w).
Proof.
  apply (submitEach_offers (submitPrettifyRecovery e) getPrettify setPrettify);
    [lens..|].
  intros w0 p0 r Hg Hp. unfold submitPrettifyRecovery. unfold getPrettify in Hg.
  rewrite Hg. cbn [deref bind].
  destruct (SubmitJob_offer "prettify" (pick e r) p0 (recoveryPrettifyJob r) Hp)
    as [err E]. unfold recoveryPrettifyJob in E. rewrite E. cbn. eauto.
Qed.

Lemma sweep_analysis e w p records :
  getAnalysis w = Some p -> serving p ->
  submitEach (submitAnalysisRecovery e) w records
  = Done (setAnalysis (Some (offerAll p (map mkAnalysisJob records))) w).
Proof.
  apply (submitEach_offers (submitAnalysisRecovery e) getAnalysis setAnalysis);
    [lens..|].
  intros w0 p0 r Hg Hp. unfold submitAnalysisRecovery. unfold getAnalysis in Hg.
  rewrite Hg. cbn [deref bind].
  destruct (SubmitJob_offer "analysis" (pick e r) p0 (mkAnalysisJob r) Hp)
    as [err ->]. cbn. eauto.
Qed.

Lemma sweep_dechunker e w p records :
  getDechunker w = Some p -> serving p ->
  submitEach (AddDechunkerJob e) w records
  = Done (setDechunker (Some (offerAll p (map mkDechunkerJob records))) w).
Proof.
  apply (submitEach_offers (AddDechunkerJob e) getDechunker setDechunker);
    [lens..|].
  intros w0 p0 r Hg Hp. unfold AddDechunkerJob. unfold getDechunker in Hg.
  rewrite Hg.
  destruct (AddJobChecked_offer "dechunker" (pick e r) p0 (mkDechunkerJob r) Hp)
    as [err ->]. cbn. eauto.
Qed.

(** The rows a sweep selects for the status [field]. *)
Definition swept (field : string) (rows : list Record_) : list Record_ :=
  FindRecordsByFilter rows (pendingOrProcessing field).

(** What the queue of [p] holds after these jobs were submitted in
    order: those for which there was room. *)
Definition after {Job : Type} (p : Pool.WorkerPool Job) (jobs : list Job) : list Job :=
  Pool.buf (Pool.jobQueue p) ++ take (room p) jobs.

(** C1.  With the five pools serving, the sweep leaves the store as it
    is and hands to each pool, in this order and as far as its queue has
    room, the rows whose status for that pool is pending or processing:
    endpoints by extraction_status to Extraction, endpoints and then
    js_files by prettify_status to Prettify, js_files by
    sourcemap_status, analysis_status and dechunker_status to Sourcemap,
    Analysis and Dechunker.  The rows of each selection are those of the
    collection with that status and no others (none that is failed or
    processed), oldest created_at first. *)
Theorem recovery_sweep_submits_pending e eps jss pe pp ps pa pd :
  serving pe -> serving pp -> serving ps -> serving pa -> serving pd ->
  (exists w',
     recoverPendingJobs e
       (mkWorld eps jss (mkPools (Some pe) (Some pp) (Some ps) (Some pa) (Some pd)))
     = Done w'
     /\ endpoints w' = eps /\ js_files w' = jss
     /\ queued (extractionPool (pools w'))
        = after pe (map mkExtractionJob (swept "extraction_status" eps))
     /\ queued (prettifyPool (pools w'))
        = after pp (map recoveryPrettifyJob
                      (swept "prettify_status" eps ++ swept "prettify_status" jss))
     /\ queued (sourcemapPool (pools w'))
        = after ps (map mkSourcemapJob (swept "sourcemap_status" jss))
     /\ queued (analysisPool (pools w'))
        = after pa (map mkAnalysisJob (swept "analysis_status" jss))
     /\ queued (dechunkerPool (pools w'))
        = after pd (map mkDechunkerJob (swept "dechunker_status" jss)))
  /\ (forall field rows,
        StronglySorted dateLe (swept field rows)
        /\ (forall r, In r (swept field rows)
                      <-> In r rows /\ (GetString r field = "pending"
                                        \/ GetString r field = "processing"))
        /\ (forall r, GetString r field = "failed" \/ GetString r field = "processed" ->
                      ~ In r (swept field rows))).
Proof.
  intros He Hp Hs Ha Hd. split.
  - unfold recoverPendingJobs.
    rewrite (sweep_extraction _ pe) by (reflexivity || assumption).
    cbn [bind setExtraction withPools withExtraction pools endpoints js_files
         extractionPool prettifyPool sourcemapPool analysisPool dechunkerPool].
    rewrite (sweep_prettify e _ pp) by (reflexivity || assumption).
    cbn [bind setPrettify withPools withPrettify pools endpoints js_files
         extractionPool prettifyPool sourcemapPool analysisPool dechunkerPool].
    rewrite (sweep_prettify e _ (offerAll pp _))
      by (reflexivity || by apply offerAll_serving).
    cbn [bind setPrettify withPools withPrettify pools endpoints js_files
         extractionPool prettifyPool sourcemapPool analysisPool dechunkerPool].
    rewrite (sweep_sourcemap _ ps) by (reflexivity || assumption).
    cbn [bind setSourcemap withPools withSourcemap pools endpoints js_files
         extractionPool prettifyPool sourcemapPool analysisPool dechunkerPool].
    rewrite (sweep_analysis e _ pa) by (reflexivity || assumption).
    cbn [bind setAnalysis withPools withAnalysis pools endpoints js_files
         extractionPool prettifyPool sourcemapPool analysisPool dechunkerPool].
    rewrite (sweep_dechunker e _ pd) by (reflexivity || assumption).
    eexists. split; [reflexivity|].
    cbn [setDechunker withPools withDechunker pools endpoints js_files queued
         extractionPool prettifyPool sourcemapPool analysisPool dechunkerPool].
    unfold after. repeat split; try apply offerAll_buf.
    fold (swept "prettify_status" eps) (swept "prettify_status" jss).
    rewrite map_app. unfold offerAll. rewrite <- fold_left_app.
    apply (offerAll_buf _ pp).
  - intros field rows. unfold swept. split; [apply FindRecordsByFilter_sorted|].
    split.
    + intros r. rewrite FindRecordsByFilter_In, pendingOrProcessing_spec. tauto.
    + intros r Hst Hin.
      apply FindRecordsByFilter_In in Hin as [_ Hin].
      apply pendingOrProcessing_spec in Hin.
      destruct Hst as [Hst|Hst], Hin as [Hin|Hin]; rewrite Hst in Hin; discriminate.
Qed.

(** A store after a crash: three endpoints and one js_file. *)
Definition quietEnv : Env :=
  mkEnv 100 (fun n => String (ascii_of_nat (97 + n)) "") (fun _ => true)
        (fun _ => true) (fun _ _ => Some "/f/app.js") (fun _ _ => Some "/f/index.html")
        (fun _ _ => "h") (fun _ _ => "h") (fun s => s) (fun _ => None)
        (fun _ _ => Some []).

Definition endpointRow (id : string) (created : Z) (extraction : string) : Record_ :=
  withId id
    (Set_ "created_at" (ATime created)
       (Set_ "prettify_status" (AString "processed")
          (Set_ "extraction_status" (AString extraction) (NewRecord "endpoints")))).

Definition jsRow (id : string) (created : Z) (analysis : string) : Record_ :=
  withId id
    (Set_ "created_at" (ATime created)
       (Set_ "dechunker_status" (AString "processed")
          (Set_ "analysis_status" (AString analysis)
             (Set_ "sourcemap_status" (AString "processed")
                (Set_ "prettify_status" (AString "processed")
                   (NewRecord "js_files")))))).

Definition crashedEndpoints : list Record_ :=
  [endpointRow "e2" 20 "processing"; endpointRow "e1" 10 "pending";
   endpointRow "e3" 5 "failed"].
Definition crashedJSFiles : list Record_ := [jsRow "j1" 7 "processing"].

Definition freshPool {Job : Type} (stage : string) (maxWorkers : Z) (queueSize : nat)
  : Pool.WorkerPool Job :=
  fst (Pool.Start stage (Pool.NewWorkerPool maxWorkers queueSize)).

Lemma freshPool_serving {Job : Type} stage maxWorkers queueSize :
  serving (@freshPool Job stage maxWorkers queueSize).
Proof. by repeat split. Qed.

Lemma recovery_sweep_submits_pending_witness :
  exists w',
    recoverPendingJobs quietEnv
      (mkWorld crashedEndpoints crashedJSFiles
         (mkPools (Some (freshPool "extraction" 4 100)) (Some (freshPool "prettify" 8 400))
            (Some (freshPool "sourcemap" 4 400)) (Some (freshPool "analysis" 6 400))
            (Some (freshPool "dechunker" 4 400)))) = Done w'
    /\ map extractionRecord (queued (extractionPool (pools w')))
       = [endpointRow "e1" 10 "pending"; endpointRow "e2" 20 "processing"]
    /\ map analysisRecord (queued (analysisPool (pools w')))
       = [jsRow "j1" 7 "processing"]
    /\ queued (dechunkerPool (pools w')) = [].
Proof.
  destruct (recovery_sweep_submits_pending quietEnv crashedEndpoints crashedJSFiles
              (freshPool "extraction" 4 100) (freshPool "prettify" 8 400)
              (freshPool "sourcemap" 4 400) (freshPool "analysis" 6 400)
              (freshPool "dechunker" 4 400)
              (freshPool_serving _ _ _) (freshPool_serving _ _ _)
              (freshPool_serving _ _ _) (freshPool_serving _ _ _)
              (freshPool_serving _ _ _))
    as [(w' & E & _ & _ & Qe & _ & _ & Qa & Qd) _].
  exists w'. split; [exact E|].
  rewrite Qe, Qa, Qd. repeat split.
Defined.
End RecoveryFacts.


(** ** The store: keys of the js_files and what the hooks do *)

Section StoreFacts.
Import Go Core DB.
Open Scope list_scope.

(** *** Submissions leave the rows alone *)

Definition sameRows (w w' : World) : Prop :=
  endpoints w' = endpoints w /\ js_files w' = js_files w.

Lemma sameRows_refl w : sameRows w w.
Proof. by split. Qed.

Lemma sameRows_trans w1 w2 w3 : sameRows w1 w2 -> sameRows w2 w3 -> sameRows w1 w3.
Proof. intros [H1 H2] [H3 H4]. split; congruence. Qed.

Lemma bind_Done {A B : Type} (m : Exec A) (k : A -> Exec B) b :
  bind m k = Done b -> exists a, m = Done a /\ k a = Done b.
Proof. destruct m as [a|]; [|discriminate]. cbn. eauto. Qed.

Ltac bind_inv H :=
  let a := fresh "a" in
  let E := fresh "E" in
  apply bind_Done in H as (a & E & H).

Lemma AddExtractionJob_rows w r w' err :
  AddExtractionJob w r = Done (w', err) -> sameRows w w'.
Proof. unfold AddExtractionJob. intros H. bind_inv H. by injection H as <- _. Qed.

Lemma AddSourcemapJob_rows w r w' err :
  AddSourcemapJob w r = Done (w', err) -> sameRows w w'.
Proof. unfold AddSourcemapJob. intros H. bind_inv H. by injection H as <- _. Qed.

Lemma AddPrettifyJob_rows e w r path type w' err :
  AddPrettifyJob e w r path type = Done (w', err) -> sameRows w w'.
Proof. unfold AddPrettifyJob. intros H. bind_inv H. by injection H as <- _. Qed.

Lemma AddAnalysisJob_rows e w r w' err :
  AddAnalysisJob e w r = Done (w', err) -> sameRows w w'.
Proof. unfold AddAnalysisJob. intros H. bind_inv H. by injection H as <- _. Qed.

Lemma AddDechunkerJob_rows e w r w' err :
  AddDechunkerJob e w r = Done (w', err) -> sameRows w w'.
Proof. unfold AddDechunkerJob. intros H. bind_inv H. by injection H as <- _. Qed.

(** *** The keys of a row *)

Definition urlOf (r : Record_) : string := GetString r "url".
Definition hashOf (r : Record_) : string := GetString r "hash".
Definition keyOf (r : Record_) : string * string := (urlOf r, hashOf r).

Lemma GetString_Set_ne r k k' v : k <> k' -> GetString (Set_ k v r) k' = GetString r k'.
Proof. intros H. unfold GetString, Set_. cbn. by rewrite lookup_insert_ne. Qed.

Lemma GetString_Set_eq r k s : GetString (Set_ k (AString s) r) k = s.
Proof. unfold GetString, Set_. cbn. by rewrite lookup_insert_eq. Qed.

Lemma GetString_withId r id k : GetString (withId id r) k = GetString r k.
Proof. reflexivity. Qed.

Lemma keyOf_Set r k v : k <> "url" -> k <> "hash" -> keyOf (Set_ k v r) = keyOf r.
Proof. intros H1 H2. unfold keyOf, urlOf, hashOf. by rewrite !GetString_Set_ne. Qed.

Lemma replaceRow_ids r rows : map Id (replaceRow r rows) = map Id rows.
Proof.
  induction rows as [|x rows IH]; [reflexivity|]. cbn.
  destruct (String.eqb_spec (Id x) (Id r)) as [E|]; cbn; [by rewrite E|by rewrite IH].
Qed.

Lemma replaceRow_In r rows x : In x (replaceRow r rows) -> In x rows \/ x = r.
Proof.
  induction rows as [|y rows IH]; [tauto|]. cbn.
  destruct (String.eqb (Id y) (Id r)); cbn; intros [H|H]; auto.
  destruct (IH H); auto.
Qed.

(** *** What a save does to the keys of the js_files rows *)

Section Keys.
Variable e : Env.

(** The id the store would give to the next js_file is not taken. *)
Definition nextIdFree (rows : list Record_) : Prop :=
  newId e (length rows) <> "" /\ ~ In (newId e (length rows)) (map Id rows).

Definition isNew (r : Record_) : bool := String.eqb (Id r) "".

(** The row a save adds, if it adds one. *)
Definition added {A : Type} (f : Record_ -> A) (r : Record_) : list A :=
  if isNew r && saveOk e r then [f r] else [].

Lemma SaveN_collection fuel : forall w r w' r' err,
  SaveN fuel e w r = Done (w', r', err) -> collection r' = collection r.
Proof.
  induction fuel as [|fuel IH]; intros w r w' r' err H; [discriminate|].
  cbn [SaveN] in H.
  destruct (saveOk e r); cbn [negb] in H; [|by injection H as _ <- _].
  destruct (String.eqb (collection r) "js_files").
  { destruct (String.eqb (Id r) "").
    - unfold onJSFileAfterCreate in H.
      destruct (GetJSFilePath e _ _).
      + bind_inv H. destruct a as [[w2 r2] err2]. apply IH in E.
        bind_inv H. bind_inv H. injection H as _ <- _. rewrite E.
        by destruct (isInlineOrChunk _).
      + injection H as _ <- _. by destruct (isInlineOrChunk _).
    - unfold onJSFileAfterUpdate in H.
      destruct (String.eqb (GetString r "prettify_status") "processed");
        [|by injection H as _ <- _].
      bind_inv H. destruct a as [w2 r2].
      assert (collection r2 = collection r) as <-.
      { destruct (String.eqb (GetString r "analysis_status") "pending");
          [|by injection E as _ <-].
        bind_inv E. destruct a as [[w3 r3] err3]. apply IH in E0.
        bind_inv E. by injection E as _ <-. }
      destruct (String.eqb (GetString r2 "dechunker_status") "pending");
        [|by injection H as _ <- _].
      bind_inv H. destruct a as [[w3 r3] err3]. apply IH in E0.
      bind_inv H. by injection H as _ <- _. }
  destruct (String.eqb (collection r) "endpoints"); [|by injection H as _ <- _].
  assert (forall w r field w' r',
            prettifyHTML e (SaveN fuel e) w r field = Done (w', r') ->
            collection r' = collection r) as Hp.
  { intros w0 r0 field w0' r0' H0. unfold prettifyHTML in H0.
    destruct (GetHTMLFilePath e _ _); [|by injection H0 as _ <-].
    bind_inv H0. destruct a as [[w2 r2] err2]. apply IH in E.
    bind_inv H0. by injection H0 as _ <-. }
  destruct (String.eqb (Id r) "").
  - unfold onEndpointAfterCreate in H.
    destruct (String.eqb (GetString _ "extraction_status") "pending");
      [|by injection H as _ <- _].
    bind_inv H. destruct a as [[w2 r2] err2]. apply IH in E.
    bind_inv H. destruct (snd a); by injection H as _ <- _.
  - unfold onEndpointAfterUpdate in H.
    destruct (_ && _); [|by injection H as _ <- _].
    bind_inv H. destruct a as [w2 r2]. apply Hp in E.
    destruct (negb _); [|by injection H as _ <- _].
    bind_inv H. destruct a as [w3 r3]. apply Hp in E0.
    injection H as _ <- _. cbn [snd]. congruence.
Qed.

(** The lemma is stated for any reading [key] of a record that the
    statuses and the id do not enter; the pair of url and hash is one. *)
Section AnyKey.
Context {K : Type} (key : Record_ -> K).
Hypothesis key_Set :
  forall r k v, k <> "url" -> k <> "hash" -> key (Set_ k v r) = key r.
Hypothesis key_withId : forall r id, key (withId id r) = key r.

(** The rows that carry the id of [r] read as [r] does. *)
Definition agreesOn (r : Record_) (rows : list Record_) : Prop :=
  forall x, In x rows -> Id x = Id r -> key x = key r.

Lemma replaceRow_key r rows :
  agreesOn r rows -> map key (replaceRow r rows) = map key rows.
Proof.
  induction rows as [|x rows IH]; intros Hk; [reflexivity|]. cbn.
  destruct (String.eqb_spec (Id x) (Id r)) as [E|]; cbn.
  - rewrite (Hk x); [reflexivity|by left|exact E].
  - rewrite IH; [reflexivity|]. intros y Hy. apply Hk. by right.
Qed.

Lemma agreesOn_replaceRow r r' rows :
  Id r' = Id r -> key r' = key r -> agreesOn r rows -> agreesOn r' (replaceRow r rows).
Proof.
  intros Hi Hk Ha x Hx E. apply replaceRow_In in Hx as [Hx| ->]; [|by symmetry].
  rewrite Hk. apply Ha; congruence.
Qed.

Lemma rows_back (l l' : list Record_) x :
  map Id l = map Id l' -> map key l = map key l' -> In x l ->
  exists y, In y l' /\ Id y = Id x /\ key y = key x.
Proof.
  revert l'. induction l as [|a l IH]; intros [|b l'] Hi Hk Hx;
    try discriminate; [destruct Hx|].
  cbn [map] in Hi, Hk. apply (f_equal head) in Hi as Hi1. apply (f_equal tail) in Hi.
  apply (f_equal head) in Hk as Hk1. apply (f_equal tail) in Hk.
  cbn in Hi1, Hk1, Hi, Hk. destruct Hx as [->|Hx].
  - exists b. split; [by left|split; congruence].
  - destruct (IH l' Hi Hk Hx) as (y & Hy & Ey). exists y. split; [by right|exact Ey].
Qed.

Lemma SaveN_js_key fuel : forall w r w' r' err,
  collection r = "js_files" ->
  SaveN fuel e w r = Done (w', r', err) ->
  (isNew r = false -> agreesOn r (js_files w)) ->
  (isNew r = true -> nextIdFree (js_files w)) ->
  key r' = key r
  /\ (isNew r = false -> Id r' = Id r)
  /\ endpoints w' = endpoints w
  /\ map key (js_files w') = map key (js_files w) ++ added key r
  /\ map Id (js_files w')
     = map Id (js_files w) ++ (if isNew r && saveOk e r
                               then [newId e (length (js_files w))] else []).
Proof.
  induction fuel as [|fuel IH]; intros w r w' r' err Hc H Hold Hnew; [discriminate|].
  cbn [SaveN] in H. unfold added.
  destruct (saveOk e r) eqn:Eok; cbn [negb] in H.
  2:{ injection H as <- <- _. rewrite andb_false_r, !app_nil_r. by repeat split. }
  rewrite andb_true_r. rewrite Hc in H. cbn [String.eqb Ascii.eqb Bool.eqb] in H.
  change (String.eqb (Id r) "") with (isNew r) in H.
  destruct (isNew r) eqn:En.
  - (* insert, then the create hook *)
    destruct (Hnew eq_refl) as [Hne Hfree].
    set (r1 := withId (newId e (length (js_files w))) r) in *.
    unfold onJSFileAfterCreate in H.
    match type of H with
    | context [GetJSFilePath e (GetString ?x "url") _] => set (rc := x) in *
    end.
    assert (key rc = key r /\ Id rc = Id r1 /\ collection rc = collection r)
      as (Hkc & Hic & Hcc).
    { unfold rc. destruct (isInlineOrChunk _);
        rewrite !key_Set by discriminate; repeat split; try reflexivity;
        apply key_withId. }
    clearbody rc.
    destruct (GetJSFilePath e _ _) as [filePath|].
    2:{ injection H as <- <- _. cbn [js_files endpoints withJSFiles].
        rewrite !map_app. cbn [map].
        replace (key r1) with (key r) by (symmetry; apply key_withId).
        repeat split; (discriminate || assumption || reflexivity). }
    bind_inv H. destruct a as [[w2 r2] err2].
    set (rs := Set_ "sourcemap_status" _ _) in *.
    assert (key rs = key r /\ Id rs = Id r1 /\ collection rs = "js_files")
      as (Hks' & His & Hc').
    { unfold rs. rewrite !key_Set by discriminate. cbn [collection Id Set_].
      by rewrite Hcc. }
    assert (isNew rs = false) as Enew.
    { unfold isNew. rewrite His. cbn. by apply String.eqb_neq. }
    clearbody rs.
    apply IH in E as (Hk & Hi & He & Hks & Hids);
      [|exact Hc'| |by rewrite Enew].
    2:{ intros _ x Hx Hxi. cbn [js_files withJSFiles] in Hx. rewrite Hks'.
        apply in_app_or in Hx as [Hx|[<-|[]]].
        - exfalso. apply Hfree. apply in_map_iff. exists x. split; [|exact Hx].
          rewrite Hxi, His. reflexivity.
        - apply key_withId. }
    unfold added in Hks. rewrite Enew in Hks, Hids. cbn [andb] in Hks, Hids.
    rewrite !app_nil_r in Hks, Hids.
    bind_inv H. bind_inv H. injection H as <- <- _.
    destruct a as [wa erra], a0 as [wb errb]. cbn [fst] in *.
    apply AddPrettifyJob_rows in E as [Ea1 Ea2].
    apply AddSourcemapJob_rows in E0 as [Eb1 Eb2].
    rewrite Eb1, Eb2, Ea1, Ea2, He, Hks, Hids. cbn [js_files endpoints withJSFiles].
    rewrite !map_app. cbn [map].
    replace (key r1) with (key r) by (symmetry; apply key_withId).
    rewrite Hk, Hks'. repeat split; (discriminate || reflexivity).
  - (* update, then the update hook *)
    specialize (Hold eq_refl).
    set (w1 := withJSFiles (replaceRow r (js_files w)) w) in *.
    assert (endpoints w1 = endpoints w) as He1 by reflexivity.
    assert (map key (js_files w1) = map key (js_files w)) as Hk1
      by (by apply replaceRow_key).
    assert (map Id (js_files w1) = map Id (js_files w)) as Hi1
      by apply replaceRow_ids.
    assert (agreesOn r (js_files w1)) as Ha1 by (by apply agreesOn_replaceRow).
    clearbody w1. rewrite !app_nil_r. rewrite <- He1, <- Hk1, <- Hi1.
    clear Hold Hnew He1 Hk1 Hi1 w.
    unfold onJSFileAfterUpdate in H.
    destruct (String.eqb (GetString r "prettify_status") "processed");
      [|injection H as <- <- _; by repeat split].
    bind_inv H. destruct a as [w2 r2].
    assert (key r2 = key r /\ Id r2 = Id r /\ endpoints w2 = endpoints w1
            /\ map key (js_files w2) = map key (js_files w1)
            /\ map Id (js_files w2) = map Id (js_files w1)
            /\ agreesOn r2 (js_files w2) /\ collection r2 = "js_files")
      as (Hk2 & Hi2 & He2 & Hks2 & Hids2 & Ha2 & Hc2).
    { destruct (String.eqb (GetString r "analysis_status") "pending").
      2:{ injection E as <- <-. by repeat split. }
      bind_inv E. destruct a as [[w3 r3] err3].
      set (ra := Set_ "analysis_status" (AString "processing") r) in *.
      assert (isNew ra = false) as Ena by exact En.
      pose proof E0 as Hc3. apply SaveN_collection in Hc3.
      apply IH in E0 as (Hk & Hi & He & Hks & Hids); [|exact Hc| |by rewrite Ena].
      2:{ intros _. intros x Hx Hxi. unfold ra. rewrite key_Set by discriminate.
          by apply Ha1. }
      unfold added in Hks. rewrite Ena in Hks, Hids. cbn [andb] in Hks, Hids.
      rewrite !app_nil_r in Hks, Hids. specialize (Hi Ena).
      bind_inv E. injection E as <- <-. destruct a as [wa erra]. cbn [fst].
      apply AddAnalysisJob_rows in E0 as [Ea1 Ea2]. rewrite Ea1, Ea2.
      unfold ra in Hk, Hi. rewrite key_Set in Hk by discriminate. cbn [Id Set_] in Hi.
      repeat split; try assumption.
      (* the rows with this id still agree *)
      2:{ by rewrite Hc3. }
      intros x Hx Hxi. rewrite Hk.
      destruct (rows_back (js_files w3) (js_files w1) x) as (y & Hy & Ey1 & Ey2);
        [congruence|congruence|exact Hx|].
      rewrite <- Ey2.
      apply Ha1; [exact Hy|congruence]. }
    rewrite <- He2, <- Hks2, <- Hids2, <- Hk2, <- Hi2.
    destruct (String.eqb (GetString r2 "dechunker_status") "pending").
    2:{ injection H as <- <- _. by repeat split. }
    bind_inv H. destruct a as [[w3 r3] err3].
    set (rd := Set_ "dechunker_status" (AString "processing") r2) in *.
    assert (isNew rd = false) as End by (unfold isNew, rd; cbn; by rewrite Hi2).
    apply IH in E0 as (Hk & Hi & He & Hks & Hids); [|exact Hc2| |by rewrite End].
    2:{ intros _ x Hx Hxi. unfold rd. rewrite key_Set by discriminate.
        by apply Ha2. }
    unfold added in Hks. rewrite End in Hks, Hids. cbn [andb] in Hks, Hids.
    rewrite !app_nil_r in Hks, Hids. specialize (Hi End).
    bind_inv H. injection H as <- <- _. destruct a as [wa erra]. cbn [fst].
    apply AddDechunkerJob_rows in E0 as [Ea1 Ea2]. rewrite Ea1, Ea2.
    unfold rd in Hk, Hi. rewrite key_Set in Hk by discriminate. cbn [Id Set_] in Hi.
    repeat split; intros; (assumption || congruence).
Qed.
End AnyKey.

(** The rows that carry the id of [r] carry its url and hash. *)
Definition agrees : Record_ -> list Record_ -> Prop := agreesOn keyOf.

Lemma SaveN_js_keys fuel w r w' r' err :
  collection r = "js_files" ->
  SaveN fuel e w r = Done (w', r', err) ->
  (isNew r = false -> agrees r (js_files w)) ->
  (isNew r = true -> nextIdFree (js_files w)) ->
  keyOf r' = keyOf r
  /\ (isNew r = false -> Id r' = Id r)
  /\ endpoints w' = endpoints w
  /\ map keyOf (js_files w') = map keyOf (js_files w) ++ added keyOf r
  /\ map Id (js_files w')
     = map Id (js_files w) ++ (if isNew r && saveOk e r
                               then [newId e (length (js_files w))] else []).
Proof. apply (SaveN_js_key keyOf keyOf_Set); reflexivity. Qed.

(** What a save does to the ids of the js_files rows. *)
Lemma SaveN_js_ids fuel w r w' r' err :
  collection r = "js_files" ->
  SaveN fuel e w r = Done (w', r', err) ->
  (isNew r = true -> nextIdFree (js_files w)) ->
  (isNew r = false -> Id r' = Id r)
  /\ map Id (js_files w')
     = map Id (js_files w) ++ (if isNew r && saveOk e r
                               then [newId e (length (js_files w))] else []).
Proof.
  intros Hc H Hn.
  apply (SaveN_js_key (fun _ => tt)) in H as (_ & Hi & _ & _ & Hids);
    try reflexivity; try assumption; [by split|]. intros _ x _ _. reflexivity.
Qed.


(** The ids of the store: never empty, never handed out twice. *)
Definition goodIds : Prop :=
  (forall n, newId e n <> "") /\ (forall n m, newId e n = newId e m -> n = m).

(** The rows carry the ids in the order the store handed them out. *)
Definition storeIds (rows : list Record_) : Prop :=
  map Id rows = map (newId e) (seq 0 (length rows)).

Lemma storeIds_free rows : goodIds -> storeIds rows -> nextIdFree rows.
Proof.
  intros [Hne Hinj] Hs. split; [apply Hne|]. rewrite Hs. intros Hin.
  apply in_map_iff in Hin as (n & En & Hn). apply Hinj in En. subst n.
  apply in_seq in Hn. lia.
Qed.


(** Saving a record the writers have just made. *)
Lemma Save_new_js w r w' r' err :
  goodIds -> storeIds (js_files w) ->
  collection r = "js_files" -> Id r = "" ->
  Save e w r = Done (w', r', err) ->
  map keyOf (js_files w') = map keyOf (js_files w) ++ added keyOf r
  /\ storeIds (js_files w') /\ endpoints w' = endpoints w.
Proof.
  intros Hg Hs Hc Hi H. unfold Save in H.
  assert (isNew r = true) as En by (unfold isNew; by rewrite Hi).
  apply SaveN_js_keys in H as (_ & _ & He & Hk & Hids);
    [|exact Hc|by rewrite En|intros _; by apply storeIds_free].
  repeat split; [exact Hk| |exact He].
  unfold storeIds. rewrite Hids.
  assert (length (js_files w')
          = length (js_files w) + length (added keyOf r))%nat as Hlen.
  { rewrite <- (length_map keyOf (js_files w')), Hk, length_app.
    by rewrite length_map. }
  rewrite Hlen. unfold added. rewrite En. cbn [andb].
  destruct (saveOk e r); cbn [length].
  - rewrite seq_app, map_app, <- Hs. reflexivity.
  - rewrite Nat.add_0_r, app_nil_r. exact Hs.
Qed.

(** *** The two writers of js_files *)





Lemma map_fst_keyOf rows : map fst (map keyOf rows) = map urlOf rows.
Proof. rewrite map_map. reflexivity. Qed.







End Keys.


(** A store with one script, and an environment in which a second URL
    serves the same bytes. *)
Fixpoint strokes (n : nat) : string :=
  match n with
  | O => ""
  | S n' => String "i" (strokes n')
  end.

Definition unaryId (n : nat) : string := String "r" (strokes n).

Lemma unaryId_inj n m : unaryId n = unaryId m -> n = m.
Proof.
  unfold unaryId. intros [= H]. revert m H.
  induction n as [|n IH]; intros [|m] H; try discriminate; [reflexivity|].
  injection H as H. f_equal. by apply IH.
Qed.

Definition mirrorURL : string := "http://cdn.test/app.js".
Definition scriptURL : string := "http://example.test/app.js".
Definition scriptBody : string := "x()".

Definition mirrorEnv : Env :=
  mkEnv 100 unaryId (fun _ => true) (fun _ => true)
        (fun _ _ => Some "/f/app.js") (fun _ _ => Some "/f/index.html")
        (fun _ _ => "page") (fun _ c => String.append "sha256:" c) (fun c => String.append "sha256:" c)
        (fun u => if String.eqb u mirrorURL
                  then Some (scriptBody, "application/javascript") else None)
        (fun _ _ => Some [mirrorURL]).

Definition scriptRow : Record_ :=
  withId (unaryId 0)
    (Set_ "dechunker_status" (AString "processing")
       (Set_ "prettify_status" (AString "processed")
          (Set_ "type" (AString "normal")
             (Set_ "hash" (AString (String.append "sha256:" scriptBody))
                (Set_ "url" (AString scriptURL) (NewRecord "js_files")))))).

Definition oneScript : World :=
  mkWorld [] [scriptRow] (startedPools defaultSizes).

Lemma mirrorEnv_goodIds : goodIds mirrorEnv.
Proof. split; [discriminate|exact unaryId_inj]. Qed.



(** *** What a save stores and submits

    Inside a save, the hooks write on the record they were given and
    store or submit what they wrote.  [hookWrite] lists those writes;
    a [version] of a record is what some sequence of them makes of
    it. *)

(** The statuses the create hook of js_files starts from. *)
Definition createStatuses (r : Record_) : Record_ :=
  let r := Set_ "prettify_status" (AString "pending") r in
  let r := Set_ "analysis_status" (AString "pending") r in
  let r := Set_ "sourcemap_status" (AString "pending") r in
  let r := Set_ "dechunker_status" (AString "pending") r in
  if isInlineOrChunk (GetString r "type")
  then Set_ "dechunker_status" (AString "processed") r else r.

Definition stageFields : list string :=
  ["created_at"; "prettify_status"; "sourcemap_status"; "analysis_status";
   "extraction_status"].

Inductive hookWrite : Record_ -> Record_ -> Prop :=
| hw_id r id : Id r = "" -> hookWrite r (withId id r)
| hw_create r : hookWrite r (createStatuses r)
| hw_set r k v : In k stageFields -> hookWrite r (Set_ k v r)
| hw_dechunk r :
    GetString r "dechunker_status" = "pending" ->
    hookWrite r (Set_ "dechunker_status" (AString "processing") r).

Definition version : Record_ -> Record_ -> Prop := rtc hookWrite.

(** A version that went through the write of the update hook which
    precedes the submission to the Dechunker. *)
Definition dechunked (r x : Record_) : Prop :=
  exists y, version r y /\ GetString y "dechunker_status" = "pending"
            /\ version (Set_ "dechunker_status" (AString "processing") y) x.










Lemma version_trans r x y : version r x -> version x y -> version r y.
Proof. apply rtc_trans. Qed.

Lemma version_set r k v : In k stageFields -> version r (Set_ k v r).
Proof. intros Hk. apply rtc_once. by constructor. Qed.


Lemma dechunked_later r x y : dechunked r x -> version x y -> dechunked r y.
Proof.
  intros (z & Hz & Hp & Hx) Hv. exists z. split; [exact Hz|]. split; [exact Hp|].
  by apply (version_trans _ x y).
Qed.

(** *** What a submission does to the queues *)





(** The records waiting for the Dechunker. *)
Definition dechunkerQueue (w : World) : list Record_ :=
  map dechunkerRecord (queued (dechunkerPool (pools w))).













(** *** The footprint of a save *)















Section Footprint.
Variable e : Env.



End Footprint.

(** *** Inline scripts and chunks stay away from the Dechunker *)

Definition typeOf (r : Record_) : string := GetString r "type".
Definition dechunkerStatus (r : Record_) : string := GetString r "dechunker_status".





Lemma dechunkerStatus_Set r k v :
  k <> "dechunker_status" -> dechunkerStatus (Set_ k v r) = dechunkerStatus r.
Proof. intros H. by apply GetString_Set_ne. Qed.
































(** *** The invariant of the pipeline *)







(** *** The creation of an inline script or a chunk *)

Section Creation.
Variable e : Env.

(** The record as the create hook has it when it asks for the path. *)
Definition atCreation (r : Record_) : Record_ :=
  Set_ "created_at" (ATime (now e)) (createStatuses r).

(** The record as the create hook saves it. *)
Definition asSaved (r : Record_) : Record_ :=
  Set_ "sourcemap_status" (AString "processing")
    (Set_ "prettify_status" (AString "processing") (atCreation r)).

Lemma onJSFileAfterCreate_eq save w r :
  onJSFileAfterCreate e save w r
  = match GetJSFilePath e (urlOf r) (hashOf r) with
    | None => Done (w, atCreation r, Some (Err "failed to extract domain from URL"))
    | Some filePath =>
        let* s := save w (asSaved r) in
        let '(w, r, _) := s in
        let* a := AddPrettifyJob e w r filePath "js" in
        let* b := AddSourcemapJob (fst a) r in
        Done (fst b, r, None)
    end.
Proof.
  unfold onJSFileAfterCreate, asSaved, atCreation, createStatuses, urlOf, hashOf.
  destruct (isInlineOrChunk _); by rewrite !GetString_Set_ne by discriminate.
Qed.





Lemma collection_asSaved r : collection (asSaved r) = collection r.
Proof. unfold asSaved, atCreation, createStatuses. by destruct (isInlineOrChunk _). Qed.

Lemma Id_asSaved r : Id (asSaved r) = Id r.
Proof. unfold asSaved, atCreation, createStatuses. by destruct (isInlineOrChunk _). Qed.

Lemma asSaved_in_progress r : GetString (asSaved r) "prettify_status" = "processing".
Proof.
  unfold asSaved. rewrite GetString_Set_ne by discriminate. apply GetString_Set_eq.
Qed.

(** An update of a js_file whose prettify is in progress runs no
    hook action. *)
Lemma SaveN_quiet_update fuel w r :
  collection r = "js_files" -> Id r <> "" ->
  GetString r "prettify_status" = "processing" ->
  SaveN (S fuel) e w r
  = if saveOk e r then Done (withJSFiles (replaceRow r (js_files w)) w, r, None)
    else Done (w, r, Some (Err "save failed")).
Proof.
  intros Hc Hi Hp. cbn [SaveN]. destruct (saveOk e r); [|reflexivity].
  cbn [negb]. rewrite Hc. apply String.eqb_neq in Hi. cbn. rewrite Hi.
  unfold onJSFileAfterUpdate. by rewrite Hp.
Qed.


Lemma SaveN_new_js fuel w r :
  collection r = "js_files" -> Id r = "" -> saveOk e r = true ->
  SaveN (S fuel) e w r
  = onJSFileAfterCreate e (SaveN fuel e)
      (withJSFiles (js_files w ++ [withId (newId e (length (js_files w))) r]) w)
      (withId (newId e (length (js_files w))) r).
Proof. intros Hc Hi Hok. cbn [SaveN]. by rewrite Hok, Hc, Hi. Qed.

Lemma replaceRow_last r x rows :
  ~ In (Id r) (map Id rows) -> Id x = Id r -> replaceRow r (rows ++ [x]) = rows ++ [r].
Proof.
  intros Hn Hx. induction rows as [|y rows IH]; cbn.
  - rewrite Hx, String.eqb_refl. reflexivity.
  - destruct (String.eqb_spec (Id y) (Id r)) as [E|_].
    + exfalso. apply Hn. left. exact E.
    + rewrite IH; [reflexivity|]. intros H. apply Hn. by right.
Qed.

End Creation.

(** *** The js_files the Dechunker makes *)










Section Chunks.
Variable e : Env.
Hypothesis ids : goodIds e.







End Chunks.


(** A first run: a captured page arrives, and the browser finds one
    inline script in it. *)
Definition capture : Record_ :=
  Set_ "url" (AString "http://example.test/") (NewRecord "tmp_endpoints").

Definition pageScript : JSFileResult :=
  mkJSFileResult "http://example.test/inline_1.js" scriptBody "inline".

Definition afterCapture : System :=
  match onTmpEndpointAfterCreate mirrorEnv (world (initial defaultSizes)) capture "5e1f"
  with
  | Done (w, record, _) => mkSystem w (option_list record ++ []) []
  | Panic _ => initial defaultSizes
  end.

Definition capturedEndpoint : Record_ := hd (NewRecord "endpoints") (objects afterCapture).

Definition afterExtraction : System :=
  match saveProcessingResults mirrorEnv (world afterCapture) capturedEndpoint
          "<html></html>" [pageScript] false with
  | Done (w, r, _) => mkSystem w (r :: objects afterCapture) (dechunking afterCapture)
  | Panic _ => afterCapture
  end.

Lemma afterCapture_reachable : reachable defaultSizes afterCapture.
Proof.
  apply (reach_step _ (initial defaultSizes)); [constructor|]. unfold afterCapture.
  destruct (onTmpEndpointAfterCreate _ _ _ _) as [[[w record] err]|msg] eqn:E.
  - by apply (step_ingest mirrorEnv (initial defaultSizes) capture "5e1f" w record err).
  - vm_compute in E. discriminate.
Qed.

Lemma afterExtraction_reachable : reachable defaultSizes afterExtraction.
Proof.
  apply (reach_step _ afterCapture); [apply afterCapture_reachable|].
  unfold afterExtraction.
  destruct (saveProcessingResults _ _ _ _ _ _) as [[[w r] err]|msg] eqn:E.
  - apply (step_extract mirrorEnv afterCapture capturedEndpoint
             "<html></html>" [pageScript] false w r err);
      [vm_compute; by left|reflexivity|by repeat constructor|exact E].
  - vm_compute in E. discriminate.
Qed.







(** A Dechunker job on the stored script: the one row the store gains
    is a chunk of that script, and it is not handed to the Dechunker. *)
Example chunk_of_the_script :
  exists w' r',
    dechunkerProcessJob mirrorEnv oneScript scriptRow = Done (w', r')
    /\ map (fun x => (typeOf x, GetString x "parent_id", dechunkerStatus x))
         (js_files w')
       = [("normal", "", "processed"); ("chunk", unaryId 0, "processed")]
    /\ dechunkerQueue w' = [].
Proof.
  do 2 eexists. split; [vm_compute; reflexivity|]. split; by vm_compute.
Qed.
End StoreFacts.


(** ** The fuel of [Save] *)

Section FuelFacts.
Import Go Core DB.
Open Scope list_scope.
Variable e : Env.
Hypothesis ids_nonempty : forall n, newId e n <> "".

Lemma SaveN_S fuel w r :
  SaveN (S fuel) e w r
  = if negb (saveOk e r) then Done (w, r, Some (Err "save failed"))
    else if String.eqb (collection r) "js_files" then
      if String.eqb (Id r) "" then
        onJSFileAfterCreate e (SaveN fuel e)
          (withJSFiles (js_files w ++ [withId (newId e (length (js_files w))) r]) w)
          (withId (newId e (length (js_files w))) r)
      else
        onJSFileAfterUpdate e (SaveN fuel e)
          (withJSFiles (replaceRow r (js_files w)) w) r
    else if String.eqb (collection r) "endpoints" then
      if String.eqb (Id r) "" then
        onEndpointAfterCreate e (SaveN fuel e)
          (withEndpoints (endpoints w ++ [withId (newId e (length (endpoints w))) r]) w)
          (withId (newId e (length (endpoints w))) r)
      else
        onEndpointAfterUpdate e (SaveN fuel e)
          (withEndpoints (replaceRow r (endpoints w)) w) r
    else Done (w, r, None).
Proof. reflexivity. Qed.

(** A js_file whose update hook has nothing to start. *)
Definition quietJS (r : Record_) : Prop :=
  collection r = "js_files" /\ Id r <> ""
  /\ (GetString r "prettify_status" <> "processed"
      \/ (GetString r "analysis_status" <> "pending"
          /\ GetString r "dechunker_status" <> "pending")).

Lemma SaveN_quietJS fuel w r :
  quietJS r ->
  SaveN (S fuel) e w r
  = if saveOk e r then Done (withJSFiles (replaceRow r (js_files w)) w, r, None)
    else Done (w, r, Some (Err "save failed")).
Proof.
  intros (Hc & Hi & Hq). rewrite SaveN_S. destruct (saveOk e r); [|reflexivity].
  cbn [negb]. rewrite Hc. apply String.eqb_neq in Hi. cbn. rewrite Hi.
  unfold onJSFileAfterUpdate.
  destruct Hq as [Hp|[Ha Hd]].
  - apply String.eqb_neq in Hp. by rewrite Hp.
  - apply String.eqb_neq in Ha, Hd.
    destruct (String.eqb _ "processed"); [|reflexivity].
    rewrite Ha. cbn [bind]. by rewrite Hd.
Qed.

Lemma SaveN_rejected fuel w r :
  saveOk e r = false -> SaveN (S fuel) e w r = Done (w, r, Some (Err "save failed")).
Proof. intros H. rewrite SaveN_S. by rewrite H. Qed.

Lemma SaveN_update_js fuel w r :
  collection r = "js_files" -> Id r <> "" -> saveOk e r = true ->
  SaveN (S fuel) e w r
  = onJSFileAfterUpdate e (SaveN fuel e) (withJSFiles (replaceRow r (js_files w)) w) r.
Proof.
  intros Hc Hi Hok. rewrite SaveN_S, Hok, Hc. apply String.eqb_neq in Hi.
  cbn. by rewrite Hi.
Qed.

Lemma analysis_started r : GetString (Set_ "analysis_status" (AString "processing") r)
                             "analysis_status" <> "pending".
Proof. by rewrite GetString_Set_eq. Qed.

Lemma dechunker_started r : GetString (Set_ "dechunker_status" (AString "processing") r)
                              "dechunker_status" <> "pending".
Proof. by rewrite GetString_Set_eq. Qed.

(** With the analysis not pending, the hook can only start the
    Dechunker; two levels are enough. *)
Lemma stable_no_analysis fuel w r :
  collection r = "js_files" -> Id r <> "" ->
  GetString r "analysis_status" <> "pending" ->
  SaveN (S (S fuel)) e w r = SaveN 2 e w r.
Proof.
  intros Hc Hi Ha. destruct (saveOk e r) eqn:Hok; [|by rewrite !SaveN_rejected].
  rewrite !SaveN_update_js by assumption. unfold onJSFileAfterUpdate.
  destruct (String.eqb _ "processed"); [|reflexivity].
  pose proof Ha as Ha'. apply String.eqb_neq in Ha'. rewrite Ha'. cbn [bind].
  destruct (String.eqb (GetString r "dechunker_status") "pending"); [|reflexivity].
  rewrite !SaveN_quietJS; [reflexivity|..]; (split; [exact Hc|split; [exact Hi|right]]);
    (split; [by rewrite GetString_Set_ne|apply dechunker_started]).
Qed.

(** With the Dechunker not pending, the hook can only start the
    analysis. *)
Lemma stable_no_dechunk fuel w r :
  collection r = "js_files" -> Id r <> "" ->
  GetString r "dechunker_status" <> "pending" ->
  SaveN (S (S fuel)) e w r = SaveN 2 e w r.
Proof.
  intros Hc Hi Hd. destruct (saveOk e r) eqn:Hok; [|by rewrite !SaveN_rejected].
  rewrite !SaveN_update_js by assumption. unfold onJSFileAfterUpdate.
  destruct (String.eqb _ "processed"); [|reflexivity].
  pose proof Hd as Hd'. apply String.eqb_neq in Hd'.
  destruct (String.eqb (GetString r "analysis_status") "pending");
    [|cbn [bind]; by rewrite Hd'].
  set (ra := Set_ "analysis_status" _ r).
  assert (String.eqb (GetString ra "dechunker_status") "pending" = false) as Hra.
  { unfold ra. by rewrite GetString_Set_ne. }
  rewrite !SaveN_quietJS;
    [|split; [exact Hc|split; [exact Hi|right; split;
        [apply analysis_started|unfold ra; by rewrite GetString_Set_ne]]]..].
  destruct (saveOk e ra); cbn [bind];
    (destruct (AddAnalysisJob e _ ra) as [a|msg]; cbn [bind fst]; [|reflexivity]);
    by rewrite Hra.
Qed.

Lemma SaveN_Id fuel w r w' r' err :
  collection r = "js_files" -> Id r <> "" ->
  SaveN fuel e w r = Done (w', r', err) ->
  collection r' = "js_files" /\ Id r' <> "".
Proof.
  intros Hc Hi H. pose proof (SaveN_collection _ _ _ _ _ _ _ H) as Hc'.
  assert (isNew r = false) as En by (by apply String.eqb_neq).
  apply SaveN_js_ids in H as [Hid _]; [|exact Hc|by rewrite En].
  split; [congruence|]. by rewrite (Hid En).
Qed.

(** An update of a js_file needs three levels at most. *)
Lemma stable_js_update fuel w r :
  collection r = "js_files" -> Id r <> "" ->
  SaveN (S (S (S fuel))) e w r = SaveN 3 e w r.
Proof.
  intros Hc Hi. destruct (saveOk e r) eqn:Hok; [|by rewrite !SaveN_rejected].
  rewrite !SaveN_update_js by assumption. unfold onJSFileAfterUpdate.
  destruct (String.eqb _ "processed"); [|reflexivity].
  set (w1 := withJSFiles _ w).
  destruct (String.eqb (GetString r "analysis_status") "pending").
  - set (ra := Set_ "analysis_status" _ r).
    rewrite (stable_no_analysis fuel w1 ra); [|exact Hc|exact Hi|apply analysis_started].
    destruct (SaveN 2 e w1 ra) as [[[w2 r2] err2]|msg] eqn:E2; cbn [bind];
      [|reflexivity].
    apply SaveN_Id in E2 as [Hc2 Hi2]; [|exact Hc|exact Hi].
    destruct (AddAnalysisJob e w2 r2) as [a|msg]; cbn [bind fst]; [|reflexivity].
    destruct (String.eqb (GetString r2 "dechunker_status") "pending"); [|reflexivity].
    by rewrite (stable_no_dechunk fuel); [|exact Hc2|exact Hi2|apply dechunker_started].
  - cbn [bind].
    destruct (String.eqb (GetString r "dechunker_status") "pending"); [|reflexivity].
    by rewrite (stable_no_dechunk fuel); [|exact Hc|exact Hi|apply dechunker_started].
Qed.

(** The creation of a js_file needs two. *)
Lemma stable_js_create fuel w r :
  collection r = "js_files" -> Id r = "" ->
  SaveN (S (S fuel)) e w r = SaveN 2 e w r.
Proof.
  intros Hc Hi. destruct (saveOk e r) eqn:Hok; [|by rewrite !SaveN_rejected].
  rewrite !SaveN_new_js by assumption. rewrite !onJSFileAfterCreate_eq.
  destruct (GetJSFilePath e _ _); [|reflexivity].
  rewrite !SaveN_quiet_update; [reflexivity|..];
    try (by rewrite collection_asSaved); try apply asSaved_in_progress;
    rewrite Id_asSaved; apply ids_nonempty.
Qed.

(** An endpoint whose update hook has nothing to start. *)
Definition quietEndpoint (r : Record_) : Prop :=
  collection r = "endpoints" /\ Id r <> ""
  /\ (GetString r "prettify_status" <> "pending"
      \/ GetString r "extraction_status" <> "processed").

Lemma SaveN_quietEndpoint fuel w r :
  quietEndpoint r ->
  SaveN (S fuel) e w r
  = if saveOk e r then Done (withEndpoints (replaceRow r (endpoints w)) w, r, None)
    else Done (w, r, Some (Err "save failed")).
Proof.
  intros (Hc & Hi & Hq). rewrite SaveN_S. destruct (saveOk e r); [|reflexivity].
  cbn [negb]. rewrite Hc. apply String.eqb_neq in Hi. cbn. rewrite Hi.
  unfold onEndpointAfterUpdate.
  destruct Hq as [Hp|Hx].
  - apply String.eqb_neq in Hp. by rewrite Hp.
  - apply String.eqb_neq in Hx. by rewrite Hx, andb_false_r.
Qed.

Lemma prettify_started r :
  collection r = "endpoints" -> Id r <> "" ->
  quietEndpoint (Set_ "prettify_status" (AString "processing") r).
Proof.
  intros Hc Hi. split; [exact Hc|]. split; [exact Hi|]. left.
  by rewrite GetString_Set_eq.
Qed.

Lemma stable_endpoint_create fuel w r :
  collection r = "endpoints" -> Id r = "" ->
  SaveN (S (S fuel)) e w r = SaveN 2 e w r.
Proof.
  intros Hc Hi. destruct (saveOk e r) eqn:Hok; [|by rewrite !SaveN_rejected].
  rewrite !SaveN_S, Hok, Hc, Hi. cbn [negb String.eqb Ascii.eqb Bool.eqb].
  unfold onEndpointAfterCreate.
  destruct (String.eqb _ "pending"); [|reflexivity].
  rewrite !SaveN_quietEndpoint; [reflexivity|..];
    (split; [exact Hc|split; [apply ids_nonempty|right]]);
    by rewrite GetString_Set_eq.
Qed.

Lemma stable_prettifyHTML fuel w r field :
  collection r = "endpoints" -> Id r <> "" ->
  prettifyHTML e (SaveN (S fuel) e) w r field = prettifyHTML e (SaveN 1 e) w r field.
Proof.
  intros Hc Hi. unfold prettifyHTML. destruct (GetHTMLFilePath e _ _); [|reflexivity].
  by rewrite !SaveN_quietEndpoint by (by apply prettify_started).
Qed.

Lemma prettifyHTML_record fuel w r field w' r' :
  collection r = "endpoints" -> Id r <> "" ->
  prettifyHTML e (SaveN (S fuel) e) w r field = Done (w', r') ->
  collection r' = "endpoints" /\ Id r' <> "".
Proof.
  intros Hc Hi. unfold prettifyHTML. destruct (GetHTMLFilePath e _ _) as [filePath|];
    [|by intros [= <- <-]].
  rewrite SaveN_quietEndpoint by (by apply prettify_started).
  destruct (saveOk e _); cbn [bind];
    (destruct (AddPrettifyJob e _ _ filePath "html") as [a|msg]; cbn [bind];
       [|discriminate]); by intros [= <- <-].
Qed.

Lemma stable_endpoint_update fuel w r :
  collection r = "endpoints" -> Id r <> "" ->
  SaveN (S (S fuel)) e w r = SaveN 2 e w r.
Proof.
  intros Hc Hi. destruct (saveOk e r) eqn:Hok; [|by rewrite !SaveN_rejected].
  pose proof Hi as Hi'. apply String.eqb_neq in Hi'.
  rewrite !SaveN_S, Hok, Hc, Hi'. cbn [negb String.eqb Ascii.eqb Bool.eqb].
  unfold onEndpointAfterUpdate. destruct (_ && _); [|reflexivity].
  set (w1 := withEndpoints _ w).
  rewrite (stable_prettifyHTML fuel w1 r "hash") by assumption.
  destruct (prettifyHTML e (SaveN 1 e) w1 r "hash") as [[w2 r2]|msg] eqn:E1;
    cbn [bind]; [|reflexivity].
  apply prettifyHTML_record in E1 as [Hc2 Hi2]; [|exact Hc|exact Hi].
  destruct (negb _); [|reflexivity].
  by rewrite (stable_prettifyHTML fuel w2 r2 "mobile_hash").
Qed.

(** With ids that are never empty, the hooks nest at most three saves
    deep: more fuel than [Save] has changes nothing. *)
Lemma Save_fuel k w r : SaveN (4 + k) e w r = Save e w r.
Proof.
  unfold Save. cbn [Nat.add].
  destruct (String.eqb_spec (collection r) "js_files") as [Hc|Hc].
  { destruct (String.eqb_spec (Id r) "") as [Hi|Hi].
    - rewrite (stable_js_create (S (S k))), (stable_js_create 2); done.
    - rewrite (stable_js_update (S k)), (stable_js_update 1); done. }
  destruct (String.eqb_spec (collection r) "endpoints") as [Hx|Hx].
  { destruct (String.eqb_spec (Id r) "") as [Hi|Hi].
    - rewrite (stable_endpoint_create (S (S k))), (stable_endpoint_create 2); done.
    - rewrite (stable_endpoint_update (S (S k))), (stable_endpoint_update 2); done. }
  rewrite !SaveN_S. apply String.eqb_neq in Hc, Hx. by rewrite Hc, Hx.
Qed.
End FuelFacts.

(* ===================================================================== *)
(** * Part III: further properties                                      *)
(* ===================================================================== *)

(** ** The extraction pool: batches *)

Section BatchFacts.
Import Go Core DB Extraction.
Open Scope list_scope.

(** The pool with the jobs of [records] behind those it held. *)
Definition enqueued (p : Pool.WorkerPool ExtractionJob) (records : list Record_)
  : Pool.WorkerPool ExtractionJob :=
  Pool.withQueue
    (Pool.mkChan (Pool.buf (Pool.jobQueue p) ++ map mkExtractionJob records)
       (Pool.cap (Pool.jobQueue p)) (Pool.closed (Pool.jobQueue p))) p.

Lemma addLoop_room records : forall ch n,
  Pool.closed ch = false ->
  length (Pool.buf ch) + length records <= Pool.cap ch ->
  addLoop ch records n None
  = Done (Pool.mkChan (Pool.buf ch ++ map mkExtractionJob records) (Pool.cap ch) false,
          n + length records, None).
Proof.
  induction records as [|r rs IH]; intros ch n Hc Hl; cbn [addLoop map length].
  - rewrite app_nil_r, Nat.add_0_r. destruct ch; cbn in *. by subst.
  - cbn [length] in Hl. unfold Pool.sendReady, Pool.send. rewrite Hc. cbn [orb bind].
    destruct (Nat.ltb_spec (length (Pool.buf ch)) (Pool.cap ch)) as [_|?]; [|lia].
    rewrite IH; cbn [Pool.buf Pool.cap Pool.closed].
    + rewrite <- app_assoc. cbn. do 3 f_equal. lia.
    + reflexivity.
    + rewrite length_app. cbn. lia.
Qed.

Lemma submitLoop_room pick records : forall ch n,
  Pool.closed ch = false ->
  length (Pool.buf ch) + length records <= Pool.cap ch ->
  submitLoop pick false ch records n None
  = Done (Pool.mkChan (Pool.buf ch ++ map mkExtractionJob records) (Pool.cap ch) false,
          n + length records, None).
Proof.
  induction records as [|r rs IH]; intros ch n Hc Hl; cbn [submitLoop map length].
  - rewrite app_nil_r, Nat.add_0_r. destruct ch; cbn in *. by subst.
  - cbn [length] in Hl. unfold Pool.sendReady, Pool.send. rewrite Hc. cbn [orb bind].
    destruct (Nat.ltb_spec (length (Pool.buf ch)) (Pool.cap ch)) as [_|?]; [|lia].
    rewrite IH; cbn [Pool.buf Pool.cap Pool.closed].
    + rewrite <- app_assoc. cbn. do 3 f_equal. lia.
    + reflexivity.
    + rewrite length_app. cbn. lia.
Qed.

Lemma enqueued_nil p : enqueued p [] = p.
Proof.
  unfold enqueued, Pool.withQueue. destruct p as [w [b c cl] d r]. cbn.
  by rewrite app_nil_r.
Qed.

Lemma SubmitJobs_fits pick p records :
  serving p -> length records <= room p ->
  SubmitJobs pick p records = Done (enqueued p records, None).
Proof.
  intros (Hr & Hd & Hc) Hfit. unfold SubmitJobs, Pool.GetAvailableSpace.
  rewrite Hr. cbn [negb]. fold (room p).
  destruct records as [|r rs]; [by rewrite enqueued_nil|].
  set (records := r :: rs) in *.
  assert (0 < length records) by (cbn; lia).
  destruct (Nat.ltb_spec (room p) (length records)) as [?|_]; [lia|].
  unfold room in Hfit. rewrite Hd, submitLoop_room by (done || lia).
  cbn [bind batchResult fmap option_fmap option_map]. unfold enqueued. by rewrite Hc.
Qed.

Lemma AddExtractionJobs_fits p records :
  Pool.closed (Pool.jobQueue p) = false -> length records <= room p ->
  AddExtractionJobs (Some p) records = Done (Some (enqueued p records), None).
Proof.
  intros Hc Hfit. unfold AddExtractionJobs, Pool.GetAvailableSpace. fold (room p).
  destruct records as [|r rs]; [by rewrite enqueued_nil|].
  set (records := r :: rs) in *.
  assert (0 < length records) by (cbn; lia).
  destruct (Nat.ltb_spec (room p) (length records)) as [?|_]; [lia|].
  unfold room in Hfit. rewrite addLoop_room by (done || lia).
  cbn [bind batchResult fmap option_fmap option_map fst snd]. unfold enqueued.
  by rewrite Hc.
Qed.

(** X1.  A pool between Start and Stop takes a batch whole or not at
    all.  When the records fit in the free slots of the queue,
    [SubmitJobs] and [AddExtractionJobs] put one job per record behind
    the jobs already waiting, in the order of the records, and return
    no error; when they do not fit, both return the error that names
    the need and the free slots, and the queue is as it was. *)
Theorem batch_whole_or_nothing (pick : Record_ -> bool)
    (p : Pool.WorkerPool ExtractionJob) (records : list Record_) :
  serving p ->
  if (length records <=? room p)%nat then
    SubmitJobs pick p records = Done (enqueued p records, None)
    /\ AddExtractionJobs (Some p) records = Done (Some (enqueued p records), None)
  else
    SubmitJobs pick p records
      = Done (p, Some (errNoSpace (length records) (room p)))
    /\ AddExtractionJobs (Some p) records
      = Done (Some p, Some (errNoSpace (length records) (room p))).
Proof.
  intros Hp.
  destruct (Nat.leb_spec (length records) (room p)) as [Hfit|Hfit].
  - split; [by apply SubmitJobs_fits|].
    apply AddExtractionJobs_fits; [apply Hp|exact Hfit].
  - destruct Hp as (Hr & _ & _).
    unfold SubmitJobs, AddExtractionJobs, Pool.GetAvailableSpace.
    rewrite Hr. cbn [negb]. fold (room p).
    destruct records as [|r rs]; [cbn in Hfit; lia|].
    set (records := r :: rs) in *.
    by destruct (Nat.ltb_spec (room p) (length records)) as [_|?]; [|lia].
Qed.

Definition firstPage : Record_ :=
  Set_ "url" (AString "http://example.test/") (NewRecord "endpoints").
Definition secondPage : Record_ :=
  Set_ "url" (AString "http://example.test/about") (NewRecord "endpoints").

Lemma batch_whole_or_nothing_witness :
  (SubmitJobs (fun _ => true) (freshPool "extraction" 4 2) [firstPage; secondPage]
   = Done (enqueued (freshPool "extraction" 4 2) [firstPage; secondPage], None)
   /\ AddExtractionJobs (Some (freshPool "extraction" 4 2)) [firstPage; secondPage]
      = Done (Some (enqueued (freshPool "extraction" 4 2) [firstPage; secondPage]), None))
  /\ (SubmitJobs (fun _ => true) (freshPool "extraction" 4 1) [firstPage; secondPage]
      = Done (freshPool "extraction" 4 1, Some (errNoSpace 2 1))
      /\ AddExtractionJobs (Some (freshPool "extraction" 4 1)) [firstPage; secondPage]
         = Done (Some (freshPool "extraction" 4 1), Some (errNoSpace 2 1))).
Proof.
  split.
  - exact (batch_whole_or_nothing (fun _ => true) (freshPool "extraction" 4 2)
             [firstPage; secondPage] (freshPool_serving _ _ _)).
  - exact (batch_whole_or_nothing (fun _ => true) (freshPool "extraction" 4 1)
             [firstPage; secondPage] (freshPool_serving _ _ _)).
Defined.

(** X2.  [AddSequentialExtractionJobs] cannot fail: the pool it makes
    has ten slots more than there are records, so it returns no error,
    with a running pool whose queue holds one job per record, in the
    order of the records. *)
Theorem AddSequentialExtractionJobs_queues_all (pick : Record_ -> bool)
    (records : list Record_) :
  exists p,
    AddSequentialExtractionJobs pick records = Done (p, None)
    /\ Pool.isRunning p = true
    /\ Pool.cap (Pool.jobQueue p) = length records + 10
    /\ map extractionRecord (Pool.buf (Pool.jobQueue p)) = records.
Proof.
  unfold AddSequentialExtractionJobs.
  change (Pool.Start "extraction" (Pool.NewWorkerPool 1 (length records + 10)))
    with (freshPool (Job := ExtractionJob) "extraction" 1 (length records + 10),
          @None error).
  cbv iota beta.
  rewrite SubmitJobs_fits; [|apply freshPool_serving|cbn; lia].
  cbn [bind snd fst]. eexists. split; [reflexivity|]. cbn.
  repeat split. rewrite map_map. cbn. apply map_id.
Qed.

End BatchFacts.

(** ** The life of a pool *)

Section PoolLife.
Import Go Pool.
Context {Job : Type}.
Variable stage : string.

(** X3.  A pool that was stopped does not come back.  [Stop] on a
    running pool succeeds and [Start] after it succeeds too, and sets
    the flag again; but the context stays cancelled and the channel
    stays closed, so the restarted pool never takes a job: [SubmitJob]
    panics on the closed channel or answers that the pool is shutting
    down, the functions that send on their own panic, and a second
    [Stop] panics when it closes the channel again. *)
Theorem stopped_pool_does_not_restart (p : WorkerPool Job) :
  isRunning p = true -> closed (jobQueue p) = false ->
  exists p1 p2,
    Stop p = Done (p1, None)
    /\ Start stage p1 = (p2, None)
    /\ isRunning p2 = true
    /\ buf (jobQueue p2) = buf (jobQueue p)
    /\ (forall pickSend job,
          SubmitJob stage pickSend p2 job
          = if pickSend then Panic "send on closed channel"
            else Done (p2, Some (errShuttingDown stage)))
    /\ (forall job, AddJobDirect stage (Some p2) job = Panic "send on closed channel")
    /\ Stop p2 = Panic "close of closed channel".
Proof.
  intros Hr Hc. unfold Stop, close. rewrite Hr, Hc. cbn [negb bind].
  do 2 eexists. split; [reflexivity|]. unfold Start. cbn [isRunning].
  split; [reflexivity|]. cbn. repeat split.
Qed.

End PoolLife.

Lemma stopped_pool_does_not_restart_witness :
  exists p1 p2 : Pool.WorkerPool nat,
    Pool.Stop (freshPool "prettify" 8 400) = Go.Done (p1, None)
    /\ Pool.Start "prettify" p1 = (p2, None)
    /\ Pool.isRunning p2 = true
    /\ Pool.buf (Pool.jobQueue p2) = Pool.buf (Pool.jobQueue (freshPool "prettify" 8 400))
    /\ (forall pickSend job,
          Pool.SubmitJob "prettify" pickSend p2 job
          = if pickSend then Go.Panic "send on closed channel"
            else Go.Done (p2, Some (Pool.errShuttingDown "prettify")))
    /\ (forall job,
          Pool.AddJobDirect "prettify" (Some p2) job = Go.Panic "send on closed channel")
    /\ Pool.Stop p2 = Go.Panic "close of closed channel".
Proof.
  exact (stopped_pool_does_not_restart "prettify" (freshPool "prettify" 8 400)
           eq_refl eq_refl).
Defined.

(** ** The pipeline between start and shutdown *)

Section PipelineFacts.
Import Go Core DB.
Open Scope list_scope.

Ltac bind_inv H :=
  let a := fresh "a" in
  let E := fresh "E" in
  apply bind_Done in H as (a & E & H).

(** A registered pool between [Start] and [Stop] whose queue is within
    its capacity. *)
Definition inService {Job : Type} (p : option (Pool.WorkerPool Job)) : Prop :=
  exists pool, p = Some pool /\ serving pool
    /\ length (Pool.buf (Pool.jobQueue pool)) <= Pool.cap (Pool.jobQueue pool).

Definition poolsInService (ps : Pools) : Prop :=
  inService (extractionPool ps) /\ inService (prettifyPool ps)
  /\ inService (sourcemapPool ps) /\ inService (analysisPool ps)
  /\ inService (dechunkerPool ps).

Lemma offer_inService {Job : Type} (p : Pool.WorkerPool Job) job :
  inService (Some p) -> inService (Some (offer p job)).
Proof.
  intros (q & [= <-] & Hs & Hl). exists (offer p job). split; [reflexivity|].
  split; [by apply offer_serving|]. unfold offer.
  destruct (Nat.ltb_spec (length (Pool.buf (Pool.jobQueue p)))
              (Pool.cap (Pool.jobQueue p))); cbn; [|exact Hl].
  rewrite length_app. cbn. lia.
Qed.

Lemma AddExtractionJob_inService w r :
  poolsInService (pools w) ->
  exists w' err, AddExtractionJob w r = Done (w', err)
    /\ poolsInService (pools w') /\ sameRows w w'.
Proof.
  intros (He & Hp & Hs & Ha & Hd). pose proof He as (p & Ep & Sp & _).
  unfold AddExtractionJob. rewrite Ep.
  destruct (AddJobDirect_offer "extraction" p (mkExtractionJob r) Sp) as [err ->].
  cbn. do 2 eexists. split; [reflexivity|]. split; [|by split].
  repeat split; try assumption. cbn. apply offer_inService. by rewrite <- Ep.
Qed.

Lemma AddSourcemapJob_inService w r :
  poolsInService (pools w) ->
  exists w' err, AddSourcemapJob w r = Done (w', err)
    /\ poolsInService (pools w') /\ sameRows w w'.
Proof.
  intros (He & Hp & Hs & Ha & Hd). pose proof Hs as (p & Ep & Sp & _).
  unfold AddSourcemapJob. rewrite Ep.
  destruct (AddJobDirect_offer "sourcemap" p (mkSourcemapJob r) Sp) as [err ->].
  cbn. do 2 eexists. split; [reflexivity|]. split; [|by split].
  repeat split; try assumption. cbn. apply offer_inService. by rewrite <- Ep.
Qed.

Lemma AddPrettifyJob_inService e w r filePath fileType :
  poolsInService (pools w) ->
  exists w' err, AddPrettifyJob e w r filePath fileType = Done (w', err)
    /\ poolsInService (pools w') /\ sameRows w w'.
Proof.
  intros (He & Hp & Hs & Ha & Hd). pose proof Hp as (p & Ep & Sp & _).
  unfold AddPrettifyJob. rewrite Ep.
  destruct (AddJobChecked_offer "prettify" (pick e r) p
              (Prettify.mkJob (Some r) filePath fileType) Sp) as [err ->].
  cbn. do 2 eexists. split; [reflexivity|]. split; [|by split].
  repeat split; try assumption. cbn. apply offer_inService. by rewrite <- Ep.
Qed.

Lemma AddAnalysisJob_inService e w r :
  poolsInService (pools w) ->
  exists w' err, AddAnalysisJob e w r = Done (w', err)
    /\ poolsInService (pools w') /\ sameRows w w'.
Proof.
  intros (He & Hp & Hs & Ha & Hd). pose proof Ha as (p & Ep & Sp & _).
  unfold AddAnalysisJob. rewrite Ep.
  destruct (AddJobChecked_offer "analysis" (pick e r) p (mkAnalysisJob r) Sp)
    as [err ->].
  cbn. do 2 eexists. split; [reflexivity|]. split; [|by split].
  repeat split; try assumption. cbn. apply offer_inService. by rewrite <- Ep.
Qed.

Lemma AddDechunkerJob_inService e w r :
  poolsInService (pools w) ->
  exists w' err, AddDechunkerJob e w r = Done (w', err)
    /\ poolsInService (pools w') /\ sameRows w w'.
Proof.
  intros (He & Hp & Hs & Ha & Hd). pose proof Hd as (p & Ep & Sp & _).
  unfold AddDechunkerJob. rewrite Ep.
  destruct (AddJobChecked_offer "dechunker" (pick e r) p (mkDechunkerJob r) Sp)
    as [err ->].
  cbn. do 2 eexists. split; [reflexivity|]. split; [|by split].
  repeat split; try assumption. cbn. apply offer_inService. by rewrite <- Ep.
Qed.

(** *** Outcomes *)

Definition outOfFuel : string := "hooks nested beyond the fuel".

(** The call returns with the pools in service, or it stopped for lack
    of fuel. *)
Definition keeps {A : Type} (worldOf : A -> World) (m : Exec A) : Prop :=
  match m with
  | Done a => poolsInService (pools (worldOf a))
  | Panic msg => msg = outOfFuel
  end.

Definition savedWorld (s : SaveResult) : World := fst (fst s).

Lemma keeps_bind {A B : Type} (f : A -> World) (g : B -> World)
    (m : Exec A) (k : A -> Exec B) :
  keeps f m -> (forall a, poolsInService (pools (f a)) -> keeps g (k a)) ->
  keeps g (bind m k).
Proof. destruct m as [a|msg]; cbn; [|done]. intros Ha Hk. by apply Hk. Qed.

Lemma keeps_submit {B : Type} (g : B -> World) (w : World)
    (m : Exec (World * option error)) (k : World * option error -> Exec B) :
  (exists w' err, m = Done (w', err) /\ poolsInService (pools w') /\ sameRows w w') ->
  (forall a, poolsInService (pools (fst a)) -> keeps g (k a)) ->
  keeps g (bind m k).
Proof. intros (w' & err & -> & Hp & _) Hk. cbn. by apply Hk. Qed.

Section Keeps.
Variable e : Env.

Lemma withJSFiles_pools rows w : pools (withJSFiles rows w) = pools w.
Proof. reflexivity. Qed.
Lemma withEndpoints_pools rows w : pools (withEndpoints rows w) = pools w.
Proof. reflexivity. Qed.

Lemma prettifyHTML_keeps (save : Saver) w r field :
  (forall w r, poolsInService (pools w) -> keeps savedWorld (save w r)) ->
  poolsInService (pools w) ->
  keeps fst (prettifyHTML e save w r field).
Proof.
  intros Hsave Hw. unfold prettifyHTML.
  destruct (GetHTMLFilePath e _ _) as [filePath|]; [|exact Hw].
  eapply keeps_bind; [by apply Hsave|]. intros [[w1 r1] err1] H1.
  eapply keeps_submit; [by apply AddPrettifyJob_inService|].
  intros a Ha. exact Ha.
Qed.

Lemma SaveN_keeps fuel : forall w r,
  poolsInService (pools w) -> keeps savedWorld (SaveN fuel e w r).
Proof.
  induction fuel as [|fuel IH]; intros w r Hw; [reflexivity|].
  cbn [SaveN]. destruct (negb (saveOk e r)); [exact Hw|].
  destruct (String.eqb (collection r) "js_files").
  { destruct (String.eqb (Id r) "").
    - unfold onJSFileAfterCreate.
      destruct (GetJSFilePath e _ _) as [filePath|]; [|exact Hw].
      eapply keeps_bind; [by apply IH|]. intros [[w1 r1] err1] H1.
      eapply keeps_submit; [by apply AddPrettifyJob_inService|]. intros a Ha.
      eapply keeps_submit; [by apply AddSourcemapJob_inService|]. intros b Hb.
      exact Hb.
    - unfold onJSFileAfterUpdate.
      destruct (String.eqb (GetString r "prettify_status") "processed"); [|exact Hw].
      eapply (keeps_bind fst).
      { destruct (String.eqb (GetString r "analysis_status") "pending"); [|exact Hw].
        eapply keeps_bind; [by apply IH|]. intros [[w1 r1] err1] H1.
        eapply keeps_submit; [by apply AddAnalysisJob_inService|]. intros a Ha.
        exact Ha. }
      intros [w1 r1] H1. cbn [fst] in H1.
      destruct (String.eqb (GetString r1 "dechunker_status") "pending"); [|exact H1].
      eapply keeps_bind; [by apply IH|]. intros [[w2 r2] err2] H2.
      eapply keeps_submit; [by apply AddDechunkerJob_inService|]. intros a Ha.
      exact Ha. }
  destruct (String.eqb (collection r) "endpoints"); [|exact Hw].
  destruct (String.eqb (Id r) "").
  - unfold onEndpointAfterCreate.
    destruct (String.eqb (GetString _ "extraction_status") "pending"); [|exact Hw].
    eapply keeps_bind; [by apply IH|]. intros [[w1 r1] err1] H1.
    eapply keeps_submit; [by apply AddExtractionJob_inService|]. intros a Ha.
    by destruct (snd a).
  - unfold onEndpointAfterUpdate. destruct (_ && _); [|exact Hw].
    eapply (keeps_bind fst); [by apply prettifyHTML_keeps|]. intros [w1 r1] H1.
    destruct (negb _); [|exact H1].
    eapply (keeps_bind fst); [by apply prettifyHTML_keeps|]. intros [w2 r2] H2.
    exact H2.
Qed.

End Keeps.

(** *** No save stops for lack of fuel *)

Definition fuelled {A : Type} (m : Exec A) : Prop := m <> Panic outOfFuel.

Lemma fuelled_Done {A : Type} (a : A) : fuelled (Done a).
Proof. discriminate. Qed.

Lemma fuelled_bind {A B : Type} (m : Exec A) (k : A -> Exec B) :
  fuelled m -> (forall a, m = Done a -> fuelled (k a)) -> fuelled (bind m k).
Proof.
  destruct m as [a|msg]; cbn; [intros _ Hk; by apply Hk|].
  unfold fuelled. intros H _ [= E]. apply H. by rewrite E.
Qed.

Lemma AddJobChecked_fuelled {Job : Type} stage pickSend
    (p : option (Pool.WorkerPool Job)) job :
  fuelled (Pool.AddJobChecked stage pickSend p job).
Proof.
  unfold Pool.AddJobChecked, Pool.SubmitJob, Pool.send.
  destruct p as [p|]; [|discriminate].
  destruct (negb (Pool.IsRunning p)); [discriminate|].
  destruct (negb (Pool.isRunning p)); [discriminate|].
  destruct (Pool.sendReady _), (Pool.ctxDone p), pickSend,
    (Pool.closed (Pool.jobQueue p)); discriminate.
Qed.

Lemma AddJobDirect_fuelled {Job : Type} stage (p : option (Pool.WorkerPool Job)) job :
  fuelled (Pool.AddJobDirect stage p job).
Proof.
  unfold Pool.AddJobDirect, Pool.send. destruct p as [p|]; [|discriminate].
  destruct (Pool.sendReady _), (Pool.closed (Pool.jobQueue p)); discriminate.
Qed.

Lemma AddExtractionJob_fuelled w r : fuelled (AddExtractionJob w r).
Proof.
  unfold AddExtractionJob.
  apply fuelled_bind; [apply AddJobDirect_fuelled|]. intros; apply fuelled_Done.
Qed.

Lemma AddSourcemapJob_fuelled w r : fuelled (AddSourcemapJob w r).
Proof.
  unfold AddSourcemapJob.
  apply fuelled_bind; [apply AddJobDirect_fuelled|]. intros; apply fuelled_Done.
Qed.

Lemma AddPrettifyJob_fuelled e w r filePath fileType :
  fuelled (AddPrettifyJob e w r filePath fileType).
Proof.
  unfold AddPrettifyJob.
  apply fuelled_bind; [apply AddJobChecked_fuelled|]. intros; apply fuelled_Done.
Qed.

Lemma AddAnalysisJob_fuelled e w r : fuelled (AddAnalysisJob e w r).
Proof.
  unfold AddAnalysisJob.
  apply fuelled_bind; [apply AddJobChecked_fuelled|]. intros; apply fuelled_Done.
Qed.

Lemma AddDechunkerJob_fuelled e w r : fuelled (AddDechunkerJob e w r).
Proof.
  unfold AddDechunkerJob.
  apply fuelled_bind; [apply AddJobChecked_fuelled|]. intros; apply fuelled_Done.
Qed.

Section Fuelled.
Variable e : Env.
Hypothesis ids_nonempty : forall n, newId e n <> "".

Lemma quietJS_fuelled fuel w r : quietJS r -> fuelled (SaveN (S fuel) e w r).
Proof. intros H. rewrite SaveN_quietJS by exact H. by destruct (saveOk e r). Qed.

Lemma quietEndpoint_fuelled fuel w r :
  quietEndpoint r -> fuelled (SaveN (S fuel) e w r).
Proof. intros H. rewrite SaveN_quietEndpoint by exact H. by destruct (saveOk e r). Qed.

Lemma rejected_fuelled fuel w r : saveOk e r = false -> fuelled (SaveN (S fuel) e w r).
Proof. intros H. by rewrite SaveN_rejected. Qed.

Lemma no_analysis_fuelled fuel w r :
  collection r = "js_files" -> Id r <> "" ->
  GetString r "analysis_status" <> "pending" ->
  fuelled (SaveN (S (S fuel)) e w r).
Proof.
  intros Hc Hi Ha. destruct (saveOk e r) eqn:Hok; [|by apply rejected_fuelled].
  rewrite SaveN_update_js by assumption. unfold onJSFileAfterUpdate.
  destruct (String.eqb _ "processed"); [|apply fuelled_Done].
  pose proof Ha as Ha'. apply String.eqb_neq in Ha'. rewrite Ha'. cbn [bind].
  destruct (String.eqb (GetString r "dechunker_status") "pending");
    [|apply fuelled_Done].
  apply fuelled_bind.
  - apply quietJS_fuelled. split; [exact Hc|]. split; [exact Hi|]. right.
    split; [by rewrite GetString_Set_ne|apply dechunker_started].
  - intros [[w1 r1] err1] _. apply fuelled_bind; [apply AddDechunkerJob_fuelled|].
    intros; apply fuelled_Done.
Qed.

Lemma no_dechunk_fuelled fuel w r :
  collection r = "js_files" -> Id r <> "" ->
  GetString r "dechunker_status" <> "pending" ->
  fuelled (SaveN (S (S fuel)) e w r).
Proof.
  intros Hc Hi Hd. destruct (saveOk e r) eqn:Hok; [|by apply rejected_fuelled].
  rewrite SaveN_update_js by assumption. unfold onJSFileAfterUpdate.
  destruct (String.eqb _ "processed"); [|apply fuelled_Done].
  pose proof Hd as Hd'. apply String.eqb_neq in Hd'.
  destruct (String.eqb (GetString r "analysis_status") "pending");
    [|cbn [bind]; rewrite Hd'; apply fuelled_Done].
  set (ra := Set_ "analysis_status" _ r).
  assert (String.eqb (GetString ra "dechunker_status") "pending" = false) as Hra.
  { unfold ra. by rewrite GetString_Set_ne. }
  rewrite SaveN_quietJS;
    [|split; [exact Hc|split; [exact Hi|right; split;
        [apply analysis_started|unfold ra; by rewrite GetString_Set_ne]]]].
  destruct (saveOk e ra); cbn [bind];
    (destruct (AddAnalysisJob e _ ra) as [a|msg] eqn:Ea; cbn [bind fst];
      [rewrite Hra; apply fuelled_Done|]);
    intros [= ->]; by eapply AddAnalysisJob_fuelled.
Qed.

Lemma js_update_fuelled fuel w r :
  collection r = "js_files" -> Id r <> "" ->
  fuelled (SaveN (S (S (S fuel))) e w r).
Proof.
  intros Hc Hi. destruct (saveOk e r) eqn:Hok; [|by apply rejected_fuelled].
  rewrite SaveN_update_js by assumption. unfold onJSFileAfterUpdate.
  destruct (String.eqb _ "processed"); [|apply fuelled_Done].
  set (w1 := withJSFiles _ w).
  apply fuelled_bind.
  - destruct (String.eqb (GetString r "analysis_status") "pending");
      [|apply fuelled_Done].
    apply fuelled_bind;
      [apply no_analysis_fuelled; [exact Hc|exact Hi|apply analysis_started]|].
    intros [[w2 r2] err2] _.
    apply fuelled_bind; [apply AddAnalysisJob_fuelled|]. intros; apply fuelled_Done.
  - intros [w2 r2] E.
    assert (collection r2 = "js_files" /\ Id r2 <> "") as [Hc2 Hi2].
    { destruct (String.eqb (GetString r "analysis_status") "pending").
      - bind_inv E. destruct a as [[w3 r3] err3]. bind_inv E.
        injection E as _ <-. by apply SaveN_Id in E0.
      - by injection E as _ <-. }
    destruct (String.eqb (GetString r2 "dechunker_status") "pending");
      [|apply fuelled_Done].
    apply fuelled_bind;
      [apply no_dechunk_fuelled; [exact Hc2|exact Hi2|apply dechunker_started]|].
    intros [[w3 r3] err3] _.
    apply fuelled_bind; [apply AddDechunkerJob_fuelled|]. intros; apply fuelled_Done.
Qed.

Lemma js_create_fuelled fuel w r :
  collection r = "js_files" -> Id r = "" ->
  fuelled (SaveN (S (S fuel)) e w r).
Proof.
  intros Hc Hi. destruct (saveOk e r) eqn:Hok; [|by apply rejected_fuelled].
  rewrite SaveN_new_js by assumption. rewrite onJSFileAfterCreate_eq.
  destruct (GetJSFilePath e _ _); [|apply fuelled_Done].
  apply fuelled_bind.
  - rewrite SaveN_quiet_update;
      [destruct (saveOk e (asSaved _ _)); apply fuelled_Done
      |by rewrite collection_asSaved
      |rewrite Id_asSaved; apply ids_nonempty|apply asSaved_in_progress].
  - intros [[w1 r1] err1] _.
    apply fuelled_bind; [apply AddPrettifyJob_fuelled|]. intros a _.
    apply fuelled_bind; [apply AddSourcemapJob_fuelled|]. intros; apply fuelled_Done.
Qed.

Lemma endpoint_create_fuelled fuel w r :
  collection r = "endpoints" -> Id r = "" ->
  fuelled (SaveN (S (S fuel)) e w r).
Proof.
  intros Hc Hi. destruct (saveOk e r) eqn:Hok; [|by apply rejected_fuelled].
  rewrite SaveN_S, Hok, Hc, Hi. cbn [negb String.eqb Ascii.eqb Bool.eqb].
  unfold onEndpointAfterCreate.
  destruct (String.eqb _ "pending"); [|apply fuelled_Done].
  apply fuelled_bind.
  - apply quietEndpoint_fuelled.
    split; [exact Hc|split; [apply ids_nonempty|right]]. by rewrite GetString_Set_eq.
  - intros [[w1 r1] err1] _.
    apply fuelled_bind; [apply AddExtractionJob_fuelled|]. intros a _.
    destruct (snd a); apply fuelled_Done.
Qed.

Lemma prettifyHTML_fuelled fuel w r field :
  collection r = "endpoints" -> Id r <> "" ->
  fuelled (prettifyHTML e (SaveN (S fuel) e) w r field).
Proof.
  intros Hc Hi. unfold prettifyHTML.
  destruct (GetHTMLFilePath e _ _); [|apply fuelled_Done].
  apply fuelled_bind; [apply quietEndpoint_fuelled; by apply prettify_started|].
  intros [[w1 r1] err1] _.
  apply fuelled_bind; [apply AddPrettifyJob_fuelled|]. intros; apply fuelled_Done.
Qed.

Lemma endpoint_update_fuelled fuel w r :
  collection r = "endpoints" -> Id r <> "" ->
  fuelled (SaveN (S (S fuel)) e w r).
Proof.
  intros Hc Hi. destruct (saveOk e r) eqn:Hok; [|by apply rejected_fuelled].
  pose proof Hi as Hi'. apply String.eqb_neq in Hi'.
  rewrite SaveN_S, Hok, Hc, Hi'. cbn [negb String.eqb Ascii.eqb Bool.eqb].
  unfold onEndpointAfterUpdate. destruct (_ && _); [|apply fuelled_Done].
  apply fuelled_bind; [by apply prettifyHTML_fuelled|]. intros [w2 r2] E.
  apply prettifyHTML_record in E as [Hc2 Hi2]; [|exact Hc|exact Hi].
  destruct (negb _); [|apply fuelled_Done].
  apply fuelled_bind; [by apply prettifyHTML_fuelled|]. intros; apply fuelled_Done.
Qed.

Lemma Save_fuelled w r : fuelled (Save e w r).
Proof.
  unfold Save.
  destruct (String.eqb_spec (collection r) "js_files") as [Hc|Hc].
  { destruct (String.eqb_spec (Id r) "") as [Hi|Hi].
    - by apply js_create_fuelled.
    - by apply js_update_fuelled. }
  destruct (String.eqb_spec (collection r) "endpoints") as [Hx|Hx].
  { destruct (String.eqb_spec (Id r) "") as [Hi|Hi].
    - by apply endpoint_create_fuelled.
    - by apply endpoint_update_fuelled. }
  rewrite SaveN_S. apply String.eqb_neq in Hc, Hx. rewrite Hc, Hx.
  by destruct (negb _).
Qed.

(** With the pools in service a save returns, and leaves them in
    service. *)
Lemma Save_returns w r :
  poolsInService (pools w) ->
  exists w' r' err, Save e w r = Done (w', r', err) /\ poolsInService (pools w').
Proof.
  intros Hw. pose proof (SaveN_keeps e 4 w r Hw) as Hk.
  pose proof (Save_fuelled w r) as Hf. unfold Save in *.
  destruct (SaveN 4 e w r) as [[[w' r'] err]|msg].
  - by exists w', r', err.
  - cbn in Hk. subst msg. by destruct Hf.
Qed.


Lemma saveJSFiles_returns jsFiles : forall w ids,
  poolsInService (pools w) ->
  exists w' ids', saveJSFiles e w jsFiles ids = Done (w', ids')
    /\ poolsInService (pools w').
Proof.
  induction jsFiles as [|f rest IH]; intros w ids Hw; cbn [saveJSFiles].
  - by exists w, ids.
  - destruct (negb _); [by apply IH|].
    match goal with |- context [Save e w ?x] =>
      destruct (Save_returns w x Hw) as (w1 & r1 & err1 & -> & H1) end.
    cbn [bind]. by apply IH.
Qed.

Lemma saveProcessingResults_returns w endpointRecord html jsFiles isMobile :
  poolsInService (pools w) ->
  exists w' r' err,
    saveProcessingResults e w endpointRecord html jsFiles isMobile = Done (w', r', err)
    /\ poolsInService (pools w').
Proof.
  intros Hw. unfold saveProcessingResults.
  destruct (saveJSFiles_returns jsFiles w [] Hw) as (w1 & ids & -> & H1).
  cbn [bind]. by apply Save_returns.
Qed.

Lemma fetchAndSaveLoop_returns parent urls : forall w,
  poolsInService (pools w) ->
  exists w', fetchAndSaveLoop e w parent urls = Done w' /\ poolsInService (pools w').
Proof.
  induction urls as [|u rest IH]; intros w Hw; cbn [fetchAndSaveLoop].
  - by exists w.
  - destruct (FindFirstRecordByFilter _ _); [by apply IH|].
    destruct (fetchChunk e u) as [[content contentType]|]; [|by apply IH].
    destruct (_ && _); [by apply IH|].
    destruct (looksLikeHTML content); [by apply IH|].
    destruct (_ =? _)%nat; [by apply IH|].
    match goal with |- context [Save e w ?x] =>
      destruct (Save_returns w x Hw) as (w1 & r1 & err1 & -> & H1) end.
    cbn [bind fst]. by apply IH.
Qed.

Lemma failDechunker_returns w r :
  poolsInService (pools w) ->
  exists w' r',
    (let* s := failDechunker e w r in Done (fst (fst s), snd (fst s))) = Done (w', r')
    /\ poolsInService (pools w').
Proof.
  intros Hw. unfold failDechunker.
  match goal with |- context [Save e w ?x] =>
    destruct (Save_returns w x Hw) as (w1 & r1 & err1 & -> & H1) end.
  cbn. by exists w1, r1.
Qed.

Lemma dechunkerProcessJob_returns w r :
  poolsInService (pools w) ->
  exists w' r', dechunkerProcessJob e w r = Done (w', r') /\ poolsInService (pools w').
Proof.
  intros Hw. unfold dechunkerProcessJob.
  destruct (_ || _); [by apply failDechunker_returns|].
  destruct (GetJSFilePath e _ _) as [fullPath|]; [|by apply failDechunker_returns].
  destruct (ExtractChunksFromFile e _ _) as [chunkURLs|];
    [|by apply failDechunker_returns].
  destruct chunkURLs as [|u us].
  - cbn [bind].
    match goal with |- context [Save e w ?x] =>
      destruct (Save_returns w x Hw) as (w2 & r2 & err2 & -> & H2) end.
    cbn. by exists w2, r2.
  - cbv zeta.
    match goal with |- context [Save e w ?x] =>
      destruct (Save_returns w x Hw) as (w1 & r1 & err1 & -> & H1) end.
    cbn [bind]. unfold fetchAndSaveChunks.
    destruct (fetchAndSaveLoop_returns (Id r1) (u :: us) w1 H1) as (w2 & -> & H2).
    cbn [bind].
    match goal with |- context [Save e w2 ?x] =>
      destruct (Save_returns w2 x H2) as (w3 & r3 & err3 & -> & H3) end.
    cbn. by exists w3, r3.
Qed.

Lemma submitEach_returns (submit : World -> Record_ -> Exec (World * option error))
    records :
  (forall w r, poolsInService (pools w) ->
     exists w' err, submit w r = Done (w', err)
       /\ poolsInService (pools w') /\ sameRows w w') ->
  forall w, poolsInService (pools w) ->
    exists w', submitEach submit w records = Done w'
      /\ poolsInService (pools w') /\ sameRows w w'.
Proof.
  intros Hs. induction records as [|r rs IH]; intros w Hw; cbn [submitEach].
  - exists w. split; [reflexivity|]. split; [exact Hw|apply sameRows_refl].
  - destruct (Hs w r Hw) as (w1 & err & -> & H1 & R1). cbn [bind fst].
    destruct (IH w1 H1) as (w2 & -> & H2 & R2). exists w2.
    split; [reflexivity|]. split; [exact H2|]. by apply (sameRows_trans w w1 w2).
Qed.

Lemma submitPrettifyRecovery_inService w r :
  poolsInService (pools w) ->
  exists w' err, submitPrettifyRecovery e w r = Done (w', err)
    /\ poolsInService (pools w') /\ sameRows w w'.
Proof.
  intros (He & Hp & Hs & Ha & Hd). pose proof Hp as (p & Ep & Sp & _).
  unfold submitPrettifyRecovery. rewrite Ep. cbn [deref bind].
  destruct (SubmitJob_offer "prettify" (pick e r) p (Prettify.mkJob (Some r) "" "") Sp)
    as [err ->].
  cbn. do 2 eexists. split; [reflexivity|]. split; [|by split].
  repeat split; try assumption. cbn. apply offer_inService. by rewrite <- Ep.
Qed.

Lemma submitAnalysisRecovery_inService w r :
  poolsInService (pools w) ->
  exists w' err, submitAnalysisRecovery e w r = Done (w', err)
    /\ poolsInService (pools w') /\ sameRows w w'.
Proof.
  intros (He & Hp & Hs & Ha & Hd). pose proof Ha as (p & Ep & Sp & _).
  unfold submitAnalysisRecovery. rewrite Ep. cbn [deref bind].
  destruct (SubmitJob_offer "analysis" (pick e r) p (mkAnalysisJob r) Sp) as [err ->].
  cbn. do 2 eexists. split; [reflexivity|]. split; [|by split].
  repeat split; try assumption. cbn. apply offer_inService. by rewrite <- Ep.
Qed.

Lemma recoverPendingJobs_returns w :
  poolsInService (pools w) ->
  exists w', recoverPendingJobs e w = Done w'
    /\ poolsInService (pools w') /\ sameRows w w'.
Proof.
  intros Hw. unfold recoverPendingJobs.
  destruct (submitEach_returns AddExtractionJob
              (FindRecordsByFilter (endpoints w) (pendingOrProcessing "extraction_status"))
              AddExtractionJob_inService w Hw) as (w1 & -> & H1 & R1).
  cbn [bind].
  destruct (submitEach_returns (submitPrettifyRecovery e)
              (FindRecordsByFilter (endpoints w1) (pendingOrProcessing "prettify_status"))
              submitPrettifyRecovery_inService w1 H1) as (w2 & -> & H2 & R2).
  cbn [bind].
  destruct (submitEach_returns (submitPrettifyRecovery e)
              (FindRecordsByFilter (js_files w2) (pendingOrProcessing "prettify_status"))
              submitPrettifyRecovery_inService w2 H2) as (w3 & -> & H3 & R3).
  cbn [bind].
  destruct (submitEach_returns AddSourcemapJob
              (FindRecordsByFilter (js_files w3) (pendingOrProcessing "sourcemap_status"))
              AddSourcemapJob_inService w3 H3) as (w4 & -> & H4 & R4).
  cbn [bind].
  destruct (submitEach_returns (submitAnalysisRecovery e)
              (FindRecordsByFilter (js_files w4) (pendingOrProcessing "analysis_status"))
              submitAnalysisRecovery_inService w4 H4) as (w5 & -> & H5 & R5).
  cbn [bind].
  destruct (submitEach_returns (AddDechunkerJob e)
              (FindRecordsByFilter (js_files w5) (pendingOrProcessing "dechunker_status"))
              (AddDechunkerJob_inService e) w5 H5) as (w6 & -> & H6 & R6).
  exists w6. split; [reflexivity|]. split; [exact H6|].
  apply (sameRows_trans w w1 w6 R1), (sameRows_trans w1 w2 w6 R2),
    (sameRows_trans w2 w3 w6 R3), (sameRows_trans w3 w4 w6 R4),
    (sameRows_trans w4 w5 w6 R5), R6.
Qed.

Lemma onTmpEndpointAfterCreate_returns w tmp hash :
  poolsInService (pools w) ->
  exists w' record err,
    onTmpEndpointAfterCreate e w tmp hash = Done (w', record, err)
    /\ poolsInService (pools w').
Proof.
  intros Hw. unfold onTmpEndpointAfterCreate.
  destruct (if negb _ then _ else _); [by exists w, None, None|].
  match goal with |- context [Save e w ?x] =>
    destruct (Save_returns w x Hw) as (w1 & r1 & err1 & -> & H1) end.
  cbn. by exists w1, (Some r1), err1.
Qed.

End Fuelled.

(** *** The invariant *)

Lemma Done_keeps {A : Type} (f : A -> World) (m : Exec A) a :
  keeps f m -> m = Done a -> poolsInService (pools (f a)).
Proof. by intros H ->. Qed.

Lemma saveJSFiles_keeps e jsFiles : forall w ids,
  poolsInService (pools w) -> keeps fst (saveJSFiles e w jsFiles ids).
Proof.
  induction jsFiles as [|f rest IH]; intros w ids Hw; cbn [saveJSFiles]; [exact Hw|].
  destruct (negb _); [by apply IH|].
  eapply keeps_bind; [by apply SaveN_keeps|]. intros [[w1 r1] err1] H1. by apply IH.
Qed.

Lemma saveProcessingResults_keeps e w endpointRecord html jsFiles isMobile :
  poolsInService (pools w) ->
  keeps savedWorld (saveProcessingResults e w endpointRecord html jsFiles isMobile).
Proof.
  intros Hw. unfold saveProcessingResults.
  eapply keeps_bind; [by apply saveJSFiles_keeps|]. intros [w1 ids] H1.
  by apply SaveN_keeps.
Qed.

Lemma fetchAndSaveLoop_keeps e parent urls : forall w,
  poolsInService (pools w) -> keeps id (fetchAndSaveLoop e w parent urls).
Proof.
  induction urls as [|u rest IH]; intros w Hw; cbn [fetchAndSaveLoop]; [exact Hw|].
  destruct (FindFirstRecordByFilter _ _); [by apply IH|].
  destruct (fetchChunk e u) as [[content contentType]|]; [|by apply IH].
  destruct (_ && _); [by apply IH|].
  destruct (looksLikeHTML content); [by apply IH|].
  destruct (_ =? _)%nat; [by apply IH|].
  eapply keeps_bind; [by apply SaveN_keeps|]. intros [[w1 r1] err1] H1. by apply IH.
Qed.

Lemma dechunkerProcessJob_keeps e w r :
  poolsInService (pools w) -> keeps fst (dechunkerProcessJob e w r).
Proof.
  intros Hw. unfold dechunkerProcessJob.
  assert (keeps fst (let* s := failDechunker e w r in Done (fst (fst s), snd (fst s))))
    as Hfail.
  { eapply keeps_bind; [by apply SaveN_keeps|]. intros [[w1 r1] err1] H1. exact H1. }
  destruct (_ || _); [exact Hfail|].
  destruct (GetJSFilePath e _ _) as [fullPath|]; [|exact Hfail].
  destruct (ExtractChunksFromFile e _ _) as [chunkURLs|]; [|exact Hfail].
  eapply (keeps_bind fst).
  - destruct chunkURLs as [|u us]; [exact Hw|].
    eapply keeps_bind; [by apply SaveN_keeps|]. intros [[w1 r1] err1] H1.
    eapply (keeps_bind id); [by apply fetchAndSaveLoop_keeps|]. intros w2 H2. exact H2.
  - intros [w1 r1] H1.
    eapply keeps_bind; [by apply SaveN_keeps|]. intros [[w2 r2] err2] H2. exact H2.
Qed.

Lemma receive_inService {Job : Type} (p p' : option (Pool.WorkerPool Job)) job :
  receive p = Some (job, p') -> inService p -> inService p'.
Proof.
  unfold receive. intros H (pool & -> & (Hr & Hd & Hc) & Hl).
  destruct (Pool.buf (Pool.jobQueue pool)) as [|j rest] eqn:Eb; [discriminate|].
  injection H as _ <-. eexists. split; [reflexivity|]. cbn in *.
  split; [by repeat split|lia].
Qed.

Lemma started_inService {Job : Type} stage maxWorkers queueSize :
  inService (@started Job stage maxWorkers queueSize).
Proof.
  eexists. split; [reflexivity|]. split; [by repeat split|]. cbn. lia.
Qed.

Lemma startedPools_inService sizes : poolsInService (startedPools sizes).
Proof. repeat split; apply started_inService. Qed.

Lemma step_inService sys sys' :
  step sys sys' -> poolsInService (pools (world sys)) ->
  poolsInService (pools (world sys')).
Proof.
  intros Hstep Hw. destruct Hstep; cbn [world]; try exact Hw.
  - unfold onTmpEndpointAfterCreate in H.
    destruct (if negb _ then _ else _); [by injection H as <- _ _|].
    bind_inv H. destruct a as [[w1 r1] err1]. injection H as <- _ _.
    by apply (Done_keeps savedWorld _ _ (SaveN_keeps e 4 _ _ Hw) E).
  - destruct Hw as (He & Hp & Hs & Ha & Hd). repeat split; try assumption.
    by apply (receive_inService _ _ _ H).
  - destruct Hw as (He & Hp & Hs & Ha & Hd). repeat split; try assumption.
    by apply (receive_inService _ _ _ H).
  - destruct Hw as (He & Hp & Hs & Ha & Hd). repeat split; try assumption.
    by apply (receive_inService _ _ _ H).
  - destruct Hw as (He & Hp & Hs & Ha & Hd). repeat split; try assumption.
    by apply (receive_inService _ _ _ H).
  - destruct Hw as (He & Hp & Hs & Ha & Hd). repeat split; try assumption.
    by apply (receive_inService _ _ _ H).
  - by apply (Done_keeps savedWorld _ _ (SaveN_keeps e 4 _ _ Hw) H2).
  - by apply (Done_keeps savedWorld _ _
                (saveProcessingResults_keeps e _ endpointRecord html jsFiles isMobile Hw)
                H2).
  - by apply (Done_keeps fst _ _ (dechunkerProcessJob_keeps e _ r Hw) H0).
  - unfold recoverPendingJobs in H.
    assert (forall submit records w w',
              (forall w r, poolsInService (pools w) ->
                 exists w' err, submit w r = Done (w', err)
                   /\ poolsInService (pools w') /\ sameRows w w') ->
              poolsInService (pools w) -> submitEach submit w records = Done w' ->
              poolsInService (pools w')) as Hsub.
    { intros submit records. induction records as [|x xs IH]; intros w1 w2 Hs H1 E.
      - by injection E as <-.
      - cbn [submitEach] in E. destruct (Hs w1 x H1) as (w3 & err & E3 & H3 & _).
        rewrite E3 in E. cbn in E. by apply (IH w3 w2). }
    bind_inv H. bind_inv H. bind_inv H. bind_inv H. bind_inv H.
    eapply Hsub in E; [|apply AddExtractionJob_inService|exact Hw].
    eapply Hsub in E0; [|apply submitPrettifyRecovery_inService|exact E].
    eapply Hsub in E1; [|apply submitPrettifyRecovery_inService|exact E0].
    eapply Hsub in E2; [|apply AddSourcemapJob_inService|exact E1].
    eapply Hsub in E3; [|apply submitAnalysisRecovery_inService|exact E2].
    eapply Hsub in H; [exact H|apply AddDechunkerJob_inService|exact E3].
  - apply startedPools_inService.
Qed.

Lemma reachable_inService sizes sys :
  reachable sizes sys -> poolsInService (pools (world sys)).
Proof.
  induction 1 as [|sys sys' _ IH Hstep]; [apply startedPools_inService|].
  by apply (step_inService sys sys').
Qed.

(** X4.  The hooks nest at most three saves below the save that
    started them.  With row ids that are never empty, [Save] never
    stops because saves nested beyond its bound, and a larger bound
    gives the same result: every hook sets the status that triggers it
    to processing before it saves from inside. *)
Theorem hooks_nest_within_the_bound (e : Env) (w : World) (r : Record_) (k : nat) :
  (forall n, newId e n <> "") ->
  Save e w r <> Panic "hooks nested beyond the fuel"
  /\ SaveN (4 + k) e w r = Save e w r.
Proof.
  intros ids. split; [by apply Save_fuelled|by apply Save_fuel].
Qed.

Definition plainScript : Record_ :=
  Set_ "type" (AString "normal")
    (Set_ "hash" (AString "sha256:y()")
       (Set_ "url" (AString "http://example.test/lib.js") (NewRecord "js_files"))).

Lemma hooks_nest_within_the_bound_witness :
  Save mirrorEnv oneScript plainScript <> Panic "hooks nested beyond the fuel"
  /\ SaveN (4 + 3) mirrorEnv oneScript plainScript
     = Save mirrorEnv oneScript plainScript.
Proof.
  exact (hooks_nest_within_the_bound mirrorEnv oneScript plainScript 3
           (proj1 mirrorEnv_goodIds)).
Defined.

(** X5.  Between start and shutdown the pools stay in service: in
    every state the pipeline reaches, each of the five pools is
    registered, running, not cancelled, its channel is open, and its
    queue holds no more jobs than its capacity. *)
Theorem pools_stay_in_service (sizes : list (Z * nat)) (sys : System) :
  reachable sizes sys -> poolsInService (pools (world sys)).
Proof. apply reachable_inService. Qed.

Lemma pools_stay_in_service_witness :
  poolsInService (pools (world afterExtraction)).
Proof.
  exact (pools_stay_in_service defaultSizes afterExtraction afterExtraction_reachable).
Defined.

(** X6.  Between start and shutdown no action of the pipeline panics.
    In every state the pipeline reaches, and with row ids that are
    never empty, a save with its hooks, the ingestion of a capture, the
    writer of the Extraction stage, a Dechunker job and the recovery
    sweep all return: a full queue gives an error value, never a
    panic.  The sweep changes no row. *)
Theorem pipeline_actions_return (sizes : list (Z * nat)) (sys : System) (e : Env) :
  reachable sizes sys -> (forall n, newId e n <> "") ->
  (forall r, returns (Save e (world sys) r) = true)
  /\ (forall tmp hash,
        returns (onTmpEndpointAfterCreate e (world sys) tmp hash) = true)
  /\ (forall endpointRecord html jsFiles isMobile,
        returns (saveProcessingResults e (world sys) endpointRecord html jsFiles
                   isMobile) = true)
  /\ (forall r, returns (dechunkerProcessJob e (world sys) r) = true)
  /\ exists w', recoverPendingJobs e (world sys) = Done w'
       /\ sameRows (world sys) w'.
Proof.
  intros Hr ids. apply reachable_inService in Hr. repeat split.
  - intros r. by destruct (Save_returns e ids (world sys) r Hr) as (? & ? & ? & -> & _).
  - intros tmp hash.
    by destruct (onTmpEndpointAfterCreate_returns e ids (world sys) tmp hash Hr)
      as (? & ? & ? & -> & _).
  - intros endpointRecord html jsFiles isMobile.
    by destruct (saveProcessingResults_returns e ids (world sys) endpointRecord html
                   jsFiles isMobile Hr) as (? & ? & ? & -> & _).
  - intros r.
    by destruct (dechunkerProcessJob_returns e ids (world sys) r Hr) as (? & ? & -> & _).
  - destruct (recoverPendingJobs_returns e (world sys) Hr) as (w' & E & _ & R).
    by exists w'.
Qed.

Lemma pipeline_actions_return_witness :
  (forall r, returns (Save mirrorEnv (world afterExtraction) r) = true)
  /\ (forall tmp hash,
        returns (onTmpEndpointAfterCreate mirrorEnv (world afterExtraction) tmp hash)
        = true)
  /\ (forall endpointRecord html jsFiles isMobile,
        returns (saveProcessingResults mirrorEnv (world afterExtraction) endpointRecord
                   html jsFiles isMobile) = true)
  /\ (forall r, returns (dechunkerProcessJob mirrorEnv (world afterExtraction) r) = true)
  /\ exists w', recoverPendingJobs mirrorEnv (world afterExtraction) = Done w'
       /\ sameRows (world afterExtraction) w'.
Proof.
  exact (pipeline_actions_return defaultSizes afterExtraction mirrorEnv
           afterExtraction_reachable (proj1 mirrorEnv_goodIds)).
Defined.

End PipelineFacts.

(** ** Hooks: what a save leaves behind *)

Section HookFacts.
Import Go Core DB.
Open Scope list_scope.

Ltac bind_inv H :=
  let a := fresh "a" in
  let E := fresh "E" in
  apply bind_Done in H as (a & E & H).

Ltac bind_as H s E := apply bind_Done in H as (s & E & H).

Section Once.
Variable e : Env.
Hypothesis ids_nonempty : forall n, newId e n <> "".

Lemma collection_atCreation r : collection (atCreation e r) = collection r.
Proof. unfold atCreation, createStatuses. by destruct (isInlineOrChunk _). Qed.

Lemma Id_atCreation r : Id (atCreation e r) = Id r.
Proof. unfold atCreation, createStatuses. by destruct (isInlineOrChunk _). Qed.

Lemma atCreation_pending r : GetString (atCreation e r) "prettify_status" = "pending".
Proof.
  unfold atCreation, createStatuses.
  destruct (isInlineOrChunk _); rewrite !GetString_Set_ne by discriminate;
    apply GetString_Set_eq.
Qed.

Lemma quietJS_same fuel w x w' x' err :
  quietJS x -> SaveN (S fuel) e w x = Done (w', x', err) -> x' = x.
Proof.
  intros Hq. rewrite SaveN_quietJS by exact Hq.
  destruct (saveOk e x); by intros [= _ <- _].
Qed.

Lemma created_js_record fuel w r w' r' err :
  collection r = "js_files" -> Id r = "" -> saveOk e r = true ->
  SaveN (S (S fuel)) e w r = Done (w', r', err) ->
  r' = asSaved e (withId (newId e (length (js_files w))) r)
  \/ r' = atCreation e (withId (newId e (length (js_files w))) r).
Proof.
  intros Hc Hi Hok H. rewrite SaveN_new_js, onJSFileAfterCreate_eq in H by assumption.
  destruct (GetJSFilePath e _ _) as [filePath|].
  - rewrite SaveN_quiet_update in H;
      [|by rewrite collection_asSaved|rewrite Id_asSaved; apply ids_nonempty
       |apply asSaved_in_progress].
    left. destruct (saveOk e (asSaved _ _)); cbn [bind] in H;
      bind_inv H; bind_inv H; by injection H as _ <- _.
  - right. by injection H as _ <- _.
Qed.

(** The record a created js_file comes back as. *)
Lemma created_js_quiet fuel w r w' r' err :
  collection r = "js_files" -> Id r = "" -> saveOk e r = true ->
  SaveN (S (S fuel)) e w r = Done (w', r', err) -> quietJS r'.
Proof.
  intros Hc Hi Hok H. rewrite SaveN_new_js, onJSFileAfterCreate_eq in H by assumption.
  destruct (GetJSFilePath e _ _) as [filePath|].
  - rewrite SaveN_quiet_update in H;
      [|by rewrite collection_asSaved|rewrite Id_asSaved; apply ids_nonempty
       |apply asSaved_in_progress].
    assert (r' = asSaved e (withId (newId e (length (js_files w))) r)) as ->.
    { destruct (saveOk e (asSaved _ _)); cbn [bind] in H;
        bind_inv H; bind_inv H; by injection H as _ <- _. }
    split; [by rewrite collection_asSaved|].
    split; [rewrite Id_asSaved; apply ids_nonempty|]. left.
    by rewrite asSaved_in_progress.
  - injection H as _ <- _. split; [by rewrite collection_atCreation|].
    split; [rewrite Id_atCreation; apply ids_nonempty|]. left.
    by rewrite atCreation_pending.
Qed.

(** An update whose analysis is not pending: the hook can only have
    started the Dechunker. *)
Lemma no_analysis_result fuel w x w' x' err :
  collection x = "js_files" -> Id x <> "" ->
  GetString x "analysis_status" <> "pending" ->
  SaveN (S (S fuel)) e w x = Done (w', x', err) ->
  collection x' = "js_files" /\ Id x' <> ""
  /\ GetString x' "analysis_status" = GetString x "analysis_status"
  /\ (saveOk e x = true -> GetString x "prettify_status" = "processed" ->
      GetString x' "dechunker_status" <> "pending").
Proof.
  intros Hc Hi Ha H. destruct (saveOk e x) eqn:Hok.
  2:{ rewrite SaveN_rejected in H by exact Hok. injection H as _ <- _.
      by repeat split. }
  rewrite SaveN_update_js in H by assumption. unfold onJSFileAfterUpdate in H.
  destruct (String.eqb_spec (GetString x "prettify_status") "processed") as [Hp|Hp].
  2:{ injection H as _ <- _. by repeat split. }
  pose proof Ha as Ha'. apply String.eqb_neq in Ha'. rewrite Ha' in H. cbn [bind] in H.
  destruct (String.eqb_spec (GetString x "dechunker_status") "pending") as [Hd|Hd].
  2:{ injection H as _ <- _. by repeat split. }
  set (rd := Set_ "dechunker_status" (AString "processing") x) in *.
  rewrite SaveN_quietJS in H.
  2:{ split; [exact Hc|]. split; [exact Hi|]. right.
      split; [unfold rd; by rewrite GetString_Set_ne|apply dechunker_started]. }
  assert (x' = rd) as ->.
  { destruct (saveOk e rd); cbn [bind] in H; bind_inv H; by injection H as _ <- _. }
  split; [exact Hc|]. split; [exact Hi|].
  split; [unfold rd; by rewrite GetString_Set_ne|]. intros _ _. apply dechunker_started.
Qed.

(** The record an updated js_file comes back as. *)
Lemma updated_js_quiet fuel w r w' r' err :
  collection r = "js_files" -> Id r <> "" -> saveOk e r = true ->
  SaveN (S (S (S fuel))) e w r = Done (w', r', err) -> quietJS r'.
Proof.
  intros Hc Hi Hok H. rewrite SaveN_update_js in H by assumption.
  unfold onJSFileAfterUpdate in H.
  destruct (String.eqb_spec (GetString r "prettify_status") "processed") as [Hp|Hp].
  2:{ injection H as _ <- _. split; [exact Hc|]. split; [exact Hi|]. by left. }
  set (w1 := withJSFiles _ w) in *.
  destruct (String.eqb_spec (GetString r "analysis_status") "pending") as [Ha|Ha].
  - set (ra := Set_ "analysis_status" (AString "processing") r) in *.
    bind_as H s1 E1. destruct s1 as [w2 r2]. bind_as E1 s2 E2.
    destruct s2 as [[w3 r3] err3]. bind_as E1 s3 E3. injection E1 as <- <-.
    apply no_analysis_result in E2 as (Hc3 & Hi3 & Ha3 & _);
      [|exact Hc|exact Hi|apply analysis_started].
    assert (GetString r3 "analysis_status" <> "pending") as Ha3'.
    { rewrite Ha3. apply analysis_started. }
    destruct (String.eqb_spec (GetString r3 "dechunker_status") "pending") as [Hd|Hd].
    + set (rd := Set_ "dechunker_status" (AString "processing") r3) in *.
      assert (quietJS rd) as Hq.
      { split; [exact Hc3|]. split; [exact Hi3|]. right.
        split; [unfold rd; by rewrite GetString_Set_ne|apply dechunker_started]. }
      bind_as H s4 E4. destruct s4 as [[w4 r4] err4]. bind_as H s5 E5.
      injection H as _ <- _. by rewrite (quietJS_same _ _ _ _ _ _ Hq E4).
    + injection H as _ <- _. split; [exact Hc3|]. split; [exact Hi3|]. by right.
  - cbn [bind] in H.
    destruct (String.eqb_spec (GetString r "dechunker_status") "pending") as [Hd|Hd].
    + set (rd := Set_ "dechunker_status" (AString "processing") r) in *.
      assert (quietJS rd) as Hq.
      { split; [exact Hc|]. split; [exact Hi|]. right.
        split; [unfold rd; by rewrite GetString_Set_ne|apply dechunker_started]. }
      bind_as H s4 E4. destruct s4 as [[w4 r4] err4]. bind_as H s5 E5.
      injection H as _ <- _. by rewrite (quietJS_same _ _ _ _ _ _ Hq E4).
    + injection H as _ <- _. split; [exact Hc|]. split; [exact Hi|]. by right.
Qed.

Lemma saved_js_quiet w r w' r' err :
  collection r = "js_files" -> saveOk e r = true ->
  Save e w r = Done (w', r', err) -> quietJS r'.
Proof.
  intros Hc Hok H. unfold Save in H.
  destruct (String.eqb_spec (Id r) "") as [Hi|Hi].
  - by apply (created_js_quiet 2 w r w' r' err).
  - by apply (updated_js_quiet 1 w r w' r' err).
Qed.

End Once.

(** X7.  The hooks of js_files fire once.  When a save of a js_file is
    accepted, the record it hands back no longer triggers any hook
    action: saving that record again only rewrites its row, submits no
    job and returns the record as it is (or the error of a save that
    was turned down, with nothing changed). *)
Theorem js_file_hooks_fire_once (e : Env) (w : World) (r : Record_)
    (w' : World) (r' : Record_) (err : option error) :
  (forall n, newId e n <> "") ->
  collection r = "js_files" -> saveOk e r = true ->
  Save e w r = Done (w', r', err) ->
  Id r' <> ""
  /\ Save e w' r'
     = if saveOk e r'
       then Done (withJSFiles (replaceRow r' (js_files w')) w', r', None)
       else Done (w', r', Some (Err "save failed")).
Proof.
  intros ids Hc Hok H. pose proof (saved_js_quiet e ids w r w' r' err Hc Hok H) as Hq.
  split; [apply Hq|]. unfold Save. by apply SaveN_quietJS.
Qed.

Lemma js_file_hooks_fire_once_witness :
  exists w' r' err,
    Save mirrorEnv oneScript plainScript = Done (w', r', err)
    /\ Id r' <> ""
    /\ Save mirrorEnv w' r'
       = Done (withJSFiles (replaceRow r' (js_files w')) w', r', None).
Proof.
  destruct (Save mirrorEnv oneScript plainScript) as [[[w' r'] err]|msg] eqn:E;
    [|vm_compute in E; discriminate].
  exists w', r', err. split; [reflexivity|].
  exact (js_file_hooks_fire_once mirrorEnv oneScript plainScript w' r' err
           (proj1 mirrorEnv_goodIds) eq_refl eq_refl E).
Defined.

(** *** Endpoints *)

Definition started_extraction (id : string) (r : Record_) : Record_ :=
  Set_ "extraction_status" (AString "processing") (withId id r).

(** What the creation of an endpoint leaves in the table. *)
Lemma new_endpoint_row e fuel w r w' r' err :
  nextIdFree e (endpoints w) ->
  collection r = "endpoints" -> Id r = "" -> saveOk e r = true ->
  SaveN (S (S fuel)) e w r = Done (w', r', err) ->
  js_files w' = js_files w
  /\ exists x, endpoints w' = endpoints w ++ [x]
       /\ Id x = newId e (length (endpoints w))
       /\ forall k, k <> "extraction_status" -> GetString x k = GetString r k.
Proof.
  intros [Hne Hfree] Hc Hi Hok H. rewrite SaveN_S, Hok, Hc, Hi in H.
  cbn [negb String.eqb Ascii.eqb Bool.eqb] in H. unfold onEndpointAfterCreate in H.
  set (id := newId e (length (endpoints w))) in *.
  destruct (String.eqb (GetString (withId id r) "extraction_status") "pending").
  2:{ injection H as <- _ _. split; [reflexivity|]. exists (withId id r).
      by repeat split. }
  fold (started_extraction id r) in H.
  rewrite SaveN_quietEndpoint in H.
  2:{ split; [exact Hc|]. split; [exact Hne|]. right.
      unfold started_extraction. by rewrite GetString_Set_eq. }
  destruct (saveOk e (started_extraction id r)); cbn [bind] in H.
  - bind_inv H. destruct a as [w1 err1]. apply AddExtractionJob_rows in E as [E1 E2].
    assert (w' = w1) as -> by (destruct err1; by injection H as <- _ _).
    cbn in E1, E2. split; [exact E2|]. exists (started_extraction id r).
    split; [rewrite E1; by apply replaceRow_last|]. split; [reflexivity|].
    intros k Hk. unfold started_extraction. rewrite GetString_Set_ne by done.
    apply GetString_withId.
  - bind_inv H. destruct a as [w1 err1]. apply AddExtractionJob_rows in E as [E1 E2].
    assert (w' = w1) as -> by (destruct err1; by injection H as <- _ _).
    cbn in E1, E2. split; [exact E2|]. exists (withId id r).
    by repeat split.
Qed.

(** X8.  A capture whose hash is registered is dropped.  Once the hook
    of tmp_endpoints has run for a capture with a non-empty hash, and
    the store accepts endpoint records, an endpoint with that hash is
    in the table; from then on the hook makes nothing of a capture with
    the same hash: it changes neither rows nor queues and hands back no
    record. *)
Theorem capture_with_known_hash_is_dropped (e : Env) (w : World) (tmp : Record_)
    (hash : string) (w1 : World) (record : option Record_) (err : option error) :
  goodIds e -> storeIds e (endpoints w) -> hash <> "" ->
  (forall r, collection r = "endpoints" -> saveOk e r = true) ->
  onTmpEndpointAfterCreate e w tmp hash = Done (w1, record, err) ->
  (exists x, In x (endpoints w1) /\ GetString x "hash" = hash)
  /\ forall e' tmp',
       onTmpEndpointAfterCreate e' w1 tmp' hash = Done (w1, None, None).
Proof.
  intros Hg Hs Hh Hok H.
  assert (exists x, In x (endpoints w1) /\ GetString x "hash" = hash) as Hx.
  { unfold onTmpEndpointAfterCreate in H. apply String.eqb_neq in Hh. rewrite Hh in H.
    cbn [negb] in H.
    destruct (List.find _ (endpoints w)) as [x|] eqn:Ef.
    - injection H as <- _ _. apply find_some in Ef as [Hin Hx].
      exists x. split; [exact Hin|]. by apply String.eqb_eq.
    - bind_inv H. destruct a as [[w2 r2] err2]. injection H as <- _ _.
      apply new_endpoint_row in E as (_ & x & Ex & _ & Hk);
        [|by apply storeIds_free|reflexivity|reflexivity|by apply Hok].
      exists x. split; [rewrite Ex; apply in_or_app; right; by left|].
      rewrite Hk by discriminate. rewrite !GetString_Set_ne by discriminate.
      apply GetString_Set_eq. }
  split; [exact Hx|]. intros e' tmp'. unfold onTmpEndpointAfterCreate.
  apply String.eqb_neq in Hh. rewrite Hh. cbn [negb].
  destruct (List.find _ (endpoints w1)) as [y|] eqn:Ef; [reflexivity|].
  destruct Hx as (x & Hin & Hx).
  apply (find_none _ _ Ef) in Hin. rewrite Hx, String.eqb_refl in Hin. discriminate.
Qed.

Lemma capture_with_known_hash_is_dropped_witness :
  (exists x, In x (endpoints (world afterCapture)) /\ GetString x "hash" = "5e1f")
  /\ onTmpEndpointAfterCreate mirrorEnv (world afterCapture) capture "5e1f"
     = Done (world afterCapture, None, None).
Proof.
  destruct (onTmpEndpointAfterCreate mirrorEnv (world (initial defaultSizes)) capture
              "5e1f") as [[[w1 record] err]|msg] eqn:E; [|vm_compute in E; discriminate].
  assert (world afterCapture = w1) as ->.
  { unfold afterCapture. by rewrite E. }
  destruct (capture_with_known_hash_is_dropped mirrorEnv
              (world (initial defaultSizes)) capture "5e1f" w1 record err
              mirrorEnv_goodIds eq_refl ltac:(discriminate) (fun _ _ => eq_refl) E)
    as [Hx Hdrop].
  split; [exact Hx|apply Hdrop].
Defined.

(** X9.  An endpoint whose job found the queue full stays marked as in
    progress.  When an endpoint with extraction_status pending is
    created while the queue of the Extraction pool is full, the save
    returns the queue-full error, no job is queued, and the row is
    stored with extraction_status processing. *)
Theorem endpoint_stored_though_queue_full (e : Env) (w : World) (r : Record_)
    (p : Pool.WorkerPool ExtractionJob) :
  nextIdFree e (endpoints w) ->
  extractionPool (pools w) = Some p -> serving p -> room p = 0 ->
  collection r = "endpoints" -> Id r = "" ->
  GetString r "extraction_status" = "pending" ->
  saveOk e r = true ->
  saveOk e (started_extraction (newId e (length (endpoints w))) r) = true ->
  Save e w r
  = Done (withEndpoints
            (endpoints w ++ [started_extraction (newId e (length (endpoints w))) r]) w,
          started_extraction (newId e (length (endpoints w))) r,
          Some (Pool.errQueueFullDirect "extraction")).
Proof.
  intros [Hne Hfree] Hp (Hr & Hd & Hcl) Hroom Hc Hi Hx Hok Hok1. unfold Save.
  rewrite SaveN_S, Hok, Hc, Hi. cbn [negb String.eqb Ascii.eqb Bool.eqb].
  unfold onEndpointAfterCreate. set (id := newId e (length (endpoints w))) in *.
  rewrite GetString_withId, Hx. cbn [String.eqb Ascii.eqb Bool.eqb].
  fold (started_extraction id r).
  rewrite SaveN_quietEndpoint.
  2:{ split; [exact Hc|]. split; [exact Hne|]. right.
      unfold started_extraction. by rewrite GetString_Set_eq. }
  rewrite Hok1. cbn [bind endpoints withEndpoints js_files pools].
  rewrite replaceRow_last by done.
  unfold AddExtractionJob, Pool.AddJobDirect, Pool.sendReady.
  cbn [pools withEndpoints].
  rewrite Hp, Hcl. unfold room in Hroom.
  destruct (Nat.ltb_spec (length (Pool.buf (Pool.jobQueue p))) (Pool.cap (Pool.jobQueue p)))
    as [?|_]; [lia|].
  cbn. do 2 f_equal. destruct w as [eps jss ps]. cbn in *. unfold withEndpoints, withPools.
  cbn. f_equal. destruct ps; cbn in *. by subst.
Qed.

Definition noRoom : World := mkWorld [] [] (startedPools [(4%Z, 0)]).
Definition newPage : Record_ :=
  Set_ "extraction_status" (AString "pending")
    (Set_ "url" (AString "http://example.test/") (NewRecord "endpoints")).

Lemma noRoom_free : nextIdFree mirrorEnv (endpoints noRoom).
Proof. split; [discriminate|by intros []]. Qed.

Lemma endpoint_stored_though_queue_full_witness :
  Save mirrorEnv noRoom newPage
  = Done (withEndpoints
            (endpoints noRoom
             ++ [started_extraction (newId mirrorEnv (length (endpoints noRoom))) newPage])
            noRoom,
          started_extraction (newId mirrorEnv (length (endpoints noRoom))) newPage,
          Some (Pool.errQueueFullDirect "extraction")).
Proof.
  apply (endpoint_stored_though_queue_full mirrorEnv noRoom newPage
           (freshPool "extraction" 4 0)).
  - exact noRoom_free.
  - reflexivity.
  - apply freshPool_serving.
  - reflexivity.
  - reflexivity.
  - reflexivity.
  - by vm_compute.
  - reflexivity.
  - reflexivity.
Defined.

End HookFacts.

(** ** The writers: what they register *)

Section WriterFacts.
Import Go Core Strings DB.
Open Scope list_scope.

Ltac bind_as H s E := apply bind_Done in H as (s & E & H).

(** Rows keep their id and their key when a table grows at its end. *)
Lemma rows_kept (rows : list Record_) : forall rows' la lb,
  map Id rows' = map Id rows ++ la ->
  map keyOf rows' = map keyOf rows ++ lb ->
  forall x, In x rows ->
    exists y, In y rows' /\ Id y = Id x /\ keyOf y = keyOf x.
Proof.
  induction rows as [|a rs IH]; intros rows' la lb Hi Hk x Hx; [destruct Hx|].
  destruct rows' as [|b rs']; [discriminate|]. cbn [map app] in Hi, Hk.
  injection Hi as Hb Hi.
  pose proof (f_equal (hd (keyOf a)) Hk) as Hbk. apply (f_equal (@tail _)) in Hk.
  cbn [hd tail] in Hbk, Hk. destruct Hx as [<-|Hx].
  - exists b. split; [by left|by split].
  - destruct (IH rs' la lb Hi Hk x Hx) as (y & Hy & E1 & E2).
    exists y. split; [by right|by split].
Qed.

(** The record the writer of the Extraction stage makes of a script. *)
Definition jsRecordOf (e : Env) (jsFile : JSFileResult) : Record_ :=
  Set_ "type" (AString (Type_ jsFile))
    (Set_ "hash" (AString (Sha256 e (Content jsFile)))
       (Set_ "url" (AString (URL jsFile)) (NewRecord "js_files"))).

(** The id names a row that has the URL or the content of the script. *)
Definition namesRowOf (e : Env) (rows : list Record_) (jsFile : JSFileResult)
    (id : string) : Prop :=
  exists x, In x rows /\ Id x = id
    /\ (urlOf x = URL jsFile \/ hashOf x = Sha256 e (Content jsFile)).

Definition registered (e : Env) (rows : list Record_) (jsFile : JSFileResult)
    (id : string) : Prop :=
  saveOk e (jsRecordOf e jsFile) = false
  \/ (id <> "" /\ namesRowOf e rows jsFile id).

Section Writers.
Variable e : Env.
Hypothesis ids : goodIds e.

Lemma keyOf_jsRecordOf f : keyOf (jsRecordOf e f) = (URL f, Sha256 e (Content f)).
Proof.
  unfold keyOf, urlOf, hashOf, jsRecordOf.
  rewrite !GetString_Set_ne by discriminate. rewrite GetString_Set_eq.
  rewrite GetString_Set_ne by discriminate. by rewrite GetString_Set_eq.
Qed.

Lemma namesRowOf_kept rows rows' la lb f id :
  map Id rows' = map Id rows ++ la ->
  map keyOf rows' = map keyOf rows ++ lb ->
  namesRowOf e rows f id -> namesRowOf e rows' f id.
Proof.
  intros Hi Hk (x & Hx & Ex & Hm).
  destruct (rows_kept rows rows' la lb Hi Hk x Hx) as (y & Hy & E1 & E2).
  exists y. split; [exact Hy|]. split; [congruence|].
  unfold keyOf in E2. injection E2 as -> ->. exact Hm.
Qed.

(** One save of a new js_file: the table grows at its end. *)
Lemma Save_new_js_grows w r w' r' err :
  storeIds e (js_files w) -> collection r = "js_files" -> Id r = "" ->
  Save e w r = Done (w', r', err) ->
  storeIds e (js_files w')
  /\ map Id (js_files w')
     = map Id (js_files w)
       ++ (if saveOk e r then [newId e (length (js_files w))] else [])
  /\ map keyOf (js_files w')
     = map keyOf (js_files w) ++ (if saveOk e r then [keyOf r] else []).
Proof.
  intros Hs Hc Hi H.
  pose proof (Save_new_js e w r w' r' err ids Hs Hc Hi H) as (Hk & Hs' & _).
  assert (isNew r = true) as Hn by (unfold isNew; by rewrite Hi).
  apply SaveN_js_ids in H as [_ Hids];
    [|exact Hc|intros _; by apply storeIds_free].
  unfold added in Hk. rewrite Hn in Hk, Hids. cbn [andb] in Hk, Hids.
  by repeat split.
Qed.

Lemma saveJSFiles_grows jsFiles : forall w jsFileIDs w' ids',
  storeIds e (js_files w) ->
  saveJSFiles e w jsFiles jsFileIDs = Done (w', ids') ->
  storeIds e (js_files w')
  /\ exists la lb,
       map Id (js_files w') = map Id (js_files w) ++ la
       /\ map keyOf (js_files w') = map keyOf (js_files w) ++ lb.
Proof.
  induction jsFiles as [|f rest IH]; intros w jsFileIDs w' ids' Hs H;
    cbn [saveJSFiles] in H.
  - injection H as <- _. split; [exact Hs|]. exists [], []. by rewrite !app_nil_r.
  - destruct (negb _); [by eapply IH|].
    bind_as H s E. destruct s as [[w1 r1] err1].
    apply Save_new_js_grows in E as (Hs1 & Hi1 & Hk1); [|exact Hs|reflexivity..].
    destruct (IH w1 _ w' ids' Hs1 H) as (Hs' & la & lb & Hi' & Hk').
    split; [exact Hs'|]. rewrite Hi1 in Hi'. rewrite Hk1 in Hk'.
    rewrite <- app_assoc in Hi', Hk'. eauto.
Qed.

Lemma saveJSFiles_registers jsFiles : forall w jsFileIDs w' ids',
  storeIds e (js_files w) ->
  saveJSFiles e w jsFiles jsFileIDs = Done (w', ids') ->
  exists news, ids' = jsFileIDs ++ news
    /\ Forall2 (registered e (js_files w')) jsFiles news.
Proof.
  induction jsFiles as [|f rest IH]; intros w jsFileIDs w' ids' Hs H;
    cbn [saveJSFiles] in H.
  - injection H as _ <-. exists []. split; [by rewrite app_nil_r|constructor].
  - destruct (String.eqb_spec (checkExistingJSFile w (URL f) (Sha256 e (Content f))) "")
      as [Hex|Hex]; cbn [negb] in H.
    + bind_as H s E. destruct s as [[w1 r1] err1].
      pose proof E as E'.
      apply Save_new_js_grows in E' as (Hs1 & Hi1 & Hk1); [|exact Hs|reflexivity..].
      destruct (saveJSFiles_grows rest w1 _ w' ids' Hs1 H) as (_ & la & lb & Hi' & Hk').
      destruct (IH w1 _ w' ids' Hs1 H) as (news & -> & Hall).
      exists (Id r1 :: news). split; [by rewrite <- app_assoc|]. constructor; [|exact Hall].
      fold (jsRecordOf e f) in E, Hi1, Hk1.
      destruct (saveOk e (jsRecordOf e f)) eqn:Hok.
      * right. unfold Save in E.
        assert (Id r1 = newId e (length (js_files w))) as Hid.
        { destruct (created_js_record e (proj1 ids) 2 w (jsRecordOf e f) w1 r1 err1
                      eq_refl eq_refl Hok E)
            as [->| ->]; [by rewrite Id_asSaved|by rewrite Id_atCreation]. }
        split; [rewrite Hid; apply ids|].
        apply (namesRowOf_kept (js_files w1) (js_files w') la lb); [exact Hi'|exact Hk'|].
        assert (exists y, In y (js_files w1) /\ Id y = Id r1
                          /\ keyOf y = keyOf (jsRecordOf e f)) as (y & Hy & E1 & E2).
        { assert (length (js_files w1) = S (length (js_files w))) as Hlen.
          { rewrite <- (length_map Id (js_files w1)), Hi1, length_app, length_map.
            cbn. lia. }
          destruct (js_files w1) as [|y0 l0] eqn:Ew1 using rev_ind; [discriminate|].
          clear IHl0. rewrite !map_app in Hi1, Hk1. cbn in Hi1, Hk1.
          apply app_inj_tail in Hi1 as [_ Hi1]. apply app_inj_tail in Hk1 as [_ Hk1].
          exists y0. split; [apply in_or_app; right; by left|]. split; congruence. }
        exists y. split; [exact Hy|]. split; [exact E1|]. left.
        rewrite keyOf_jsRecordOf in E2. unfold keyOf in E2. by injection E2 as -> _.
      * by left.
    + destruct (IH w _ w' ids' Hs H) as (news & -> & Hall).
      destruct (saveJSFiles_grows rest w _ w' _ Hs H) as (_ & la & lb & Hi' & Hk').
      exists (checkExistingJSFile w (URL f) (Sha256 e (Content f)) :: news).
      split; [by rewrite <- app_assoc|]. constructor; [|exact Hall].
      right. split; [exact Hex|].
      apply (namesRowOf_kept (js_files w) (js_files w') la lb); [exact Hi'|exact Hk'|].
      unfold checkExistingJSFile, FindFirstRecordByFilter in *.
      destruct (List.find _ (js_files w)) as [x|] eqn:Ef; [|done].
      apply find_some in Ef as [Hin Hm]. exists x. split; [exact Hin|].
      split; [reflexivity|]. apply orb_true_iff in Hm as [Hm|Hm];
        apply String.eqb_eq in Hm; [by left|by right].
Qed.

End Writers.

(** X10.  The writer of the Extraction stage hands back one id per
    captured script, in the order of the scripts.  Each id names a row
    of js_files that has the URL of its script or the hash of its
    content, be it a row that was there or the one just made, unless
    the store turns the record of the script down; of the id handed
    back for such a script nothing is said. *)
Theorem saveJSFiles_one_id_per_script (e : Env) (w : World)
    (jsFiles : list JSFileResult) (jsFileIDs : list string)
    (w' : World) (ids' : list string) :
  goodIds e -> storeIds e (js_files w) ->
  saveJSFiles e w jsFiles jsFileIDs = Done (w', ids') ->
  exists news, ids' = jsFileIDs ++ news
    /\ Forall2 (registered e (js_files w')) jsFiles news.
Proof. intros Hg. by apply saveJSFiles_registers. Qed.

Definition twoScripts : list JSFileResult :=
  [mkJSFileResult mirrorURL scriptBody "normal";
   mkJSFileResult "http://example.test/lib.js" "y()" "normal"].

Lemma saveJSFiles_one_id_per_script_witness :
  exists w' ids' news,
    saveJSFiles mirrorEnv oneScript twoScripts [] = Done (w', ids')
    /\ ids' = [] ++ news
    /\ Forall2 (registered mirrorEnv (js_files w')) twoScripts news.
Proof.
  destruct (saveJSFiles mirrorEnv oneScript twoScripts []) as [[w' ids']|msg] eqn:E;
    [|vm_compute in E; discriminate].
  destruct (saveJSFiles_one_id_per_script mirrorEnv oneScript twoScripts [] w' ids'
              mirrorEnv_goodIds eq_refl E) as (news & E1 & E2).
  by exists w', ids', news.
Defined.

(** *** The Dechunker *)

(** What [fetchAndSaveChunks] asks of a URL before it registers it. *)
Definition fetchedAsJavaScript (e : Env) (url : string) : Prop :=
  exists content contentType,
    fetchChunk e url = Some (content, contentType)
    /\ (Contains contentType "javascript" = true
        \/ Contains contentType "text/plain" = true)
    /\ looksLikeHTML content = false
    /\ content <> "".

Lemma urlOf_chunkRecord e parent url hash : urlOf (chunkRecord e parent url hash) = url.
Proof.
  unfold urlOf, chunkRecord. rewrite !GetString_Set_ne by discriminate.
  apply GetString_Set_eq.
Qed.

Lemma fetchAndSaveLoop_gains e parent urls : forall w w',
  goodIds e -> storeIds e (js_files w) ->
  fetchAndSaveLoop e w parent urls = Done w' ->
  storeIds e (js_files w')
  /\ exists gained,
       map urlOf (js_files w') = map urlOf (js_files w) ++ gained
       /\ Forall (fun url => In url urls /\ fetchedAsJavaScript e url
                             /\ ~ In url (map urlOf (js_files w))) gained.
Proof.
  induction urls as [|u rest IH]; intros w w' Hg Hs H; cbn [fetchAndSaveLoop] in H.
  { injection H as <-. split; [exact Hs|]. exists []. by rewrite app_nil_r. }
  assert (forall w1,
            storeIds e (js_files w1) -> map urlOf (js_files w1) = map urlOf (js_files w) ->
            fetchAndSaveLoop e w1 parent rest = Done w' ->
            storeIds e (js_files w')
            /\ exists gained,
                 map urlOf (js_files w') = map urlOf (js_files w) ++ gained
                 /\ Forall (fun url => In url (u :: rest) /\ fetchedAsJavaScript e url
                                       /\ ~ In url (map urlOf (js_files w))) gained)
    as Hskip.
  { intros w1 Hs1 Eu H1. destruct (IH w1 w' Hg Hs1 H1) as (Hs' & gained & E1 & Hall).
    split; [exact Hs'|]. exists gained. rewrite <- Eu. split; [exact E1|].
    eapply List.Forall_impl; [|exact Hall]. intros url (Hin & Hf & Hn). cbn beta.
    split; [by right|by split]. }
  destruct (FindFirstRecordByFilter _ _) as [x|] eqn:Ef; [by apply (Hskip w)|].
  destruct (fetchChunk e u) as [[content contentType]|] eqn:Efetch; [|by apply (Hskip w)].
  destruct (negb (Contains contentType "javascript")
            && negb (Contains contentType "text/plain")) eqn:Ety; [by apply (Hskip w)|].
  destruct (looksLikeHTML content) eqn:Ehtml; [by apply (Hskip w)|].
  destruct (String.length content =? 0)%nat eqn:Elen; [by apply (Hskip w)|].
  bind_as H s E. destruct s as [[w1 r1] err1]. cbn [fst] in H.
  apply Save_new_js_grows in E as (Hs1 & _ & Hk1); [|exact Hg|exact Hs|reflexivity..].
  apply (f_equal (map fst)) in Hk1. rewrite map_app, !map_fst_keyOf in Hk1.
  destruct (IH w1 w' Hg Hs1 H) as (Hs' & gained & E1 & Hall).
  split; [exact Hs'|]. rewrite Hk1, <- app_assoc in E1. eexists. split; [exact E1|].
  apply Forall_app. split.
  - destruct (saveOk e _); [|constructor]. cbn [map]. constructor; [|constructor].
    unfold keyOf. cbn [fst]. rewrite urlOf_chunkRecord. split; [by left|]. split.
    + exists content, contentType. split; [exact Efetch|].
      split; [|split; [exact Ehtml|]].
      * apply andb_false_iff in Ety as [Ety|Ety]; apply negb_false_iff in Ety;
          [by left|by right].
      * intros ->. discriminate.
    + intros Hin. apply in_map_iff in Hin as (y & Ey & Hy).
      unfold FindFirstRecordByFilter in Ef. apply (find_none _ _ Ef) in Hy.
      unfold urlOf in Ey. rewrite Ey, String.eqb_refl in Hy. discriminate.
  - eapply List.Forall_impl; [|exact Hall]. intros url (Hin & Hf & Hn). cbn beta.
    split; [by right|]. split; [exact Hf|]. intros Hin'. apply Hn. rewrite Hk1.
    apply in_or_app. by left.
Qed.

(** X11.  [fetchAndSaveChunks] registers only what it fetched as
    JavaScript.  The rows it adds to js_files come after the rows that
    were there, and each has a URL of the list that was not registered
    before and whose fetch succeeded with a Content-Type that contains
    javascript or text/plain and a body that is not empty and does not
    start like an HTML page. *)
Theorem fetchAndSaveChunks_registers_fetched_javascript (e : Env) (w : World)
    (parentJSFileID : string) (chunkURLs : list string) (w' : World) :
  goodIds e -> storeIds e (js_files w) ->
  fetchAndSaveChunks e w parentJSFileID chunkURLs = Done w' ->
  exists gained,
    map urlOf (js_files w') = map urlOf (js_files w) ++ gained
    /\ Forall (fun url => In url chunkURLs /\ fetchedAsJavaScript e url
                          /\ ~ In url (map urlOf (js_files w))) gained.
Proof.
  intros Hg Hs H. by apply (fetchAndSaveLoop_gains e parentJSFileID chunkURLs w w').
Qed.

Lemma fetchAndSaveChunks_registers_fetched_javascript_witness :
  exists w' gained,
    fetchAndSaveChunks mirrorEnv oneScript (unaryId 0)
      [scriptURL; "http://cdn.test/missing.js"; mirrorURL] = Done w'
    /\ map urlOf (js_files w') = map urlOf (js_files oneScript) ++ gained
    /\ Forall (fun url =>
                 In url [scriptURL; "http://cdn.test/missing.js"; mirrorURL]
                 /\ fetchedAsJavaScript mirrorEnv url
                 /\ ~ In url (map urlOf (js_files oneScript))) gained.
Proof.
  destruct (fetchAndSaveChunks mirrorEnv oneScript (unaryId 0)
              [scriptURL; "http://cdn.test/missing.js"; mirrorURL]) as [w'|msg] eqn:E;
    [|vm_compute in E; discriminate].
  destruct (fetchAndSaveChunks_registers_fetched_javascript mirrorEnv oneScript
              (unaryId 0) [scriptURL; "http://cdn.test/missing.js"; mirrorURL] w'
              mirrorEnv_goodIds eq_refl E) as (gained & E1 & E2).
  by exists w', gained.
Defined.

(** A save of a registered js_file whose dechunker_status is not
    pending leaves that status alone. *)
Lemma SaveN_dechunker_status e fuel : forall w x w' x' err,
  collection x = "js_files" -> Id x <> "" ->
  dechunkerStatus x <> "pending" ->
  SaveN fuel e w x = Done (w', x', err) ->
  dechunkerStatus x' = dechunkerStatus x.
Proof.
  induction fuel as [|fuel IH]; intros w x w' x' err Hc Hi Hd H; [discriminate|].
  destruct (saveOk e x) eqn:Hok.
  2:{ rewrite SaveN_rejected in H by exact Hok. by injection H as _ <- _. }
  rewrite SaveN_update_js in H by assumption. unfold onJSFileAfterUpdate in H.
  destruct (String.eqb (GetString x "prettify_status") "processed");
    [|by injection H as _ <- _].
  bind_as H s1 E1. destruct s1 as [w2 r2].
  assert (dechunkerStatus r2 = dechunkerStatus x) as Hr2.
  { destruct (String.eqb (GetString x "analysis_status") "pending").
    - bind_as E1 s2 E2. destruct s2 as [[w3 r3] err3]. bind_as E1 s3 E3.
      injection E1 as _ <-.
      apply IH in E2; [|exact Hc|exact Hi|by rewrite dechunkerStatus_Set].
      by rewrite E2, dechunkerStatus_Set.
    - by injection E1 as _ <-. }
  pose proof Hd as Hd'. rewrite <- Hr2 in Hd'. unfold dechunkerStatus in Hd'.
  apply String.eqb_neq in Hd'. rewrite Hd' in H. by injection H as _ <- _.
Qed.

(** The job can run: the record has hash and URL, the file is found
    and the extractor answers. *)
Definition dechunkable (e : Env) (r : Record_) : bool :=
  negb (String.eqb (GetString r "hash") "" || String.eqb (GetString r "url") "")
  && match GetJSFilePath e (GetString r "url") (GetString r "hash") with
     | Some fullPath =>
         match ExtractChunksFromFile e fullPath (GetString r "url") with
         | Some _ => true
         | None => false
         end
     | None => false
     end.

(** X12.  A Dechunker job always ends with a verdict.  For the record
    of a registered js_file, [processJob] hands the record back with
    dechunker_status failed when the record lacks its hash or its URL,
    when no path is found for the file or when the extractor fails, and
    with dechunker_status processed otherwise, whatever the saves in
    between did and whether or not chunks were found. *)
Theorem dechunker_job_ends_with_a_verdict (e : Env) (w : World) (r : Record_)
    (w' : World) (r' : Record_) :
  collection r = "js_files" -> Id r <> "" ->
  dechunkerProcessJob e w r = Done (w', r') ->
  dechunkerStatus r' = if dechunkable e r then "processed" else "failed".
Proof.
  intros Hc Hi H. unfold dechunkerProcessJob, dechunkable in *.
  assert (forall w0,
            (let* s := failDechunker e w0 r in Done (fst (fst s), snd (fst s)))
            = Done (w', r') -> dechunkerStatus r' = "failed") as Hfail.
  { intros w0 H0. bind_as H0 s E. destruct s as [[w1 r1] err1]. injection H0 as _ <-.
    unfold failDechunker, Save in E.
    apply SaveN_dechunker_status in E;
      [|exact Hc|exact Hi|unfold dechunkerStatus; by rewrite GetString_Set_eq].
    rewrite E. unfold dechunkerStatus. by rewrite GetString_Set_eq. }
  destruct (_ || _); [by apply (Hfail w)|]. cbn [negb andb].
  destruct (GetJSFilePath e _ _) as [fullPath|]; [|by apply (Hfail w)].
  destruct (ExtractChunksFromFile e _ _) as [chunkURLs|]; [|by apply (Hfail w)].
  bind_as H s1 E1. destruct s1 as [w1 r1]. bind_as H s2 E2.
  destruct s2 as [[w2 r2] err2]. injection H as _ <-.
  assert (collection r1 = "js_files" /\ Id r1 <> "") as [Hc1 Hi1].
  { destruct chunkURLs as [|u us]; [by injection E1 as _ <-|].
    bind_as E1 s3 E3. destruct s3 as [[w3 r3] err3]. bind_as E1 s4 E4.
    injection E1 as _ <-. by apply SaveN_Id in E3. }
  unfold Save in E2.
  apply SaveN_dechunker_status in E2;
    [|exact Hc1|exact Hi1
     |unfold dechunkerStatus; rewrite GetString_Set_ne by discriminate;
      by rewrite GetString_Set_eq].
  rewrite E2. unfold dechunkerStatus. rewrite GetString_Set_ne by discriminate.
  by rewrite GetString_Set_eq.
Qed.

Lemma dechunker_job_ends_with_a_verdict_witness :
  exists w' r',
    dechunkerProcessJob mirrorEnv oneScript scriptRow = Done (w', r')
    /\ dechunkerStatus r' = "processed".
Proof.
  destruct (dechunkerProcessJob mirrorEnv oneScript scriptRow) as [[w' r']|msg] eqn:E;
    [|vm_compute in E; discriminate].
  exists w', r'. split; [reflexivity|].
  exact (dechunker_job_ends_with_a_verdict mirrorEnv oneScript scriptRow w' r'
           eq_refl ltac:(discriminate) E).
Defined.

End WriterFacts.

(** ** Paths: the names the cleaners produce *)

Section CleanerFacts.
Import Filesystem.
Open Scope list_scope.

(** A name without invalid characters and spaces that does not start
    with a dot. *)
Definition tidy (name : bytes) : Prop :=
  Forall (fun c => invalidChar c = false /\ c <> space) name
  /\ forall rest, name <> dot :: rest.

Lemma ReplaceInvalid_valid s : Forall (fun c => invalidChar c = false) (ReplaceInvalid s).
Proof.
  unfold ReplaceInvalid. apply List.Forall_forall. intros c Hc.
  apply in_map_iff in Hc as (x & <- & _). by destruct (invalidChar x) eqn:E.
Qed.

Lemma TrimLeft_suffix cut s : exists n, TrimLeft cut s = drop n s.
Proof.
  induction s as [|c s [n IH]]; [by exists 0|]. cbn.
  destruct (cut c); [by exists (S n)|by exists 0].
Qed.

Lemma TrimRight_prefix cut s : exists n, TrimRight cut s = take n s.
Proof.
  unfold TrimRight. destruct (TrimLeft_suffix cut (rev s)) as [n ->].
  exists (length s - n). by rewrite skipn_rev, rev_involutive.
Qed.

Lemma TrimLeft_head cut s c rest : TrimLeft cut s = c :: rest -> cut c = false.
Proof.
  induction s as [|x s IH]; [discriminate|]. cbn.
  destruct (cut x) eqn:E; [exact IH|]. by intros [= <- _].
Qed.

Lemma Trim_head cut s c rest : Trim cut s = c :: rest -> cut c = false.
Proof.
  unfold Trim. destruct (TrimRight_prefix cut (TrimLeft cut s)) as [n ->].
  destruct (TrimLeft cut s) as [|x l] eqn:E; [by rewrite take_nil|].
  destruct n; [discriminate|]. cbn. intros [= <- _]. by apply (TrimLeft_head cut s x l).
Qed.

(** The four rewriting steps the two cleaners share. *)
Definition scrubbed (s : bytes) : bytes :=
  ReplaceSpaces (Trim dotOrSpace (CollapseDots (ReplaceInvalid s))).

Lemma scrubbed_tidy s : tidy (scrubbed s).
Proof.
  unfold scrubbed. split.
  - unfold ReplaceSpaces. apply List.Forall_forall. intros c Hc.
    apply in_map_iff in Hc as (x & <- & Hx).
    apply Trim_incl, CollapseDots_incl in Hx.
    pose proof (ReplaceInvalid_valid s) as Hv. rewrite List.Forall_forall in Hv.
    specialize (Hv x Hx). destruct (Ascii.eqb_spec x space) as [->|Hn]; by split.
  - intros rest H. unfold ReplaceSpaces in H.
    destruct (Trim dotOrSpace _) as [|c l] eqn:E; [discriminate|].
    apply Trim_head in E. cbn in H. injection H as H _.
    apply orb_false_iff in E as [Ed Es]. rewrite Es in H. subst c. discriminate.
Qed.

Lemma tidy_take n s : tidy s -> tidy (take n s).
Proof.
  intros [Hv Hd]. split; [by apply Forall_take|]. intros rest H.
  destruct s as [|c l]; [by rewrite take_nil in H|]. destruct n; [discriminate|].
  cbn in H. injection H as -> _. by apply (Hd l).
Qed.

Lemma tidy_unknown : tidy (bytes_of "unknown").
Proof. split; [by repeat constructor|discriminate]. Qed.

(** X13.  [CleanPathComponent] gives a name that is safe to use as one
    directory entry: at most 50 bytes, none of them a control byte, one
    of the nine reserved characters (among them both slashes) or a
    space, and never starting with a dot; so the name is never [.] or
    [..]. *)
Theorem CleanPathComponent_gives_one_safe_name (component : bytes) :
  length (CleanPathComponent component) <= 50
  /\ tidy (CleanPathComponent component)
  /\ ~ In slash (CleanPathComponent component)
  /\ CleanPathComponent component <> [dot]
  /\ CleanPathComponent component <> [dot; dot].
Proof.
  assert (length (CleanPathComponent component) <= 50
          /\ tidy (CleanPathComponent component)) as [Hl Ht].
  { unfold CleanPathComponent. destruct component as [|c l].
    - split; [cbn; lia|]. split; [constructor|discriminate].
    - fold (scrubbed (c :: l)).
      destruct (Nat.ltb_spec 50 (length (scrubbed (c :: l)))) as [H|H].
      + split; [rewrite length_take; lia|apply tidy_take, scrubbed_tidy].
      + split; [exact H|apply scrubbed_tidy]. }
  split; [exact Hl|]. split; [exact Ht|]. destruct Ht as [_ Hd].
  split; [apply CleanPathComponent_noslash|]. split; apply Hd.
Qed.

End CleanerFacts.

Section DomainFacts.
Import Filesystem Sourcemap.
Open Scope list_scope.

Lemma CleanPath_tidy path :
  1 <= length (CleanPath path) <= 100 /\ tidy (CleanPath path).
Proof.
  unfold CleanPath. destruct path as [|c l]; [split; [cbn; lia|apply tidy_unknown]|].
  set (p3 := TrimPrefix _ _). fold (scrubbed p3).
  destruct (eqb_bytes (scrubbed p3) [] || isDot (scrubbed p3) || isDotDot (scrubbed p3))
    eqn:E; [split; [cbn; lia|apply tidy_unknown]|].
  apply orb_false_iff in E as [E _]. apply orb_false_iff in E as [E _].
  apply eqb_bytes_false in E.
  assert (1 <= length (scrubbed p3)) by (destruct (scrubbed p3); [done|cbn; lia]).
  destruct (Nat.ltb_spec 100 (length (scrubbed p3))) as [H1|H1].
  - split; [rewrite length_take; lia|apply tidy_take, scrubbed_tidy].
  - split; [lia|apply scrubbed_tidy].
Qed.

Lemma ExtractDomain_tidy (e : Env) (rawURL domain : string) :
  ExtractDomain e rawURL = Some domain ->
  1 <= String.length domain <= 100 /\ tidy (toBytes domain).
Proof.
  unfold ExtractDomain. destruct (String.eqb rawURL ""); [discriminate|].
  destruct (Hostname e rawURL) as [host|]; [|discriminate].
  destruct (String.eqb host ""); [discriminate|]. intros [= <-].
  unfold toBytes, ofBytes. rewrite list_ascii_of_string_of_list_ascii.
  destruct (CleanPath_tidy (list_ascii_of_string host)) as [Hl Ht].
  split; [|exact Ht]. revert Hl. generalize (CleanPath (list_ascii_of_string host)).
  intros l. assert (String.length (string_of_list_ascii l) = length l) as ->; [|done].
  induction l as [|c l IH]; [reflexivity|]. cbn. by rewrite IH.
Qed.

(** X14.  The directory of a domain is one safe name.  When
    [ExtractDomain] succeeds, the name it gives has between 1 and 100
    bytes, none of them a slash, another reserved character, a control
    byte or a space, and it does not start with a dot: joined to the
    files path it names a directory right below it. *)
Theorem ExtractDomain_gives_one_safe_name (e : Env) (rawURL domain : string) :
  ExtractDomain e rawURL = Some domain ->
  1 <= String.length domain <= 100
  /\ tidy (toBytes domain)
  /\ safe (toBytes domain).
Proof.
  intros H. destruct (ExtractDomain_tidy e rawURL domain H) as [Hl Ht].
  split; [exact Hl|]. split; [exact Ht|]. destruct Ht as [Hv Hd]. split.
  - split; [|split; apply Hd]. intros E.
    assert (domain = "") as ->.
    { rewrite <- (string_of_list_ascii_of_string domain). unfold toBytes in E.
      by rewrite E. }
    cbn in Hl. lia.
  - intros Hin. rewrite List.Forall_forall in Hv. by destruct (Hv _ Hin) as [Hs _].
Qed.

Lemma ExtractDomain_gives_one_safe_name_witness :
  1 <= String.length "example.test" <= 100
  /\ tidy (toBytes "example.test")
  /\ safe (toBytes "example.test").
Proof.
  apply (ExtractDomain_gives_one_safe_name offlineEnv bundleURL "example.test").
  by vm_compute.
Defined.

End DomainFacts.

(** ** Package url *)

Section URLFacts.
Import Filesystem Strings Sourcemap.
Open Scope list_scope.

Lemma append_cons c (a b : string) : (String c a ++ b = String c (a ++ b))%string.
Proof. reflexivity. Qed.

Lemma cutAt_first sep (header payload : string) :
  ~ In sep (list_ascii_of_string header) ->
  cutAt sep (header ++ String sep payload)%string = Some (header, payload).
Proof.
  induction header as [|c header IH]; intros Hn.
  - change (cutAt sep (String sep payload) = Some (EmptyString, payload)).
    cbn -[Ascii.eqb]. by rewrite Ascii.eqb_refl.
  - rewrite append_cons. cbn -[Ascii.eqb]. destruct (Ascii.eqb_spec c sep) as [->|_]; [exfalso; apply Hn; by left|].
    rewrite IH; [reflexivity|]. intros H. apply Hn. by right.
Qed.

Lemma cutAt_none sep (s : string) :
  ~ In sep (list_ascii_of_string s) -> cutAt sep s = None.
Proof.
  induction s as [|c s IH]; intros Hn; cbn -[Ascii.eqb]; [reflexivity|].
  destruct (Ascii.eqb_spec c sep) as [->|_]; [exfalso; apply Hn; by left|].
  rewrite IH; [reflexivity|]. intros H. apply Hn. by right.
Qed.

(** X15.  [DecodeDataURI] splits at the first comma only.  For a
    header without comma, the URI made of the header, a comma and a
    payload decodes to the payload as it is, commas included, unless
    the header contains [;base64], in which case it is the base64
    reading of the payload; a URI without any comma is refused. *)
Theorem DecodeDataURI_splits_at_first_comma (e : Env) (header payload : string) :
  ~ In ","%char (list_ascii_of_string header) ->
  DecodeDataURI e (header ++ String ","%char payload)%string
  = (if Contains header ";base64" then base64Decode e payload else Some payload)
  /\ DecodeDataURI e header = None.
Proof.
  intros Hn. unfold DecodeDataURI.
  by rewrite (cutAt_first _ header payload Hn), (cutAt_none _ header Hn).
Qed.

Lemma DecodeDataURI_splits_at_first_comma_witness :
  DecodeDataURI offlineEnv "data:application/json,[1,2]" = Some "[1,2]"
  /\ DecodeDataURI offlineEnv "data:application/json" = None.
Proof.
  apply (DecodeDataURI_splits_at_first_comma offlineEnv "data:application/json" "[1,2]").
  vm_compute. intuition discriminate.
Defined.

Lemma Split_last_noslash s : ~ In slash (List.last (Split s) []).
Proof.
  pose proof (Split_elems_noslash s) as H. pose proof (Split_nonempty s) as Hne.
  destruct (exists_last Hne) as (l & x & E). rewrite E in *. rewrite last_last.
  apply List.Forall_forall with (x := x) in H; [exact H|].
  apply in_or_app. right. by left.
Qed.

Lemma length_string_of_list (l : list ascii) :
  String.length (string_of_list_ascii l) = length l.
Proof. induction l as [|c l IH]; [reflexivity|]. cbn. by rewrite IH. Qed.

(** X16.  [GetFileNameFromUrl] always gives a usable file name: when
    the URL parses, the name is not empty (a path that ends in a slash,
    or an empty path, gives index.html), has at most 100 bytes and
    holds no slash. *)
Theorem GetFileNameFromUrl_gives_a_file_name (e : Env) (rawUrl fileName : string) :
  GetFileNameFromUrl e rawUrl = Some fileName ->
  1 <= String.length fileName <= 100
  /\ ~ In slash (list_ascii_of_string fileName)
  /\ (forall path, URLPath e rawUrl = Some (path ++ "/")%string ->
      fileName = "index.html").
Proof.
  unfold GetFileNameFromUrl. destruct (URLPath e rawUrl) as [path|]; [|discriminate].
  intros [= <-].
  set (parts := Split (list_ascii_of_string path)).
  match goal with |- context [take 100 ?n] => set (name := n) end.
  assert (name <> [] /\ ~ In slash name) as [Hne Hns].
  { unfold name. destruct (eqb_bytes (List.last parts []) []) eqn:E.
    - split; [discriminate|]. cbn. intros H.
      repeat (destruct H as [H|H]; [discriminate|]). exact H.
    - apply eqb_bytes_false in E. split; [exact E|apply Split_last_noslash]. }
  rewrite length_string_of_list, list_ascii_of_string_of_list_ascii, length_take.
  assert (1 <= length name) as Hlen.
  { destruct (length name) eqn:El; [|lia]. by apply length_zero_iff_nil in El. }
  split; [destruct (Nat.min_spec 100 (length name)) as [[? ->]|[? ->]]; lia|]. split.
  - intros H. apply Hns. rewrite <- (take_drop 100 name). apply in_or_app. by left.
  - intros p [= ->]. unfold name, parts.
    replace (list_ascii_of_string (p ++ "/")) with (list_ascii_of_string p ++ slash :: []).
    2:{ clear. induction p as [|c p IH]; [reflexivity|].
        rewrite append_cons. cbn. by rewrite IH. }
    rewrite Split_app_slash. cbn [Split]. rewrite last_last. reflexivity.
Qed.

Lemma GetFileNameFromUrl_gives_a_file_name_witness :
  1 <= String.length "app.js" <= 100
  /\ ~ In slash (list_ascii_of_string "app.js").
Proof.
  destruct (GetFileNameFromUrl_gives_a_file_name offlineEnv bundleURL "app.js")
    as (Hl & Hs & _); [by vm_compute|].
  by split.
Defined.

End URLFacts.

(** ** The structural hash: what is left of the markup *)

Section HTMLTextFacts.
Import Go HTML.
Open Scope list_scope.

(** The text of a list of siblings, in document order. *)
Definition textsOf (nodes : list Node) : string :=
  fold_right (fun n acc => (textOf n ++ acc)%string) "" nodes.

(** What the normalisation keeps of the text below an element: the
    text that is not inside a script, style, meta or comment element. *)
Definition visibleText (children : list Node) : string := textsOf (pruned children).

Lemma textOf_element tag attrs children :
  textOf (Element tag attrs children) = textsOf children.
Proof.
  cbn [textOf]. induction children as [|c cs IH]; [reflexivity|].
  change (textsOf (c :: cs)) with (textOf c ++ textsOf cs)%string.
  by rewrite <- IH.
Qed.

Lemma pruned_app a b : pruned (a ++ b) = pruned a ++ pruned b.
Proof.
  induction a as [|n a IH]; [reflexivity|].
  rewrite <- app_comm_cons, (pruned_cons n (a ++ b)), (pruned_cons n a), IH.
  by rewrite app_assoc.
Qed.

Lemma normalize_root before tag attrs children after :
  normalize (before ++ Element tag attrs children :: after)
  = normalize before
    ++ (if selComment tag || selDynamic tag then []
        else [Element tag (keepEssential attrs) [Text (scrub (visibleText children))]])
    ++ normalize after.
Proof.
  rewrite !normalize_pruned, pruned_app, pruned_element, !map_app.
  destruct (selComment tag || selDynamic tag); [reflexivity|].
  cbn [map replaceChildren]. by rewrite textOf_element.
Qed.

(** X17.  Below a root element the hash sees text only.  Two pages
    whose documents differ in the children of one root element get the
    same hash as soon as those children have the same visible text (the
    text outside script, style, meta and comment elements): elements,
    their nesting and all their attributes, href and src included, do
    not count there. *)
Theorem GenerateHTMLHash_sees_text_below_the_root (e : Env) (html1 html2 : string)
    (before : list Node) (tag : string) (attrs : list Attribute)
    (children children' after : list Node) :
  Parse e html1 = Some (before ++ Element tag attrs children :: after) ->
  Parse e html2 = Some (before ++ Element tag attrs children' :: after) ->
  visibleText children = visibleText children' ->
  GenerateHTMLHash e html1 = GenerateHTMLHash e html2.
Proof.
  intros H1 H2 Ht. unfold GenerateHTMLHash.
  by rewrite H1, H2, !normalize_root, Ht.
Qed.

Definition linkPage : string := "<html><body><a href=/login>hi</a></body></html>".
Definition plainPage : string := "<html><p>hi</p></html>".
Definition linkTree : list Node :=
  [Element "html" []
     [Element "body" [] [Element "a" [mkAttr "" "href" "/login"] [Text "hi"]]]].
Definition plainTree : list Node :=
  [Element "html" [] [Element "p" [] [Text "hi"]]].

Definition twoPageEnv : Env :=
  mkEnv (fun html => if String.eqb html linkPage then Some linkTree
                     else if String.eqb html plainPage then Some plainTree else None)
        (fun doc => Some (String.concat "" (map renderNode doc)))
        (fun s => s).

Lemma GenerateHTMLHash_sees_text_below_the_root_witness :
  GenerateHTMLHash twoPageEnv linkPage = GenerateHTMLHash twoPageEnv plainPage.
Proof.
  exact (GenerateHTMLHash_sees_text_below_the_root twoPageEnv linkPage plainPage
           [] "html" []
           [Element "body" [] [Element "a" [mkAttr "" "href" "/login"] [Text "hi"]]]
           [Element "p" [] [Text "hi"]] [] eq_refl eq_refl eq_refl).
Defined.

End HTMLTextFacts.

(** ** Analysis: what [saveFindings] stores and counts *)

Section FindingsFacts.
Import Go Core Analysis.
Open Scope list_scope.

(** X18.  [saveFindings] counts what it stored.  With the findings
    collection in place it never returns an error: the findings the
    store accepts are appended to the table in their order, each as the
    record made for it with the id of the js_file, the others are
    skipped, and the count returned is the number of records
    appended.  Without the collection nothing is stored, and the error
    is returned exactly when there was a finding to store. *)
Theorem saveFindings_counts_what_it_stored (s : Store) (jsFileID : string) (now : Z)
    (fs : list Finding) (s' : Store) (n : Z) (err : option error) :
  saveFindings s jsFileID now fs = (s', n, err) ->
  if hasFindingsCollection s then
    err = None
    /\ exists new,
         findings s' = findings s ++ new
         /\ Forall2 (storedFor jsFileID now) (List.filter (accepted s jsFileID now) fs) new
         /\ n = Z.of_nat (length new)
  else
    s' = s /\ n = 0%Z /\ (err = None <-> fs = []).
Proof.
  unfold saveFindings. intros H. destruct fs as [|f fs].
  { injection H as <- <- <-. destruct (hasFindingsCollection s).
    - split; [reflexivity|]. exists []. rewrite app_nil_r. by repeat constructor.
    - by repeat split. }
  destruct (hasFindingsCollection s); cbn [negb] in H.
  - destruct (saveLoop s jsFileID now (f :: fs) 0) as [s1 n1] eqn:El.
    injection H as <- <- <-. split; [reflexivity|].
    apply saveLoop_stores in El as (_ & new & E & Hall & Hn). exists new.
    split; [exact E|]. split; [exact Hall|lia].
  - injection H as <- <- <-. repeat split; discriminate.
Qed.

Lemma saveFindings_counts_what_it_stored_witness :
  snd (persistAnalysis sampleStore "js1" 5 sampleResult) = None
  /\ snd (fst (persistAnalysis sampleStore "js1" 5 sampleResult)) = 2%Z.
Proof.
  destruct (saveFindings_counts_what_it_stored sampleStore "js1" 5
              (convertToFindings sampleResult)
              (fst (fst (persistAnalysis sampleStore "js1" 5 sampleResult)))
              (snd (fst (persistAnalysis sampleStore "js1" 5 sampleResult)))
              (snd (persistAnalysis sampleStore "js1" 5 sampleResult)) eq_refl)
    as (Herr & new & _ & Hall & Hn).
  split; [exact Herr|]. rewrite Hn. apply Forall2_length in Hall.
  rewrite <- Hall. reflexivity.
Defined.

End FindingsFacts.

(** ** Sourcemaps: what the job writes *)

Section SourceFileFacts.
Import Go Core Filesystem Sourcemap.
Open Scope list_scope.

(** The path [saveSourceFile] settles on for a source file of the
    js_file with hash [jsFileHash]. *)
Definition targetOf (e : Env) (domain jsFileHash : string) (sourceFile : SourceFile)
  : string :=
  ofBytes (sourceFileFullPath (toBytes (FilesPath e)) (toBytes domain)
             (toBytes jsFileHash) (toBytes (Path sourceFile))).

(** From [fs] to [fs']: what was there is untouched, and what is new
    is the content of one of the source files at its target path. *)
Definition onlyAddsSources (e : Env) (table : list Record_) (domain : string)
    (sourceFiles : list SourceFile) (jsFileID : string) (fs fs' : Files) : Prop :=
  (forall p c, fs !! p = Some c -> fs' !! p = Some c)
  /\ forall p c, fs' !! p = Some c ->
       fs !! p = Some c
       \/ exists sourceFile jsFileRecord,
            In sourceFile sourceFiles
            /\ FindRecordById table jsFileID = Some jsFileRecord
            /\ GetString jsFileRecord "hash" <> ""
            /\ p = targetOf e domain (GetString jsFileRecord "hash") sourceFile
            /\ c = Content sourceFile.

Lemma saveSourceFile_adds e table fs domain sourceFile jsFileID fs' err :
  saveSourceFile e table fs domain sourceFile jsFileID = (fs', err) ->
  onlyAddsSources e table domain [sourceFile] jsFileID fs fs'.
Proof.
  unfold saveSourceFile. intros H.
  assert (onlyAddsSources e table domain [sourceFile] jsFileID fs fs) as Hsame.
  { split; [done|]. intros p c Hp. by left. }
  destruct (FindRecordById table jsFileID) as [jsFileRecord|] eqn:Ef;
    [|by injection H as <- _].
  destruct (String.eqb_spec (GetString jsFileRecord "hash") "") as [Hh|Hh];
    [by injection H as <- _|].
  destruct (negb (fsOk e _)); [by injection H as <- _|].
  fold (targetOf e domain (GetString jsFileRecord "hash") sourceFile) in H.
  set (target := targetOf e domain (GetString jsFileRecord "hash") sourceFile) in *.
  destruct (fs !! target) as [old|] eqn:Et; [by injection H as <- _|].
  destruct (negb (fsOk e target)); [by injection H as <- _|].
  injection H as <- _. split.
  - intros p c Hp. destruct (decide (p = target)) as [->|Hne]; [congruence|].
    by rewrite lookup_insert_ne.
  - intros p c Hp. destruct (decide (p = target)) as [->|Hne].
    + rewrite lookup_insert_eq in Hp. injection Hp as <-. right.
      exists sourceFile, jsFileRecord. split; [by left|]. by repeat split.
    + rewrite lookup_insert_ne in Hp by done. by left.
Qed.

Lemma onlyAddsSources_trans e table domain l1 l2 jsFileID fs1 fs2 fs3 :
  onlyAddsSources e table domain l1 jsFileID fs1 fs2 ->
  onlyAddsSources e table domain l2 jsFileID fs2 fs3 ->
  onlyAddsSources e table domain (l1 ++ l2) jsFileID fs1 fs3.
Proof.
  intros [K1 N1] [K2 N2]. split; [intros p c Hp; by apply K2, K1|].
  intros p c Hp. destruct (N2 p c Hp) as [H2|(sf & r & Hin & Hrest)].
  - destruct (N1 p c H2) as [H1|(sf & r & Hin & Hrest)]; [by left|].
    right. exists sf, r. split; [apply in_or_app; by left|exact Hrest].
  - right. exists sf, r. split; [apply in_or_app; by right|exact Hrest].
Qed.

Lemma saveLoop_adds e table domain jsFileID sourceFiles : forall fs n fs' n',
  saveLoop e table fs domain sourceFiles jsFileID n = (fs', n') ->
  onlyAddsSources e table domain sourceFiles jsFileID fs fs'
  /\ (n <= n' <= n + Z.of_nat (length sourceFiles))%Z.
Proof.
  induction sourceFiles as [|sf rest IH]; intros fs n fs' n' H; cbn [saveLoop] in H.
  - injection H as <- <-. split; [|cbn; lia]. split; [done|]. intros p c Hp. by left.
  - destruct (saveSourceFile e table fs domain sf jsFileID) as [fs1 err] eqn:E.
    apply saveSourceFile_adds in E.
    destruct err as [err|]; apply IH in H as [Hadds Hn];
      (split; [by apply (onlyAddsSources_trans e table domain [sf] rest jsFileID fs fs1 fs')
              |cbn [length]; lia]).
Qed.

(** X19.  Saving the sources of a sourcemap only adds files.  The loop
    of [processJob] over the extracted sources leaves every file that
    exists with its content, and each file it creates holds the content
    of one of the sources at the path [saveSourceFile] derives for it
    from the files path, the domain and the hash of the js_file; a
    source whose target exists is left unwritten.  The count of
    successes grows by at most the number of sources. *)
Theorem saving_sources_only_adds_files (e : Env) (table : list Record_) (fs : Files)
    (domain : string) (sourceFiles : list SourceFile) (jsFileID : string)
    (n : Z) (fs' : Files) (n' : Z) :
  saveLoop e table fs domain sourceFiles jsFileID n = (fs', n') ->
  onlyAddsSources e table domain sourceFiles jsFileID fs fs'
  /\ (n <= n' <= n + Z.of_nat (length sourceFiles))%Z.
Proof. apply saveLoop_adds. Qed.

Definition firstSource : SourceFile := mkSourceFile "src/a.js" "src/a.js" "let a".
Definition secondSource : SourceFile := mkSourceFile "./src/a.js" "./src/a.js" "let b".

Lemma saving_sources_only_adds_files_witness :
  exists fs' n',
    saveLoop offlineEnv [bundleRecord] bundleFiles "example.test"
      [firstSource; secondSource] "js1" 0 = (fs', n')
    /\ onlyAddsSources offlineEnv [bundleRecord] "example.test"
         [firstSource; secondSource] "js1" bundleFiles fs'
    /\ (0 <= n' <= 0 + Z.of_nat 2)%Z.
Proof.
  destruct (saveLoop offlineEnv [bundleRecord] bundleFiles "example.test"
              [firstSource; secondSource] "js1" 0) as [fs' n'] eqn:E.
  exists fs', n'. split; [reflexivity|].
  exact (saving_sources_only_adds_files offlineEnv [bundleRecord] bundleFiles
           "example.test" [firstSource; secondSource] "js1" 0 fs' n' E).
Defined.

(** The source file made of a source path and its content. *)
Definition sourceFileOf (entry : string * string) : SourceFile :=
  mkSourceFile (sanitizeSourcePath (fst entry)) (fst entry) (snd entry).

Lemma extractLoop_pairs e tempDir sources : forall fs contents acc fs' sourceFiles,
  extractLoop e tempDir fs sources contents acc = (fs', Some sourceFiles) ->
  sourceFiles = acc ++ map sourceFileOf (combine sources contents).
Proof.
  induction sources as [|s sources IH]; intros fs contents acc fs' sourceFiles H;
    cbn [extractLoop] in H.
  - injection H as _ <-. by rewrite app_nil_r.
  - destruct contents as [|c contents].
    + apply IH in H. by destruct sources.
    + destruct (negb (fsOk e _)); [discriminate|].
      destruct (negb (fsOk e _)); [discriminate|].
      apply IH in H. subst sourceFiles. by rewrite <- app_assoc.
Qed.

(** X20.  A sourcemap pairs its sources with their contents by index.
    When [extractSourcesToTempDir] succeeds, the decoded map has at
    least one source and one content, the directory is
    sourcemaps/(hash of the URL) under the temp root, and the source
    files are, in order, the i-th source with the i-th content, for as
    many as both lists have; the path of each is the sanitized source
    path.  Sources beyond the contents are dropped. *)
Theorem extractSourcesToTempDir_pairs_by_index (e : Env) (fs : Files)
    (sourceMapContent jsURL : string) (fs' : Files) (tempDir : string)
    (sourceFiles : list SourceFile) :
  extractSourcesToTempDir e fs sourceMapContent jsURL
    = (fs', Some (tempDir, sourceFiles)) ->
  exists sourceMap,
    unmarshalSourceMap (jsonDecode e sourceMapContent) = Some sourceMap
    /\ tempDir = JoinPath [TempRoot e; "sourcemaps"; Sha256 e jsURL]
    /\ sourceFiles
       = map sourceFileOf (combine (Sources sourceMap) (SourcesContent sourceMap))
    /\ length sourceFiles
       = Nat.min (length (Sources sourceMap)) (length (SourcesContent sourceMap))
    /\ 1 <= length sourceFiles.
Proof.
  unfold extractSourcesToTempDir. intros H.
  destruct (unmarshalSourceMap _) as [sourceMap|]; [|discriminate].
  destruct (Nat.eqb_spec (length (Sources sourceMap)) 0) as [|Hs]; [discriminate|].
  destruct (Nat.eqb_spec (length (SourcesContent sourceMap)) 0) as [|Hc];
    [discriminate|].
  cbn [orb] in H. destruct (negb (fsOk e _)); [discriminate|].
  destruct (extractLoop e _ fs _ _ []) as [fs1 [l|]] eqn:E; [|discriminate].
  injection H as _ <- <-. apply extractLoop_pairs in E. cbn [app] in E. subst l.
  exists sourceMap. split; [reflexivity|]. split; [reflexivity|].
  split; [reflexivity|]. rewrite length_map, length_combine. split; [reflexivity|lia].
Qed.

Lemma extractSourcesToTempDir_pairs_by_index_witness :
  exists sourceMap,
    unmarshalSourceMap (jsonDecode offlineEnv bareMap) = Some sourceMap
    /\ "/tmp/sourcemaps/5e1f" = JoinPath [TempRoot offlineEnv; "sourcemaps";
                                           Sha256 offlineEnv bundleURL]
    /\ [mkSourceFile "a.js" "a.js" "x"]
       = map sourceFileOf (combine (Sources sourceMap) (SourcesContent sourceMap))
    /\ length [mkSourceFile "a.js" "a.js" "x"]
       = Nat.min (length (Sources sourceMap)) (length (SourcesContent sourceMap))
    /\ 1 <= length [mkSourceFile "a.js" "a.js" "x"].
Proof.
  apply (extractSourcesToTempDir_pairs_by_index offlineEnv bundleFiles bareMap bundleURL
           (<["/tmp/sourcemaps/5e1f/a.js" := "x"]> bundleFiles)).
  by vm_compute.
Defined.

End SourceFileFacts.

(** ** Prettify: the verdict of a job *)

Section PrettifyJobFacts.
Import Go Core Prettify.
Open Scope list_scope.

(** X21.  A Prettify job with a real record ends with one save of a
    verdict.  The record is saved exactly once.  Either it is marked
    failed and no file has changed; or the file of the job was replaced
    by the output of the prettifier, the record is marked processed
    and, when the file reads without error, its line_count is the
    number of lines of the prettified file, not of the original. *)
Theorem prettify_job_ends_with_one_verdict (e : Env) (workerID : Z) (rec : Record_)
    (path type : string) :
  Id rec <> "" ->
  exists rec' e',
    processJob e workerID (mkJob (Some rec) path type)
    = Done (mkResult (Some rec') [rec'] e')
    /\ ((rec' = Set_ "prettify_status" (AString "failed") rec /\ e' = e)
        \/ exists content pretty lines,
             path <> ""
             /\ files e !! path = Some content
             /\ runPrettifier e type content = Some pretty
             /\ e' = with_files (<[path := pretty]> (files e)) e
             /\ rec' = Set_ "last_modified" (ATime (now e))
                         (Set_ "prettify_status" (AString "processed")
                            (Set_ "line_count" (AInt lines) rec))
             /\ (readable (readScript e pretty) = true ->
                 lines = specLineCount (delivered (readScript e pretty)))).
Proof.
  intros Hid. apply String.eqb_neq in Hid. unfold processJob. cbn [FilePath JobRecord Type_].
  destruct (String.eqb_spec path "") as [Hp|Hp].
  { unfold markFailed, isRealRecord. rewrite Hid. cbn [negb].
    do 2 eexists. split; [reflexivity|]. by left. }
  destruct (prettifyFile e path type) as [e' [err|]] eqn:Ep.
  - cbn [deref bind]. unfold markFailed, isRealRecord. rewrite Hid. cbn [negb].
    do 2 eexists. split; [reflexivity|]. left. split; [reflexivity|].
    unfold prettifyFile in Ep. destruct (getPrettierBinaryPath e); [|by injection Ep].
    destruct (files e !! path); [|by injection Ep].
    destruct (runPrettifier e type _); [discriminate|by injection Ep].
  - unfold isRealRecord. rewrite Hid. cbn [negb].
    unfold prettifyFile in Ep. destruct (getPrettierBinaryPath e); [|discriminate].
    destruct (files e !! path) as [content|] eqn:Ef; [|discriminate].
    destruct (runPrettifier e type content) as [pretty|] eqn:Er; [|discriminate].
    injection Ep as <-.
    destruct (countLines _) as [lines cerr] eqn:Ec.
    do 2 eexists. split; [reflexivity|]. right. exists content, pretty, lines.
    split; [exact Hp|]. split; [reflexivity|]. split; [exact Er|].
    split; [reflexivity|]. split; [reflexivity|]. intros Hr.
    unfold openFile in Ec. cbn [files with_files readScript] in Ec.
    rewrite lookup_insert_eq in Ec. cbn [fmap option_fmap option_map] in Ec.
    unfold countLines in Ec.
    pose proof (countLoop_spec (readScript e pretty) [] Hr) as Hs. cbn in Hs.
    rewrite Hs in Ec. by injection Ec as <- _.
Qed.

Definition scriptEnv : Env :=
  mkEnv "/usr/local/bin/prettifier"
        {[ "/usr/local/bin/prettifier" := [];
           "/data/files/example.test/abc123/app.js" := [x61; x3b; x62] ]}
        (fun _ content => Some (flat_map (fun b => if Byte.eqb b x3b then [x3b; x0a]
                                                   else [b]) content))
        (fun content => [ReadEOF content]) 7.

Lemma prettify_job_ends_with_one_verdict_witness :
  exists rec' e',
    processJob scriptEnv 0
      (mkJob (Some bundleRecord) "/data/files/example.test/abc123/app.js" "js")
    = Done (mkResult (Some rec') [rec'] e')
    /\ Get rec' "line_count" = AInt 2.
Proof.
  destruct (prettify_job_ends_with_one_verdict scriptEnv 0 bundleRecord
              "/data/files/example.test/abc123/app.js" "js" ltac:(discriminate))
    as (rec' & e' & E & H).
  exists rec', e'. split; [exact E|].
  vm_compute in E. injection E as <- _. reflexivity.
Defined.

End PrettifyJobFacts.

(** ** Storage: where a script is written and where it is looked for *)

Section StorageFacts.
Import Filesystem Sourcemap Storage.
Open Scope list_scope.

Lemma Clean_reclean_all p :
  p <> [] -> isRooted (Clean p) = isRooted p /\ stackOf (Clean p) = stackOf p.
Proof.
  intros Hp. destruct (stackOf p) as [|top below] eqn:Es.
  - rewrite Clean_eq, Es by exact Hp. by destruct (isRooted p).
  - rewrite <- Es. apply Clean_reclean; [exact Hp|]. by rewrite Es.
Qed.

(** Cleaning a path first does not change what it resolves to once
    more elements are appended. *)
Lemma Clean_Clean_extend p q :
  p <> [] -> Clean (Clean p ++ slash :: q) = Clean (p ++ slash :: q).
Proof.
  intros Hp. destruct (Clean_reclean_all p Hp) as [Hr Hs].
  pose proof (Clean_nonempty p) as Hc.
  rewrite (Clean_eq (Clean p ++ slash :: q))
    by (destruct (Clean p); [contradiction|discriminate]).
  rewrite (Clean_eq (p ++ slash :: q)) by (destruct p; [contradiction|discriminate]).
  unfold stackOf. rewrite !isRooted_app by assumption.
  rewrite !Split_app_slash, !cleanElems_app, Hr. do 2 f_equal.
  unfold stackOf in Hs. by rewrite Hr in Hs.
Qed.

Lemma Join_pair a b : a <> [] -> Join [a; b] = Clean (a ++ slash :: b).
Proof.
  intros Ha. cbn [Join]. apply eqb_bytes_false in Ha. by rewrite Ha.
Qed.

(** The three joins of [SaveJSFile] give the path of the one join of
    [GetJSFilePath]. *)
Lemma Join_nested f d h n :
  d <> [] -> Join [Join [Join [f; d]; h]; n] = Join [f; d; h; n].
Proof.
  intros Hd.
  assert (exists X, X <> [] /\ Join [f; d] = Clean X
                    /\ Join [f; d; h; n] = Clean (X ++ slash :: h ++ slash :: n))
    as (X & HX & E1 & E2).
  { destruct f as [|c f].
    - exists d. split; [exact Hd|]. cbn [Join]. rewrite (proj2 (eqb_bytes_true [] [])) by done.
      apply eqb_bytes_false in Hd. rewrite Hd. by split.
    - exists ((c :: f) ++ slash :: d). split; [discriminate|].
      cbn [Join]. rewrite (proj2 (eqb_bytes_false (c :: f) [])) by discriminate.
      split; [reflexivity|]. cbn [JoinSlash]. by rewrite <- app_assoc. }
  rewrite E1, E2.
  rewrite (Join_pair (Clean X) h) by apply Clean_nonempty.
  rewrite (Clean_Clean_extend X h HX).
  rewrite (Join_pair (Clean (X ++ slash :: h)) n) by apply Clean_nonempty.
  rewrite Clean_Clean_extend by (destruct X; [contradiction|discriminate]).
  by rewrite <- app_assoc.
Qed.

Lemma toBytes_ofBytes b : toBytes (ofBytes b) = b.
Proof. apply list_ascii_of_string_of_list_ascii. Qed.

Lemma JoinPath_nested F d h n :
  d <> "" ->
  JoinPath [JoinPath [JoinPath [F; d]; h]; n] = JoinPath [F; d; h; n].
Proof.
  intros Hd. unfold JoinPath. cbn [map]. rewrite !toBytes_ofBytes. f_equal.
  apply Join_nested. intros E. apply Hd.
  rewrite <- (string_of_list_ascii_of_string d). unfold toBytes in E. by rewrite E.
Qed.

(** X22.  A script is written where [GetJSFilePath] looks for it,
    unless something else is in the way.  When [SaveJSFile] returns a
    hash, it is the hash of the content and [GetJSFilePath] gives a
    path for the URL and that hash.  If that path is not a directory
    and [os.Stat] can read it, a file is there after the call: the
    content just saved, or the file that was there already, which is
    left as it is.  If it is a directory (as for a URL that ends in
    [/.] or [/..], whose path is a directory the call has just made) or
    [os.Stat] fails on it, nothing is written and the hash is returned
    all the same.  No other file changes. *)
Theorem saved_script_is_where_GetJSFilePath_looks (e : Env) (d : Disk)
    (url content : string) (d' : Disk) (hash : string) :
  SaveJSFile e d url content = (d', hash) -> hash <> "" ->
  hash = Sha256 e content
  /\ exists path,
       GetJSFilePath e url hash = Some path
       /\ (path ∉ directories d' -> path ∉ unreadable d' ->
           regular d' !! path = Some (default content (regular d !! path)))
       /\ (path ∈ directories d' \/ path ∈ unreadable d' -> regular d' = regular d)
       /\ (forall p, p <> path -> regular d' !! p = regular d !! p).
Proof.
  unfold SaveJSFile, GetJSFilePath. intros H Hh.
  destruct (ExtractDomain e url) as [domain|] eqn:Ed; [|by injection H as _ <-].
  destruct (negb (fsOk e _)); [by injection H as _ <-|].
  destruct (GetFileNameFromUrl e url) as [filename|]; [|by injection H as _ <-].
  assert (domain <> "") as Hd.
  { intros ->. apply ExtractDomain_tidy in Ed as [Hl _]. cbn in Hl. lia. }
  set (dir := JoinPath [JoinPath [FilesPath e; domain]; Sha256 e content]) in *.
  set (stored := JoinPath [dir; filename]) in *.
  assert (JoinPath [FilesPath e; domain; Sha256 e content; filename] = stored) as Es.
  { unfold stored, dir. by rewrite JoinPath_nested. }
  unfold statNotExist in H.
  destruct (bool_decide_reflect (regular (MkdirAll dir d) !! stored = None)) as [Hreg|Hreg];
    destruct (bool_decide_reflect (stored ∉ directories (MkdirAll dir d))) as [Hdir|Hdir];
    destruct (bool_decide_reflect (stored ∉ unreadable (MkdirAll dir d))) as [Hun|Hun];
    cbn [andb] in H;
    try (destruct (negb (fsOk e stored)); [by injection H as _ <-|]);
    injection H as <- <-; (split; [reflexivity|]); exists stored;
    (split; [by rewrite Es|]); cbn [regular directories unreadable MkdirAll WriteFile] in *.
  - (* written *)
    split; [intros _ _; by rewrite Hreg, lookup_insert_eq|].
    split; [intros [Hin|Hin]; contradiction|].
    intros p Hp. by rewrite lookup_insert_ne.
  - split; [intros _ Hn; contradiction|]. by split.
  - split; [intros Hn _; contradiction|]. by split.
  - split; [intros Hn _; contradiction|]. by split.
  - split; [|by split]. intros _ _.
    destruct (regular d !! stored) eqn:Ef; [reflexivity|contradiction].
  - split; [intros _ Hn; contradiction|]. by split.
  - split; [intros Hn _; contradiction|]. by split.
  - split; [intros Hn _; contradiction|]. by split.
Qed.

Definition bundleDisk : Disk := mkDisk bundleFiles ∅ ∅.

Lemma saved_script_is_where_GetJSFilePath_looks_witness :
  exists d',
    SaveJSFile offlineEnv bundleDisk bundleURL "x()" = (d', "5e1f")
    /\ GetJSFilePath offlineEnv bundleURL "5e1f"
       = Some "/data/files/example.test/5e1f/app.js"
    /\ regular d' !! "/data/files/example.test/5e1f/app.js" = Some "x()".
Proof.
  destruct (SaveJSFile offlineEnv bundleDisk bundleURL "x()") as [d' hash] eqn:E.
  assert (hash = "5e1f") as -> by (vm_compute in E; by injection E as _ <-).
  assert ("5e1f" <> "") as Hn by discriminate.
  destruct (saved_script_is_where_GetJSFilePath_looks offlineEnv bundleDisk
              bundleURL "x()" d' "5e1f" E Hn) as (_ & path & Hp & Hat & _).
  assert (path = "/data/files/example.test/5e1f/app.js") as ->
    by (vm_compute in Hp; by injection Hp as <-).
  exists d'. split; [reflexivity|]. split; [exact Hp|].
  assert (d' = fst (SaveJSFile offlineEnv bundleDisk bundleURL "x()")) as ->
    by (by rewrite E).
  rewrite Hat.
  - vm_compute. reflexivity.
  - refine (bool_decide_unpack _ _). vm_compute. exact I.
  - refine (bool_decide_unpack _ _). vm_compute. exact I.
Defined.

(** A URL that ends in [/..]: the path [GetJSFilePath] gives is the
    directory of the domain, which the call makes; nothing is written
    and the hash is returned. *)
Definition dotsURL : string := "http://example.test/lib/..".
Definition dotsEnv : Env :=
  mkEnv (fun _ => None) (fun _ => None) (fun _ => None)
        (fun _ u => Some u) (fun u => Some u)
        (fun u => if String.eqb u dotsURL then Some "example.test" else None)
        (fun u => if String.eqb u dotsURL then Some "/lib/.." else None)
        (fun _ => "5e1f")
        "/data/files" "/tmp" (fun _ => true).

Example script_named_dots_is_not_written :
  GetJSFilePath dotsEnv dotsURL "5e1f" = Some "/data/files/example.test"
  /\ snd (SaveJSFile dotsEnv (mkDisk ∅ ∅ ∅) dotsURL "x()") = "5e1f"
  /\ regular (fst (SaveJSFile dotsEnv (mkDisk ∅ ∅ ∅) dotsURL "x()")) = ∅
  /\ "/data/files/example.test"
     ∈ directories (fst (SaveJSFile dotsEnv (mkDisk ∅ ∅ ∅) dotsURL "x()")).
Proof.
  split; [vm_compute; reflexivity|]. split; [vm_compute; reflexivity|].
  split; [vm_compute; reflexivity|].
  refine (bool_decide_unpack _ _). vm_compute. exact I.
Qed.

End StorageFacts.

(** ** Inline scripts *)

Section InlineFacts.
Import HTML Inline.
Open Scope list_scope.

(** Induction on a tree, with the children of an element at hand. *)
Lemma Node_children_ind (P : Node -> Prop) :
  (forall tag attrs children, Forall P children -> P (Element tag attrs children)) ->
  (forall data, P (Text data)) -> (forall data, P (Comment data)) ->
  (forall name attrs, P (Doctype name attrs)) ->
  forall n, P n.
Proof.
  intros HE HT HC HD.
  fix IH 1. intros [tag attrs children|data|data|name attrs];
    [|apply HT|apply HC|apply HD].
  apply HE. induction children as [|c cs IHcs]; constructor; [apply IH|exact IHcs].
Qed.

(** A node and the nodes below it, in document order. *)
Fixpoint descendants (n : Node) : list Node :=
  match n with
  | Element _ _ children => n :: flat_map descendants children
  | _ => [n]
  end.

Definition hasSrcAttr (attrs : list Attribute) : bool :=
  existsb (fun attr => String.eqb (Key attr) "src") attrs.

(** The script comes from a script element of [nodes] without [src]
    whose type, if it has one, is not turned down: its content is the
    trimmed text of that element. *)
Definition inlineOf (e : Env) (nodes : list Node) (script : InlineJS) : Prop :=
  exists attrs children,
    In (Element "script" attrs children) (flat_map descendants nodes)
    /\ hasSrcAttr attrs = false
    /\ notJavaScript (snd (scanAttrs e attrs "")) = false
    /\ Content script = TrimSpace e (textOf (Element "script" attrs children)).

(** The scripts carry the indexes [i], [i+1], ... in order. *)
Definition numberedFrom (i : Z) (scripts : list InlineJS) : Prop :=
  map Index scripts = map (fun k => (i + Z.of_nat k)%Z) (seq 0 (length scripts)).

Lemma map_seq_from {A : Type} (f : nat -> A) n a :
  map f (seq a n) = map (fun k => f (a + k)) (seq 0 n).
Proof.
  rewrite <- (Nat.add_0_r a) at 1. generalize 0 as b.
  induction n as [|n IH]; intros b; [reflexivity|]. cbn [seq map].
  f_equal. rewrite <- IH. do 2 f_equal. lia.
Qed.

Lemma numberedFrom_app i a b :
  numberedFrom i a -> numberedFrom (i + Z.of_nat (length a)) b -> numberedFrom i (a ++ b).
Proof.
  unfold numberedFrom. intros Ha Hb.
  rewrite map_app, length_app, seq_app, map_app, Ha, Hb. f_equal. cbn [Nat.add].
  rewrite (map_seq_from _ (length b) (length a)). apply map_ext. intros k. lia.
Qed.

Lemma scanAttrs_src e attrs : forall scriptType,
  fst (scanAttrs e attrs scriptType) = hasSrcAttr attrs.
Proof.
  induction attrs as [|a attrs IH]; intros t; [reflexivity|]. cbn [scanAttrs hasSrcAttr existsb].
  destruct (String.eqb (Key a) "src"); [reflexivity|].
  destruct (String.eqb (Key a) "type"); apply IH.
Qed.

(** What a traversal adds to the state. *)
Definition gains (e : Env) (nodes : list Node) (st st' : list InlineJS * Z) : Prop :=
  exists new,
    st' = (fst st ++ new, (snd st + Z.of_nat (length new))%Z)
    /\ numberedFrom (snd st) new
    /\ Forall (fun script => Content script <> "") new
    /\ Forall (inlineOf e nodes) new.

Lemma gains_refl e nodes st : gains e nodes st st.
Proof.
  exists []. destruct st as [acc i]. cbn. rewrite app_nil_r, Z.add_0_r.
  by repeat split.
Qed.

Lemma inlineOf_weaken e (a b : list Node) script :
  (forall x, In x (flat_map descendants a) -> In x (flat_map descendants b)) ->
  inlineOf e a script -> inlineOf e b script.
Proof.
  intros Hab (attrs & children & Hin & Hs & Ht & Hc). exists attrs, children.
  split; [by apply Hab|by repeat split].
Qed.

Lemma gains_trans e a b nodes st1 st2 st3 :
  (forall x, In x (flat_map descendants a) -> In x (flat_map descendants nodes)) ->
  (forall x, In x (flat_map descendants b) -> In x (flat_map descendants nodes)) ->
  gains e a st1 st2 -> gains e b st2 st3 -> gains e nodes st1 st3.
Proof.
  intros Ha Hb (n1 & -> & N1 & C1 & O1) (n2 & -> & N2 & C2 & O2). cbn [fst snd] in *.
  exists (n1 ++ n2). split; [|split; [|split]].
  - rewrite <- app_assoc, length_app. f_equal. lia.
  - by apply numberedFrom_app.
  - apply Forall_app. by split.
  - apply Forall_app. split; (eapply List.Forall_impl; [|eassumption]);
      intros script; by apply inlineOf_weaken.
Qed.

Lemma visit_gains e (children : list Node) :
  Forall (fun n => forall st, gains e [n] st (traverse e n st)) children ->
  forall st,
    gains e children st
      ((fix visit (cs : list Node) (st : list InlineJS * Z) : list InlineJS * Z :=
          match cs with
          | [] => st
          | child :: rest => visit rest (traverse e child st)
          end) children st).
Proof.
  induction 1 as [|c cs Hc _ IH]; intros st; [apply gains_refl|].
  apply (gains_trans e [c] cs (c :: cs) st (traverse e c st)); [| |apply Hc|apply IH].
  - intros x Hx. cbn [flat_map] in *. rewrite app_nil_r in Hx. apply in_or_app. by left.
  - intros x Hx. cbn [flat_map]. apply in_or_app. by right.
Qed.

Lemma traverse_gains e n : forall st, gains e [n] st (traverse e n st).
Proof.
  induction n as [tag attrs children IH|data|data|name attrs] using Node_children_ind;
    intros st; try apply gains_refl.
  cbn [traverse].
  assert (forall st0,
            gains e [Element tag attrs children] st0
              ((fix visit (cs : list Node) (st : list InlineJS * Z)
                  : list InlineJS * Z :=
                  match cs with
                  | [] => st
                  | child :: rest => visit rest (traverse e child st)
                  end) children st0)) as Hvisit.
  { intros st0. pose proof (visit_gains e children IH st0) as (new & E & N & C & O).
    exists new. split; [exact E|]. split; [exact N|]. split; [exact C|].
    eapply List.Forall_impl; [|exact O]. intros script. apply inlineOf_weaken.
    intros x Hx. cbn [flat_map descendants]. rewrite app_nil_r. by right. }
  destruct (String.eqb_spec tag "script") as [->|_]; [|apply Hvisit].
  destruct (scanAttrs e attrs "") as [hasSrc scriptType] eqn:Es.
  assert (hasSrc = hasSrcAttr attrs) as Hsrc.
  { rewrite <- (scanAttrs_src e attrs ""). by rewrite Es. }
  destruct hasSrc; [apply gains_refl|].
  destruct (notJavaScript scriptType) eqn:Et; [apply gains_refl|].
  set (scriptContent := TrimSpace e (textOf (Element "script" attrs children))).
  destruct (String.eqb_spec scriptContent "") as [_|Hne]; cbn [negb]; [apply Hvisit|].
  set (js := mkInlineJS scriptContent (snd st)).
  apply (gains_trans e [Element "script" attrs children] [Element "script" attrs children]
           [Element "script" attrs children] st (fst st ++ [js], (snd st + 1)%Z));
    [done|done| |apply Hvisit].
  exists [js]. split; [reflexivity|]. split; [|split].
  - unfold numberedFrom. cbn. f_equal. lia.
  - by constructor.
  - constructor; [|constructor]. exists attrs, children.
    split; [cbn [flat_map descendants]; by left|]. rewrite Es. by repeat split.
Qed.

Lemma traverseAll_gains e doc : forall st, gains e doc st (traverseAll e doc st).
Proof.
  unfold traverseAll. induction doc as [|n doc IH]; intros st; [apply gains_refl|].
  cbn [fold_left].
  apply (gains_trans e [n] doc (n :: doc) st (traverse e n st));
    [| |apply traverse_gains|apply IH].
  - intros x Hx. cbn [flat_map] in *. rewrite app_nil_r in Hx. apply in_or_app. by left.
  - intros x Hx. cbn [flat_map]. apply in_or_app. by right.
Qed.

(** X23.  Inline scripts are numbered without gaps.  The scripts
    [ExtractInlineJavaScript] returns carry the indexes 1, 2, ... in
    document order; each has a non-empty content, which is the trimmed
    text of a script element of the page that has no src attribute and
    no type that is turned down.  A script element with src, with a
    type that is not a JavaScript one, or with nothing but white space
    gets no index. *)
Theorem inline_scripts_are_numbered_from_one (e : Env) (htmlContent baseURL : string)
    (scripts : list InlineJS) :
  ExtractInlineJavaScript e htmlContent baseURL = Some scripts ->
  map Index scripts = map (fun k => Z.of_nat (S k)) (seq 0 (length scripts))
  /\ Forall (fun script => Content script <> "") scripts
  /\ exists doc, Parse e htmlContent = Some doc /\ Forall (inlineOf e doc) scripts.
Proof.
  unfold ExtractInlineJavaScript. destruct (Parse e htmlContent) as [doc|]; [|discriminate].
  intros [= <-]. destruct (traverseAll_gains e doc ([], 1%Z)) as (new & -> & N & C & O).
  cbn [fst app]. split; [|split; [exact C|by exists doc]].
  unfold numberedFrom in N. cbn [snd] in N. rewrite N. apply map_ext. intros k. lia.
Qed.

Definition inlinePage : string :=
  "<html><script src=/a.js></script><script> x() </script><script type=text/css>p{}</script><script>y()</script></html>".
Definition inlineTree : list Node :=
  [Element "html" []
     [Element "script" [mkAttr "" "src" "/a.js"] [];
      Element "script" [] [Text " x() "];
      Element "script" [mkAttr "" "type" "text/css"] [Text "p{}"];
      Element "script" [] [Text "y()"]]].

Definition inlineEnv : Env :=
  mkEnv (fun html => if String.eqb html inlinePage then Some inlineTree else None)
        HTML.TrimSpace (fun s => s).

Lemma inline_scripts_are_numbered_from_one_witness :
  ExtractInlineJavaScript inlineEnv inlinePage "http://example.test/"
  = Some [mkInlineJS "x()" 1; mkInlineJS "y()" 2]
  /\ map Index [mkInlineJS "x()" 1; mkInlineJS "y()" 2]
     = map (fun k => Z.of_nat (S k)) (seq 0 2).
Proof.
  assert (ExtractInlineJavaScript inlineEnv inlinePage "http://example.test/"
          = Some [mkInlineJS "x()" 1; mkInlineJS "y()" 2]) as E
    by (vm_compute; reflexivity).
  split; [exact E|].
  exact (proj1 (inline_scripts_are_numbered_from_one inlineEnv inlinePage
                  "http://example.test/" _ E)).
Defined.

End InlineFacts.

(** ** NormalizeURL *)

Section NormalizeFacts.
Import Strings URL.
Open Scope list_scope.

Lemma prefix_split (p s : string) :
  String.prefix p s = true -> exists r, s = (p ++ r)%string.
Proof.
  revert s. induction p as [|c p IH]; intros s H; [by exists s|].
  destruct s as [|d s]; [discriminate|]. cbn in H.
  destruct (ascii_dec c d) as [->|]; [|discriminate].
  destruct (IH s H) as [r ->]. by exists r.
Qed.

Lemma NormalizeURL_absolute scriptURL baseURL :
  HasPrefix scriptURL "http" = true -> NormalizeURL scriptURL baseURL = scriptURL.
Proof. intros H. unfold NormalizeURL. by rewrite H. Qed.

Lemma SplitN_web (scheme rest : string) :
  scheme = "http:" \/ scheme = "https:" ->
  exists part2 more,
    SplitN (scheme ++ "//" ++ rest)%string 4 = scheme :: "" :: part2 :: more.
Proof.
  intros [-> | ->].
  - change (SplitN ("http:" ++ "//" ++ rest)%string 4)
      with ("http:" :: "" :: match cutAt "/"%char rest with
                             | None => [rest]
                             | Some (before, after) => [before; after]
                             end).
    destruct (cutAt "/"%char rest) as [[before after]|]; eauto.
  - change (SplitN ("https:" ++ "//" ++ rest)%string 4)
      with ("https:" :: "" :: match cutAt "/"%char rest with
                              | None => [rest]
                              | Some (before, after) => [before; after]
                              end).
    destruct (cutAt "/"%char rest) as [[before after]|]; eauto.
Qed.

Lemma web_base baseURL :
  HasPrefix baseURL "http://" = true \/ HasPrefix baseURL "https://" = true ->
  exists scheme rest,
    (scheme = "http:" \/ scheme = "https:") /\ baseURL = (scheme ++ "//" ++ rest)%string.
Proof.
  intros [H|H]; apply prefix_split in H as [r ->].
  - exists "http:", r. split; [by left|reflexivity].
  - exists "https:", r. split; [by right|reflexivity].
Qed.

Lemma SplitN_host (scheme host path : string) :
  scheme = "http:" \/ scheme = "https:" ->
  ~ In "/"%char (list_ascii_of_string host) ->
  SplitN (scheme ++ "//" ++ host ++ String "/"%char path)%string 4
  = [scheme; ""; host; path].
Proof.
  intros Hs Hhost.
  assert (SplitN (host ++ String "/"%char path)%string 2 = [host; path]) as E.
  { cbn [SplitN]. by rewrite cutAt_first. }
  destruct Hs as [-> | ->].
  - change (SplitN ("http:" ++ "//" ++ host ++ String "/"%char path)%string 4)
      with ("http:" :: "" :: SplitN (host ++ String "/"%char path)%string 2).
    by rewrite E.
  - change (SplitN ("https:" ++ "//" ++ host ++ String "/"%char path)%string 4)
      with ("https:" :: "" :: SplitN (host ++ String "/"%char path)%string 2).
    by rewrite E.
Qed.

(** X24.  Against the URL of a web page, [NormalizeURL] gives an
    absolute URL.  For a base that starts with http:// or https://, the
    result starts with http whatever the script URL is, so normalising
    it again changes nothing; and a root-relative script URL (one
    slash, not two) is put behind the scheme and the host of the base,
    the path of the base being dropped. *)
Theorem NormalizeURL_gives_absolute_url (scriptURL baseURL : string) :
  HasPrefix baseURL "http://" = true \/ HasPrefix baseURL "https://" = true ->
  HasPrefix (NormalizeURL scriptURL baseURL) "http" = true
  /\ NormalizeURL (NormalizeURL scriptURL baseURL) baseURL
     = NormalizeURL scriptURL baseURL
  /\ forall scheme host path,
       scheme = "http:" \/ scheme = "https:" ->
       baseURL = (scheme ++ "//" ++ host ++ String "/"%char path)%string ->
       ~ In "/"%char (list_ascii_of_string host) ->
       HasPrefix scriptURL "/" = true -> HasPrefix scriptURL "//" = false ->
       NormalizeURL scriptURL baseURL = (scheme ++ "//" ++ host ++ scriptURL)%string.
Proof.
  intros Hbase.
  assert (HasPrefix (NormalizeURL scriptURL baseURL) "http" = true) as Habs.
  { destruct (web_base baseURL Hbase) as (scheme & rest & Hs & ->).
    unfold NormalizeURL.
    destruct (HasPrefix scriptURL "http") eqn:E1; [exact E1|]. cbn [negb].
    destruct (HasPrefix scriptURL "//").
    { by destruct (HasPrefix _ "https"). }
    destruct (HasPrefix scriptURL "/").
    { destruct (SplitN_web scheme rest Hs) as (part2 & more & ->).
      by destruct Hs as [-> | ->]. }
    destruct Hs as [-> | ->].
    - destruct (HasSuffix _ "/") eqn:E; [|reflexivity].
      unfold TrimSuffix. rewrite E. reflexivity.
    - destruct (HasSuffix _ "/") eqn:E; [|reflexivity].
      unfold TrimSuffix. rewrite E. reflexivity. }
  split; [exact Habs|]. split; [by apply NormalizeURL_absolute|].
  intros scheme host path Hs -> Hhost Hroot Hproto.
  unfold NormalizeURL. rewrite Hproto, Hroot.
  destruct (HasPrefix scriptURL "http") eqn:E1.
  { apply prefix_split in E1 as [r ->]. discriminate Hroot. }
  cbn [negb]. by rewrite SplitN_host.
Qed.

Lemma NormalizeURL_gives_absolute_url_witness :
  HasPrefix (NormalizeURL "/static/app.js" "https://shop.example/cart/view") "http" = true
  /\ NormalizeURL (NormalizeURL "/static/app.js" "https://shop.example/cart/view")
       "https://shop.example/cart/view"
     = NormalizeURL "/static/app.js" "https://shop.example/cart/view"
  /\ NormalizeURL "/static/app.js" "https://shop.example/cart/view"
     = "https://shop.example/static/app.js".
Proof.
  assert (HasPrefix "https://shop.example/cart/view" "http://" = true
          \/ HasPrefix "https://shop.example/cart/view" "https://" = true) as Hbase
    by (right; vm_compute; reflexivity).
  pose proof (NormalizeURL_gives_absolute_url "/static/app.js"
                "https://shop.example/cart/view" Hbase) as (H1 & H2 & H3).
  split; [exact H1|]. split; [exact H2|].
  assert ("https:" = "http:" \/ "https:" = "https:") as Hs by (right; reflexivity).
  assert (~ In "/"%char (list_ascii_of_string "shop.example")) as Hhost.
  { vm_compute. intros H.
    repeat (destruct H as [H|H]; [discriminate H|]). exact H. }
  exact (H3 "https:" "shop.example" "cart/view" Hs eq_refl Hhost eq_refl eq_refl).
Defined.

End NormalizeFacts.
